(* ===== verification/_CoqProject ===== *)
-Q . S2P
Prelude.v
Chars.v
Types.v
Config.v
Wal.v
OutCall.v
Server.v
Store.v
Steps.v
Protocol.v
Acceptor.v
Ledger.v
Sync.v
Typed.v
Logging.v
Calls.v
ServerMain.v
Network.v
Replication.v
Agreement.v
Round.v
Progress.v
Laggard.v
Client.v
System.v
Atomic.v
SysRound.v
Bank.v
Opening.v
Commands.v
Csv.v
Process.v
Driver.v
Launch.v
