(* ===== verification/Prelude.v ===== *)
(** * The two-phase-commit bank

    A sharded, replicated bank.  Nine servers form three clusters; a cluster
    replicates the accounts of a thousand clients.  A payment inside a
    cluster is decided by a Paxos variant among its three servers; a payment
    between clusters is decided by two-phase commit between the clusters,
    each of which runs Paxos on its own half, with the driver's client as
    coordinator.  This library translates the C++ sources and proves what
    they guarantee and where they do not.

    ** The program and the files

    Paths are relative to [src/] of the repository.

    - [Prelude] (this file): functional record update, machine integers,
      the error type, ordered maps by a boolean order, generic lemmas.
    - [Chars]: [std::string], [std::to_string], [std::stoi], the stream
      operators and [std::getline], as the sources use them.
    - [Types]: [types/types.h] and the messages of [proto/tpc.proto].
    - [Config]: [constants.h] and [utils/utils.cc] (shard mapping in
      binary64, [setupApplicationState]).
    - [Wal]: class [WAL] of [server/wal.cc]: the text file, the index of
      prepared transactions, and the abstract map it implements.
    - [OutCall]: [server/out_call.cc].
    - [Server]: class [ServerImpl] of [server/server.cc]: the state and one
      definition per handler, the constructor and the set-up of [run].
      [Store] is a finite-map instance of its key-value store.
    - [Steps]: the events of one server, [server_exec], and the states it can
      reach.  [Protocol] (proposer), [Acceptor], [Ledger] (accounts, log,
      store), [Sync], [Typed] (field ranges) and [Logging] (who may log what)
      are the theorems about one server.
    - [Calls]: class [InCall] of [server/in_call.cc], the dispatch of replies
      and the event loop [HandleRPCs].  [ServerMain]: [RunServer] and [main].
    - [Network]: several servers and the packets between them, one event at a
      time ([net_exec]).  [Replication] is the invariant of a cluster under
      one leader, [Agreement] its consequences.  [Round] is one round of
      [runPaxos] seen from the leader and a follower, [Progress] the liveness
      of a cluster that follows from it, [Laggard] a replica that has missed
      a payment.
    - [Client]: the coordinator, [client/client.cc].  [System]: coordinator,
      servers and all RPCs ([sys_exec]).  [Atomic]: atomicity of two-phase
      commit over the whole bank.
    - [SysRound]: a round and a decision as steps of [sys_exec].  [Bank]: the
      abstract books of the bank (a balance per client; a ballot and a log
      per cluster) and the schedule that serves a transaction.  [Opening]:
      the servers of a deployment that has just started are in step with the
      opening books, and the theorem that the bank serves its books.
    - [Commands], [Csv]: [utils/commands_parser.cc], [utils/csv_reader.cc].
    - [Process]: [startAllServers] and [killAllServers].  [Driver]:
      [driver.cc].  [Launch]: the driver's children become server processes.

    A definition has the name of the C++ function it translates.  A handler
    takes the server's state and the request and returns the new state, the
    response and the RPCs sent.  [Server] is the record of the members of
    [ServerImpl] with the constants of the process.

    ** What the theorems show

    - The whole bank: with any one server of every cluster down, every
      sequence of payments, inside clusters and between them, covered or
      not, is served to the end, and logs, ballots and balances are those of
      the abstract books ([Opening]).  Whatever fails, a cross-shard
      transaction is never committed at one server and aborted at another,
      and never committed unless both leaders prepared it ([Atomic]); the
      coordinator sends one decision, commit only after two positive votes
      ([Client]).
    - A cluster: under one leader every log is a prefix of the leader's, an
      acknowledged payment is held by two servers ([Agreement]), and with one
      server down every affordable sequence of payments is committed
      ([Progress]).  A replica that has missed a payment synchronises in every
      round and votes in none while payments go on ([Laggard]).  Without these conditions the code diverges: two leaders,
      or a commit message that a synchronisation overtakes ([Network]).
    - A server: the control invariant of [runPaxos], when it sends accept and
      commit messages and what its answers mean ([Protocol]); the exact
      behaviour of the acceptor's handlers, kept promises ([Acceptor]);
      balances are the replay of the log, the store holds the balances,
      payments conserve money ([Ledger]); what synchronisation achieves and
      where it applies an entry twice ([Sync]); all fields keep their C++
      types ([Typed]).
    - The write-ahead log implements a map of undecided transactions on any
      usable file ([Wal]).
    - The event loop only reaches states the handlers reach; every RPC has
      exactly one listening call object and one reply ([Calls]).
    - The driver: the command language, the CSV round trip and the end of
      reading, a turn of the loop, how the loop and [main] end, and the bank
      it starts ([Commands], [Csv], [Driver], [Launch]).

    ** Modelling choices

    - Integers are [Z]; every signed sum and difference is wrapped at its
      width ([wrap32], [wrap64]).  Overflow is undefined in C++; the wrapped
      value is what the compiled code computes.
    - Uninitialised locals that the WAL can return are the class
      [Indeterminate]; theorems hold for every value of it.
    - LevelDB is the class [KVStore] with its documented laws
      ([KVStoreLaws]): an ok write is visible and touches no other key.
    - gRPC is the environment.  A call completes at most once, with the
      peer's reply or with an error or deadline status; packets are lost,
      reordered and delayed freely.  A call through a missing stub is a null
      dereference: no state follows it.
    - Handlers are atomic, as in the source, where one thread runs
      [HandleRPCs].  The coordinator's two threads (the loop of the driver
      and [consumeReplies]) share [processing] without a lock; the model
      interleaves them between operations only.
    - The coordinator's sum of durations, a [double], is kept as the list of
      its addends; its rendering is a parameter.
    - What follows the erasure of the iterator's element in [killAllServers]
      is undefined behaviour and is answered by the environment.

    ** Conditions of the distributed theorems

    - [Agreement], [Progress], [Laggard]: freshly started servers (or idle ones that
      agree); payments are asked of one server of the cluster and stay in the
      cluster; [Agreement] excludes the delivery of synchronisation replies.
      [Network] shows runs that violate agreement without the conditions.
    - [Opening]: clusters of three, the coordinator starts a transaction when
      the one before is over, the messages of the servers that are down are
      lost and the others arrive.  The transaction ids are not -1.
    - [Atomic]: the transaction id is neither -1 nor 0 (the values the code
      uses for none and for an empty reply), and it is started once.
      Everything else may happen: several leaders, synchronisation, failing
      RPCs, other transactions.

    ** Fuel

    Recursion that is not structural carries fuel: twenty digits for printed
    integers (a 64-bit integer has nineteen); the length of the text plus one
    for the loops of the CSV reader and of the tokenizer, each turn of which
    consumes a character ([Csv.reading_ends] and [Commands.tokenize_fuel]
    prove that more fuel changes nothing).  The fuel of [mainloop] is the number of turns observed.

    ** Not modelled

    The CMake files, the generated RPC code, the submodules LevelDB and
    spdlog, the log output, the Python tests; the signal handler, which
    [main] installs only after the event loop; data races between the
    coordinator's threads inside one operation.

    ** Further work

    Agreement with synchronisation replies under the condition that no commit
    message is overtaken; the books with several transactions in flight and
    changing leaders; the refinement of [net_exec] by the event loops of the servers, call object by call
    object. *)
From stdpp Require Import gmap list fin_maps sorting.
From Stdlib Require Import ZArith Lia Ascii String.

#[global] Open Scope Z_scope.

(** ** Functional record update

    [r <| f ::= g |>] applies [g] to the field [f] of the record [r] and
    [r <| f := v |>] overwrites it.  A record type opts in by giving its eta
    expansion as a [Settable] instance; the updater of a projection is then
    computed by abstracting that projection in the eta expansion. *)

Class Settable (R : Type) := eta : R -> R.
Class Updater {R T : Type} (proj : R -> T) := upd : (T -> T) -> R -> R.
Arguments upd {R T} proj {_} _ _.

Ltac derive_updater p :=
  lazymatch type of p with
  | ?R -> ?T =>
    let i := constr:(_ : Settable R) in
    let e := eval hnf in i in
    lazymatch eval pattern p in e with
    | ?k _ => exact (fun (g : T -> T) (r : R) => k (fun r' => g (p r')) r)
    end
  end.

#[export] Hint Extern 0 (Updater ?p) => derive_updater p : typeclass_instances.

Declare Scope record_scope.
Delimit Scope record_scope with record.
Notation "r <| f ::= g |>" := (upd f g r)
  (at level 1, f at next level, left associativity) : record_scope.
Notation "r <| f := v |>" := (upd f (fun _ => v) r)
  (at level 1, f at next level, left associativity) : record_scope.
#[global] Open Scope record_scope.

(** ** C++ machine integers

    [int] is 32 bits and [long] (and [int64]) 64 bits, two's complement.
    Signed overflow is undefined in C++; the wrapped value written here is
    what the compiled code computes, and the bounds theorems of the library
    say where no wrap can happen. *)

Definition wrap (w z : Z) : Z := (z + 2 ^ (w - 1)) mod 2 ^ w - 2 ^ (w - 1).
Definition wrap32 (z : Z) : Z := wrap 32 z.
Definition wrap64 (z : Z) : Z := wrap 64 z.

Definition in_int (z : Z) : Prop := - 2 ^ 31 <= z < 2 ^ 31.
Definition in_long (z : Z) : Prop := - 2 ^ 63 <= z < 2 ^ 63.

#[export] Instance in_int_dec z : Decision (in_int z).
Proof. unfold in_int. apply _. Defined.
#[export] Instance in_long_dec z : Decision (in_long z).
Proof. unfold in_long. apply _. Defined.

Lemma wrap32_id z : in_int z -> wrap32 z = z.
Proof.
  unfold in_int, wrap32, wrap. intros H.
  rewrite Z.mod_small; lia.
Qed.

Lemma wrap32_range z : in_int (wrap32 z).
Proof.
  unfold in_int, wrap32, wrap.
  pose proof (Z.mod_pos_bound (z + 2 ^ (32 - 1)) (2 ^ 32) eq_refl). lia.
Qed.

(** Wrapping is computing modulo [2^32]: any sum of wrapped values can be
    compared through its residue. *)
Lemma wrap32_mod z : wrap32 z mod 2 ^ 32 = z mod 2 ^ 32.
Proof.
  unfold wrap32, wrap.
  rewrite Zminus_mod_idemp_l. f_equal. lia.
Qed.

Lemma wrap32_eq_mod a b : a mod 2 ^ 32 = b mod 2 ^ 32 -> wrap32 a = wrap32 b.
Proof.
  unfold wrap32, wrap. intros H.
  rewrite (Z.add_mod a), (Z.add_mod b), H by lia. reflexivity.
Qed.

Lemma wrap32_add_l a b : wrap32 (wrap32 a + b) = wrap32 (a + b).
Proof.
  apply wrap32_eq_mod. rewrite <- (Zplus_mod_idemp_l (wrap32 a)), wrap32_mod.
  apply Zplus_mod_idemp_l.
Qed.

Lemma wrap32_sub_l a b : wrap32 (wrap32 a - b) = wrap32 (a - b).
Proof. rewrite <- !Z.add_opp_r. apply wrap32_add_l. Qed.

Lemma wrap32_idemp a : wrap32 (wrap32 a) = wrap32 a.
Proof. apply wrap32_id, wrap32_range. Qed.

(** ** Exceptions

    The exceptions the program can raise, and the error monad of the code
    that can raise them. *)

Inductive exn :=
| invalid_argument
| out_of_range
| runtime_error.

#[export] Instance exn_eq_dec : EqDecision exn.
Proof. solve_decision. Defined.

Inductive result (A : Type) :=
| Ok (a : A)
| Throw (e : exn).
Arguments Ok {A} a.
Arguments Throw {A} e.

#[export] Instance result_eq_dec {A} `{EqDecision A} : EqDecision (result A).
Proof. solve_decision. Defined.

Definition rbind {A B} (m : result A) (k : A -> result B) : result B :=
  match m with
  | Ok a => k a
  | Throw e => Throw e
  end.

Declare Scope result_scope.
Delimit Scope result_scope with result.
Notation "'let!' x ':=' m 'in' k" := (rbind m (fun x => k))
  (at level 10, x pattern, m at level 200, k at level 200) : result_scope.
#[global] Open Scope result_scope.

Lemma rbind_ok {A B} (m : result A) (k : A -> result B) b :
  rbind m k = Ok b <-> exists a, m = Ok a /\ k a = Ok b.
Proof. destruct m; cbn; naive_solver. Qed.

(** ** Ordered maps

    [std::map] with its iteration order: a list of bindings with strictly
    increasing keys.  The order is a class, so that the laws are proved once
    for the integer and the string keys the program uses. *)

Class StrictOrderB {K : Type} (ltb : K -> K -> bool) : Prop := {
  ltb_irrefl k : ltb k k = false;
  ltb_trans a b c : ltb a b = true -> ltb b c = true -> ltb a c = true;
  ltb_total a b : ltb a b = false -> ltb b a = false -> a = b
}.

#[export] Instance Zltb_strict : StrictOrderB Z.ltb.
Proof. split; intros; lia. Qed.

Section OrderedMap.
Context {K V : Type} (ltb : K -> K -> bool) `{!StrictOrderB ltb}.

Fixpoint omap_set (k : K) (v : V) (m : list (K * V)) : list (K * V) :=
  match m with
  | [] => [(k, v)]
  | (k', v') :: m' =>
    if ltb k k' then (k, v) :: m
    else if ltb k' k then (k', v') :: omap_set k v m'
    else (k, v) :: m'
  end.

Fixpoint omap_get (k : K) (m : list (K * V)) : option V :=
  match m with
  | [] => None
  | (k', v') :: m' =>
    if ltb k k' then None
    else if ltb k' k then omap_get k m'
    else Some v'
  end.

Definition omap_lt (a b : K * V) : Prop := ltb a.1 b.1 = true.
Definition omap_sorted (m : list (K * V)) : Prop := StronglySorted omap_lt m.

Lemma ltb_asym a b : ltb a b = true -> ltb b a = false.
Proof.
  intros H. destruct (ltb b a) eqn:E; [|done].
  pose proof (ltb_trans _ _ _ H E). by rewrite ltb_irrefl in H0.
Qed.

Lemma omap_get_set_eq k v m : omap_get k (omap_set k v m) = Some v.
Proof.
  induction m as [|[k' v'] m IH]; cbn.
  - by rewrite ltb_irrefl.
  - destruct (ltb k k') eqn:E1; cbn; [by rewrite ltb_irrefl|].
    destruct (ltb k' k) eqn:E2; cbn; [by rewrite E1, E2|by rewrite ltb_irrefl].
Qed.

Lemma omap_get_set_ne k k' v m : k <> k' -> omap_get k (omap_set k' v m) = omap_get k m.
Proof.
  intros Hne. induction m as [|[k2 v2] m IH]; cbn.
  - destruct (ltb k k') eqn:E1; [done|]. destruct (ltb k' k) eqn:E2; [done|].
    exfalso. apply Hne. by apply ltb_total.
  - destruct (ltb k' k2) eqn:E1; cbn.
    + destruct (ltb k k') eqn:E2; cbn.
      * by rewrite (ltb_trans _ _ _ E2 E1).
      * destruct (ltb k' k) eqn:E3; [done|]. exfalso. by apply Hne, ltb_total.
    + destruct (ltb k2 k') eqn:E2; cbn; [by rewrite IH|].
      assert (k' = k2) as -> by (by apply ltb_total).
      destruct (ltb k k2) eqn:E3; [done|]. destruct (ltb k2 k) eqn:E4; [done|].
      exfalso. by apply Hne, ltb_total.
Qed.

Lemma omap_set_Forall (P : K * V -> Prop) k v m :
  P (k, v) -> Forall P m -> Forall P (omap_set k v m).
Proof.
  intros Hkv Hm. induction Hm as [|[k' v'] m Hx Hm IH]; cbn; [by constructor|].
  destruct (ltb k k'); [by repeat constructor|].
  destruct (ltb k' k); by constructor.
Qed.

Lemma omap_set_sorted k v m : omap_sorted m -> omap_sorted (omap_set k v m).
Proof.
  unfold omap_sorted. induction 1 as [|[k' v'] m Hm IH Hx]; cbn; [by repeat constructor|].
  destruct (ltb k k') eqn:E1.
  - constructor; [by constructor|]. constructor; [done|].
    eapply Forall_impl; [exact Hx|]. intros [k2 v2] H2. exact (ltb_trans _ _ _ E1 H2).
  - destruct (ltb k' k) eqn:E2.
    + constructor; [done|]. by apply omap_set_Forall.
    + assert (k = k') as -> by (by apply ltb_total). by constructor.
Qed.

(** Looking a key up and finding its binding in the iteration agree. *)
Lemma omap_get_elem k v m : omap_sorted m -> omap_get k m = Some v <-> (k, v) ∈ m.
Proof.
  unfold omap_sorted. induction 1 as [|[k' v'] m Hm IH Hx]; cbn.
  - rewrite elem_of_nil. naive_solver.
  - rewrite elem_of_cons. rewrite Forall_forall in Hx.
    destruct (ltb k k') eqn:E1.
    + split; [done|]. intros [[= -> ->]|Hin]; [by rewrite ltb_irrefl in E1|].
      specialize (Hx _ Hin). unfold omap_lt in Hx; cbn in Hx.
      by rewrite (ltb_asym _ _ Hx) in E1.
    + destruct (ltb k' k) eqn:E2.
      * rewrite IH. split; [by right|]. intros [[= -> ->]|]; [|done].
        by rewrite E1 in E2.
      * assert (k = k') as -> by (by apply ltb_total). split; [intros [= ->]; by left|].
        intros [[= ->]|Hin]; [done|]. specialize (Hx _ Hin).
        unfold omap_lt in Hx; cbn in Hx. by rewrite ltb_irrefl in Hx.
Qed.

Lemma omap_sorted_NoDup m : omap_sorted m -> NoDup m.*1.
Proof.
  unfold omap_sorted. induction 1 as [|[k v] m Hm IH Hx]; cbn; constructor; [|done].
  intros [[k' v'] [-> Hin]]%list_elem_of_fmap. rewrite Forall_forall in Hx.
  specialize (Hx _ Hin). unfold omap_lt in Hx; cbn in Hx. by rewrite ltb_irrefl in Hx.
Qed.

End OrderedMap.

(** Two maps with the same keys in the same order keep them when both are
    given the same key. *)
Lemma omap_set_keys {K V W} (ltb : K -> K -> bool) k (v : V) (w : W) m1 m2 :
  m1.*1 = m2.*1 -> (omap_set ltb k v m1).*1 = (omap_set ltb k w m2).*1.
Proof.
  revert m2. induction m1 as [|[k1 v1] m1 IH]; intros [|[k2 w2] m2]; try done. intros [= -> Hm].
  cbn. destruct (ltb k k2); cbn; [by f_equal; f_equal|]. destruct (ltb k2 k); cbn; f_equal; [by apply IH|done].
Qed.


(** ** Loops

    A loop whose body keeps a view of the state keeps it; one whose body
    keeps an invariant keeps it. *)

Lemma foldl_frame {S A V : Type} (view : S -> V) (f : S -> A -> S) l s :
  (forall s a, view (f s a) = view s) -> view (foldl f s l) = view s.
Proof. intros Hf. revert s. induction l as [|a l IH]; intros s; [done|]. cbn. by rewrite IH. Qed.

Lemma foldl_inv {S A : Type} (P : S -> Prop) (Q : A -> Prop) (f : S -> A -> S) l s :
  (forall s a, Q a -> P s -> P (f s a)) -> Forall Q l -> P s -> P (foldl f s l).
Proof. intros Hf Hl. revert s. induction Hl as [|a l Ha Hl IH]; intros s Hs; [done|]. cbn. auto. Qed.
