(* ===== verification/Chars.v ===== *)
(** * Characters, [std::string] and the stream operations the program uses

    A [std::string] is a [list ascii].  The file defines the standard-library
    operations the sources call: [std::to_string] and [operator<<] on
    integers, [std::stoi], [std::getline], [operator>>] on strings and
    integers (with the stream's fail state), and the ordering of strings, and
    proves that printed integers are read back. *)
From stdpp Require Import gmap list strings.
From Stdlib Require Import ZArith Lia Ascii.
From S2P Require Import Prelude.

Abbreviation std_string := (list ascii).

(** A string literal of the source. *)
Definition str (s : string) : std_string := String.list_ascii_of_string s.

Definition newline : ascii := ascii_of_nat 10.
Definition return_char : ascii := ascii_of_nat 13.
Definition quote : ascii := ascii_of_nat 34.

(** [std::isspace] in the C locale. *)
Definition is_space (c : ascii) : bool :=
  let n := nat_of_ascii c in ((n =? 32) || ((9 <=? n) && (n <=? 13)))%nat.

Definition is_digit (c : ascii) : bool :=
  let n := nat_of_ascii c in ((48 <=? n) && (n <=? 57))%nat.

Definition digit_val (c : ascii) : Z := Z.of_nat (nat_of_ascii c) - 48.
Definition digit_char (d : Z) : ascii := ascii_of_nat (Z.to_nat (d + 48)).

(** ** The order of [std::string], by unsigned characters *)

Definition ascii_ltb (a b : ascii) : bool := (nat_of_ascii a <? nat_of_ascii b)%nat.
Arguments ascii_ltb : simpl never.

Fixpoint string_ltb (s1 s2 : std_string) : bool :=
  match s1, s2 with
  | _, [] => false
  | [], _ :: _ => true
  | a :: s1', b :: s2' =>
    if ascii_ltb a b then true
    else if ascii_ltb b a then false
    else string_ltb s1' s2'
  end.

Lemma nat_of_ascii_inj a b : nat_of_ascii a = nat_of_ascii b -> a = b.
Proof. intros H. by rewrite <- (ascii_nat_embedding a), <- (ascii_nat_embedding b), H. Qed.

#[export] Instance string_ltb_strict : StrictOrderB string_ltb.
Proof.
  unfold ascii_ltb. split.
  - induction k as [|a k IH]; cbn; [done|]. unfold ascii_ltb. by rewrite Nat.ltb_irrefl.
  - induction a as [|x a IH]; intros [|y b] [|z c]; cbn; try done. unfold ascii_ltb.
    destruct (Nat.ltb_spec (nat_of_ascii x) (nat_of_ascii y));
    destruct (Nat.ltb_spec (nat_of_ascii y) (nat_of_ascii x));
    destruct (Nat.ltb_spec (nat_of_ascii y) (nat_of_ascii z));
    destruct (Nat.ltb_spec (nat_of_ascii z) (nat_of_ascii y));
    destruct (Nat.ltb_spec (nat_of_ascii x) (nat_of_ascii z));
    destruct (Nat.ltb_spec (nat_of_ascii z) (nat_of_ascii x)); try lia; try done.
    apply IH.
  - induction a as [|x a IH]; intros [|y b]; cbn; try done. unfold ascii_ltb.
    destruct (Nat.ltb_spec (nat_of_ascii x) (nat_of_ascii y)); [done|].
    destruct (Nat.ltb_spec (nat_of_ascii y) (nat_of_ascii x)); [done|].
    intros. f_equal; [apply nat_of_ascii_inj; lia|auto].
Qed.

(** ** Printing integers

    [digits n] is the decimal representation of a natural number, most
    significant digit first; twenty digits are enough for every 64-bit
    integer. *)

Fixpoint digits_fuel (fuel : nat) (n : Z) : std_string :=
  match fuel with
  | O => []
  | S f => if n <? 10 then [digit_char n] else digits_fuel f (n / 10) ++ [digit_char (n mod 10)]
  end.

Definition print_fuel : nat := 20.

(** [std::to_string], and what [operator<<] writes for an integer. *)
Definition to_string (z : Z) : std_string :=
  if z <? 0 then "-"%char :: digits_fuel print_fuel (- z) else digits_fuel print_fuel z.

(** ** Reading integers *)

Fixpoint span (p : ascii -> bool) (l : std_string) : std_string * std_string :=
  match l with
  | [] => ([], [])
  | c :: l' => if p c then let r := span p l' in (c :: r.1, r.2) else ([], l)
  end.

Definition skip_ws (l : std_string) : std_string := (span is_space l).2.

Definition dec_value (ds : std_string) : Z :=
  foldl (fun acc c => 10 * acc + digit_val c) 0 ds.

(** An optional sign followed by a maximal run of digits. *)
Definition scan_int (l : std_string) : option Z * std_string :=
  let sign_rest :=
    match l with
    | c :: l' =>
      if Ascii.eqb c "-" then (-1, l') else if Ascii.eqb c "+" then (1, l') else (1, l)
    | [] => (1, l)
    end in
  let r := span is_digit sign_rest.2 in
  match r.1 with
  | [] => (None, r.2)
  | ds => (Some (sign_rest.1 * dec_value ds), r.2)
  end.

(** [std::stoi]: leading blanks are skipped, what follows the number is
    ignored. *)
Definition stoi (s : std_string) : result Z :=
  match (scan_int (skip_ws s)).1 with
  | None => Throw invalid_argument
  | Some v => if decide (in_int v) then Ok v else Throw out_of_range
  end.

(** An input string stream: what is left to read and the fail flag. *)
Record istream := mk_istream { is_rest : std_string; is_fail : bool }.

Definition istringstream (s : std_string) : istream := mk_istream s false.

(** [is >> v] for an integer of range [lo..hi] whose variable holds [old]:
    a stream that has failed, or has only blanks left, leaves it alone. *)
Definition extract_int (lo hi : Z) (s : istream) (old : Z) : istream * Z :=
  if is_fail s then (s, old)
  else
    match skip_ws (is_rest s) with
    | [] => (mk_istream [] true, old)
    | l =>
      let r := scan_int l in
      match r.1 with
      | None => (mk_istream r.2 true, 0)
      | Some v =>
        if v <? lo then (mk_istream r.2 true, lo)
        else if hi <? v then (mk_istream r.2 true, hi)
        else (mk_istream r.2 false, v)
      end
    end.

Definition extract_int32 := extract_int (- 2 ^ 31) (2 ^ 31 - 1).
Definition extract_int64 := extract_int (- 2 ^ 63) (2 ^ 63 - 1).

(** [is >> w] for a string. *)
Definition extract_word (s : istream) (old : std_string) : istream * std_string :=
  if is_fail s then (s, old)
  else
    match skip_ws (is_rest s) with
    | [] => (mk_istream [] true, old)
    | l => let r := span (fun c => negb (is_space c)) l in (mk_istream r.2 false, r.1)
    end.

(** [std::getline]: the characters up to the next newline, which is dropped;
    [None] when nothing could be extracted. *)
Definition getline (l : std_string) : option (std_string * std_string) :=
  match l with
  | [] => None
  | _ =>
    let r := span (fun c => negb (Ascii.eqb c newline)) l in
    Some (r.1, tail r.2)
  end.

(** ** Spans *)

Lemma span_app p l1 l2 :
  Forall (fun c => p c = true) l1 -> match l2 with [] => True | c :: _ => p c = false end ->
  span p (l1 ++ l2) = (l1, l2).
Proof.
  intros H Hc. induction H as [|c l1 Hp H IH]; cbn.
  - destruct l2 as [|c l2]; cbn; [done|]. by rewrite Hc.
  - by rewrite Hp, IH.
Qed.

Lemma span_all p l : Forall (fun c => p c = true) l -> span p l = (l, []).
Proof. intros H. rewrite <- (app_nil_r l) at 1. by apply span_app. Qed.

Lemma span_none p c l : p c = false -> span p (c :: l) = ([], c :: l).
Proof. intros H. cbn. by rewrite H. Qed.

Lemma span_eq p l : (span p l).1 ++ (span p l).2 = l.
Proof. induction l as [|c l IH]; cbn; [done|]. destruct (p c); cbn; [by rewrite IH|done]. Qed.

(** ** Digits *)

Definition is_nonspace (c : ascii) : bool := negb (is_space c).

Lemma nat_of_digit_char d : 0 <= d < 10 -> nat_of_ascii (digit_char d) = Z.to_nat (d + 48).
Proof. intros H. unfold digit_char. apply nat_ascii_embedding. lia. Qed.

Lemma digit_val_char d : 0 <= d < 10 -> digit_val (digit_char d) = d.
Proof. intros H. unfold digit_val. rewrite nat_of_digit_char by done. lia. Qed.

Lemma is_digit_char d : 0 <= d < 10 -> is_digit (digit_char d) = true.
Proof.
  intros H. unfold is_digit. rewrite nat_of_digit_char by done.
  apply andb_true_intro. split; apply Nat.leb_le; lia.
Qed.

Lemma digit_not_space c : is_digit c = true -> is_space c = false.
Proof.
  unfold is_digit, is_space. intros [H1 H2]%andb_prop.
  apply Nat.leb_le in H1, H2.
  destruct (Nat.eqb_spec (nat_of_ascii c) 32); [lia|].
  destruct (Nat.leb_spec (nat_of_ascii c) 13); [lia|]. by rewrite andb_false_r.
Qed.

Lemma digit_not_sign c : is_digit c = true -> Ascii.eqb c "-" = false /\ Ascii.eqb c "+" = false.
Proof.
  unfold is_digit. intros [H1 H2]%andb_prop. apply Nat.leb_le in H1, H2.
  split; apply Ascii.eqb_neq; intros ->; cbv in H1; lia.
Qed.

Lemma dec_value_app l c : dec_value (l ++ [c]) = 10 * dec_value l + digit_val c.
Proof. unfold dec_value. by rewrite foldl_app. Qed.

Section Digits.
Context (fuel : nat).

Lemma digits_fuel_spec n :
  0 <= n < 10 ^ Z.of_nat fuel -> fuel <> O ->
  digits_fuel fuel n <> [] /\ Forall (fun c => is_digit c = true) (digits_fuel fuel n) /\
  dec_value (digits_fuel fuel n) = n.
Proof.
  revert n. induction fuel as [|f IH]; intros n Hn Hf; [done|]. cbn [digits_fuel].
  destruct (Z.ltb_spec n 10).
  - repeat split; [done| |].
    + constructor; [apply is_digit_char; lia|constructor].
    + cbn. by rewrite digit_val_char by lia.
  - assert (f <> O) as Hf'.
    { intros ->. cbn in Hn. lia. }
    rewrite Nat2Z.inj_succ, Z.pow_succ_r in Hn by lia.
    assert (0 <= n / 10 < 10 ^ Z.of_nat f) as Hd.
    { split; [apply Z.div_pos; lia|]. apply Z.div_lt_upper_bound; lia. }
    pose proof (Z.mod_pos_bound n 10 eq_refl).
    destruct (IH _ Hd Hf') as (Hne & Hall & Hv). repeat split.
    + intros [_ Heq]%app_eq_nil. done.
    + apply Forall_app. split; [done|]. constructor; [by apply is_digit_char|constructor].
    + rewrite dec_value_app, Hv, digit_val_char by done.
      pose proof (Z.div_mod n 10). lia.
Qed.
End Digits.

(** The integers that twenty digits can print. *)
Definition printable (z : Z) : Prop := - 10 ^ 20 < z < 10 ^ 20.

Lemma in_long_printable z : in_long z -> printable z.
Proof. unfold in_long, printable. lia. Qed.
Lemma in_int_printable z : in_int z -> printable z.
Proof. unfold in_int, printable. lia. Qed.

Create HintDb int_range.
#[export] Hint Resolve in_long_printable in_int_printable wrap32_range : int_range.

(** The shape of a printed integer: an optional minus and its digits. *)
Lemma to_string_shape z :
  printable z ->
  exists ds, ds <> [] /\ Forall (fun c => is_digit c = true) ds /\
    dec_value ds = Z.abs z /\
    to_string z = if z <? 0 then "-"%char :: ds else ds.
Proof.
  intros Hz. unfold to_string, printable in *.
  destruct (digits_fuel_spec print_fuel (Z.abs z)) as (H1 & H2 & H3).
  { split; [lia|]. change (Z.of_nat print_fuel) with 20. lia. }
  { done. }
  exists (digits_fuel print_fuel (Z.abs z)). repeat split; try done.
  destruct (Z.ltb_spec z 0); f_equal; f_equal; lia.
Qed.

Lemma to_string_nonempty z : printable z -> to_string z <> [].
Proof. intros (ds & ? & _ & _ & ->)%to_string_shape. by destruct (z <? 0). Qed.

Lemma to_string_nonspace z :
  printable z -> Forall (fun c => is_space c = false) (to_string z).
Proof.
  intros (ds & _ & Hall & _ & ->)%to_string_shape.
  assert (Forall (fun c => is_space c = false) ds).
  { eapply Forall_impl; [exact Hall|]. apply digit_not_space. }
  destruct (z <? 0); [by constructor|done].
Qed.

(** What may follow a printed integer for it to be read back whole. *)
Definition ends_int (l : std_string) : Prop :=
  match l with [] => True | c :: _ => is_digit c = false end.

Lemma scan_digits ds rest :
  ds <> [] -> Forall (fun c => is_digit c = true) ds -> ends_int rest ->
  scan_int (ds ++ rest) = (Some (dec_value ds), rest) /\
  scan_int ("-"%char :: ds ++ rest) = (Some (- dec_value ds), rest).
Proof.
  intros Hne Hall Hend. unfold scan_int. destruct ds as [|c ds]; [done|].
  pose proof Hall as Hall'. inversion Hall as [|? ? Hc Hds]; subst.
  destruct (digit_not_sign _ Hc) as [E1 E2]. cbn [app]. rewrite E1, E2.
  change (Ascii.eqb "-" "-") with true. cbn [fst snd].
  change (c :: ds ++ rest) with ((c :: ds) ++ rest).
  rewrite (span_app _ _ _ Hall' Hend). cbn [fst snd].
  rewrite Z.mul_1_l. split; done.
Qed.

Lemma scan_to_string z rest :
  printable z -> ends_int rest -> scan_int (to_string z ++ rest) = (Some z, rest).
Proof.
  intros (ds & Hne & Hall & Hv & ->)%to_string_shape Hend.
  destruct (scan_digits ds rest Hne Hall Hend) as [H1 H2].
  destruct (Z.ltb_spec z 0).
  - change (("-"%char :: ds) ++ rest) with ("-"%char :: ds ++ rest). rewrite H2, Hv.
    do 2 f_equal. lia.
  - rewrite H1, Hv. do 2 f_equal. lia.
Qed.

Lemma skip_ws_nonspace l :
  match l with [] => True | c :: _ => is_space c = false end -> skip_ws l = l.
Proof. unfold skip_ws. destruct l as [|c l]; cbn; [done|]. by intros ->. Qed.

Lemma skip_ws_to_string z rest :
  printable z -> skip_ws (to_string z ++ rest) = to_string z ++ rest.
Proof.
  intros Hz. pose proof (to_string_nonempty z Hz). pose proof (to_string_nonspace z Hz) as H1.
  apply skip_ws_nonspace. destruct (to_string z); [done|]. by inversion H1.
Qed.

(** A printed integer, possibly after one blank, is extracted as itself. *)
Lemma extract_int_to_string lo hi pre z rest old :
  (pre = [] \/ pre = [" "%char]) -> printable z -> lo <= z <= hi -> ends_int rest ->
  extract_int lo hi (mk_istream (pre ++ to_string z ++ rest) false) old
  = (mk_istream rest false, z).
Proof.
  intros Hpre Hz Hr Hend. unfold extract_int. cbn [is_fail is_rest].
  assert (skip_ws (pre ++ to_string z ++ rest) = to_string z ++ rest) as ->.
  { destruct Hpre as [-> | ->]; cbn [app]; [by apply skip_ws_to_string|].
    change (skip_ws (" "%char :: to_string z ++ rest)) with (skip_ws (to_string z ++ rest)).
    by apply skip_ws_to_string. }
  destruct (to_string z ++ rest) as [|c l] eqn:E.
  { apply app_eq_nil in E as [E _]. by apply to_string_nonempty in E. }
  rewrite <- E, scan_to_string by done. cbn [fst snd].
  destruct (Z.ltb_spec z lo); [lia|]. destruct (Z.ltb_spec hi z); [lia|done].
Qed.

Lemma stoi_to_string z rest :
  in_int z -> ends_int rest -> stoi (to_string z ++ rest) = Ok z.
Proof.
  intros Hz Hend. unfold stoi.
  rewrite skip_ws_to_string, scan_to_string by eauto with int_range. cbn [fst].
  by rewrite decide_True.
Qed.

Lemma stoi_of_string z : in_int z -> stoi (to_string z) = Ok z.
Proof. intros Hz. rewrite <- (app_nil_r (to_string z)). by apply stoi_to_string. Qed.

Lemma to_string_inj a b : printable a -> printable b -> to_string a = to_string b -> a = b.
Proof.
  intros Ha Hb Heq. pose proof (scan_to_string a [] Ha I) as H1.
  pose proof (scan_to_string b [] Hb I) as H2. rewrite Heq, H2 in H1. by inversion H1.
Qed.
