(* ===== verification/Types.v ===== *)
(** * Shared data: [types/types.h] and the messages of the RPC service

    The enums and structs of [src/types/types.h] and the messages the sources
    exchange (fields as the accessors of the sources name them).  A
    [types::Transaction] and the message [tpc::Transaction] have the same
    three fields and share one record. *)
From stdpp Require Import gmap list strings.
From Stdlib Require Import ZArith Lia Ascii.
From S2P Require Import Prelude Chars.

(** ** [types.h] *)

Inductive RequestTypes :=
| TPC_PREPARE | TPC_COMMIT | TPC_ABORT | TRANSFER | PREPARE | ACCEPT | COMMIT
| SYNC | BALANCE | LOGS | DISCONNECT.

Record Transaction := mk_txn { sender : Z; receiver : Z; amount : Z }.

Inductive TransactionType := INTRA | CROSS.

Inductive TransactionStatus := NO_STATUS | PREPARED | COMMITTED | ABORTED.

Record WALEntry := mk_entry {
  we_tid : Z;
  we_ballot_num : Z;
  we_ballot_server_id : Z;
  we_txn : Transaction;
  we_type : TransactionType;
  we_status : TransactionStatus
}.

Record TransactionSet := mk_set {
  ts_set_no : Z;
  ts_transactions : list Transaction;
  ts_servers : list std_string;
  ts_leaders : list std_string;
  ts_disconnected : list std_string
}.

Record CSVLine := mk_line {
  cl_set_no : Z;
  cl_transaction : Transaction;
  cl_servers : list std_string;
  cl_leaders : list std_string
}.

Inductive Command :=
| PROCESS_NEXT_SET | PRINT_BALANCE | PRINT_DATASTORE | PRINT_PERFORMANCE | EXIT.

Record AppCommand := mk_cmd { ac_command : Command; ac_client_id : Z }.

#[export] Instance RequestTypes_eq_dec : EqDecision RequestTypes.
Proof. solve_decision. Defined.
#[export] Instance Transaction_eq_dec : EqDecision Transaction.
Proof. solve_decision. Defined.
#[export] Instance TransactionType_eq_dec : EqDecision TransactionType.
Proof. solve_decision. Defined.
#[export] Instance TransactionStatus_eq_dec : EqDecision TransactionStatus.
Proof. solve_decision. Defined.
#[export] Instance WALEntry_eq_dec : EqDecision WALEntry.
Proof. solve_decision. Defined.
#[export] Instance Command_eq_dec : EqDecision Command.
Proof. solve_decision. Defined.
#[export] Instance AppCommand_eq_dec : EqDecision AppCommand.
Proof. solve_decision. Defined.

#[export] Instance WALEntry_settable : Settable WALEntry := fun e =>
  mk_entry (we_tid e) (we_ballot_num e) (we_ballot_server_id e) (we_txn e) (we_type e) (we_status e).
#[export] Instance TransactionSet_settable : Settable TransactionSet := fun s =>
  mk_set (ts_set_no s) (ts_transactions s) (ts_servers s) (ts_leaders s) (ts_disconnected s).

(** [static_cast<int>] of the two enums, and the casts back.  A cast back of
    an integer that names no enumerator behaves as an enumerator the code
    never compares with: [CROSS] and [NO_STATUS] take every such branch. *)
Definition type_to_int (t : TransactionType) : Z :=
  match t with INTRA => 0 | CROSS => 1 end.
Definition type_of_int (n : Z) : TransactionType :=
  if n =? 0 then INTRA else CROSS.
Definition status_to_int (s : TransactionStatus) : Z :=
  match s with NO_STATUS => 0 | PREPARED => 1 | COMMITTED => 2 | ABORTED => 3 end.
Definition status_of_int (n : Z) : TransactionStatus :=
  if n =? 1 then PREPARED else if n =? 2 then COMMITTED
  else if n =? 3 then ABORTED else NO_STATUS.

Lemma type_of_to_int t : type_of_int (type_to_int t) = t.
Proof. by destruct t. Qed.
Lemma status_of_to_int s : status_of_int (status_to_int s) = s.
Proof. by destruct s. Qed.

(** ** Messages of the RPC service *)

Record Ballot := mk_ballot { b_num : Z; b_server_id : Z }.
Record TpcTid := mk_tid { tt_tid : Z }.
Record TransferReq := mk_transfer_req { tr_txn : Transaction; tr_tid : Z }.
Record TransferRes := mk_transfer_res { ts_ack : bool; ts_tid : Z }.
Record PrepareReq := mk_prepare_req { pq_ballot : Ballot; pq_last_inserted : Z }.
Record PrepareRes := mk_prepare_res {
  pr_ack : bool;
  pr_ballot : Ballot;
  pr_accept_num : option Ballot;
  pr_accept_val : option TransferReq;
  pr_latest_ballot_num : option Z;
  pr_last_inserted : option Z;
  pr_server_id : option Z
}.
Record AcceptReq := mk_accept_req { aq_ballot : Ballot; aq_r : TransferReq }.
Record AcceptRes := mk_accept_res { ar_ack : bool; ar_ballot : Ballot }.
Record CommitReq := mk_commit_req { cq_ballot : Ballot }.
Record SyncReq := mk_sync_req { sq_last_inserted : Z }.
Record LogEntry := mk_log_entry {
  le_txn : Transaction;
  le_tid : Z;
  le_type : Z;
  le_status : Z;
  le_ballot_num : Z;
  le_ballot_server_id : Z
}.
Record SyncRes := mk_sync_res {
  sr_ack : bool;
  sr_logs : list LogEntry;
  sr_last_inserted_ballot : Ballot
}.
Record BalanceReq := mk_balance_req { bq_client : Z }.
Record BalanceRes := mk_balance_res { br_amount : Z }.
Record LogRes := mk_log_res { lr_logs : list LogEntry }.
Record DisconnectReq := mk_disconnect_req { dq_servers : list std_string }.

#[export] Instance Ballot_eq_dec : EqDecision Ballot.
Proof. solve_decision. Defined.
#[export] Instance TransferReq_eq_dec : EqDecision TransferReq.
Proof. solve_decision. Defined.
#[export] Instance LogEntry_eq_dec : EqDecision LogEntry.
Proof. solve_decision. Defined.

(** A message field that was never set reads as its default. *)
Definition default_ballot : Ballot := mk_ballot 0 0.
Definition default_txn : Transaction := mk_txn 0 0 0.
Definition default_transfer_req : TransferReq := mk_transfer_req default_txn 0.
Definition default_transfer_res : TransferRes := mk_transfer_res false 0.
Definition default_prepare_res : PrepareRes :=
  mk_prepare_res false default_ballot None None None None None.
Definition default_accept_res : AcceptRes := mk_accept_res false default_ballot.
Definition default_sync_res : SyncRes := mk_sync_res false [] default_ballot.

#[export] Instance TransferRes_settable : Settable TransferRes := fun r =>
  mk_transfer_res (ts_ack r) (ts_tid r).
#[export] Instance PrepareRes_settable : Settable PrepareRes := fun r =>
  mk_prepare_res (pr_ack r) (pr_ballot r) (pr_accept_num r) (pr_accept_val r)
    (pr_latest_ballot_num r) (pr_last_inserted r) (pr_server_id r).

(** ** Ranges

    The fields of a C++ struct are machine integers; [wf_entry] and the like
    say that a value is one a struct can hold. *)

Definition wf_txn (t : Transaction) : Prop :=
  in_int (sender t) /\ in_int (receiver t) /\ in_int (amount t).
Definition wf_entry (e : WALEntry) : Prop :=
  in_long (we_tid e) /\ in_int (we_ballot_num e) /\ in_int (we_ballot_server_id e) /\
  wf_txn (we_txn e).
Definition wf_transfer_req (r : TransferReq) : Prop := wf_txn (tr_txn r) /\ in_long (tr_tid r).
Definition wf_ballot (b : Ballot) : Prop := in_int (b_num b) /\ in_int (b_server_id b).

#[export] Instance wf_txn_dec t : Decision (wf_txn t).
Proof. unfold wf_txn. apply _. Defined.
#[export] Instance wf_entry_dec e : Decision (wf_entry e).
Proof. unfold wf_entry. apply _. Defined.
