(* ===== verification/Config.v ===== *)
(** * Configuration: [constants.h] and [utils.cc]

    The process-wide constants, the mapping of clients and servers to
    clusters (a double division and [std::ceil]), and the set-up of the
    server table.  The division is modelled in binary64, and
    [cluster_ids_exact] shows that rounding never changes the result. *)
From stdpp Require Import gmap list strings.
From Stdlib Require Import ZArith Lia Ascii.
From S2P Require Import Prelude Chars.

(** ** [constants.h] *)

Record constants := mk_constants {
  num_clusters : Z;
  cluster_size : Z;
  server_addresses : list (std_string * std_string);
  server_ids : list (std_string * Z)
}.

Definition total_clients : Z := 3000.

(** The static initialisers. *)
Definition constants_default : constants := mk_constants 3 3 [] [].

#[export] Instance constants_settable : Settable constants := fun c =>
  mk_constants (num_clusters c) (cluster_size c) (server_addresses c) (server_ids c).

(** ** Double division followed by [ceil]

    For [a <> 0] the quotient [a / b] is rounded to the nearest binary64
    value [q * 2 ^ -k] with [2 ^ 52 <= q <= 2 ^ 53], ties to even; [ceil] of
    it is the least integer above. *)

Definition fdiv_shift (a b : Z) : Z :=
  let k := 52 + Z.log2 b - Z.log2 a in
  if (a * 2 ^ k) / b <? 2 ^ 52 then k + 1 else k.

Definition fdiv_round (a b : Z) : Z :=
  let n := a * 2 ^ fdiv_shift a b in
  let q := n / b in
  let r := n mod b in
  if 2 * r <? b then q
  else if b <? 2 * r then q + 1
  else if Z.even q then q else q + 1.

Definition fdiv_ceil (a b : Z) : Z :=
  if a =? 0 then 0
  else if 0 <? a then - ((- fdiv_round a b) / 2 ^ fdiv_shift a b)
  else - (fdiv_round (- a) b / 2 ^ fdiv_shift (- a) b).

(** The exact ceiling of [a / b]. *)
Definition ceil_div (a b : Z) : Z := - ((- a) / b).

(** ** [utils.cc] *)

Section Utils.
Context (C : constants).

Definition getClusterIdFromClientId (id : Z) : Z :=
  fdiv_ceil (wrap32 (id * num_clusters C)) total_clients.

Definition getClusterIdFromServerId (id : Z) : Z :=
  fdiv_ceil id (cluster_size C).

Definition isClientInCluster (client_id cluster_id : Z) : bool :=
  getClusterIdFromClientId client_id =? cluster_id.

Definition getServersInCluster (cluster_id : Z) : list std_string :=
  (filter (fun s => getClusterIdFromServerId s.2 = cluster_id) (server_ids C)).*1.

End Utils.

Definition server_name (i : Z) : std_string := str "S" ++ to_string i.
Definition server_address (i : Z) : std_string := str "localhost:" ++ to_string (50000 + i).

(** The body of the loop of [setupApplicationState], for server [i]. *)
Definition setup_server (c : constants) (i : Z) : constants :=
  c <| server_addresses ::= omap_set string_ltb (server_name i) (server_address i) |>
    <| server_ids ::= omap_set string_ltb (server_name i) i |>.

Definition setupApplicationState (nc cs : Z) (c : constants) : constants :=
  foldl setup_server
    (c <| num_clusters := nc |> <| cluster_size := cs |>)
    (seqZ 1 (wrap32 (nc * cs))).

(** ** The rounding is harmless *)

Definition small_int (z : Z) : Prop := 0 < z < 2 ^ 31.

Lemma log2_small z : small_int z -> 0 <= Z.log2 z <= 30.
Proof.
  unfold small_int. intros H. split; [apply Z.log2_nonneg|].
  assert (Z.log2 z < 31); [|lia]. apply Z.log2_lt_pow2; lia.
Qed.

Lemma fdiv_shift_large a b :
  small_int a -> small_int b -> 0 <= fdiv_shift a b /\ b <= 2 ^ fdiv_shift a b.
Proof.
  intros Ha Hb. pose proof (log2_small a Ha). pose proof (log2_small b Hb).
  assert (1 + Z.log2 b <= fdiv_shift a b) as Hk.
  { unfold fdiv_shift. destruct (_ <? _); lia. }
  split; [lia|]. transitivity (2 ^ (1 + Z.log2 b)).
  - pose proof (Z.log2_spec b). unfold small_int in Hb.
    rewrite Z.add_1_l. lia.
  - apply Z.pow_le_mono_r; lia.
Qed.

(** Rounding to nearest lands on the floor or the ceiling of the scaled
    quotient. *)
Lemma fdiv_round_bounds a b :
  0 < b ->
  (a * 2 ^ fdiv_shift a b) / b <= fdiv_round a b /\
  b * (fdiv_round a b - 1) < a * 2 ^ fdiv_shift a b.
Proof.
  intros Hb. unfold fdiv_round. set (n := a * 2 ^ fdiv_shift a b).
  pose proof (Z.div_mod n b ltac:(lia)). pose proof (Z.mod_pos_bound n b Hb).
  destruct (Z.ltb_spec (2 * (n mod b)) b); [split; nia|].
  destruct (Z.ltb_spec b (2 * (n mod b))); [split; nia|].
  destruct (Z.even _); split; nia.
Qed.

Lemma ceil_div_unique a b n : 0 < b -> b * (n - 1) < a <= b * n -> ceil_div a b = n.
Proof.
  intros Hb H. unfold ceil_div.
  assert ((- a) / b = - n); [|lia]. symmetry. apply (Z.div_unique _ _ _ (b * n - a)); lia.
Qed.

Lemma ceil_div_spec a b : 0 < b -> b * (ceil_div a b - 1) < a <= b * ceil_div a b.
Proof.
  intros Hb. unfold ceil_div. pose proof (Z.div_mod (- a) b ltac:(lia)).
  pose proof (Z.mod_pos_bound (- a) b Hb). nia.
Qed.

Lemma fdiv_ceil_pos a b : small_int a -> small_int b -> fdiv_ceil a b = ceil_div a b.
Proof.
  intros Ha Hb. pose proof Ha as Ha'. pose proof Hb as Hb'. unfold small_int in Ha', Hb'.
  destruct (fdiv_shift_large a b Ha Hb) as [Hk Hkb].
  destruct (fdiv_round_bounds a b) as [H1 H2]; [lia|].
  pose proof (ceil_div_spec a b). unfold fdiv_ceil.
  destruct (Z.eqb_spec a 0) as [?|Hz]; [lia|]. destruct (Z.ltb_spec 0 a); [|lia].
  change (ceil_div (fdiv_round a b) (2 ^ fdiv_shift a b) = ceil_div a b).
  set (q := fdiv_round a b) in *. set (p := 2 ^ fdiv_shift a b) in *.
  set (n := ceil_div a b) in *. apply ceil_div_unique; [lia|]. split.
  - assert ((n - 1) * p + 1 <= (a * p) / b); [|lia].
    apply Z.div_le_lower_bound; nia.
  - nia.
Qed.

Lemma fdiv_ceil_neg a b : small_int (- a) -> small_int b -> fdiv_ceil a b = ceil_div a b.
Proof.
  intros Ha Hb. pose proof Ha as Ha'. pose proof Hb as Hb'. unfold small_int in Ha', Hb'.
  destruct (fdiv_shift_large (- a) b Ha Hb) as [Hk Hkb].
  destruct (fdiv_round_bounds (- a) b) as [H1 H2]; [lia|]. unfold fdiv_ceil, ceil_div.
  destruct (Z.eqb_spec a 0) as [?|Hz]; [lia|]. destruct (Z.ltb_spec 0 a); [lia|].
  set (q := fdiv_round (- a) b) in *. set (p := 2 ^ fdiv_shift (- a) b) in *.
  pose proof (Z.div_mod (- a) b ltac:(lia)). pose proof (Z.mod_pos_bound (- a) b ltac:(lia)).
  set (n := (- a) / b) in *. f_equal. symmetry.
  assert (n * p <= (- a * p) / b) by (apply Z.div_le_lower_bound; nia).
  assert (q < (n + 1) * p) by nia.
  apply (Z.div_unique _ _ _ (q - p * n)); nia.
Qed.

Lemma fdiv_ceil_ceil a b :
  - 2 ^ 31 < a < 2 ^ 31 -> 0 < b < 2 ^ 31 -> fdiv_ceil a b = ceil_div a b.
Proof.
  intros Ha Hb. destruct (Z.lt_trichotomy a 0) as [H|[->|H]].
  - apply fdiv_ceil_neg; unfold small_int; lia.
  - done.
  - apply fdiv_ceil_pos; unfold small_int; lia.
Qed.

(** C28. Cluster ids are computed exactly. For every product [client_id * num_clusters] an
    [int] can hold, and for every server id and positive cluster size, the
    double division followed by [ceil] of [utils.cc] is the exact integer
    ceiling: no rounding error moves a client or a server to another
    cluster. *)
Theorem cluster_ids_exact c id :
  (- 2 ^ 31 < id * num_clusters c < 2 ^ 31 ->
     getClusterIdFromClientId c id = ceil_div (id * num_clusters c) total_clients) /\
  (- 2 ^ 31 < id < 2 ^ 31 -> 0 < cluster_size c < 2 ^ 31 ->
     getClusterIdFromServerId c id = ceil_div id (cluster_size c)).
Proof.
  split.
  - intros H. unfold getClusterIdFromClientId. rewrite wrap32_id by (unfold in_int; lia).
    apply fdiv_ceil_ceil; unfold total_clients; lia.
  - intros H1 H2. by apply fdiv_ceil_ceil.
Qed.

Lemma cluster_ids_exact_witness :
  getClusterIdFromClientId (setupApplicationState 3 3 constants_default) 1001 = 2.
Proof.
  rewrite (proj1 (cluster_ids_exact (setupApplicationState 3 3 constants_default) 1001));
    [reflexivity|vm_compute; split; reflexivity].
Defined.

(** ** Clients and clusters *)

(** The command line the servers and the driver are started with. *)
Definition config_ok (c : constants) : Prop :=
  1 <= num_clusters c <= 3000 /\ 1 <= cluster_size c <= 1000.

#[export] Instance config_ok_dec c : Decision (config_ok c).
Proof. unfold config_ok. apply _. Defined.

Lemma in_int_mul_3000 c id : config_ok c -> -3000 <= id <= 3000 -> in_int (id * num_clusters c).
Proof. unfold config_ok, in_int. nia. Qed.

(** A client id whose product with the cluster count stays an [int]. *)
Definition id_ok (c : constants) (id : Z) : Prop :=
  - 2 ^ 31 < id * num_clusters c < 2 ^ 31.

Lemma cluster_of_client c id :
  id_ok c id -> getClusterIdFromClientId c id = ceil_div (id * num_clusters c) total_clients.
Proof.
  unfold id_ok, getClusterIdFromClientId. intros H.
  rewrite wrap32_id by (unfold in_int; lia). apply fdiv_ceil_ceil; unfold total_clients; lia.
Qed.

Lemma client_id_ok c id : config_ok c -> -3000 <= id <= 3000 -> id_ok c id.
Proof. unfold config_ok, id_ok. nia. Qed.

Lemma client_cluster_range c id :
  config_ok c -> 1 <= id <= total_clients ->
  1 <= getClusterIdFromClientId c id <= num_clusters c.
Proof.
  intros Hc Hid. unfold total_clients in *.
  rewrite cluster_of_client by (apply client_id_ok; [done|lia]).
  destruct Hc as [Hn _]. unfold total_clients.
  pose proof (ceil_div_spec (id * num_clusters c) 3000 ltac:(lia)). nia.
Qed.

Lemma client_in_cluster_range c id k :
  config_ok c -> id_ok c id -> 1 <= k <= num_clusters c ->
  isClientInCluster c id k = true -> 1 <= id <= total_clients.
Proof.
  intros [Hn _] Hid Hk H%Z.eqb_eq. rewrite cluster_of_client in H by done.
  unfold total_clients in *.
  pose proof (ceil_div_spec (id * num_clusters c) 3000 ltac:(lia)). nia.
Qed.

(** The clusters partition the clients. Every client of the bank belongs to exactly one of the clusters
    [1..num_clusters], and no other integer (short of overflow) belongs to
    any of them. *)
Theorem clients_partitioned c id :
  config_ok c -> id_ok c id ->
  (1 <= id <= total_clients <->
     exists k, 1 <= k <= num_clusters c /\ isClientInCluster c id k = true) /\
  (forall k1 k2, isClientInCluster c id k1 = true -> isClientInCluster c id k2 = true -> k1 = k2).
Proof.
  intros Hc Hid. split; [split|].
  - intros Hr. exists (getClusterIdFromClientId c id).
    split; [by apply client_cluster_range|apply Z.eqb_refl].
  - intros (k & Hk & H). by eapply client_in_cluster_range.
  - unfold isClientInCluster. intros k1 k2 H1 H2. lia.
Qed.

Lemma clients_partitioned_witness :
  config_ok (setupApplicationState 3 3 constants_default) /\
  (1 <= 1001 <= total_clients <->
     exists k, 1 <= k <= num_clusters (setupApplicationState 3 3 constants_default) /\
       isClientInCluster (setupApplicationState 3 3 constants_default) 1001 k = true).
Proof.
  split; [vm_compute; repeat split; discriminate|].
  apply (clients_partitioned (setupApplicationState 3 3 constants_default) 1001);
    vm_compute; repeat split; discriminate.
Defined.

(** The sentinel client [-1] of a missing transaction is in no cluster. *)
Lemma sentinel_client_cluster c :
  1 <= num_clusters c < 3000 -> getClusterIdFromClientId c (-1) = 0.
Proof.
  intros H. rewrite cluster_of_client by (unfold id_ok; lia).
  apply ceil_div_unique; unfold total_clients; lia.
Qed.

(** ** The server table *)

Definition table_ok (c : constants) : Prop := config_ok c /\ cluster_size c * num_clusters c < 10 ^ 6.

Lemma server_name_inj i j : printable i -> printable j -> server_name i = server_name j -> i = j.
Proof. unfold server_name. intros Hi Hj H%app_inv_head. by apply to_string_inj. Qed.

Lemma server_ids_setup c i :
  server_ids (setup_server c i) = omap_set string_ltb (server_name i) i (server_ids c).
Proof. reflexivity. Qed.

Section Setup.
Context (nc cs : Z).
Hypothesis Hnc : 1 <= nc <= 3000.
Hypothesis Hcs : 1 <= cs <= 1000.

Let C := setupApplicationState nc cs constants_default.

Lemma setup_range : wrap32 (nc * cs) = nc * cs.
Proof. apply wrap32_id. unfold in_int. nia. Qed.

Lemma setup_fold_params l c :
  num_clusters (foldl setup_server c l) = num_clusters c /\
  cluster_size (foldl setup_server c l) = cluster_size c.
Proof. revert c. induction l as [|i l IH]; intros c; [done|]. cbn. by rewrite !(proj1 (IH _)), !(proj2 (IH _)). Qed.

Lemma setup_fold_sorted l c :
  omap_sorted string_ltb (server_ids c) ->
  omap_sorted string_ltb (server_ids (foldl setup_server c l)).
Proof.
  revert c. induction l as [|i l IH]; intros c H; [done|]. cbn. apply IH.
  cbn. apply omap_set_sorted; [apply _|done].
Qed.

Lemma setup_fold_get l c s :
  Forall printable l -> NoDup l ->
  omap_get string_ltb s (server_ids (foldl setup_server c l)) =
  match list_find (fun i => server_name i = s) l with
  | Some (_, i) => Some i
  | None => omap_get string_ltb s (server_ids c)
  end.
Proof.
  revert c. induction l as [|i l IH]; intros c Hp Hnd; [done|]. cbn [foldl].
  inversion Hp as [|? ? Hi Hp']; subst. inversion Hnd as [|? ? Hni Hnd']; subst.
  rewrite IH by done. cbn [list_find]. destruct (decide (server_name i = s)) as [<-|Hne].
  - destruct (list_find _ l) as [[n j]|] eqn:E; [|by rewrite server_ids_setup, omap_get_set_eq by apply _].
    apply list_find_Some in E as (Hj & Heq & _).
    apply server_name_inj in Heq as ->; [|by eapply Forall_lookup_1|done].
    destruct Hni. by eapply list_elem_of_lookup_2.
  - destruct (list_find _ l) as [[n j]|] eqn:E; [done|].
    rewrite server_ids_setup. by apply omap_get_set_ne; [apply _|congruence].
Qed.

Lemma seqZ_printable m n : 0 <= m -> m + n <= 10 ^ 9 -> Forall printable (seqZ m n).
Proof. intros Hm Hn. apply Forall_forall. intros i Hi%elem_of_seqZ. unfold printable. lia. Qed.

Lemma setup_get s i :
  omap_get string_ltb s (server_ids C) = Some i <-> 1 <= i <= nc * cs /\ s = server_name i.
Proof.
  unfold C, setupApplicationState. rewrite setup_range, setup_fold_get; cycle 1.
  { apply seqZ_printable; nia. }
  { apply NoDup_seqZ. }
  destruct (list_find _ _) as [[n j]|] eqn:E.
  - apply list_find_Some in E as (Hj & <- & _).
    apply list_elem_of_lookup_2, elem_of_seqZ in Hj. split.
    + intros [= <-]. split; [lia|done].
    + intros [Hi Heq]. f_equal. apply server_name_inj; [unfold printable; nia..|done].
  - split; [done|]. intros [Hi ->]. apply list_find_None in E. rewrite Forall_forall in E.
    destruct (E i); [|done]. apply elem_of_seqZ. lia.
Qed.

Lemma setup_sorted : omap_sorted string_ltb (server_ids C).
Proof. apply setup_fold_sorted. constructor. Qed.

Lemma setup_elem s i : (s, i) ∈ server_ids C <-> 1 <= i <= nc * cs /\ s = server_name i.
Proof. rewrite <- omap_get_elem by (apply _ || apply setup_sorted). apply setup_get. Qed.

(** The addresses are listed in the order of the ids. *)
Lemma setup_addresses_keys : (server_addresses C).*1 = (server_ids C).*1.
Proof.
  apply (foldl_inv (fun c => (server_addresses c).*1 = (server_ids c).*1) (fun _ => True)); [|by apply Forall_true|done].
  intros c i _ Hc. by apply omap_set_keys.
Qed.

Lemma setup_names : (server_addresses C).*1 = map server_name (server_ids C).*2.
Proof.
  rewrite setup_addresses_keys, map_map. apply map_ext_in. intros [s i] Hin. cbn.
  by apply list_elem_of_In, setup_elem in Hin as [_ ->].
Qed.

Lemma setup_order : (server_ids C).*2 ≡ₚ seqZ 1 (nc * cs).
Proof.
  apply NoDup_Permutation; [|apply NoDup_seqZ|].
  - pose proof (omap_sorted_NoDup string_ltb _ setup_sorted) as Hnd. rewrite <- setup_addresses_keys, setup_names in Hnd.
    by apply NoDup_fmap_1 in Hnd.
  - intros i. rewrite elem_of_seqZ, list_elem_of_fmap. split.
    + intros ([s j] & -> & [Hj _]%setup_elem). cbn. lia.
    + intros Hi. exists (server_name i, i). split; [done|]. apply setup_elem. split; [lia|done].
Qed.

Lemma setup_params : num_clusters C = nc /\ cluster_size C = cs.
Proof. unfold C, setupApplicationState. apply setup_fold_params. Qed.

Lemma cluster_of_server i :
  1 <= i <= nc * cs -> getClusterIdFromServerId C i = ceil_div i cs.
Proof.
  intros Hi. unfold getClusterIdFromServerId. rewrite (proj2 setup_params).
  apply fdiv_ceil_ceil; nia.
Qed.

Lemma cluster_of_server_iff i k :
  1 <= i <= nc * cs -> getClusterIdFromServerId C i = k <-> (k - 1) * cs + 1 <= i <= k * cs.
Proof.
  intros Hi. rewrite cluster_of_server by done. split.
  - intros <-. pose proof (ceil_div_spec i cs ltac:(lia)). nia.
  - intros H. apply ceil_div_unique; nia.
Qed.

End Setup.

(** The server table and its clusters. For every cluster count and size in range, the table maps exactly
    the names S1..S[nc*cs] to their ids, and cluster [k] consists of exactly
    the [cs] servers (k-1)*cs+1 .. k*cs, each listed once by
    [getServersInCluster]. *)
Theorem setup_clusters nc cs k :
  1 <= nc <= 3000 -> 1 <= cs <= 1000 -> 1 <= k <= nc ->
  let C := setupApplicationState nc cs constants_default in
  (forall s i, omap_get string_ltb s (server_ids C) = Some i <->
     1 <= i <= nc * cs /\ s = server_name i) /\
  getServersInCluster C k ≡ₚ server_name <$> seqZ ((k - 1) * cs + 1) cs.
Proof.
  intros Hnc Hcs Hk C. split; [intros; by apply setup_get|].
  apply NoDup_Permutation.
  - unfold getServersInCluster.
    pose proof (omap_sorted_NoDup string_ltb _ (setup_sorted nc cs)) as Hnd.
    eapply sublist_NoDup; [exact Hnd|]. apply fmap_sublist, sublist_filter.
  - apply NoDup_fmap_2_strong; [|apply NoDup_seqZ].
    intros i j Hi%elem_of_seqZ Hj%elem_of_seqZ. apply server_name_inj; unfold printable; nia.
  - assert ((k - 1) * cs + 1 + cs = k * cs + 1) as Hend by nia.
    intros s. unfold getServersInCluster. rewrite !list_elem_of_fmap. split.
    + intros ([s' i] & -> & [Hf Hin]%list_elem_of_filter). cbn in *.
      apply setup_elem in Hin as [Hi ->]; [|done..].
      apply cluster_of_server_iff in Hf; [|done..].
      exists i. split; [done|]. apply elem_of_seqZ. lia.
    + intros (i & -> & Hi%elem_of_seqZ). exists (server_name i, i). split; [done|].
      assert (1 <= i <= nc * cs) by nia.
      apply list_elem_of_filter. split; [cbn; apply cluster_of_server_iff; [done..|lia]|].
      by apply setup_elem.
Qed.

Lemma setup_clusters_witness :
  getServersInCluster (setupApplicationState 3 3 constants_default) 2
    ≡ₚ server_name <$> seqZ ((2 - 1) * 3 + 1) 3.
Proof. apply (setup_clusters 3 3 2); lia. Defined.
