(* ===== verification/Wal.v ===== *)
(** * Write-ahead log: [server/wal.cc]

    The log file as text, the in-memory index of prepared transactions as a
    map from transaction id to file position, and the operations of class
    [WAL].  Failure to open the file for reading or writing is part of the
    state.  The abstract specification is the map of prepared and undecided
    transactions ([wal_rep]); the refinement theorem says that every
    operation implements its specification on it. *)
From stdpp Require Import gmap list strings.
From Stdlib Require Import ZArith Lia Ascii.
From S2P Require Import Prelude Chars Types.

(** ** State *)

(** A file opened anew by each operation: its bytes, and whether opening it
    for reading and for writing succeeds. *)
Record File := mk_file { f_data : std_string; f_can_read : bool; f_can_write : bool }.

Record WAL := mk_wal {
  walFile : File;
  transferIndex : gmap Z Z
}.

#[export] Instance File_settable : Settable File := fun f =>
  mk_file (f_data f) (f_can_read f) (f_can_write f).
#[export] Instance WAL_settable : Settable WAL := fun w =>
  mk_wal (walFile w) (transferIndex w).

(** The constructor: the file is whatever an earlier run left there. *)
Definition WAL_init (f : File) : WAL := mk_wal f ∅.

(** What an operation returns for a missing transaction or an unusable file. *)
Definition no_entry : WALEntry :=
  mk_entry (-1) (-1) (-1) (mk_txn (-1) (-1) (-1)) CROSS NO_STATUS.

(** The values of the uninitialised locals of [getTransactionFromFile]. *)
Class Indeterminate := junk : WALEntry.

(** ** Operations *)

Definition append (f : File) (s : std_string) : File := f <| f_data ::= fun d => d ++ s |>.

(** [ofstream::tellp] after opening in append mode; [-1] on a failed stream. *)
Definition tellp (f : File) : Z :=
  if f_can_write f then Z.of_nat (length (f_data f)) else -1.

Definition record_fields (tid bnum bsid : Z) (t : Transaction) : std_string :=
  str " " ++ to_string tid ++ str " " ++ to_string bnum ++ str " " ++ to_string bsid ++
  str " " ++ to_string (sender t) ++ str " " ++ to_string (receiver t) ++
  str " " ++ to_string (amount t).

(** [outFile << tag << " " << tid << ... << "\n"] *)
Definition wal_record (tag : std_string) (tid bnum bsid : Z) (t : Transaction) : std_string :=
  tag ++ record_fields tid bnum bsid t ++ [newline].

Section Operations.
Context {J : Indeterminate}.

Definition getTransactionFromFile (f : File) (position : Z) : WALEntry :=
  if negb (f_can_read f) then no_entry
  else
    let line :=
      if position <? 0 then []
      else
        match getline (drop (Z.to_nat position) (f_data f)) with
        | Some (l, _) => l
        | None => []
        end in
    let r0 := extract_word (istringstream line) [] in
    let r1 := extract_int64 r0.1 (we_tid junk) in
    let r2 := extract_int32 r1.1 (we_ballot_num junk) in
    let r3 := extract_int32 r2.1 (we_ballot_server_id junk) in
    let r4 := extract_int32 r3.1 (sender (we_txn junk)) in
    let r5 := extract_int32 r4.1 (receiver (we_txn junk)) in
    let r6 := extract_int32 r5.1 (amount (we_txn junk)) in
    mk_entry r1.2 r2.2 r3.2 (mk_txn r4.2 r5.2 r6.2) CROSS PREPARED.

(** [prepareTransaction] goes on when the file cannot be opened: the position
    is then [-1] and nothing is written. *)
Definition prepareTransaction (w : WAL) (request : TransferReq) (ballot : Ballot) : WAL * WALEntry :=
  let tid := tr_tid request in
  let t := tr_txn request in
  let f := walFile w in
  let position := tellp f in
  let w := w <| transferIndex ::= <[tid := position]> |> in
  let w :=
    if f_can_write f then
      w <| walFile := append f (wal_record (str "CS_PREPARE") tid (b_num ballot) (b_server_id ballot) t) |>
    else w in
  (w, mk_entry tid (b_num ballot) (b_server_id ballot)
        (mk_txn (sender t) (receiver t) (amount t)) CROSS PREPARED).

(** [commitTransaction(TransferReq&, Ballot&)], for an intra-shard transaction. *)
Definition commitTransaction_intra (w : WAL) (request : TransferReq) (ballot : Ballot) : WAL * WALEntry :=
  let tid := tr_tid request in
  let t := tr_txn request in
  let f := walFile w in
  if negb (f_can_write f) then (w, no_entry)
  else
    (w <| walFile := append f (wal_record (str "IN_COMMIT") tid (b_num ballot) (b_server_id ballot) t) |>,
     mk_entry tid (b_num ballot) (b_server_id ballot)
       (mk_txn (sender t) (receiver t) (amount t)) INTRA COMMITTED).

(** [commitTransaction(TpcTid&)], for a cross-shard transaction. *)
Definition commitTransaction_cross (w : WAL) (request : TpcTid) : WAL * WALEntry :=
  let tid := tt_tid request in
  match transferIndex w !! tid with
  | None => (w, no_entry)
  | Some position =>
    let f := walFile w in
    let txn := getTransactionFromFile f position in
    if negb (f_can_write f) then (w, no_entry)
    else
      let w := w <| walFile := append f (wal_record (str "CS_COMMIT") tid (we_ballot_num txn)
                                           (we_ballot_server_id txn) (we_txn txn)) |> in
      let w := w <| transferIndex ::= delete tid |> in
      (w, txn <| we_status := COMMITTED |>)
  end.

Definition abortTransaction (w : WAL) (request : TpcTid) : WAL * WALEntry :=
  let tid := tt_tid request in
  match transferIndex w !! tid with
  | None => (w, no_entry)
  | Some position =>
    let f := walFile w in
    let txn := getTransactionFromFile f position in
    if negb (f_can_write f) then (w, no_entry)
    else
      let w := w <| walFile := append f (wal_record (str "CS_ABORT") tid (we_ballot_num txn)
                                           (we_ballot_server_id txn) (we_txn txn)) |> in
      let w := w <| transferIndex ::= delete tid |> in
      (w, txn <| we_status := ABORTED |>)
  end.

Definition insertEntry (w : WAL) (entry : WALEntry) : WAL :=
  let f := walFile w in
  if negb (f_can_write f) then w
  else
    let message := if decide (we_type entry = INTRA) then str "IS_" else str "CS_" in
    let r :=
      match we_status entry with
      | PREPARED =>
        (w <| transferIndex ::= <[we_tid entry := tellp f]> |>, message ++ str "PREPARE")
      | COMMITTED =>
        (w <| transferIndex ::= delete (we_tid entry) |>, message ++ str "COMMIT")
      | ABORTED =>
        (w <| transferIndex ::= delete (we_tid entry) |>, message ++ str "ABORT")
      | NO_STATUS => (w, message)
      end in
    r.1 <| walFile := append f (wal_record r.2 (we_tid entry) (we_ballot_num entry)
                                  (we_ballot_server_id entry) (we_txn entry)) |>.

End Operations.

(** ** Abstract specification

    The log promises a map from transaction id to the transaction that is
    prepared and not decided yet. *)

Abbreviation wal_spec := (gmap Z WALEntry).

Definition prepared_entry (tid bnum bsid : Z) (t : Transaction) : WALEntry :=
  mk_entry tid bnum bsid t CROSS PREPARED.

Definition spec_prepare (m : wal_spec) (request : TransferReq) (ballot : Ballot) : wal_spec * WALEntry :=
  let e := prepared_entry (tr_tid request) (b_num ballot) (b_server_id ballot) (tr_txn request) in
  (<[tr_tid request := e]> m, e).

Definition spec_decide (m : wal_spec) (tid : Z) (decision : TransactionStatus) : wal_spec * WALEntry :=
  match m !! tid with
  | None => (m, no_entry)
  | Some e => (delete tid m, e <| we_status := decision |>)
  end.

Definition spec_insert (m : wal_spec) (e : WALEntry) : wal_spec :=
  match we_status e with
  | PREPARED => <[we_tid e := e <| we_type := CROSS |>]> m
  | COMMITTED | ABORTED => delete (we_tid e) m
  | NO_STATUS => m
  end.

(** [data] holds at [pos] a record whose fields are those of [e]. *)
Definition record_at (data : std_string) (pos : Z) (e : WALEntry) : Prop :=
  exists pre tag post,
    data = pre ++ wal_record tag (we_tid e) (we_ballot_num e) (we_ballot_server_id e) (we_txn e) ++ post /\
    pos = Z.of_nat (length pre) /\
    tag <> [] /\ Forall (fun c => is_space c = false) tag.

Definition file_ok (f : File) : Prop := f_can_read f = true /\ f_can_write f = true.

(** The representation relation: the index has exactly the prepared ids, and
    each position holds the record of its transaction. *)
Definition wal_rep (w : WAL) (m : wal_spec) : Prop :=
  file_ok (walFile w) /\
  forall tid,
    match transferIndex w !! tid, m !! tid with
    | None, None => True
    | Some pos, Some e =>
      record_at (f_data (walFile w)) pos e /\ wf_entry e /\
      we_tid e = tid /\ we_type e = CROSS /\ we_status e = PREPARED
    | _, _ => False
    end.

(** A client of the log: a sequence of operations and their results. *)
Inductive wal_op :=
| op_prepare (request : TransferReq) (ballot : Ballot)
| op_commit_intra (request : TransferReq) (ballot : Ballot)
| op_commit (tid : Z)
| op_abort (tid : Z)
| op_insert (entry : WALEntry).

Definition wal_op_wf (o : wal_op) : Prop :=
  match o with
  | op_prepare r b | op_commit_intra r b => wf_transfer_req r /\ wf_ballot b
  | op_commit tid | op_abort tid => True
  | op_insert e => wf_entry e
  end.

Definition wal_step {J : Indeterminate} (w : WAL) (o : wal_op) : WAL * WALEntry :=
  match o with
  | op_prepare r b => prepareTransaction w r b
  | op_commit_intra r b => commitTransaction_intra w r b
  | op_commit tid => commitTransaction_cross w (mk_tid tid)
  | op_abort tid => abortTransaction w (mk_tid tid)
  | op_insert e => (insertEntry w e, e)
  end.

Definition spec_step (m : wal_spec) (o : wal_op) : wal_spec * WALEntry :=
  match o with
  | op_prepare r b => spec_prepare m r b
  | op_commit_intra r b =>
    (m, mk_entry (tr_tid r) (b_num b) (b_server_id b) (tr_txn r) INTRA COMMITTED)
  | op_commit tid => spec_decide m tid COMMITTED
  | op_abort tid => spec_decide m tid ABORTED
  | op_insert e => (spec_insert m e, e)
  end.

(** Running a sequence of operations, collecting the results. *)
Fixpoint run {S A B : Type} (step : S -> A -> S * B) (s : S) (l : list A) : S * list B :=
  match l with
  | [] => (s, [])
  | a :: l' => let r := step s a in let r' := run step r.1 l' in (r'.1, r.2 :: r'.2)
  end.

(** ** Reading a record back *)

Definition not_newline (c : ascii) : bool := negb (Ascii.eqb c newline).

Lemma nonspace_not_newline c : is_space c = false -> not_newline c = true.
Proof.
  intros H. unfold not_newline. destruct (Ascii.eqb_spec c newline) as [->|]; [|done].
  by vm_compute in H.
Qed.

Lemma nonspace_no_newline l :
  Forall (fun c => is_space c = false) l -> Forall (fun c => not_newline c = true) l.
Proof. intros H. eapply Forall_impl; [exact H|]. apply nonspace_not_newline. Qed.

Section Reading.
Context (tid bnum bsid : Z) (t : Transaction).
Hypothesis Htid : in_long tid.
Hypothesis Hbnum : in_int bnum.
Hypothesis Hbsid : in_int bsid.
Hypothesis Ht : wf_txn t.

Lemma fields_no_newline : Forall (fun c => not_newline c = true) (record_fields tid bnum bsid t).
Proof using All.
  destruct Ht as (H1 & H2 & H3). unfold record_fields.
  rewrite !Forall_app. repeat split;
    first [ by apply nonspace_no_newline, to_string_nonspace; eauto with int_range
          | by repeat constructor ].
Qed.

Lemma getline_record tag post :
  Forall (fun c => is_space c = false) tag -> tag <> [] ->
  getline (wal_record tag tid bnum bsid t ++ post) = Some (tag ++ record_fields tid bnum bsid t, post).
Proof using All.
  intros Htag Hne. unfold wal_record, getline. rewrite <- !app_assoc. cbn [app].
  rewrite (app_assoc tag). set (l := tag ++ record_fields tid bnum bsid t).
  assert (Forall (fun c => not_newline c = true) l) as Hl.
  { apply Forall_app. split; [by apply nonspace_no_newline|apply fields_no_newline]. }
  assert (l ++ newline :: post <> []) as Hnil.
  { by destruct l. }
  destruct (l ++ newline :: post) as [|c l'] eqn:E; [done|]. rewrite <- E.
  change (fun c => negb (Ascii.eqb c newline)) with not_newline.
  by rewrite span_app.
Qed.

End Reading.

Lemma extract_word_tag tag rest old :
  tag <> [] -> Forall (fun c => is_space c = false) tag ->
  extract_word (mk_istream (tag ++ str " " ++ rest) false) old
  = (mk_istream (str " " ++ rest) false, tag).
Proof.
  change (str " " ++ rest) with (" "%char :: rest). intros Hne Htag. unfold extract_word. cbn [is_fail is_rest].
  rewrite skip_ws_nonspace by (destruct tag; [done|by inversion Htag]).
  destruct (tag ++ " "%char :: rest) as [|c l] eqn:E; [by destruct tag|]. rewrite <- E.
  rewrite span_app; [done| |done].
  eapply Forall_impl; [exact Htag|]. by intros c' ->.
Qed.

Lemma extract_int64_field z rest old :
  in_long z -> ends_int rest ->
  extract_int64 (mk_istream (str " " ++ to_string z ++ rest) false) old = (mk_istream rest false, z).
Proof.
  intros Hz Hr. apply extract_int_to_string; try done; [by right|by eauto with int_range|].
  unfold in_long in Hz. lia.
Qed.

Lemma extract_int32_field z rest old :
  in_int z -> ends_int rest ->
  extract_int32 (mk_istream (str " " ++ to_string z ++ rest) false) old = (mk_istream rest false, z).
Proof.
  intros Hz Hr. apply extract_int_to_string; try done; [by right|by eauto with int_range|].
  unfold in_int in Hz. lia.
Qed.

Lemma read_record {J : Indeterminate} f pos e :
  f_can_read f = true -> record_at (f_data f) pos e -> wf_entry e ->
  getTransactionFromFile f pos = e <| we_type := CROSS |> <| we_status := PREPARED |>.
Proof.
  intros Hr (pre & tag & post & Hd & Hp & Hne & Htag) (Htid & Hbn & Hbs & Ht).
  unfold getTransactionFromFile. rewrite Hr, Hd, Hp. cbn [negb].
  destruct (Z.ltb_spec (Z.of_nat (length pre)) 0); [lia|].
  rewrite Nat2Z.id, drop_app_length, getline_record by done.
  destruct Ht as (H1 & H2 & H3). cbn [fst snd]. unfold istringstream, record_fields.
  rewrite extract_word_tag by done. cbn [fst snd].
  rewrite extract_int64_field by done. cbn [fst snd].
  rewrite extract_int32_field by done. cbn [fst snd].
  rewrite extract_int32_field by done. cbn [fst snd].
  rewrite extract_int32_field by done. cbn [fst snd].
  rewrite extract_int32_field by done. cbn [fst snd].
  rewrite <- (app_nil_r (to_string (amount (we_txn e)))).
  rewrite extract_int32_field by done. cbn [fst snd].
  destruct e as [? ? ? [? ? ?] ? ?]. reflexivity.
Qed.

(** ** The representation relation is preserved *)

Lemma record_at_app data pos e s : record_at data pos e -> record_at (data ++ s) pos e.
Proof.
  intros (pre & tag & post & -> & H). exists pre, tag, (post ++ s).
  by rewrite <- !app_assoc.
Qed.

Lemma record_at_new data tag e :
  tag <> [] -> Forall (fun c => is_space c = false) tag ->
  record_at (data ++ wal_record tag (we_tid e) (we_ballot_num e) (we_ballot_server_id e) (we_txn e))
    (Z.of_nat (length data)) e.
Proof. intros H1 H2. exists data, tag, []. by rewrite app_nil_r. Qed.

(** A literal tag has no blank in it. *)
Ltac solve_tag := apply (bool_decide_unpack _); vm_compute; exact I.

Lemma rep_append w m s :
  wal_rep w m -> wal_rep (w <| walFile := append (walFile w) s |>) m.
Proof.
  intros [Hf H]. split; [exact Hf|]. intros tid. specialize (H tid). cbn.
  destruct (transferIndex w !! tid), (m !! tid); try done.
  destruct H as (H1 & H2). split; [by apply record_at_app|done].
Qed.

Lemma rep_insert w m tag e :
  wal_rep w m -> tag <> [] -> Forall (fun c => is_space c = false) tag ->
  wf_entry e -> we_type e = CROSS -> we_status e = PREPARED ->
  wal_rep
    (mk_wal (append (walFile w)
               (wal_record tag (we_tid e) (we_ballot_num e) (we_ballot_server_id e) (we_txn e)))
       (<[we_tid e := Z.of_nat (length (f_data (walFile w)))]> (transferIndex w)))
    (<[we_tid e := e]> m).
Proof.
  intros [Hf H] Hne Htag Hwf Hty Hst. split; [exact Hf|]. intros tid. cbn.
  destruct (decide (we_tid e = tid)) as [<-|Hneq].
  - rewrite !lookup_insert_eq. split; [by apply record_at_new|done].
  - rewrite !lookup_insert_ne by done. specialize (H tid).
    destruct (transferIndex w !! tid), (m !! tid); try done.
    destruct H as (H1 & H2). split; [by apply record_at_app|done].
Qed.

Lemma rep_delete w m tid :
  wal_rep w m -> wal_rep (w <| transferIndex ::= delete tid |>) (delete tid m).
Proof.
  intros [Hf H]. split; [exact Hf|]. intros tid'. cbn.
  destruct (decide (tid = tid')) as [<-|Hneq]; [by rewrite !lookup_delete_eq|].
  rewrite !lookup_delete_ne by done. apply H.
Qed.

Lemma rep_delete_append w m tid s :
  wal_rep w m ->
  wal_rep (w <| transferIndex ::= delete tid |> <| walFile := append (walFile w) s |>) (delete tid m).
Proof.
  intros H. pose (w' := w <| transferIndex ::= delete tid |>).
  change (wal_rep (w' <| walFile := append (walFile w') s |>) (delete tid m)).
  apply rep_append. by apply rep_delete.
Qed.

Lemma rep_init f : file_ok f -> wal_rep (WAL_init f) ∅.
Proof. intros Hf. split; [exact Hf|]. intros tid. cbn. by rewrite !lookup_empty. Qed.

Lemma rep_lookup_None w m tid : wal_rep w m -> transferIndex w !! tid = None <-> m !! tid = None.
Proof. intros [_ Hrep]. specialize (Hrep tid). by destruct (transferIndex w !! tid), (m !! tid). Qed.

Section Refinement.
Context {J : Indeterminate}.

Lemma rep_read w m tid pos :
  wal_rep w m -> transferIndex w !! tid = Some pos ->
  exists e, m !! tid = Some e /\ we_tid e = tid /\ wf_entry e /\
    getTransactionFromFile (walFile w) pos = e.
Proof.
  intros [Hf H] Hpos. specialize (H tid). rewrite Hpos in H.
  destruct (m !! tid) as [e|]; [|done]. destruct H as (Hat & Hwf & Htid & Hty & Hst).
  exists e. split_and!; [done..|]. rewrite (read_record _ _ e); [|apply Hf|done..].
  destruct e; cbn in *; by subst.
Qed.

Lemma txn_eta t : mk_txn (sender t) (receiver t) (amount t) = t.
Proof. by destruct t. Qed.

Lemma prepare_refines w m r b :
  wal_rep w m -> wf_transfer_req r -> wf_ballot b ->
  (prepareTransaction w r b).2 = (spec_prepare m r b).2 /\
  wal_rep (prepareTransaction w r b).1 (spec_prepare m r b).1.
Proof.
  intros Hrep [Ht Htid] [Hb1 Hb2]. unfold prepareTransaction, spec_prepare. cbn [fst snd].
  pose proof Hrep as [[Hr Hw] _]. unfold tellp. rewrite Hw, txn_eta.
  split; [done|]. apply (rep_insert w m (str "CS_PREPARE")
    (prepared_entry (tr_tid r) (b_num b) (b_server_id b) (tr_txn r))); [done|done| |done..].
  solve_tag.
Qed.

Lemma decide_refines w m tid :
  wal_rep w m ->
  (commitTransaction_cross w (mk_tid tid)).2 = (spec_decide m tid COMMITTED).2 /\
  wal_rep (commitTransaction_cross w (mk_tid tid)).1 (spec_decide m tid COMMITTED).1 /\
  (abortTransaction w (mk_tid tid)).2 = (spec_decide m tid ABORTED).2 /\
  wal_rep (abortTransaction w (mk_tid tid)).1 (spec_decide m tid ABORTED).1.
Proof.
  intros Hrep. unfold commitTransaction_cross, abortTransaction, spec_decide. cbn [tt_tid].
  pose proof Hrep as [[Hr Hw] _]. rewrite Hw. cbn [negb].
  destruct (transferIndex w !! tid) as [pos|] eqn:E.
  - destruct (rep_read w m tid pos Hrep E) as (e & -> & Htid & Hwf & ->).
    repeat split; first [by apply Hrep | apply rep_delete, rep_append; exact Hrep].
  - apply (rep_lookup_None w m) in E; [|done]. by rewrite E.
Qed.

Lemma commit_intra_refines w m r b :
  wal_rep w m ->
  (commitTransaction_intra w r b).2
    = mk_entry (tr_tid r) (b_num b) (b_server_id b) (tr_txn r) INTRA COMMITTED /\
  wal_rep (commitTransaction_intra w r b).1 m.
Proof.
  intros Hrep. unfold commitTransaction_intra. pose proof Hrep as [[Hr Hw] _].
  rewrite Hw, txn_eta. cbn [negb fst snd]. split; [done|by apply rep_append].
Qed.

Lemma insert_refines w m e :
  wal_rep w m -> wf_entry e -> wal_rep (insertEntry w e) (spec_insert m e).
Proof.
  intros Hrep Hwf. unfold insertEntry, spec_insert, tellp. pose proof Hrep as [[Hr Hw] _].
  rewrite Hw. cbn [negb]. destruct (we_status e) eqn:Est; cbn [fst snd].
  - by apply rep_append.
  - set (tag := _ ++ str "PREPARE").
    set (e' := e <| we_type := CROSS |>).
    refine (rep_insert w m tag e' Hrep _ _ Hwf eq_refl Est); unfold tag.
    + by case_decide.
    + case_decide; solve_tag.
  - by apply rep_delete_append.
  - by apply rep_delete_append.
Qed.

Lemma wal_step_refines w m o :
  wal_rep w m -> wal_op_wf o ->
  (wal_step w o).2 = (spec_step m o).2 /\ wal_rep (wal_step w o).1 (spec_step m o).1.
Proof.
  intros Hrep Ho. destruct o as [r b|r b|tid|tid|e]; cbn [wal_step spec_step wal_op_wf] in *.
  - destruct Ho. by apply prepare_refines.
  - destruct (commit_intra_refines w m r b Hrep) as [-> ?]. done.
  - by destruct (decide_refines w m tid Hrep) as (? & ? & _).
  - by destruct (decide_refines w m tid Hrep) as (_ & _ & ?).
  - split; [done|]. by apply insert_refines.
Qed.

Lemma wal_run_refines w m ops :
  wal_rep w m -> Forall wal_op_wf ops ->
  (run wal_step w ops).2 = (run spec_step m ops).2 /\
  wal_rep (run wal_step w ops).1 (run spec_step m ops).1.
Proof.
  revert w m. induction ops as [|o ops IH]; intros w m Hrep Hwf; [done|].
  inversion Hwf as [|? ? Ho Hops]; subst. cbn.
  destruct (wal_step_refines w m o Hrep Ho) as [-> Hrep'].
  destruct (IH _ _ Hrep' Hops) as [-> ?]. done.
Qed.

End Refinement.

(** C9. The log implements its specification. Starting from any readable and writable log file (whatever an earlier
    run left in it), every sequence of log operations returns exactly what
    the abstract map of prepared transactions returns, and ends in a state
    that still represents that map; in particular nothing depends on the
    uninitialised locals of [getTransactionFromFile]. *)
Theorem wal_refines_spec {J : Indeterminate} f ops :
  file_ok f -> Forall wal_op_wf ops ->
  (run wal_step (WAL_init f) ops).2 = (run spec_step ∅ ops).2 /\
  wal_rep (run wal_step (WAL_init f) ops).1 (run spec_step ∅ ops).1.
Proof. intros Hf Hops. apply wal_run_refines; [by apply rep_init|done]. Qed.

Definition sample_req : TransferReq := mk_transfer_req (mk_txn 2 1002 3) 17.
Definition sample_ballot : Ballot := mk_ballot 1 4.

Lemma wal_refines_spec_witness :
  (run (wal_step (J := no_entry)) (WAL_init (mk_file (str "old") true true))
     [op_prepare sample_req sample_ballot; op_commit 17; op_commit 17]).2
  = [prepared_entry 17 1 4 (mk_txn 2 1002 3);
     mk_entry 17 1 4 (mk_txn 2 1002 3) CROSS COMMITTED; no_entry].
Proof.
  assert (Forall wal_op_wf [op_prepare sample_req sample_ballot; op_commit 17; op_commit 17]) as H.
  { repeat constructor; vm_compute; done. }
  rewrite (proj1 (wal_refines_spec (J := no_entry) (mk_file (str "old") true true) _ (conj eq_refl eq_refl) H)).
  reflexivity.
Defined.

(** Operations that leave the prepared transaction [tid] alone. *)
Definition op_spares (tid : Z) (o : wal_op) : Prop :=
  match o with
  | op_prepare r _ => tr_tid r <> tid
  | op_commit_intra _ _ => True
  | op_commit t | op_abort t => t <> tid
  | op_insert e => we_tid e <> tid
  end.

Lemma spec_step_spares m o tid :
  op_spares tid o -> (spec_step m o).1 !! tid = m !! tid.
Proof.
  destruct o as [r b|r b|t|t|e]; cbn; intros H; try done.
  - by rewrite lookup_insert_ne.
  - unfold spec_decide. destruct (m !! t); [|done]. by apply lookup_delete_ne.
  - unfold spec_decide. destruct (m !! t); [|done]. by apply lookup_delete_ne.
  - unfold spec_insert. destruct (we_status e);
      [done|by rewrite lookup_insert_ne|by rewrite lookup_delete_ne..].
Qed.

Lemma spec_run_spares m ops tid :
  Forall (op_spares tid) ops -> (run spec_step m ops).1 !! tid = m !! tid.
Proof.
  intros H. revert m. induction H as [|o ops Ho Hops IH]; intros m; [done|].
  cbn. rewrite IH. by apply spec_step_spares.
Qed.

(** C21. A prepared transaction survives in the log. Whatever the log does for other
    transactions after [prepareTransaction], [commitTransaction] (or
    [abortTransaction]) with its id returns exactly the prepared entry with
    the decision as status, and afterwards the id is unknown: a second
    decision returns the empty entry and leaves the log as it is. *)
Theorem prepare_then_decide {J : Indeterminate} w m r b ops :
  wal_rep w m -> wf_transfer_req r -> wf_ballot b ->
  Forall wal_op_wf ops -> Forall (op_spares (tr_tid r)) ops ->
  let w' := (run wal_step (prepareTransaction w r b).1 ops).1 in
  let e := prepared_entry (tr_tid r) (b_num b) (b_server_id b) (tr_txn r) in
  let c := commitTransaction_cross w' (mk_tid (tr_tid r)) in
  let a := abortTransaction w' (mk_tid (tr_tid r)) in
  c.2 = e <| we_status := COMMITTED |> /\ a.2 = e <| we_status := ABORTED |> /\
  commitTransaction_cross c.1 (mk_tid (tr_tid r)) = (c.1, no_entry) /\
  abortTransaction a.1 (mk_tid (tr_tid r)) = (a.1, no_entry).
Proof.
  intros Hrep Hr Hb Hops Hsp w' e c a.
  destruct (prepare_refines w m r b Hrep Hr Hb) as [_ Hrep1].
  destruct (wal_run_refines _ _ ops Hrep1 Hops) as [_ Hrep2].
  assert ((run spec_step (spec_prepare m r b).1 ops).1 !! tr_tid r = Some e) as He.
  { rewrite spec_run_spares by done. apply lookup_insert_eq. }
  set (m' := (run spec_step (spec_prepare m r b).1 ops).1) in *.
  destruct (decide_refines w' m' (tr_tid r) Hrep2) as (Hc & Hcr & Ha & Har).
  unfold spec_decide in *. rewrite He in *. cbn [fst snd] in *.
  fold c in Hc, Hcr. fold a in Ha, Har.
  repeat split; try done.
  - unfold commitTransaction_cross at 1. cbn [tt_tid].
    by rewrite (proj2 (rep_lookup_None _ _ _ Hcr) (lookup_delete_eq _ _)).
  - unfold abortTransaction at 1. cbn [tt_tid].
    by rewrite (proj2 (rep_lookup_None _ _ _ Har) (lookup_delete_eq _ _)).
Qed.

Lemma prepare_then_decide_witness :
  let w' := (run (wal_step (J := no_entry))
     (prepareTransaction (WAL_init (mk_file [] true true)) sample_req sample_ballot).1
     [op_prepare (mk_transfer_req (mk_txn 5 6 7) 18) sample_ballot; op_abort 18]).1 in
  (commitTransaction_cross (J := no_entry) w' (mk_tid 17)).2
  = mk_entry 17 1 4 (mk_txn 2 1002 3) CROSS COMMITTED.
Proof.
  apply (prepare_then_decide (J := no_entry) (WAL_init (mk_file [] true true)) ∅ sample_req sample_ballot).
  - by apply rep_init.
  - vm_compute; done.
  - vm_compute; done.
  - repeat constructor; vm_compute; done.
  - repeat constructor; vm_compute; done.
Defined.

(** The log is append-only. No operation, on any file and with any failures, removes or
    rewrites a byte of the log file. *)
Theorem wal_append_only {J : Indeterminate} w ops :
  f_data (walFile w) `prefix_of` f_data (walFile (run wal_step w ops).1).
Proof.
  revert w. induction ops as [|o ops IH]; intros w; [done|]. cbn.
  etrans; [|apply IH]. clear.
  destruct o as [r b|r b|tid|tid|e]; cbn;
    unfold prepareTransaction, commitTransaction_intra, commitTransaction_cross, abortTransaction, insertEntry;
    cbn; repeat case_match; cbn; first [done | by eexists].
Qed.
