(* ===== verification/OutCall.v ===== *)
(** * Outgoing calls: class [OutCall] of [server/out_call.cc]

    An outgoing RPC of a server: the call object that waits for the reply and
    the message put on the wire.  [HandleRPCResponse], which dispatches the
    reply to the server, is in [Calls.v]. *)
From stdpp Require Import gmap list strings.
From Stdlib Require Import ZArith Lia Ascii.
From S2P Require Import Prelude Chars Types.

(** The status of a completed RPC, as far as the sources distinguish it. *)
Inductive Status := StatusOK | DEADLINE_EXCEEDED | OtherError.

Definition status_ok (s : Status) : bool :=
  match s with StatusOK => true | _ => false end.
Definition status_is_deadline (s : Status) : bool :=
  match s with DEADLINE_EXCEEDED => true | _ => false end.

Record OutCall := mk_out_call {
  oc_type : RequestTypes;
  oc_timeout_ms : Z;
  oc_prepareReq : PrepareReq;
  oc_prepareReply : PrepareRes;
  oc_acceptReq : AcceptReq;
  oc_acceptReply : AcceptRes;
  oc_syncReply : SyncRes;
  oc_status : Status
}.

#[export] Instance OutCall_settable : Settable OutCall := fun c =>
  mk_out_call (oc_type c) (oc_timeout_ms c) (oc_prepareReq c) (oc_prepareReply c)
    (oc_acceptReq c) (oc_acceptReply c) (oc_syncReply c) (oc_status c).

(** The constructor; the messages start at their defaults. *)
Definition OutCall_new (type : RequestTypes) (timeout_ms : Z) : OutCall :=
  mk_out_call type timeout_ms
    (mk_prepare_req default_ballot 0) default_prepare_res
    (mk_accept_req default_ballot default_transfer_req) default_accept_res
    default_sync_res StatusOK.

(** What a server asks of another one. *)
Inductive peer_msg :=
| MPrepare (r : PrepareReq)
| MAccept (r : AcceptReq)
| MCommit (r : CommitReq)
| MSync (r : SyncReq).

(** An effect of a handler: an RPC to a peer with the call object that awaits
    its reply, or a call through the null stub [operator[]] made for an
    unknown server (the process dies there). *)
Inductive Out :=
| Rpc (dest : Z) (msg : peer_msg) (call : OutCall)
| NullStub (dest : Z).

Definition sendPrepare (c : OutCall) (request : PrepareReq) (dest : Z) : Out :=
  Rpc dest (MPrepare request) (c <| oc_prepareReq := request |>).
Definition sendAccept (c : OutCall) (request : AcceptReq) (dest : Z) : Out :=
  Rpc dest (MAccept request) (c <| oc_acceptReq := request |>).
Definition sendCommit (c : OutCall) (request : CommitReq) (dest : Z) : Out :=
  Rpc dest (MCommit request) c.
Definition sendSync (c : OutCall) (request : SyncReq) (dest : Z) : Out :=
  Rpc dest (MSync request) c.
