(* ===== verification/Server.v ===== *)
(** * Server: class [ServerImpl] of [server/server.cc]

    The state of a server and one definition per handler.  The key-value
    store (leveldb) is not part of the program: it is the class [KVStore],
    whose laws [KVStoreLaws] state its documented behaviour.  Everything
    else the handlers touch is in the state record, the process-wide
    constants included. *)
From stdpp Require Import gmap list strings.
From Stdlib Require Import ZArith Lia Ascii.
From S2P Require Import Prelude Chars Types Config Wal OutCall.

(** ** The key-value store *)

Class KVStore (DB : Type) := {
  db_put : DB -> std_string -> std_string -> DB * bool;
  db_write : DB -> list (std_string * std_string) -> DB * bool;
  db_get : DB -> std_string -> option std_string
}.

(** What a store promises: a [Put] or [Write] whose status is ok is visible,
    other keys are never touched. *)
Class KVStoreLaws (DB : Type) `{KVStore DB} : Prop := {
  db_get_put d k v : (db_put d k v).2 = true -> db_get (db_put d k v).1 k = Some v;
  db_get_put_ne d k v k' : k <> k' -> db_get (db_put d k v).1 k' = db_get d k';
  db_get_write d l k v :
    (db_write d l).2 = true -> NoDup l.*1 -> (k, v) ∈ l -> db_get (db_write d l).1 k = Some v
}.

(** ** State *)

Record Server (DB : Type) := mk_server {
  consts : constants;
  server_id : Z;
  cluster_id : Z;
  stubs : list Z;
  i_am_disconnected : bool;
  disconnected : gmap Z bool;
  balances : gmap Z Z;
  locks : gset Z;
  db : DB;
  wal : WAL;
  log : list WALEntry;
  is_paxos_running : bool;
  paxos_tid : Z;
  ballot_num : Z;
  promised : bool;
  promised_num : Ballot;
  accepted : bool;
  accept_num : Ballot;
  accept_val : TransferReq;
  last_inserted : Z;
  last_inserted_ballot : Ballot;
  in_sync : bool;
  prepare_successes : Z;
  prepare_failures : Z;
  accept_successes : Z;
  accept_failures : Z;
  await_prepare_decision : bool;
  await_accept_decision : bool
}.
Arguments mk_server {DB}.
Arguments consts {DB}. Arguments server_id {DB}. Arguments cluster_id {DB}.
Arguments stubs {DB}. Arguments i_am_disconnected {DB}. Arguments disconnected {DB}.
Arguments balances {DB}. Arguments locks {DB}. Arguments db {DB}. Arguments wal {DB}.
Arguments log {DB}. Arguments is_paxos_running {DB}. Arguments paxos_tid {DB}.
Arguments ballot_num {DB}. Arguments promised {DB}. Arguments promised_num {DB}.
Arguments accepted {DB}. Arguments accept_num {DB}. Arguments accept_val {DB}.
Arguments last_inserted {DB}. Arguments last_inserted_ballot {DB}. Arguments in_sync {DB}.
Arguments prepare_successes {DB}. Arguments prepare_failures {DB}.
Arguments accept_successes {DB}. Arguments accept_failures {DB}.
Arguments await_prepare_decision {DB}. Arguments await_accept_decision {DB}.

#[export] Instance Server_settable DB : Settable (Server DB) := fun s =>
  mk_server (consts s) (server_id s) (cluster_id s) (stubs s) (i_am_disconnected s)
    (disconnected s) (balances s) (locks s) (db s) (wal s) (log s) (is_paxos_running s)
    (paxos_tid s) (ballot_num s) (promised s) (promised_num s) (accepted s) (accept_num s)
    (accept_val s) (last_inserted s) (last_inserted_ballot s) (in_sync s)
    (prepare_successes s) (prepare_failures s) (accept_successes s) (accept_failures s)
    (await_prepare_decision s) (await_accept_decision s).

Definition MAJORITY : Z := 2.
Definition RETRY_TIMEOUT_MS : Z := 10.
Definition RPC_TIMEOUT_MS : Z := 10.

Section Handlers.
Context {DB : Type} `{KVStore DB} {J : Indeterminate}.
Implicit Types s : Server DB.

(** ** Helpers *)

Definition client_in_cluster (s : Server DB) (client_id : Z) : bool :=
  getClusterIdFromClientId (consts s) client_id =? cluster_id s.

(** [balances[c]]: reading a missing key adds it with value 0. *)
Definition balance_of (s : Server DB) (c : Z) : Z := default 0 (balances s !! c).
Definition touch_balance (c : Z) (s : Server DB) : Server DB :=
  s <| balances ::= fun m => match m !! c with Some _ => m | None => <[c := 0]> m end |>.

(** [balances[c] += delta] *)
Definition add_balance (c delta : Z) (s : Server DB) : Server DB :=
  s <| balances ::= <[c := wrap32 (balance_of s c + delta)]> |>.

(** A failing [Put] is logged and ignored. *)
Definition updateBalance (client_id balance : Z) (s : Server DB) : Server DB :=
  s <| db ::= fun d => (db_put d (to_string client_id) (to_string balance)).1 |>.

(** [log.size() - 1] converted to [int]. *)
Definition last_index (l : list WALEntry) : Z := wrap32 (Z.of_nat (length l) - 1).

Definition push_log (e : WALEntry) (s : Server DB) : Server DB :=
  s <| log ::= fun l => l ++ [e] |>.

Definition lock (c : Z) (s : Server DB) : Server DB := s <| locks ::= fun l => {[c]} ∪ l |>.
Definition unlock (c : Z) (s : Server DB) : Server DB := s <| locks ::= fun l => l ∖ {[c]} |>.

(** A request to every replica, in the order of [stubs]. *)
Definition broadcast (s : Server DB) (type : RequestTypes) (send : OutCall -> Z -> Out) : list Out :=
  map (send (OutCall_new type RPC_TIMEOUT_MS)) (stubs s).

(** A sync request through [stubs[dest]]. *)
Definition request_sync (s : Server DB) (dest : Z) : list Out :=
  if decide (dest ∈ stubs s)
  then [sendSync (OutCall_new SYNC RPC_TIMEOUT_MS) (mk_sync_req (last_inserted s)) dest]
  else [NullStub dest].

Definition getLogEntryFromLocalLog (e : WALEntry) : LogEntry :=
  mk_log_entry (mk_txn (sender (we_txn e)) (receiver (we_txn e)) (amount (we_txn e)))
    (we_tid e) (type_to_int (we_type e)) (status_to_int (we_status e))
    (we_ballot_num e) (we_ballot_server_id e).

(** ** Recording transactions *)

Definition server_prepareTransaction (request : TransferReq) (ballot : Ballot) (s : Server DB) : Server DB :=
  let r := prepareTransaction (wal s) request ballot in
  let s := push_log r.2 (s <| wal := r.1 |>) in
  s <| last_inserted := last_index (log s) |> <| last_inserted_ballot := ballot |>.

Definition server_commitTransaction (request : TransferReq) (ballot : Ballot) (s : Server DB) : Server DB :=
  let r := commitTransaction_intra (wal s) request ballot in
  let entry := r.2 in
  let s := push_log entry (s <| wal := r.1 |>) in
  let s := add_balance (sender (we_txn entry)) (- amount (we_txn entry)) s in
  let s := add_balance (receiver (we_txn entry)) (amount (we_txn entry)) s in
  let s := updateBalance (sender (we_txn entry)) (balance_of s (sender (we_txn entry))) s in
  let s := updateBalance (receiver (we_txn entry)) (balance_of s (receiver (we_txn entry))) s in
  s <| last_inserted := last_index (log s) |> <| last_inserted_ballot := ballot |>.

(** One account's share of a two-phase-commit decision: the lock goes, and a
    commit moves the money. *)
Definition settle_account (c delta : Z) (is_commit : bool) (s : Server DB) : Server DB :=
  if client_in_cluster s c then
    let s := unlock c s in
    if is_commit then
      let s := add_balance c delta s in
      updateBalance c (balance_of s c) s
    else s
  else s.

Definition processTpcDecision (s : Server DB) (request : TpcTid) (is_commit : bool) : Server DB :=
  if i_am_disconnected s then s
  else
    let r := if is_commit then commitTransaction_cross (wal s) request
             else abortTransaction (wal s) request in
    let entry := r.2 in
    let s := s <| wal := r.1 |> in
    let s := if we_tid entry =? -1 then s else push_log entry s in
    let s := settle_account (sender (we_txn entry)) (- amount (we_txn entry)) is_commit s in
    settle_account (receiver (we_txn entry)) (amount (we_txn entry)) is_commit s.

(** ** The proposer *)

(** The start of a Paxos round: a new ballot, proposed to every replica. *)
Definition start_prepare (s : Server DB) (tid : Z) : Server DB * list Out :=
  let s := s <| is_paxos_running := true |> <| paxos_tid := tid |> in
  let s := s <| ballot_num ::= fun n => wrap32 (n + 1) |> in
  let ballot := mk_ballot (ballot_num s) (server_id s) in
  let prepare := mk_prepare_req ballot (last_inserted s) in
  let s := s <| promised := true |> <| promised_num := ballot |>
             <| await_prepare_decision := true |>
             <| prepare_successes := 1 |> <| prepare_failures := 0 |> in
  (s, broadcast s PREPARE (fun c => sendPrepare c prepare)).

(** The transaction conditions of the leader, with the entry the last
    comparison may add to [balances]. *)
Definition conditions_fail (s : Server DB) (t : Transaction) : Server DB * bool :=
  let sender_in_cluster := client_in_cluster s (sender t) in
  let receiver_in_cluster := client_in_cluster s (receiver t) in
  if (sender_in_cluster && bool_decide (sender t ∈ locks s))
     || (receiver_in_cluster && bool_decide (receiver t ∈ locks s)) then (s, true)
  else if sender_in_cluster then
    let s := touch_balance (sender t) s in
    (s, balance_of s (sender t) <? amount t)
  else (s, false).

(** The accept phase: the accounts are locked and the value is proposed. *)
Definition start_accept (s : Server DB) (request : TransferReq) (is_cross_shard : bool) : Server DB * list Out :=
  let t := tr_txn request in
  let s := if client_in_cluster s (sender t) then lock (sender t) s else s in
  let s := if client_in_cluster s (receiver t) then lock (receiver t) s else s in
  let s := lock (receiver t) s in
  let accept := mk_accept_req (promised_num s) request in
  let s := s <| accepted := true |> <| accept_num := promised_num s |> <| accept_val := request |>
             <| await_accept_decision := true |>
             <| accept_successes := 1 |> <| accept_failures := 0 |> in
  let s := if is_cross_shard then server_prepareTransaction request (accept_num s) s else s in
  (s, broadcast s ACCEPT (fun c => sendAccept c accept)).

(** The decision of the leader, once a majority has accepted. *)
Definition decide_commit (s : Server DB) (request : TransferReq) (is_cross_shard : bool) : Server DB * list Out :=
  let t := tr_txn request in
  let s := s <| await_accept_decision := false |> in
  let commit := mk_commit_req (accept_num s) in
  let outs := broadcast s COMMIT (fun c => sendCommit c commit) in
  let s :=
    if is_cross_shard then s
    else server_commitTransaction request (accept_num s) (unlock (receiver t) (unlock (sender t) s)) in
  (s <| promised := false |> <| accepted := false |>
     <| await_prepare_decision := false |> <| await_accept_decision := false |>
     <| is_paxos_running := false |> <| paxos_tid := -1 |>, outs).

(** A majority refused to accept: an intra-shard transaction gives its locks
    back, a cross-shard one keeps them for the coordinator's abort. *)
Definition fail_accept (s : Server DB) (request : TransferReq) (is_cross_shard : bool) : Server DB :=
  let t := tr_txn request in
  let s := s <| await_accept_decision := false |> <| is_paxos_running := false |> <| paxos_tid := -1 |> in
  if is_cross_shard then s else unlock (receiver t) (unlock (sender t) s).

(** [runPaxos]: the returned boolean says that [response] is final; [false]
    makes the caller try again later. *)
Definition runPaxos (s : Server DB) (request : TransferReq) (response : TransferRes)
    (is_cross_shard : bool) : Server DB * TransferRes * list Out * bool :=
  if in_sync s then (s, response, [], false)
  else
    let t := tr_txn request in
    let tid := tr_tid request in
    if is_paxos_running s && negb (paxos_tid s =? tid) then (s, response, [], false)
    else
      let response := response <| ts_tid := tid |> in
      if negb (await_prepare_decision s) && negb (await_accept_decision s) then
        let r := start_prepare s tid in (r.1, response, r.2, false)
      else if await_prepare_decision s then
        if MAJORITY <=? prepare_successes s then
          let s := s <| await_prepare_decision := false |> in
          let c := conditions_fail s t in
          let s := c.1 in
          if c.2 then
            (s <| is_paxos_running := false |> <| paxos_tid := -1 |>,
             response <| ts_ack := false |>, [], true)
          else
            let r := start_accept s request is_cross_shard in (r.1, response, r.2, false)
        else if MAJORITY <=? prepare_failures s then
          (s <| await_prepare_decision := false |> <| is_paxos_running := false |> <| paxos_tid := -1 |>,
           response <| ts_ack := false |>, [], true)
        else (s, response, [], false)
      else if await_accept_decision s then
        if MAJORITY <=? accept_successes s then
          let r := decide_commit s request is_cross_shard in
          (r.1, response <| ts_ack := true |>, r.2, true)
        else if MAJORITY <=? accept_failures s then
          (fail_accept s request is_cross_shard, response <| ts_ack := false |>, [], true)
        else (s, response, [], false)
      else (s, response, [], true).

Definition processTpcPrepare (s : Server DB) (request : TransferReq) (response : TransferRes) :=
  runPaxos s request response true.

Definition processTransferCall (s : Server DB) (request : TransferReq) (response : TransferRes) :=
  runPaxos s request response false.

(** ** The acceptor *)

Definition processPrepareCall (s : Server DB) (request : PrepareReq) : Server DB * PrepareRes * list Out :=
  let response := default_prepare_res in
  if i_am_disconnected s then
    (s, response <| pr_ack := false |> <| pr_ballot := pq_ballot request |>, [])
  else
    let r :=
      if ballot_num s <? b_num (pq_ballot request) then
        if pq_last_inserted request =? last_inserted s then
          (s <| promised := true |> <| promised_num := pq_ballot request |>
             <| ballot_num := b_num (pq_ballot request) |>, [], true)
        else if last_inserted s <? pq_last_inserted request then
          (s <| in_sync := true |>, request_sync s (b_server_id (pq_ballot request)), false)
        else (s, [], false)
      else (s, [], false) in
    let s := r.1.1 in
    let outs := r.1.2 in
    let ack := r.2 in
    let response := response <| pr_ack := ack |> <| pr_ballot := pq_ballot request |> in
    let response :=
      if ack && accepted s then
        response <| pr_accept_num := Some (accept_num s) |> <| pr_accept_val := Some (accept_val s) |>
      else if negb ack then
        let response := response <| pr_server_id := Some (server_id s) |> in
        let response :=
          if b_num (pq_ballot request) <=? ballot_num s
          then response <| pr_latest_ballot_num := Some (ballot_num s) |> else response in
        if pq_last_inserted request <? last_inserted s
        then response <| pr_last_inserted := Some (last_inserted s) |> else response
      else response in
    (s, response, outs).

(** [if (isClientInCluster(c)) { locks.insert(c); ++in_cluster; }] *)
Definition lock_if_mine (c : Z) (r : Server DB * Z) : Server DB * Z :=
  if client_in_cluster r.1 c then (lock c r.1, r.2 + 1) else r.
Definition unlock_if_mine (c : Z) (r : Server DB * Z) : Server DB * Z :=
  if client_in_cluster r.1 c then (unlock c r.1, r.2 + 1) else r.

Definition processAcceptCall (s : Server DB) (request : AcceptReq) : Server DB * AcceptRes :=
  if i_am_disconnected s then (s, mk_accept_res false (aq_ballot request))
  else if promised s && (b_num (aq_ballot request) =? b_num (promised_num s)) then
    let s := s <| accepted := true |> <| accept_num := aq_ballot request |> <| accept_val := aq_r request |> in
    let t := tr_txn (accept_val s) in
    let r := lock_if_mine (receiver t) (lock_if_mine (sender t) (s, 0)) in
    let s := r.1 in
    let s := if r.2 =? 1 then server_prepareTransaction (accept_val s) (accept_num s) s else s in
    (s, mk_accept_res true (aq_ballot request))
  else (s, mk_accept_res false (aq_ballot request)).

Definition processCommitCall (s : Server DB) (request : CommitReq) : Server DB :=
  if i_am_disconnected s then s
  else
    let commit_ballot_num := b_num (cq_ballot request) in
    if (b_num (promised_num s) =? commit_ballot_num) && (b_num (accept_num s) =? commit_ballot_num) then
      let s := s <| last_inserted := last_index (log s) |> <| last_inserted_ballot := accept_num s |> in
      let t := tr_txn (accept_val s) in
      let r := unlock_if_mine (receiver t) (unlock_if_mine (sender t) (s, 0)) in
      let s := r.1 in
      let s := if r.2 =? 2 then server_commitTransaction (accept_val s) (accept_num s) s else s in
      s <| promised := false |> <| accepted := false |>
    else s.

(** ** Synchronisation, queries *)

(** The loop of [processSyncCall] compares its [int] index with a [size_t]:
    a negative start is above every size. *)
Definition processSyncCall (s : Server DB) (request : SyncReq) : SyncRes :=
  let commit_idx := sq_last_inserted request in
  if commit_idx <? last_inserted s then
    let start := wrap32 (commit_idx + 1) in
    let entries := if start <? 0 then [] else drop (Z.to_nat start) (log s) in
    mk_sync_res true (map getLogEntryFromLocalLog entries) (last_inserted_ballot s)
  else mk_sync_res false [] default_ballot.

Definition processGetBalanceCall (s : Server DB) (request : BalanceReq) : Server DB * BalanceRes :=
  let s := touch_balance (bq_client request) s in
  (s, mk_balance_res (balance_of s (bq_client request))).

Definition processGetLogsCall (s : Server DB) : LogRes :=
  mk_log_res (map getLogEntryFromLocalLog (log s)).

(** ** Simulated disconnection *)

Definition resetDisconnectedState (s : Server DB) : Server DB :=
  foldl (fun s pair =>
           if getClusterIdFromServerId (consts s) pair.2 =? cluster_id s
           then s <| disconnected ::= <[pair.2 := false]> |> else s)
    (s <| i_am_disconnected := false |>) (server_ids (consts s)).

(** One server of the request; [constants::server_ids[name]] adds an unknown
    name with id 0. *)
Definition disconnect_one (s : Server DB) (name : std_string) : Server DB :=
  let ids := server_ids (consts s) in
  let id := default 0 (omap_get string_ltb name ids) in
  let s := match omap_get string_ltb name ids with
           | Some _ => s
           | None => s <| consts ::= fun c => c <| server_ids ::= omap_set string_ltb name 0 |> |>
           end in
  let s := if getClusterIdFromServerId (consts s) id =? cluster_id s
           then s <| disconnected ::= <[id := true]> |> else s in
  if id =? server_id s then s <| i_am_disconnected := true |> else s.

Definition processDisconnectCall (s : Server DB) (request : DisconnectReq) : Server DB :=
  foldl disconnect_one (resetDisconnectedState s) (dq_servers request).

(** ** Replies *)

Definition handlePrepareReply (s : Server DB) (status : Status) (request : PrepareReq)
    (response : PrepareRes) : Server DB * list Out :=
  if negb (await_prepare_decision s) then (s, [])
  else if status_is_deadline status
          && (b_num (pq_ballot request) =? b_num (promised_num s))
          && (b_server_id (pq_ballot request) =? server_id s) then
    (s <| prepare_failures ::= fun n => wrap32 (n + 1) |>, [])
  else if status_ok status
          && (b_num (pr_ballot response) =? b_num (promised_num s))
          && (b_server_id (pr_ballot response) =? server_id s) then
    let s := if pr_ack response then s <| prepare_successes ::= fun n => wrap32 (n + 1) |>
             else s <| prepare_failures ::= fun n => wrap32 (n + 1) |> in
    let s := match pr_latest_ballot_num response with
             | Some n => s <| ballot_num := n |> <| await_prepare_decision := false |>
             | None => s
             end in
    match pr_last_inserted response with
    | Some n =>
      if last_inserted s <? n then
        let s := s <| in_sync := true |> <| await_prepare_decision := false |> in
        (s, request_sync s (default 0 (pr_server_id response)))
      else (s, [])
    | None => (s, [])
    end
  else (s, []).

Definition handleAcceptReply (s : Server DB) (status : Status) (request : AcceptReq)
    (response : AcceptRes) : Server DB :=
  if negb (await_accept_decision s) then s
  else if status_is_deadline status
          && (b_num (aq_ballot request) =? b_num (accept_num s))
          && (b_server_id (aq_ballot request) =? server_id s) then
    s <| accept_failures ::= fun n => wrap32 (n + 1) |>
  else if status_ok status
          && (b_num (ar_ballot response) =? b_num (accept_num s))
          && (b_server_id (ar_ballot response) =? server_id s) then
    if ar_ack response then s <| accept_successes ::= fun n => wrap32 (n + 1) |>
    else s <| accept_failures ::= fun n => wrap32 (n + 1) |>
  else s.

Definition entry_of_log (e : LogEntry) : WALEntry :=
  mk_entry (le_tid e) (le_ballot_num e) (le_ballot_server_id e)
    (mk_txn (sender (le_txn e)) (receiver (le_txn e)) (amount (le_txn e)))
    (type_of_int (le_type e)) (status_of_int (le_status e)).

(** A committed entry moves the money of an account of this cluster. *)
Definition apply_entry (e : WALEntry) (c delta : Z) (s : Server DB) : Server DB :=
  if bool_decide (we_status e = COMMITTED) && client_in_cluster s c then
    let s := add_balance c delta s in
    updateBalance c (balance_of s c) s
  else s.

(** The body of the loop of [handleSyncReply]. *)
Definition sync_entry (s : Server DB) (l : LogEntry) : Server DB :=
  let entry := entry_of_log l in
  let s := push_log entry s in
  let s := s <| wal ::= fun w => insertEntry w entry |> in
  let s := apply_entry entry (sender (we_txn entry)) (- amount (we_txn entry)) s in
  apply_entry entry (receiver (we_txn entry)) (amount (we_txn entry)) s.

Definition handleSyncReply (s : Server DB) (status : Status) (response : SyncRes) : Server DB :=
  let s :=
    if status_ok status && sr_ack response then
      let s := foldl sync_entry s (sr_logs response) in
      s <| ballot_num := b_num (sr_last_inserted_ballot response) |>
        <| last_inserted ::= fun n => wrap32 (n + Z.of_nat (length (sr_logs response))) |>
        <| last_inserted_ballot := sr_last_inserted_ballot response |>
    else s in
  s <| in_sync := false |>.

(** ** Start-up *)

(** The constructor.  Counters and ballots the constructor leaves alone are
    read only after the code has assigned them, or have a default. *)
Definition ServerImpl (c : constants) (id : Z) (file : File) (d : DB) : Server DB :=
  resetDisconnectedState
    (mk_server c id (getClusterIdFromServerId c id) [] false ∅ ∅ ∅ d (WAL_init file) []
       false (-1) 0 false default_ballot false default_ballot default_transfer_req
       (-1) default_ballot false 0 0 0 0 false false).

Definition initial_clients (c : constants) (cluster : Z) : list Z :=
  filter (fun i => isClientInCluster c i cluster = true) (seqZ 1 total_clients).

(** The keys of [stubs] after [run]: the other servers of the cluster. *)
Definition peers (s : Server DB) : list Z :=
  (foldl (fun m p => omap_set Z.ltb p.2 tt m) []
     (filter (fun p => p.2 <> server_id s /\
                       getClusterIdFromServerId (consts s) p.2 = cluster_id s)
        (server_ids (consts s)))).*1.

(** [run] up to the event loop: the stubs of the other servers of the cluster,
    ten units for every client of the cluster, and one batch written to the
    store.  [None] is the early return on a store error. *)
Definition run_setup (s : Server DB) : option (Server DB) :=
  let s := s <| stubs := peers s |> in
  let clients := initial_clients (consts s) (cluster_id s) in
  let s := s <| balances ::= fun m => foldl (fun m i => <[i := 10]> m) m clients |> in
  let r := db_write (db s) (map (fun i => (to_string i, str "10")) clients) in
  if r.2 then Some (s <| db := r.1 |>) else None.

End Handlers.
