(* ===== verification/Store.v ===== *)
(** * A concrete key-value store

    The finite-map instance of the store interface of [Server.v], whose
    writes never fail: the concrete parameter the executable examples and the
    witnesses run with. *)
From stdpp Require Import gmap list strings.
From Stdlib Require Import ZArith Lia Ascii.
From S2P Require Import Prelude Chars Types Config Wal OutCall Server.

Abbreviation map_store := (gmap std_string std_string).

#[export] Instance map_store_ops : KVStore map_store := {|
  db_put d k v := (<[k := v]> d, true);
  db_write d l := (foldl (fun d p => <[p.1 := p.2]> d) d l, true);
  db_get d k := d !! k
|}.

(** A store whose writes always succeed. *)
Class KVStoreReliable (DB : Type) `{KVStore DB} : Prop := {
  db_put_ok d k v : (db_put d k v).2 = true
}.

Lemma foldl_insert_notin (d : map_store) l k :
  k ∉ l.*1 -> foldl (fun d p => <[p.1 := p.2]> d) d l !! k = d !! k.
Proof.
  revert d. induction l as [|[k' v'] l IH]; intros d Hk; [done|]. cbn in *.
  apply not_elem_of_cons in Hk as [Hne Hk].
  rewrite IH by done. by apply lookup_insert_ne.
Qed.

#[export] Instance map_store_laws : KVStoreLaws map_store.
Proof.
  split; cbn.
  - intros. apply lookup_insert_eq.
  - intros. by apply lookup_insert_ne.
  - intros d l k v _. revert d. induction l as [|[k' v'] l IH]; intros d Hnd Hin; cbn in *.
    { by apply elem_of_nil in Hin. }
    inversion Hnd as [|? ? Hni Hnd']; subst.
    apply elem_of_cons in Hin as [[= -> ->]|Hin]; [|by apply IH].
    rewrite foldl_insert_notin by done. apply lookup_insert_eq.
Qed.

#[export] Instance map_store_reliable : KVStoreReliable map_store.
Proof. by split. Qed.

(** The indeterminate locals of the executable examples. *)
Definition zero_junk : Indeterminate := mk_entry 0 0 0 default_txn CROSS PREPARED.

(** The server table of the default deployment: three clusters of three. *)
Definition default_config : constants := setupApplicationState 3 3 constants_default.

(** A server of the default deployment that has just started, restricted to
    the accounts [clients] (a start with all three thousand computes the same
    way, only slower). *)
Definition open_accounts (clients : list Z) (s : Server map_store) : Server map_store :=
  s <| stubs := peers s |>
    <| balances := foldl (fun m i => <[i := 10]> m) ∅ clients |>
    <| db := (db_write (db s) (map (fun i => (to_string i, str "10")) clients)).1 |>.

Definition boot (id : Z) (clients : list Z) : Server map_store :=
  open_accounts clients (ServerImpl default_config id (mk_file [] true true) ∅).
