(* ===== verification/Steps.v ===== *)
(** * Server events and reachable states

    Every way the event loop can enter [ServerImpl] is an event;
    [server_exec] runs its handler.  [reachable] are the states a server can
    be in after start-up and any sequence of events with machine-integer
    fields.  The two views [ctrl] (protocol control) and [bank] (accounts,
    log, store) carry the frame lemmas the invariant proofs rewrite with. *)
From stdpp Require Import gmap list strings.
From Stdlib Require Import ZArith Lia Ascii.
From S2P Require Import Prelude Chars Types Config Wal OutCall Server.

Inductive server_event :=
| ev_tpc_prepare (request : TransferReq) (response : TransferRes)
| ev_transfer (request : TransferReq) (response : TransferRes)
| ev_tpc_decision (request : TpcTid) (is_commit : bool)
| ev_prepare (request : PrepareReq)
| ev_accept (request : AcceptReq)
| ev_commit (request : CommitReq)
| ev_sync (request : SyncReq)
| ev_balance (request : BalanceReq)
| ev_logs
| ev_disconnect (request : DisconnectReq)
| ev_prepare_reply (status : Status) (request : PrepareReq) (response : PrepareRes)
| ev_accept_reply (status : Status) (request : AcceptReq) (response : AcceptRes)
| ev_sync_reply (status : Status) (response : SyncRes).

Section Steps.
Context {DB : Type} `{KVStore DB} {J : Indeterminate}.
Implicit Types s : Server DB.

Definition server_exec (s : Server DB) (e : server_event) : Server DB * list Out :=
  match e with
  | ev_tpc_prepare r p => let x := processTpcPrepare s r p in (x.1.1.1, x.1.2)
  | ev_transfer r p => let x := processTransferCall s r p in (x.1.1.1, x.1.2)
  | ev_tpc_decision r c => (processTpcDecision s r c, [])
  | ev_prepare r => let x := processPrepareCall s r in (x.1.1, x.2)
  | ev_accept r => ((processAcceptCall s r).1, [])
  | ev_commit r => (processCommitCall s r, [])
  | ev_sync r => (s, [])
  | ev_balance r => ((processGetBalanceCall s r).1, [])
  | ev_logs => (s, [])
  | ev_disconnect r => (processDisconnectCall s r, [])
  | ev_prepare_reply st q p => handlePrepareReply s st q p
  | ev_accept_reply st q p => (handleAcceptReply s st q p, [])
  | ev_sync_reply st p => (handleSyncReply s st p, [])
  end.

Definition server_run (s : Server DB) (es : list server_event) : Server DB :=
  foldl (fun s e => (server_exec s e).1) s es.

(** Events whose integer fields are machine integers; [-1] is no transaction
    id (it is the log's mark for a missing one). *)
Definition wf_log_entry (l : LogEntry) : Prop := wf_entry (entry_of_log l).

Definition event_wf (e : server_event) : Prop :=
  match e with
  | ev_tpc_prepare r _ | ev_transfer r _ => wf_transfer_req r /\ tr_tid r <> -1
  | ev_accept r => wf_transfer_req (aq_r r) /\ tr_tid (aq_r r) <> -1 /\ wf_ballot (aq_ballot r)
  | ev_prepare r => wf_ballot (pq_ballot r)
  | ev_prepare_reply _ _ r => match pr_latest_ballot_num r with Some n => in_int n | None => True end
  | ev_sync_reply _ r => Forall (fun l => wf_log_entry l /\ le_tid l <> -1) (sr_logs r) /\
                         wf_ballot (sr_last_inserted_ballot r)
  | ev_balance r => in_int (bq_client r)
  | _ => True
  end.

Definition reachable (s0 s : Server DB) : Prop :=
  exists es, Forall event_wf es /\ s = server_run s0 es.

Lemma reachable_ind_r (P : Server DB -> Prop) s0 s :
  P s0 -> (forall s e, event_wf e -> P s -> P (server_exec s e).1) -> reachable s0 s -> P s.
Proof.
  intros H0 Hstep (es & Hes & ->). unfold server_run. clear -H0 Hstep Hes.
  revert s0 H0. induction Hes as [|e es He Hes IH]; intros s0 H0; [done|]. cbn. eauto.
Qed.

(** ** Views *)

Record Ctrl := mk_ctrl {
  ct_in_sync : bool; ct_running : bool; ct_tid : Z; ct_ballot : Z;
  ct_promised : bool; ct_promised_num : Ballot; ct_accepted : bool; ct_accept_num : Ballot;
  ct_accept_val : TransferReq; ct_await_prepare : bool; ct_await_accept : bool;
  ct_prepare_successes : Z; ct_accept_successes : Z
}.

Definition ctrl (s : Server DB) : Ctrl :=
  mk_ctrl (in_sync s) (is_paxos_running s) (paxos_tid s) (ballot_num s) (promised s)
    (promised_num s) (accepted s) (accept_num s) (accept_val s) (await_prepare_decision s)
    (await_accept_decision s) (prepare_successes s) (accept_successes s).

Record Bank := mk_bank {
  bk_clusters : Z; bk_cluster : Z; bk_balances : gmap Z Z; bk_db : DB; bk_wal : WAL;
  bk_log : list WALEntry
}.

Definition bank (s : Server DB) : Bank :=
  mk_bank (num_clusters (consts s)) (cluster_id s) (balances s) (db s) (wal s) (log s).

(** Membership depends on the bank view alone. *)
Lemma client_in_cluster_view s s' c :
  num_clusters (consts s') = num_clusters (consts s) -> cluster_id s' = cluster_id s ->
  client_in_cluster s' c = client_in_cluster s c.
Proof. unfold client_in_cluster, getClusterIdFromClientId. by intros -> ->. Qed.

Lemma bank_eq s s' :
  bank s' = bank s ->
  num_clusters (consts s') = num_clusters (consts s) /\ cluster_id s' = cluster_id s /\
  balances s' = balances s /\ db s' = db s /\ wal s' = wal s /\ log s' = log s.
Proof. by intros [= -> -> -> -> -> ->]. Qed.

(** ** Frame lemmas *)

Lemma ctrl_lock c s : ctrl (lock c s) = ctrl s.
Proof. done. Qed.
Lemma ctrl_unlock c s : ctrl (unlock c s) = ctrl s.
Proof. done. Qed.
Lemma ctrl_add_balance c d s : ctrl (add_balance c d s) = ctrl s.
Proof. done. Qed.
Lemma ctrl_updateBalance c b s : ctrl (updateBalance c b s) = ctrl s.
Proof. done. Qed.
Lemma ctrl_touch c s : ctrl (touch_balance c s) = ctrl s.
Proof. done. Qed.
Lemma ctrl_server_prepare r b s : ctrl (server_prepareTransaction r b s) = ctrl s.
Proof. done. Qed.
Lemma ctrl_server_commit r b s : ctrl (server_commitTransaction r b s) = ctrl s.
Proof. done. Qed.

Lemma ctrl_settle c d b s : ctrl (settle_account c d b s) = ctrl s.
Proof. unfold settle_account. by repeat case_match. Qed.

Lemma ctrl_decision s r b : ctrl (processTpcDecision s r b) = ctrl s.
Proof.
  unfold processTpcDecision. destruct (i_am_disconnected s); [done|].
  rewrite !ctrl_settle. by case_match.
Qed.

Lemma ctrl_apply_entry e c d s : ctrl (apply_entry e c d s) = ctrl s.
Proof. unfold apply_entry. by case_match. Qed.

Lemma ctrl_sync_entry s l : ctrl (sync_entry s l) = ctrl s.
Proof. unfold sync_entry. by rewrite !ctrl_apply_entry. Qed.

Lemma ctrl_sync_entries s l : ctrl (foldl sync_entry s l) = ctrl s.
Proof. apply foldl_frame, ctrl_sync_entry. Qed.

Lemma ctrl_reset s : ctrl (resetDisconnectedState s) = ctrl s.
Proof.
  unfold resetDisconnectedState. rewrite (foldl_frame ctrl); [done|].
  intros s' p. by case_match.
Qed.

Lemma ctrl_disconnect_one s n : ctrl (disconnect_one s n) = ctrl s.
Proof. unfold disconnect_one. by repeat case_match. Qed.

Lemma ctrl_disconnect s r : ctrl (processDisconnectCall s r) = ctrl s.
Proof. unfold processDisconnectCall. rewrite (foldl_frame ctrl); [apply ctrl_reset|apply ctrl_disconnect_one]. Qed.

Lemma ctrl_conditions s t : ctrl (conditions_fail s t).1 = ctrl s.
Proof. unfold conditions_fail. by repeat case_match. Qed.

Lemma bank_reset s : bank (resetDisconnectedState s) = bank s.
Proof.
  unfold resetDisconnectedState. rewrite (foldl_frame bank); [done|].
  intros s' p. by case_match.
Qed.

Lemma bank_disconnect_one s n : bank (disconnect_one s n) = bank s.
Proof. unfold disconnect_one. by repeat case_match. Qed.

Lemma bank_disconnect s r : bank (processDisconnectCall s r) = bank s.
Proof. unfold processDisconnectCall. rewrite (foldl_frame bank); [apply bank_reset|apply bank_disconnect_one]. Qed.

Lemma bank_start_prepare s tid : bank (start_prepare s tid).1 = bank s.
Proof. done. Qed.

Lemma bank_prepare_call s r : bank (processPrepareCall s r).1.1 = bank s.
Proof. unfold processPrepareCall. by repeat case_match. Qed.

Lemma bank_prepare_reply s st q p : bank (handlePrepareReply s st q p).1 = bank s.
Proof. unfold handlePrepareReply. by repeat case_match. Qed.

Lemma bank_accept_reply s st q p : bank (handleAcceptReply s st q p) = bank s.
Proof. unfold handleAcceptReply. by repeat case_match. Qed.

End Steps.

Create Rewrite HintDb frame.
#[export] Hint Rewrite @ctrl_lock @ctrl_unlock @ctrl_add_balance @ctrl_updateBalance @ctrl_touch
  @ctrl_server_prepare @ctrl_server_commit @ctrl_settle @ctrl_decision @ctrl_apply_entry
  @ctrl_sync_entry @ctrl_sync_entries @ctrl_reset @ctrl_disconnect @ctrl_conditions : frame.
#[export] Hint Rewrite @bank_reset @bank_disconnect @bank_start_prepare @bank_prepare_call
  @bank_prepare_reply @bank_accept_reply : frame.
