(* ===== verification/Protocol.v ===== *)
(** * The proposer

    The control state machine of [runPaxos]: its invariant over all reachable
    states, what a final answer means, and when accept and commit messages
    are sent. *)
From stdpp Require Import gmap list strings.
From Stdlib Require Import ZArith Lia Ascii.
From S2P Require Import Prelude Chars Types Config Wal OutCall Server Store Steps.

(** ** The control invariant *)

(** At most one phase is awaited, only while Paxos runs, and a resting
    proposer has no transaction. *)
Definition ctrl_ok (k : Ctrl) : Prop :=
  ct_await_prepare k && ct_await_accept k = false /\
  (ct_await_prepare k || ct_await_accept k = true -> ct_running k = true) /\
  (ct_running k = false -> ct_tid k = -1).

Section Protocol.
Context {DB : Type} `{KVStore DB} {J : Indeterminate}.
Implicit Types s : Server DB.

(** The messages of a list of effects. *)
Definition sends (outs : list Out) (m : peer_msg) : Prop := exists d c, Rpc d m c ∈ outs.

Lemma broadcast_elem s type send o :
  o ∈ broadcast s type send <-> exists d, d ∈ stubs s /\ o = send (OutCall_new type RPC_TIMEOUT_MS) d.
Proof.
  unfold broadcast. rewrite list_elem_of_In, in_map_iff. setoid_rewrite list_elem_of_In. naive_solver.
Qed.

(** What [runPaxos] did, one constructor per path of the code. *)
Inductive paxos_case (s : Server DB) (req : TransferReq) (cross : bool) :
    Server DB -> list Out -> option bool -> Prop :=
| pc_wait :
    paxos_case s req cross s [] None
| pc_start :
    in_sync s = false ->
    (is_paxos_running s = true -> paxos_tid s = tr_tid req) ->
    await_prepare_decision s = false -> await_accept_decision s = false ->
    paxos_case s req cross (start_prepare s (tr_tid req)).1 (start_prepare s (tr_tid req)).2 None
| pc_conditions c :
    await_prepare_decision s = true -> MAJORITY <= prepare_successes s ->
    c = conditions_fail (s <| await_prepare_decision := false |>) (tr_txn req) -> c.2 = true ->
    paxos_case s req cross (c.1 <| is_paxos_running := false |> <| paxos_tid := -1 |>) [] (Some false)
| pc_accept c :
    in_sync s = false ->
    (is_paxos_running s = true -> paxos_tid s = tr_tid req) ->
    await_prepare_decision s = true -> MAJORITY <= prepare_successes s ->
    c = conditions_fail (s <| await_prepare_decision := false |>) (tr_txn req) -> c.2 = false ->
    paxos_case s req cross (start_accept c.1 req cross).1 (start_accept c.1 req cross).2 None
| pc_prepare_failed :
    await_prepare_decision s = true -> prepare_successes s < MAJORITY -> MAJORITY <= prepare_failures s ->
    paxos_case s req cross
      (s <| await_prepare_decision := false |> <| is_paxos_running := false |> <| paxos_tid := -1 |>)
      [] (Some false)
| pc_commit :
    in_sync s = false ->
    (is_paxos_running s = true -> paxos_tid s = tr_tid req) ->
    await_prepare_decision s = false -> await_accept_decision s = true ->
    MAJORITY <= accept_successes s ->
    paxos_case s req cross (decide_commit s req cross).1 (decide_commit s req cross).2 (Some true)
| pc_accept_failed :
    await_prepare_decision s = false -> await_accept_decision s = true ->
    accept_successes s < MAJORITY -> MAJORITY <= accept_failures s ->
    paxos_case s req cross (fail_accept s req cross) [] (Some false).

(** Every call takes one of these paths: the [return true] at the end of
    [runPaxos] is never reached. *)
Lemma runPaxos_case s req res cross s' res' outs b :
  runPaxos s req res cross = (s', res', outs, b) ->
  exists v, paxos_case s req cross s' outs v /\
    match v with
    | None => b = false
    | Some ack => b = true /\ res' = mk_transfer_res ack (tr_tid req)
    end.
Proof.
  unfold runPaxos. destruct (in_sync s) eqn:Es.
  { intros [= <- <- <- <-]. exists None. split; [apply pc_wait|done]. }
  destruct (is_paxos_running s && negb (paxos_tid s =? tr_tid req)) eqn:Er.
  { intros [= <- <- <- <-]. exists None. split; [apply pc_wait|done]. }
  assert (is_paxos_running s = true -> paxos_tid s = tr_tid req) as Hr.
  { intros Ht. rewrite Ht in Er. cbn in Er. destruct (Z.eqb_spec (paxos_tid s) (tr_tid req)); done. }
  clear Er. destruct (await_prepare_decision s) eqn:Ep; cbn [negb andb].
  - destruct (Z.leb_spec MAJORITY (prepare_successes s)) as [Hm|Hm].
    + destruct (conditions_fail _ _) as [s1 c] eqn:Ec. cbn [fst snd].
      destruct c; intros [= <- <- <- <-].
      * exists (Some false). split; [|done]. by apply (pc_conditions _ _ _ (s1, true)).
      * exists None. split; [|done]. by apply (pc_accept _ _ _ (s1, false)).
    + destruct (Z.leb_spec MAJORITY (prepare_failures s)); intros [= <- <- <- <-].
      * exists (Some false). split; [by apply pc_prepare_failed|done].
      * exists None. split; [apply pc_wait|done].
  - destruct (await_accept_decision s) eqn:Ea; cbn [negb].
    + destruct (Z.leb_spec MAJORITY (accept_successes s)); [|
        destruct (Z.leb_spec MAJORITY (accept_failures s))]; intros [= <- <- <- <-].
      * exists (Some true). split; [by apply pc_commit|done].
      * exists (Some false). split; [by eapply pc_accept_failed|done].
      * exists None. split; [apply pc_wait|done].
    + intros [= <- <- <- <-]. exists None. split; [by apply pc_start|done].
Qed.

Lemma start_accept_ctrl s req cross :
  ctrl (start_accept s req cross).1 =
  mk_ctrl (in_sync s) (is_paxos_running s) (paxos_tid s) (ballot_num s) (promised s)
    (promised_num s) true (promised_num s) req (await_prepare_decision s) true
    (prepare_successes s) 1.
Proof. unfold start_accept. by repeat case_match. Qed.

Lemma decide_commit_ctrl s req cross :
  ctrl (decide_commit s req cross).1 =
  mk_ctrl (in_sync s) false (-1) (ballot_num s) false (promised_num s) false (accept_num s)
    (accept_val s) false false (prepare_successes s) (accept_successes s).
Proof. unfold decide_commit. by case_match. Qed.

Lemma conditions_ctrl s t c :
  c = conditions_fail (s <| await_prepare_decision := false |>) t ->
  ctrl c.1 = ctrl (s <| await_prepare_decision := false |>).
Proof. intros ->. apply ctrl_conditions. Qed.

Lemma ctrl_ok_runPaxos s req res cross s' res' outs b :
  runPaxos s req res cross = (s', res', outs, b) -> ctrl_ok (ctrl s) -> ctrl_ok (ctrl s').
Proof.
  intros (v & Hc & _)%runPaxos_case (H1 & H2 & H3). unfold ctrl_ok.
  destruct Hc as [|? ? Ep Ea|c Ep ? Ec|c ? ? Ep ? Ec|Ep ? ?|? ? Ep Ea|Ep Ea ? ?].
  - done.
  - cbn in *. by rewrite Ea.
  - apply conditions_ctrl in Ec. injection Ec as Hin _ _ _ _ _ _ _ _ Hap Haa _ _.
    cbn in *. rewrite Ep in H1. rewrite Hap, Haa. by destruct (await_accept_decision s).
  - apply conditions_ctrl in Ec. rewrite start_accept_ctrl.
    injection Ec as Hin Hrun Htid _ _ _ _ _ _ Hap Haa _ _. cbn in *.
    rewrite Hap, Hrun, Htid. rewrite Ep in H2. repeat split; [|done]. intros _. by apply H2.
  - cbn in *. rewrite Ep in H1. by destruct (await_accept_decision s).
  - by rewrite decide_commit_ctrl.
  - unfold fail_accept. by destruct cross; cbn in *; rewrite Ep.
Qed.

Definition same_phase s s' : Prop :=
  is_paxos_running s' = is_paxos_running s /\ paxos_tid s' = paxos_tid s /\
  await_accept_decision s' = await_accept_decision s /\
  await_prepare_decision s' = await_prepare_decision s.

Lemma ctrl_ok_same s s' : same_phase s s' -> ctrl_ok (ctrl s) -> ctrl_ok (ctrl s').
Proof. unfold ctrl_ok, same_phase. cbn. by intros (-> & -> & -> & ->). Qed.

(** A prepare reply can only end the wait for the prepare decision. *)
Lemma prepare_reply_ctrl s st q p :
  let s' := (handlePrepareReply s st q p).1 in
  is_paxos_running s' = is_paxos_running s /\ paxos_tid s' = paxos_tid s /\
  await_accept_decision s' = await_accept_decision s /\
  (await_prepare_decision s' = true -> await_prepare_decision s = true).
Proof.
  unfold handlePrepareReply. destruct (await_prepare_decision s) eqn:Ep; cbn [negb];
    repeat case_match; cbn; split_and!; solve [done | congruence].
Qed.

Lemma prepare_call_ctrl s r : same_phase s ((processPrepareCall s r).1.1).
Proof. unfold processPrepareCall. by repeat case_match. Qed.

Lemma accept_reply_ctrl s st q p : same_phase s (handleAcceptReply s st q p).
Proof. unfold handleAcceptReply. by repeat case_match. Qed.

Lemma lock_if_mine_ctrl c (r : Server DB * Z) : ctrl (lock_if_mine c r).1 = ctrl r.1.
Proof. unfold lock_if_mine. by case_match. Qed.
Lemma unlock_if_mine_ctrl c (r : Server DB * Z) : ctrl (unlock_if_mine c r).1 = ctrl r.1.
Proof. unfold unlock_if_mine. by case_match. Qed.

Lemma accept_call_ctrl s r :
  ctrl (processAcceptCall s r).1 = ctrl s \/
  ctrl (processAcceptCall s r).1 =
    ctrl (s <| accepted := true |> <| accept_num := aq_ballot r |> <| accept_val := aq_r r |>).
Proof.
  unfold processAcceptCall. destruct (i_am_disconnected s); [by left|].
  destruct (promised s && _); [|by left]. right. cbn [fst].
  destruct (_ =? 1); rewrite ?ctrl_server_prepare, !lock_if_mine_ctrl; done.
Qed.

Lemma commit_call_ctrl s r :
  ctrl (processCommitCall s r) = ctrl s \/
  ctrl (processCommitCall s r) = ctrl (s <| promised := false |> <| accepted := false |>).
Proof.
  unfold processCommitCall. destruct (i_am_disconnected s); [by left|].
  destruct (_ && _); [|by left]. right.
  set (s1 := s <| last_inserted := _ |> <| last_inserted_ballot := _ |>).
  set (r2 := unlock_if_mine _ _).
  assert (ctrl r2.1 = ctrl s) as H2 by (unfold r2; by rewrite !unlock_if_mine_ctrl).
  set (s3 := if r2.2 =? 2 then _ else _).
  assert (ctrl s3 = ctrl s) as H3 by (unfold s3; destruct (_ =? 2); by rewrite ?ctrl_server_commit).
  injection H3 as ? ? ? ? _ ? _ ? ? ? ? ? ?. unfold ctrl. cbn. congruence.
Qed.

Lemma sync_reply_ctrl s st p : same_phase s (handleSyncReply s st p).
Proof.
  unfold handleSyncReply. destruct (_ && _); [|done].
  pose proof (ctrl_sync_entries s (sr_logs p)) as Hc.
  injection Hc as ? ? ? ? _ ? _ ? ? ? ? ? ?. by repeat split.
Qed.

Lemma ctrl_ok_exec s e : ctrl_ok (ctrl s) -> ctrl_ok (ctrl (server_exec s e).1).
Proof.
  intros Hok. destruct e as [r p|r p|r c|r|r|r|r|r| |r|st q p|st q p|st p]; cbn [server_exec fst snd].
  - destruct (processTpcPrepare s r p) as [[[s' res'] outs] b] eqn:E. by eapply ctrl_ok_runPaxos.
  - destruct (processTransferCall s r p) as [[[s' res'] outs] b] eqn:E. by eapply ctrl_ok_runPaxos.
  - by rewrite ctrl_decision.
  - by eapply ctrl_ok_same, Hok; apply prepare_call_ctrl.
  - destruct (accept_call_ctrl s r) as [-> | ->]; done.
  - destruct (commit_call_ctrl s r) as [-> | ->]; done.
  - done.
  - unfold processGetBalanceCall. cbn [fst]. by rewrite ctrl_touch.
  - done.
  - by rewrite ctrl_disconnect.
  - destruct (prepare_reply_ctrl s st q p) as (H1 & H2 & H3 & H4). destruct Hok as (K1 & K2 & K3).
    unfold ctrl_ok. cbn in *. rewrite H1, H2, H3.
    destruct (await_prepare_decision (handlePrepareReply s st q p).1); [by rewrite H4 in * by done|].
    repeat split; [|done]. cbn. intros Ha. apply K2. rewrite Ha. apply orb_true_r.
  - by eapply ctrl_ok_same, Hok; apply accept_reply_ctrl.
  - by eapply ctrl_ok_same, Hok; apply sync_reply_ctrl.
Qed.

Lemma ctrl_ok_init c id f (d : DB) : ctrl_ok (ctrl (ServerImpl c id f d)).
Proof. unfold ServerImpl. by rewrite ctrl_reset. Qed.

Lemma ctrl_run_setup s s0 : run_setup s = Some s0 -> ctrl s0 = ctrl s.
Proof. unfold run_setup. case_match; [|done]. by intros [= <-]. Qed.

(** C15. The phases of the proposer. In every state a server reaches after start-up, it waits for at most
    one of the prepare and accept decisions, it waits only while a Paxos
    instance is marked as running, and when none is running the recorded
    transaction id is [-1]. *)
Theorem reachable_ctrl_ok c id f (d : DB) s0 s :
  run_setup (ServerImpl c id f d) = Some s0 -> reachable s0 s ->
  (await_prepare_decision s && await_accept_decision s = false) /\
  (await_prepare_decision s || await_accept_decision s = true -> is_paxos_running s = true) /\
  (is_paxos_running s = false -> paxos_tid s = -1).
Proof.
  intros H0 Hr. apply (reachable_ind_r (fun s => ctrl_ok (ctrl s)) s0 s); [|by auto using ctrl_ok_exec|done].
  rewrite (ctrl_run_setup _ _ H0). apply ctrl_ok_init.
Qed.
End Protocol.

(** The witness runs one request on a freshly started server. *)
Lemma reachable_ctrl_ok_witness :
  exists s0 : Server map_store,
    run_setup (ServerImpl default_config 1 (mk_file [] true true) ∅) = Some s0 /\
    let s := server_run (J := zero_junk) s0
      [ev_transfer (mk_transfer_req (mk_txn 1 2 3) 7) default_transfer_res] in
    (is_paxos_running s = false -> paxos_tid s = -1).
Proof.
  eexists. split; [reflexivity|]. cbv zeta.
  eapply (reachable_ctrl_ok (J := zero_junk) default_config 1 (mk_file [] true true) ∅); [reflexivity|].
  eexists. split; [|reflexivity]. repeat constructor; vm_compute; done.
Defined.

Section Proposer.
Context {DB : Type} `{KVStore DB} {J : Indeterminate}.
Implicit Types s : Server DB.

(** ** What the proposer answers and sends *)

Lemma decide_commit_released s req cross :
  let s' := (decide_commit s req cross).1 in
  is_paxos_running s' = false /\ paxos_tid s' = -1 /\
  await_prepare_decision s' = false /\ await_accept_decision s' = false.
Proof. unfold decide_commit. by case_match. Qed.

Lemma fail_accept_released s req cross :
  let s' := fail_accept s req cross in
  is_paxos_running s' = false /\ paxos_tid s' = -1 /\
  await_prepare_decision s' = await_prepare_decision s /\ await_accept_decision s' = false.
Proof. unfold fail_accept. by case_match. Qed.

(** C12. A final answer. When [runPaxos] reports a final response in a reachable control state, the
    response carries the request's id, the proposer is released (nothing
    runs, nothing is awaited), and the answer is positive exactly when the
    accept phase was being awaited with a majority of acceptances; a negative
    answer sends nothing. *)
Theorem final_answer s req res cross s' res' outs :
  ctrl_ok (ctrl s) -> runPaxos s req res cross = (s', res', outs, true) ->
  ts_tid res' = tr_tid req /\
  is_paxos_running s' = false /\ paxos_tid s' = -1 /\
  await_prepare_decision s' = false /\ await_accept_decision s' = false /\
  (ts_ack res' = true <-> await_accept_decision s = true /\ MAJORITY <= accept_successes s) /\
  (ts_ack res' = false -> outs = []).
Proof.
  intros (H1 & H2 & H3) (v & Hc & Hv)%runPaxos_case. cbn in H1.
  destruct Hc as [|? ? Ep Ea|c Ep ? Ec|c ? ? Ep ? Ec|Ep ?|? ? Ep Ea|Ep Ea ?]; [done|done| | done| | |];
    destruct Hv as [_ ->]; cbn [ts_ack ts_tid].
  - apply conditions_ctrl in Ec. injection Ec as _ _ _ _ _ _ _ _ _ Hap Haa _ _. cbn in *.
    rewrite Ep in H1. rewrite Hap, Haa. destruct (await_accept_decision s); naive_solver.
  - cbn. rewrite Ep in H1. destruct (await_accept_decision s); naive_solver.
  - destruct (decide_commit_released s req cross) as (-> & -> & -> & ->). naive_solver.
  - destruct (fail_accept_released s req cross) as (-> & -> & -> & ->).
    split_and!; try done. split; [done|]. intros [_ Hm]. lia.
Qed.

(** *** The conditions of the leader *)

Lemma balance_of_touch c d s : balance_of (touch_balance c s) d = balance_of s d.
Proof.
  unfold balance_of, touch_balance. cbn. destruct (balances s !! c) eqn:E; [done|].
  destruct (decide (c = d)) as [<-|Hne]; [by rewrite E, lookup_insert_eq|].
  by rewrite lookup_insert_ne.
Qed.

Lemma conditions_hold s t s' :
  conditions_fail s t = (s', false) ->
  (client_in_cluster s (sender t) = true -> sender t ∉ locks s /\ amount t <= balance_of s (sender t)) /\
  (client_in_cluster s (receiver t) = true -> receiver t ∉ locks s).
Proof.
  unfold conditions_fail.
  destruct (client_in_cluster s (sender t)) eqn:Es, (client_in_cluster s (receiver t)) eqn:Er; cbn [andb orb];
    repeat case_bool_decide; cbn [andb orb]; intros Heq; try done;
    (split; [|by intros]); intros _; (split; [done|]);
    apply (f_equal snd) in Heq; cbn [snd] in Heq; apply Z.ltb_ge in Heq; by rewrite balance_of_touch in Heq.
Qed.

(** The conditions are checked without touching locks or balances of known
    accounts. *)
Lemma conditions_frame s t :
  let s' := (conditions_fail s t).1 in
  locks s' = locks s /\ stubs s' = stubs s /\ cluster_id s' = cluster_id s /\ consts s' = consts s /\
  promised_num s' = promised_num s /\ forall c, balance_of s' c = balance_of s c.
Proof.
  unfold conditions_fail. repeat case_match; split_and!; try done.
  intros c. apply balance_of_touch.
Qed.

Lemma sends_broadcast s type send m :
  (forall c d, exists c', send c d = Rpc d m c') -> forall m', sends (broadcast s type send) m' -> m' = m.
Proof.
  intros Hsend m' (d & c & (d' & _ & Heq)%broadcast_elem).
  destruct (Hsend (OutCall_new type RPC_TIMEOUT_MS) d') as [c' Hc']. rewrite Hc' in Heq. congruence.
Qed.

Lemma sends_start_prepare s tid m :
  sends (start_prepare s tid).2 m ->
  m = MPrepare (mk_prepare_req (mk_ballot (wrap32 (ballot_num s + 1)) (server_id s)) (last_inserted s)).
Proof. apply sends_broadcast. by eauto. Qed.

Lemma sends_start_accept s req cross m :
  sends (start_accept s req cross).2 m -> m = MAccept (mk_accept_req (promised_num s) req).
Proof.
  assert (promised_num (start_accept s req cross).1 = promised_num s) as Hp.
  { unfold start_accept. by repeat case_match. }
  unfold start_accept. cbn [snd]. intros Hs. apply sends_broadcast with (m := MAccept (mk_accept_req (promised_num s) req)) in Hs; [done|].
  intros c d. eexists. unfold sendAccept. f_equal. f_equal. f_equal.
  by repeat case_match.
Qed.

Lemma sends_decide_commit s req cross m :
  sends (decide_commit s req cross).2 m -> m = MCommit (mk_commit_req (accept_num s)).
Proof. apply sends_broadcast. by eauto. Qed.

Lemma not_sends_nil m : ~ sends [] m.
Proof. intros (d & c & Hin). by apply elem_of_nil in Hin. Qed.

Lemma start_accept_locks s req cross :
  let s' := (start_accept s req cross).1 in
  receiver (tr_txn req) ∈ locks s' /\
  (client_in_cluster s (sender (tr_txn req)) = true -> sender (tr_txn req) ∈ locks s').
Proof.
  unfold start_accept.
  destruct (client_in_cluster s (sender (tr_txn req))) eqn:E1; destruct (client_in_cluster _ (receiver (tr_txn req)));
    destruct cross; cbn; split; first [done | set_solver].
Qed.

(** C10. Two-phase locking at the proposer. A server proposes a transaction (sends an accept request) only in the prepare phase,
    after a majority of promises, for the ballot it promised itself, and only
    if the accounts of its cluster are unlocked and the sender, when it is
    one of them, can pay; from then on those accounts are locked. *)
Theorem accept_sent_only_if s req res cross s' res' outs b a :
  runPaxos s req res cross = (s', res', outs, b) -> sends outs (MAccept a) ->
  let t := tr_txn req in
  a = mk_accept_req (promised_num s) req /\ b = false /\
  await_prepare_decision s = true /\ MAJORITY <= prepare_successes s /\
  (client_in_cluster s (sender t) = true ->
     sender t ∉ locks s /\ amount t <= balance_of s (sender t) /\ sender t ∈ locks s') /\
  (client_in_cluster s (receiver t) = true -> receiver t ∉ locks s) /\ receiver t ∈ locks s'.
Proof.
  intros (v & Hc & Hv)%runPaxos_case Hs t.
  destruct Hc as [|? ? Ep Ea|c Ep ? Ec|c ? ? Ep ? Ec Ecf|Ep ? ?|? ? Ep Ea|Ep Ea Hlt ?];
    try (by apply not_sends_nil in Hs).
  - by apply sends_start_prepare in Hs.
  - apply sends_start_accept in Hs as [= ->].
    pose proof (conditions_frame (s <| await_prepare_decision := false |>) t) as Hf.
    unfold t in Hf. rewrite <- Ec in Hf. destruct Hf as (_ & _ & Hcl & Hco & Hpn & _).
    destruct c as [s1 c]. cbn [fst snd] in *. subst c. symmetry in Ec. apply conditions_hold in Ec as [Hsnd Hrcv].
    destruct (start_accept_locks s1 req cross) as [Hl1 Hl2].
    assert (forall x, client_in_cluster s1 x = client_in_cluster s x) as Hv'.
    { intros x. apply client_in_cluster_view; [by rewrite Hco|done]. }
    rewrite Hv' in Hl2. rewrite Hpn. split_and!; try done.
    intros Hx. destruct (Hsnd Hx). by auto.
  - by apply sends_decide_commit in Hs.
Qed.

(** C11. A commit is decided by a majority. Commit messages go out only when the accept phase is awaited and a majority has
    accepted; every replica is told, the request is acknowledged, and an
    intra-shard transaction is logged and its accounts unlocked. *)
Theorem commit_sent_only_if s req res cross s' res' outs b m :
  runPaxos s req res cross = (s', res', outs, b) -> sends outs (MCommit m) ->
  m = mk_commit_req (accept_num s) /\ b = true /\ ts_ack res' = true /\
  await_accept_decision s = true /\ MAJORITY <= accept_successes s /\
  (forall d, d ∈ stubs s -> exists c, Rpc d (MCommit m) c ∈ outs) /\
  (cross = false -> sender (tr_txn req) ∉ locks s' /\ receiver (tr_txn req) ∉ locks s').
Proof.
  intros (v & Hc & Hv)%runPaxos_case Hs.
  destruct Hc as [|? ? Ep Ea|c Ep ? Ec|c ? ? Ep ? Ec Ecf|Ep ? ?|? ? Ep Ea|Ep Ea Hlt ?];
    try (by apply not_sends_nil in Hs).
  - by apply sends_start_prepare in Hs.
  - by apply sends_start_accept in Hs.
  - apply sends_decide_commit in Hs as [= ->]. destruct Hv as [-> ->]. split_and!; try done.
    + intros d Hd. eexists. apply broadcast_elem. exists d. by split.
    + intros ->. cbn. set_solver.
Qed.
End Proposer.

(** ** Witnesses: one intra-shard payment, driven to its commit *)

Definition pay : TransferReq := mk_transfer_req (mk_txn 1 2 3) 7.
Definition pay_step (s : Server map_store) := runPaxos s pay default_transfer_res false.

Definition proposing : Server map_store := (pay_step (boot 1 [1; 2])).1.1.1.
Definition promised_to : Server map_store :=
  (handlePrepareReply proposing StatusOK (mk_prepare_req (mk_ballot 1 1) (-1))
     (mk_prepare_res true (mk_ballot 1 1) None None None None None)).1.
Definition accepting : Server map_store := (pay_step promised_to).1.1.1.
Definition voted : Server map_store :=
  handleAcceptReply accepting StatusOK (mk_accept_req (mk_ballot 1 1) pay)
    (mk_accept_res true (mk_ballot 1 1)).
Definition committed : Server map_store := (pay_step voted).1.1.1.

Lemma pay_step_eta (s : Server map_store) :
  runPaxos s pay default_transfer_res false
  = ((pay_step s).1.1.1, (pay_step s).1.1.2, (pay_step s).1.2, (pay_step s).2).
Proof. change (runPaxos s pay default_transfer_res false) with (pay_step s). by destruct (pay_step s) as [[[? ?] ?] ?]. Qed.

(** The payment is acknowledged in the end, with the money moved. *)
Example payment_committed :
  (pay_step voted).2 = true /\ ts_ack (pay_step voted).1.1.2 = true /\
  balance_of committed 1 = 7 /\ balance_of committed 2 = 13 /\ length (log committed) = 1%nat.
Proof. vm_compute. split_and!; reflexivity. Qed.

Lemma final_answer_witness :
  ts_tid (pay_step voted).1.1.2 = 7 /\ is_paxos_running committed = false.
Proof.
  pose proof (pay_step_eta voted) as E. replace ((pay_step voted).2) with true in E by (vm_compute; reflexivity).
  destruct (final_answer voted pay default_transfer_res false _ _ _ ltac:(vm_compute; split_and!; done) E)
    as (H1 & H2 & _). split; [exact H1|exact H2].
Defined.

Lemma accept_sent_only_if_witness : 1 ∉ locks promised_to /\ 1 ∈ locks accepting.
Proof.
  destruct (accept_sent_only_if promised_to pay default_transfer_res false _ _ _ _
              (mk_accept_req (mk_ballot 1 1) pay) (pay_step_eta promised_to)) as (_ & _ & _ & _ & H1 & _).
  { exists 2. eexists. apply list_elem_of_In. vm_compute. left. reflexivity. }
  destruct H1 as (H1 & _ & H2); [vm_compute; reflexivity|].
  split; [exact H1|exact H2].
Defined.

Lemma commit_sent_only_if_witness : MAJORITY <= accept_successes voted /\ 1 ∉ locks committed.
Proof.
  destruct (commit_sent_only_if voted pay default_transfer_res false _ _ _ _
              (mk_commit_req (mk_ballot 1 1)) (pay_step_eta voted)) as (_ & _ & _ & _ & H1 & _ & H2).
  { exists 2. eexists. apply list_elem_of_In. vm_compute. left. reflexivity. }
  split; [exact H1|]. apply H2. reflexivity.
Defined.
