(* ===== verification/Acceptor.v ===== *)
(** * The acceptor and the counting of replies

    What [processPrepareCall], [processAcceptCall] and [processCommitCall]
    answer and record on every branch, the monotonicity of ballots and
    promises, and the counting of prepare replies. *)
From stdpp Require Import gmap list strings.
From Stdlib Require Import ZArith Lia Ascii.
From S2P Require Import Prelude Chars Types Config Wal OutCall Server Store Steps Protocol.

Section Acceptor.
Context {DB : Type} `{KVStore DB} {J : Indeterminate}.
Implicit Types s : Server DB.

(** ** Prepare *)

Lemma prepare_ack_iff s r :
  pr_ack (processPrepareCall s r).1.2 = true <->
  i_am_disconnected s = false /\ ballot_num s < b_num (pq_ballot r) /\ pq_last_inserted r = last_inserted s.
Proof.
  unfold processPrepareCall. destruct (i_am_disconnected s) eqn:Ed; [cbn; naive_solver|].
  destruct (Z.ltb_spec (ballot_num s) (b_num (pq_ballot r)));
  [destruct (Z.eqb_spec (pq_last_inserted r) (last_inserted s));
   [|destruct (Z.ltb_spec (last_inserted s) (pq_last_inserted r))]|];
    cbn [fst snd andb negb]; repeat case_match; cbn; split; try done; lia.
Qed.

Lemma prepare_ack_promises s r :
  pr_ack (processPrepareCall s r).1.2 = true -> promised_num (processPrepareCall s r).1.1 = pq_ballot r.
Proof.
  intros (Hd & Hb & Hl)%prepare_ack_iff. unfold processPrepareCall. rewrite Hd.
  destruct (Z.ltb_spec (ballot_num s) (b_num (pq_ballot r))); [|lia].
  destruct (Z.eqb_spec (pq_last_inserted r) (last_inserted s)); done.
Qed.

(** C17. The acceptor's answer to a prepare request. A connected acceptor promises exactly the ballots above its own whose
    proposer has the same last inserted entry; a promise records the ballot
    and reports the value accepted before, if any.  A refusal changes no
    promise; it reports the acceptor's ballot when the request's is not
    higher, its log position when the proposer is behind, and asks the
    proposer for the missing entries when the acceptor is behind.  Locks,
    accounts and logs are never touched. *)
Theorem prepare_call_spec s r :
  let '(s', p, outs) := processPrepareCall s r in
  let n := b_num (pq_ballot r) in
  pr_ballot p = pq_ballot r /\ bank s' = bank s /\ locks s' = locks s /\
  (pr_ack p = true <->
     i_am_disconnected s = false /\ ballot_num s < n /\ pq_last_inserted r = last_inserted s) /\
  (pr_ack p = true ->
     promised s' = true /\ promised_num s' = pq_ballot r /\ ballot_num s' = n /\
     in_sync s' = in_sync s /\ outs = [] /\
     pr_accept_num p = (if accepted s then Some (accept_num s) else None) /\
     pr_accept_val p = (if accepted s then Some (accept_val s) else None)) /\
  (pr_ack p = false ->
     promised s' = promised s /\ promised_num s' = promised_num s /\ ballot_num s' = ballot_num s) /\
  (i_am_disconnected s = false -> pr_ack p = false ->
     pr_latest_ballot_num p = (if n <=? ballot_num s then Some (ballot_num s) else None) /\
     pr_last_inserted p =
       (if pq_last_inserted r <? last_inserted s then Some (last_inserted s) else None) /\
     if (ballot_num s <? n) && (last_inserted s <? pq_last_inserted r)
     then in_sync s' = true /\ outs = request_sync s (b_server_id (pq_ballot r))
     else in_sync s' = in_sync s /\ outs = []).
Proof.
  destruct (processPrepareCall s r) as [[s' p] outs] eqn:E. revert E.
  unfold processPrepareCall. destruct (i_am_disconnected s) eqn:Ed.
  { intros [= <- <- <-]. cbn. naive_solver. }
  destruct (Z.ltb_spec (ballot_num s) (b_num (pq_ballot r))) as [Hb|Hb];
  [destruct (Z.eqb_spec (pq_last_inserted r) (last_inserted s)) as [Hl|Hl];
   [|destruct (Z.ltb_spec (last_inserted s) (pq_last_inserted r)) as [Hl'|Hl']]|];
    cbn [fst snd]; intros [= <- <- <-]; cbn;
    destruct (accepted s), (Z.ltb_spec (pq_last_inserted r) (last_inserted s)),
      (Z.leb_spec (b_num (pq_ballot r)) (ballot_num s)); cbn; try lia;
    split_and!; try (split; intros); split_and?; try done; lia.
Qed.


(** ** Accept *)

(** The accounts of the server's cluster among sender and receiver. *)
Definition my_accounts (s : Server DB) (t : Transaction) : gset Z :=
  (if client_in_cluster s (sender t) then {[sender t]} else ∅) ∪
  (if client_in_cluster s (receiver t) then {[receiver t]} else ∅).

(** Exactly one of the two accounts is of this cluster. *)
Definition is_cross (s : Server DB) (t : Transaction) : bool :=
  xorb (client_in_cluster s (sender t)) (client_in_cluster s (receiver t)).

Lemma client_in_cluster_lock s c x : client_in_cluster (lock c s) x = client_in_cluster s x.
Proof. done. Qed.
Lemma client_in_cluster_unlock s c x : client_in_cluster (unlock c s) x = client_in_cluster s x.
Proof. done. Qed.

Lemma lock_both s t :
  let r := lock_if_mine (receiver t) (lock_if_mine (sender t) (s, 0)) in
  r.1 = s <| locks ::= fun l => my_accounts s t ∪ l |> /\ (r.2 =? 1) = is_cross s t.
Proof.
  unfold lock_if_mine, my_accounts, is_cross. cbn [fst snd].
  destruct (client_in_cluster s (sender t)) eqn:E1; cbn [fst snd]; rewrite ?client_in_cluster_lock;
    destruct (client_in_cluster s (receiver t)) eqn:E2; cbn [fst snd]; (split; [|done]);
    unfold lock, upd; cbn; destruct s; cbn; f_equal; set_solver.
Qed.

Lemma unlock_both s t :
  let r := unlock_if_mine (receiver t) (unlock_if_mine (sender t) (s, 0)) in
  r.1 = s <| locks ::= fun l => l ∖ my_accounts s t |> /\
  (r.2 =? 2) = client_in_cluster s (sender t) && client_in_cluster s (receiver t).
Proof.
  unfold unlock_if_mine, my_accounts. cbn [fst snd].
  destruct (client_in_cluster s (sender t)) eqn:E1; cbn [fst snd]; rewrite ?client_in_cluster_unlock;
    destruct (client_in_cluster s (receiver t)) eqn:E2; cbn [fst snd]; (split; [|done]);
    unfold unlock, upd; cbn; destruct s; cbn; f_equal; set_solver.
Qed.

Lemma accept_ack_iff s r :
  ar_ack (processAcceptCall s r).2 = true <->
  i_am_disconnected s = false /\ promised s = true /\ b_num (aq_ballot r) = b_num (promised_num s).
Proof.
  unfold processAcceptCall. destruct (i_am_disconnected s), (promised s),
    (Z.eqb_spec (b_num (aq_ballot r)) (b_num (promised_num s))); cbn; naive_solver.
Qed.

(** C16. The acceptor's vote. A connected acceptor accepts exactly a request for the ballot it has promised;
    then it records ballot and value, locks the accounts of its cluster, and
    writes a prepared entry to log and write-ahead log when the transaction
    is cross-shard; otherwise nothing changes. *)
Theorem accept_call_spec s r :
  let '(s', p) := processAcceptCall s r in
  let t := tr_txn (aq_r r) in
  ar_ballot p = aq_ballot r /\
  (ar_ack p = true <-> i_am_disconnected s = false /\ promised s = true /\
                       b_num (aq_ballot r) = b_num (promised_num s)) /\
  (ar_ack p = false -> s' = s) /\
  (ar_ack p = true ->
     accepted s' = true /\ accept_num s' = aq_ballot r /\ accept_val s' = aq_r r /\
     locks s' = my_accounts s t ∪ locks s /\ balances s' = balances s /\ db s' = db s /\
     if is_cross s t then
       log s' = log s ++ [prepared_entry (tr_tid (aq_r r)) (b_num (aq_ballot r))
                            (b_server_id (aq_ballot r)) t] /\
       last_inserted s' = last_index (log s') /\ last_inserted_ballot s' = aq_ballot r /\
       wal s' = (prepareTransaction (wal s) (aq_r r) (aq_ballot r)).1
     else log s' = log s /\ last_inserted s' = last_inserted s /\ wal s' = wal s).
Proof.
  unfold processAcceptCall. destruct (i_am_disconnected s) eqn:Ed; [cbn; naive_solver|].
  destruct (promised s) eqn:Ep; cbn [andb]; [|cbn; naive_solver].
  destruct (Z.eqb_spec (b_num (aq_ballot r)) (b_num (promised_num s))) as [Hb|Hb]; [|cbn; naive_solver].
  set (s1 := s <| accepted := true |> <| accept_num := aq_ballot r |> <| accept_val := aq_r r |>).
  destruct (lock_both s1 (tr_txn (accept_val s1))) as [-> ->].
  change (is_cross s1 (tr_txn (accept_val s1))) with (is_cross s (tr_txn (aq_r r))).
  change (my_accounts s1 (tr_txn (accept_val s1))) with (my_accounts s (tr_txn (aq_r r))).
  destruct (is_cross s (tr_txn (aq_r r))); cbn; split_and!; try done.
  intros _. rewrite txn_eta. by split_and!.
Qed.

(** ** Commit *)

Lemma commit_call_locks s r :
  i_am_disconnected s = false -> promised_num s = cq_ballot r -> accept_num s = cq_ballot r ->
  locks (processCommitCall s r) = locks s ∖ my_accounts s (tr_txn (accept_val s)).
Proof.
  intros Hd Hp Ha. unfold processCommitCall. rewrite Hd, Hp, Ha, Z.eqb_refl. cbn [andb]. cbv zeta.
  set (s1 := s <| last_inserted := last_index (log s) |> <| last_inserted_ballot := cq_ballot r |>).
  destruct (unlock_both s1 (tr_txn (accept_val s1))) as [-> ->].
  by destruct (client_in_cluster s1 (sender (tr_txn (accept_val s1))) && _).
Qed.


End Acceptor.

Section Ballots.
Context {DB : Type} `{KVStore DB} {J : Indeterminate}.
Implicit Types s : Server DB.

(** ** Ballots only grow, synchronisation apart *)

(** The promise is never above the server's own ballot number. *)
Definition promise_ok (s : Server DB) : Prop := b_num (promised_num s) <= ballot_num s.

(** An event that cannot lower a ballot: no sync reply, and a prepare reply
    that reports a ballot reports one at least as high as the server's. *)
Definition raises_ballot (s : Server DB) (e : server_event) : Prop :=
  match e with
  | ev_sync_reply _ _ => False
  | ev_prepare_reply _ _ p =>
    match pr_latest_ballot_num p with Some n => ballot_num s <= n | None => True end
  | _ => ballot_num s < 2 ^ 31 - 1
  end.

(** A run all of whose events are of that kind where they happen. *)
Fixpoint raising_run (s : Server DB) (es : list server_event) : Prop :=
  match es with
  | [] => True
  | e :: es' => raises_ballot s e /\ raising_run (server_exec s e).1 es'
  end.

Definition ballots_grow (s s' : Server DB) : Prop :=
  ballot_num s <= ballot_num s' /\ b_num (promised_num s) <= b_num (promised_num s').

Lemma ballots_grow_same s s' :
  ballot_num s' = ballot_num s -> promised_num s' = promised_num s ->
  promise_ok s -> promise_ok s' /\ ballots_grow s s'.
Proof. unfold promise_ok, ballots_grow. intros -> ->. lia. Qed.

Lemma ctrl_ballots s k : ctrl s = k -> ballot_num s = ct_ballot k /\ promised_num s = ct_promised_num k.
Proof. by intros <-. Qed.

Lemma ballots_grow_start s tid :
  promise_ok s -> - 2 ^ 31 <= ballot_num s < 2 ^ 31 - 1 ->
  promise_ok (start_prepare s tid).1 /\ ballots_grow s (start_prepare s tid).1.
Proof.
  unfold promise_ok, ballots_grow, start_prepare. cbn. intros Hp Hb.
  rewrite wrap32_id by (unfold in_int; lia). lia.
Qed.

Lemma ballots_grow_runPaxos s req res cross s' res' outs b :
  runPaxos s req res cross = (s', res', outs, b) ->
  promise_ok s -> - 2 ^ 31 <= ballot_num s < 2 ^ 31 - 1 -> promise_ok s' /\ ballots_grow s s'.
Proof.
  intros (v & Hc & _)%runPaxos_case Hp Hb.
  destruct Hc as [|? ? Ep Ea|c Ep ? Ec|c ? ? Ep ? Ec Ecf|Ep ? ?|? ? Ep Ea|Ep Ea Hlt ?].
  - by apply ballots_grow_same.
  - by apply ballots_grow_start.
  - apply conditions_ctrl, ctrl_ballots in Ec as [? ?]. by apply ballots_grow_same.
  - apply conditions_ctrl, ctrl_ballots in Ec as [Hb1 Hb2].
    destruct (ctrl_ballots _ _ (start_accept_ctrl c.1 req cross)) as [Hb3 Hb4].
    apply ballots_grow_same; [by rewrite Hb3|by rewrite Hb4|done].
  - by apply ballots_grow_same.
  - destruct (ctrl_ballots _ _ (decide_commit_ctrl s req cross)) as [Hb3 Hb4].
    by apply ballots_grow_same.
  - apply ballots_grow_same; [by destruct cross..|done].
Qed.

Lemma ballots_grow_exec s e :
  promise_ok s -> - 2 ^ 31 <= ballot_num s -> raises_ballot s e ->
  promise_ok (server_exec s e).1 /\ ballots_grow s (server_exec s e).1.
Proof.
  intros Hp Hlo Hr.
  destruct e as [r p|r p|r c|r|r|r|r|r| |r|st q p|st q p|st p]; cbn [server_exec fst snd raises_ballot] in *.
  - destruct (processTpcPrepare s r p) as [[[s' res'] outs] b] eqn:E. by eapply ballots_grow_runPaxos.
  - destruct (processTransferCall s r p) as [[[s' res'] outs] b] eqn:E. by eapply ballots_grow_runPaxos.
  - destruct (ctrl_ballots _ _ (ctrl_decision s r c)). by apply ballots_grow_same.
  - pose proof (prepare_call_spec s r) as Hs.
    destruct (processPrepareCall s r) as [[s' p] outs]. cbn [fst].
    destruct Hs as (_ & _ & _ & Hack & Hyes & Hno & _). destruct (pr_ack p).
    + destruct Hyes as (_ & H1 & H2 & _); [done|]. destruct Hack as [(_ & Hlt & _) _]; [done|].
      unfold promise_ok, ballots_grow in *. rewrite H1, H2. lia.
    + destruct Hno as (_ & H1 & H2); [done|]. by apply ballots_grow_same.
  - destruct (accept_call_ctrl s r) as [E|E]; destruct (ctrl_ballots _ _ E); by apply ballots_grow_same.
  - destruct (commit_call_ctrl s r) as [E|E]; destruct (ctrl_ballots _ _ E); by apply ballots_grow_same.
  - by apply ballots_grow_same.
  - by apply ballots_grow_same.
  - by apply ballots_grow_same.
  - destruct (ctrl_ballots _ _ (ctrl_disconnect s r)). by apply ballots_grow_same.
  - unfold promise_ok, ballots_grow, handlePrepareReply in *.
    destruct (pr_latest_ballot_num p); repeat case_match; cbn; lia.
  - unfold handleAcceptReply. apply ballots_grow_same; [by repeat case_match..|done].
  - done.
Qed.

Lemma ballots_grow_run s es :
  promise_ok s -> - 2 ^ 31 <= ballot_num s -> raising_run s es ->
  promise_ok (server_run s es) /\ ballots_grow s (server_run s es).
Proof.
  revert s. induction es as [|e es IH]; intros s Hp Hlo Hr.
  { by apply ballots_grow_same. }
  destruct Hr as [He Hr]. destruct (ballots_grow_exec s e Hp Hlo He) as [Hp1 Hg1].
  unfold ballots_grow in *. destruct (IH _ Hp1 ltac:(lia) Hr) as [Hp2 Hg2].
  split; [done|]. unfold server_run in *. cbn. lia.
Qed.


End Ballots.

Section Counting.
Context {DB : Type} `{KVStore DB} {J : Indeterminate}.
Implicit Types s : Server DB.

(** ** Counting replies *)

(** A positive reply to the proposal [b] of server [id]. *)
Definition prepare_ack (b : Ballot) (id : Z) (e : server_event) : bool :=
  match e with
  | ev_prepare_reply st _ p =>
    status_ok st && (b_num (pr_ballot p) =? b_num b) && (b_server_id (pr_ballot p) =? id) && pr_ack p
  | _ => false
  end.
Definition accept_ack (b : Ballot) (id : Z) (e : server_event) : bool :=
  match e with
  | ev_accept_reply st _ p =>
    status_ok st && (b_num (ar_ballot p) =? b_num b) && (b_server_id (ar_ballot p) =? id) && ar_ack p
  | _ => false
  end.

Definition is_reply (e : server_event) : bool :=
  match e with ev_prepare_reply _ _ _ | ev_accept_reply _ _ _ => true | _ => false end.

(** The number of events of a list that satisfy a test. *)
Fixpoint count (p : server_event -> bool) (es : list server_event) : Z :=
  match es with
  | [] => 0
  | e :: es' => (if p e then 1 else 0) + count p es'
  end.

Lemma count_bounds p es : 0 <= count p es <= Z.of_nat (length es).
Proof. induction es as [|e es IH]; cbn [count length]; [lia|]. destruct (p e); lia. Qed.

(** What a reply leaves alone. *)
Definition round_same (s s' : Server DB) : Prop :=
  promised_num s' = promised_num s /\ accept_num s' = accept_num s /\ server_id s' = server_id s /\
  await_accept_decision s' = await_accept_decision s.

Lemma prepare_reply_counts s st q p :
  let s' := (handlePrepareReply s st q p).1 in
  round_same s s' /\ accept_successes s' = accept_successes s /\
  (await_prepare_decision s' = true ->
     await_prepare_decision s = true /\
     prepare_successes s' =
       if prepare_ack (promised_num s) (server_id s) (ev_prepare_reply st q p)
       then wrap32 (prepare_successes s + 1) else prepare_successes s).
Proof.
  unfold handlePrepareReply, round_same, prepare_ack.
  destruct (await_prepare_decision s) eqn:Ep; cbn [negb]; [|cbn; by rewrite Ep].
  destruct st; cbn [status_ok status_is_deadline andb]; [|case_match; cbn; by rewrite Ep|cbn; by rewrite Ep].
  destruct (_ && _); cbn [andb]; [|cbn; by rewrite Ep].
  destruct (pr_ack p), (pr_latest_ballot_num p), (pr_last_inserted p); repeat case_match; cbn;
    rewrite ?Ep; by split_and!.
Qed.

Lemma accept_reply_counts s st q p :
  let s' := handleAcceptReply s st q p in
  round_same s s' /\ prepare_successes s' = prepare_successes s /\
  await_prepare_decision s' = await_prepare_decision s /\
  (await_accept_decision s = true ->
     accept_successes s' =
       if accept_ack (accept_num s) (server_id s) (ev_accept_reply st q p)
       then wrap32 (accept_successes s + 1) else accept_successes s).
Proof.
  unfold handleAcceptReply, round_same, accept_ack.
  destruct (await_accept_decision s) eqn:Ep; cbn [negb]; [|cbn; by rewrite Ep].
  destruct st; cbn [status_ok status_is_deadline andb]; [|case_match; cbn; by rewrite Ep|cbn; by rewrite Ep].
  destruct (_ && _); cbn [andb]; [|cbn; by rewrite Ep].
  destruct (ar_ack p); cbn; rewrite ?Ep; by split_and!.
Qed.

Lemma reply_counts s e :
  is_reply e = true ->
  let s' := (server_exec s e).1 in
  round_same s s' /\
  (await_prepare_decision s' = true ->
     await_prepare_decision s = true /\
     prepare_successes s' = if prepare_ack (promised_num s) (server_id s) e
                            then wrap32 (prepare_successes s + 1) else prepare_successes s) /\
  (await_accept_decision s = true ->
     accept_successes s' = if accept_ack (accept_num s) (server_id s) e
                           then wrap32 (accept_successes s + 1) else accept_successes s).
Proof.
  destruct e as [| | | | | | | | | |st q p|st q p|]; try done; intros _; cbn [server_exec fst].
  - destruct (prepare_reply_counts s st q p) as (H1 & H2 & H3). split_and!; [done..|].
    intros _. by rewrite H2.
  - destruct (accept_reply_counts s st q p) as (H1 & H2 & H3 & H4). split_and!; [done| |done].
    rewrite H3, H2. done.
Qed.

Lemma count_exists p es : 1 <= count p es <-> Exists (fun e => p e = true) es.
Proof.
  rewrite Exists_exists. induction es as [|e es IH]; cbn [count].
  - split; [lia|]. intros (x & Hx & _). by apply elem_of_nil in Hx.
  - pose proof (count_bounds p es). destruct (p e) eqn:E.
    + split; [|lia]. intros _. exists e. split; [by left|done].
    + rewrite Z.add_0_l, IH. split.
      * intros (x & Hx & Hp). exists x. split; [by right|done].
      * intros (x & [->|Hx]%elem_of_cons & Hp); [congruence|by exists x].
Qed.

Lemma prepare_counts_run s es :
  Forall (fun e => is_reply e = true) es ->
  0 <= prepare_successes s -> prepare_successes s + Z.of_nat (length es) < 2 ^ 31 ->
  await_prepare_decision (server_run s es) = true ->
  await_prepare_decision s = true /\
  prepare_successes (server_run s es) =
    prepare_successes s + count (prepare_ack (promised_num s) (server_id s)) es.
Proof.
  intros Hes. revert s. induction Hes as [|e es He Hes IH]; intros s Hlo Hhi Haw.
  { split; [done|]. cbn. lia. }
  destruct (reply_counts s e He) as ((Hp & _ & Hid & _) & Hprep & _).
  unfold server_run in *. cbn [foldl] in *. cbn [length] in Hhi.
  set (s1 := (server_exec s e).1) in *.
  assert (0 <= prepare_successes s1 <= prepare_successes s + 1 \/ await_prepare_decision s1 = false) as Hs1.
  { destruct (await_prepare_decision s1) eqn:E; [left|by right]. destruct (Hprep eq_refl) as [_ ->].
    destruct (prepare_ack _ _ e); [rewrite wrap32_id by (unfold in_int; lia)|]; lia. }
  assert (forall s2, await_prepare_decision s2 = false ->
            await_prepare_decision (foldl (fun s e => (server_exec s e).1) s2 es) = false) as Hoff.
  { clear -Hes. induction Hes as [|e es He Hes IH]; intros s2 Hs2; [done|]. cbn. apply IH.
    destruct (reply_counts s2 e He) as (_ & Hpr & _).
    destruct (await_prepare_decision (server_exec s2 e).1); [|done]. destruct (Hpr eq_refl). congruence. }
  destruct Hs1 as [Hs1|Hs1]; [|by rewrite Hoff in Haw].
  destruct (IH s1) as [H1 H2]; [lia..|done|]. destruct (Hprep H1) as [H3 H4]. split; [done|].
  rewrite H2, Hp, Hid, H4. cbn [count].
  destruct (prepare_ack _ _ e); [rewrite wrap32_id by (unfold in_int; lia)|]; lia.
Qed.

Lemma accept_counts_run s es :
  Forall (fun e => is_reply e = true) es ->
  0 <= accept_successes s -> accept_successes s + Z.of_nat (length es) < 2 ^ 31 ->
  await_accept_decision s = true ->
  accept_successes (server_run s es) =
    accept_successes s + count (accept_ack (accept_num s) (server_id s)) es.
Proof.
  intros Hes. revert s. induction Hes as [|e es He Hes IH]; intros s Hlo Hhi Haw; [cbn; lia|].
  destruct (reply_counts s e He) as ((_ & Hp & Hid & Ha) & _ & Hacc). specialize (Hacc Haw).
  unfold server_run in *. cbn [foldl count]. cbn [length] in Hhi.
  assert (accept_successes (server_exec s e).1 =
    accept_successes s + if accept_ack (accept_num s) (server_id s) e then 1 else 0) as Hs1.
  { rewrite Hacc. destruct (accept_ack _ _ e); [rewrite wrap32_id by (unfold in_int; lia)|]; lia. }
  rewrite IH, Hp, Hid, Hs1; [lia|..|congruence]; destruct (accept_ack _ _ e); lia.
Qed.

End Counting.

(** ** Witnesses *)



Definition one_promise : list server_event :=
  [ev_prepare_reply StatusOK (mk_prepare_req (mk_ballot 1 1) (-1))
     (mk_prepare_res true (mk_ballot 1 1) None None None None None)].

