(* ===== verification/Ledger.v ===== *)
(** * Accounts, log and store

    The balances of a server are the replay of its log, and the key-value
    store holds them durably: one step lemma ([acct_step]) says how every
    handler moves a client's account, log and store record together, and the
    two invariants and the conservation of money follow from it. *)
From stdpp Require Import gmap list strings.
From Stdlib Require Import ZArith Lia Ascii.
From S2P Require Import Prelude Chars Types Config Wal OutCall Server Store Steps Protocol Acceptor.

(** What a log entry does to the account of [c]. *)
Definition entry_delta (c : Z) (e : WALEntry) : Z :=
  if decide (we_status e = COMMITTED) then
    (if sender (we_txn e) =? c then - amount (we_txn e) else 0) +
    (if receiver (we_txn e) =? c then amount (we_txn e) else 0)
  else 0.

Definition log_delta (c : Z) (l : list WALEntry) : Z := foldr (fun e acc => entry_delta c e + acc) 0 l.

Lemma log_delta_app c l1 l2 : log_delta c (l1 ++ l2) = log_delta c l1 + log_delta c l2.
Proof. induction l1 as [|e l1 IH]; cbn; [done|]. unfold log_delta in *. lia. Qed.

Section Ledger.
Context {DB : Type} `{KVStore DB} {J : Indeterminate}.
Implicit Types s : Server DB.

(** The clients a server keeps the accounts of. *)
Definition mine (s : Server DB) (c : Z) : Prop :=
  1 <= c <= total_clients /\ client_in_cluster s c = true.

(** The store's record of [c] is the balance in memory. *)
Definition store_at (s : Server DB) (c : Z) : Prop :=
  db_get (db s) (to_string c) = Some (to_string (balance_of s c)).

(** One account from [s] to [s']: the log grows by [es], the balance moves by
    their effect, and a store record that was right stays right. *)
Definition acct_step (s s' : Server DB) (c : Z) : Prop :=
  exists es, log s' = log s ++ es /\
    (in_int (balance_of s c) -> balance_of s' c = wrap32 (balance_of s c + log_delta c es)) /\
    (KVStoreLaws DB -> KVStoreReliable DB -> store_at s c -> store_at s' c).

Lemma acct_step_refl s c : acct_step s s c.
Proof.
  exists []. rewrite app_nil_r. split_and!; [done| |done].
  intros Hb. cbn. rewrite Z.add_0_r. by rewrite wrap32_id.
Qed.

Lemma acct_step_trans s1 s2 s3 c : acct_step s1 s2 c -> acct_step s2 s3 c -> acct_step s1 s3 c.
Proof.
  intros (es1 & Hl1 & Hb1 & Hd1) (es2 & Hl2 & Hb2 & Hd2). exists (es1 ++ es2). split_and!.
  - by rewrite Hl2, Hl1, app_assoc.
  - intros Hb. rewrite Hb2 by (rewrite Hb1 by done; apply wrap32_range).
    rewrite Hb1, wrap32_add_l, log_delta_app by done. f_equal. lia.
  - auto.
Qed.

Lemma acct_step_bank s s' c : bank s' = bank s -> acct_step s s' c.
Proof.
  intros (_ & _ & Hbal & Hdb & _ & Hlog)%bank_eq. exists []. rewrite app_nil_r.
  unfold store_at, balance_of. rewrite Hbal, Hdb. split_and!; [done| |done].
  intros Hb. cbn. rewrite Z.add_0_r. by rewrite wrap32_id.
Qed.

(** ** Moving money *)

Lemma balance_of_add c d s x :
  balance_of (add_balance c d s) x = if decide (c = x) then wrap32 (balance_of s c + d) else balance_of s x.
Proof.
  unfold balance_of, add_balance. cbn. case_decide as Hc; [subst; by rewrite lookup_insert_eq|].
  by rewrite lookup_insert_ne.
Qed.

Lemma balance_of_update c b s x : balance_of (updateBalance c b s) x = balance_of s x.
Proof. done. Qed.

(** Putting the balance of [c] makes its record right and keeps the others. *)
Lemma store_at_update c s x :
  KVStoreLaws DB -> KVStoreReliable DB -> in_int c -> in_int x ->
  store_at s x \/ c = x -> store_at (updateBalance c (balance_of s c) s) x.
Proof.
  intros Hl Hr Hc Hx Hs. unfold store_at, updateBalance. cbn.
  change (balance_of (s <| db ::= _ |>) x) with (balance_of s x).
  destruct (decide (c = x)) as [<-|Hne].
  - apply db_get_put, db_put_ok.
  - rewrite db_get_put_ne; [by destruct Hs|].
    intros Heq. apply Hne. symmetry. apply to_string_inj; eauto with int_range.
Qed.

(** The two moves of an entry, as seen by the account of [x]. *)
Lemma wrap_two b d1 d2 : wrap32 (wrap32 (b + d1) + d2) = wrap32 (b + (d1 + d2)).
Proof. rewrite wrap32_add_l. f_equal. lia. Qed.

Lemma balance_of_moves t s x :
  in_int (balance_of s x) ->
  balance_of (add_balance (receiver t) (amount t) (add_balance (sender t) (- amount t) s)) x
  = wrap32 (balance_of s x + ((if sender t =? x then - amount t else 0) +
                              (if receiver t =? x then amount t else 0))).
Proof.
  intros Hb. rewrite !balance_of_add.
  destruct (Z.eqb_spec (sender t) x) as [->|Hs], (Z.eqb_spec (receiver t) x) as [->|Hr];
    repeat case_decide; try congruence; rewrite ?wrap_two, ?Z.add_0_l, ?Z.add_0_r; try done.
  by rewrite wrap32_id.
Qed.

Lemma acct_step_commit r b s x :
  f_can_write (walFile (wal s)) = true -> wf_txn (tr_txn r) -> in_int x ->
  acct_step s (server_commitTransaction r b s) x.
Proof.
  intros Hw (Hs & Hr & Ha) Hx. unfold server_commitTransaction, commitTransaction_intra.
  rewrite Hw, txn_eta. cbn [negb fst snd we_txn].
  set (s1 := push_log _ _).
  set (s2 := add_balance (receiver (tr_txn r)) _ _).
  eexists. split_and!; [reflexivity| |].
  - intros Hb. change (balance_of s2 x = wrap32 (balance_of s x + (entry_delta x
      (mk_entry (tr_tid r) (b_num b) (b_server_id b) (tr_txn r) INTRA COMMITTED) + 0))).
    rewrite Z.add_0_r. exact (balance_of_moves (tr_txn r) s1 x Hb).
  - intros Hlaws Hrel Hst.
    set (s3 := updateBalance (sender (tr_txn r)) (balance_of s2 (sender (tr_txn r))) s2).
    change (store_at (updateBalance (receiver (tr_txn r)) (balance_of s3 (receiver (tr_txn r))) s3) x).
    destruct (decide (receiver (tr_txn r) = x)) as [E|Hner].
    { apply store_at_update; auto. }
    apply store_at_update; try done. left. apply store_at_update; try done.
    destruct (decide (sender (tr_txn r) = x)) as [E|Hnes]; [by right|left].
    unfold store_at. unfold s2. rewrite !balance_of_add. repeat case_decide; try done.
Qed.

(** One account's share of an entry that is already in the log: the share of
    [settle_account] and [apply_entry]. *)
Lemma acct_move_one c d s x :
  in_int c -> in_int x ->
  let s1 := add_balance c d s in
  let s2 := updateBalance c (balance_of s1 c) s1 in
  log s2 = log s /\
  balance_of s2 x = (if decide (c = x) then wrap32 (balance_of s x + d) else balance_of s x) /\
  (KVStoreLaws DB -> KVStoreReliable DB -> store_at s x -> store_at s2 x).
Proof.
  intros Hc Hx s1 s2. split_and!; [done| |].
  - unfold s2, s1. rewrite balance_of_update, balance_of_add. case_decide; by subst.
  - intros Hl Hr Hs. apply store_at_update; try done.
    destruct (decide (c = x)) as [|Hne]; [by right|left].
    unfold store_at, s1. rewrite balance_of_add. by rewrite decide_False.
Qed.

(** An operation that moves at most one account, and only on a condition. *)
Definition one_share (c d : Z) (b : bool) (s s' : Server DB) (x : Z) : Prop :=
  log s' = log s /\ wal s' = wal s /\ (forall y, client_in_cluster s' y = client_in_cluster s y) /\
  (in_int (balance_of s x) ->
   balance_of s' x = wrap32 (balance_of s x + if b && (c =? x) then d else 0)) /\
  (KVStoreLaws DB -> KVStoreReliable DB -> store_at s x -> store_at s' x).

Lemma one_share_none c d b s x : b && (c =? x) = false -> one_share c d b s s x.
Proof.
  intros Hb. unfold one_share. rewrite Hb. split_and!; try done.
  intros Hi. by rewrite Z.add_0_r, wrap32_id.
Qed.

Lemma one_share_move c d s x :
  in_int c -> in_int x ->
  one_share c d true s (updateBalance c (balance_of (add_balance c d s) c) (add_balance c d s)) x.
Proof.
  intros Hc Hx. destruct (acct_move_one c d s x Hc Hx) as (H1 & H2 & H3).
  unfold one_share. split_and!; try done. intros Hi. rewrite H2. cbn [andb].
  destruct (Z.eqb_spec c x); case_decide; try done. by rewrite Z.add_0_r, wrap32_id.
Qed.

Lemma settle_share c d b s x :
  in_int c -> mine s x -> in_int x -> one_share c d b s (settle_account c d b s) x.
Proof.
  intros Hc [_ Hm] Hx. unfold settle_account. destruct (client_in_cluster s c) eqn:E.
  - destruct b; [|destruct (one_share_none c d false s x eq_refl) as (H1 & H2 & H3 & H4 & H5);
      unfold one_share; by split_and!].
    destruct (one_share_move c d (unlock c s) x Hc Hx) as (H1 & H2 & H3 & H4 & H5).
    unfold one_share. split_and!; done.
  - apply one_share_none. destruct (Z.eqb_spec c x); [congruence|apply andb_false_r].
Qed.

Lemma apply_share e c d s x :
  in_int c -> mine s x -> in_int x ->
  one_share c d (bool_decide (we_status e = COMMITTED)) s (apply_entry e c d s) x.
Proof.
  intros Hc [_ Hm] Hx. unfold apply_entry. destruct (bool_decide _); [|by apply one_share_none].
  cbn [andb]. destruct (client_in_cluster s c) eqn:E.
  - by apply one_share_move.
  - apply one_share_none. by destruct (Z.eqb_spec c x); [congruence|].
Qed.

(** The two shares of an entry make up its effect. *)
Lemma two_shares e b s s1 s2 x :
  one_share (sender (we_txn e)) (- amount (we_txn e)) b s s1 x ->
  one_share (receiver (we_txn e)) (amount (we_txn e)) b s1 s2 x ->
  b = bool_decide (we_status e = COMMITTED) ->
  log s2 = log s /\ wal s2 = wal s /\
  (in_int (balance_of s x) -> balance_of s2 x = wrap32 (balance_of s x + entry_delta x e)) /\
  (KVStoreLaws DB -> KVStoreReliable DB -> store_at s x -> store_at s2 x).
Proof.
  intros (Hl1 & Hw1 & _ & Hb1 & Hs1) (Hl2 & Hw2 & _ & Hb2 & Hs2) ->.
  split_and!; [congruence|congruence| |auto].
  intros Hi. rewrite Hb2 by (rewrite Hb1 by done; apply wrap32_range).
  rewrite Hb1, wrap_two by done. unfold entry_delta.
  case_bool_decide; [by rewrite decide_True|by rewrite decide_False].
Qed.

(** ** Every handler *)

(** What the ledger relies on of the write-ahead log: it represents a map of
    prepared transactions, none of them with the id [-1]. *)
Definition wal_good (w : WAL) : Prop := exists m, wal_rep w m /\ m !! (-1) = None.

Definition base_ok (s : Server DB) : Prop :=
  wal_good (wal s) /\ wf_transfer_req (accept_val s) /\ tr_tid (accept_val s) <> -1 /\
  wf_ballot (promised_num s) /\ in_int (server_id s).

(** One handler: the server stays well formed, keeps its clients, and moves
    every account of its cluster by what it logs. *)
Definition ledger_step (s s' : Server DB) : Prop :=
  base_ok s' /\ (forall x, client_in_cluster s' x = client_in_cluster s x) /\
  (forall x, mine s x -> acct_step s s' x).

Lemma mine_int s x : mine s x -> in_int x.
Proof. unfold mine, in_int, total_clients. lia. Qed.

Lemma ledger_intro s s' :
  base_ok s' -> (forall x, client_in_cluster s' x = client_in_cluster s x) ->
  (forall x, mine s x -> acct_step s s' x) -> ledger_step s s'.
Proof. unfold ledger_step. tauto. Qed.

Lemma ledger_refl s : base_ok s -> ledger_step s s.
Proof. intros Hok. apply ledger_intro; auto using acct_step_refl. Qed.

Lemma ledger_trans s1 s2 s3 : ledger_step s1 s2 -> ledger_step s2 s3 -> ledger_step s1 s3.
Proof.
  intros (_ & Hc1 & Ha1) (Hb & Hc2 & Ha2). apply ledger_intro; [done|congruence|].
  intros x Hx. eapply acct_step_trans; [by apply Ha1|]. apply Ha2.
  destruct Hx. split; [done|]. by rewrite Hc1.
Qed.

(** Steps that touch neither accounts nor log. *)
Lemma ledger_frame s s' :
  bank s' = bank s -> base_ok s' -> ledger_step s s'.
Proof.
  intros Hb Hok. apply ledger_intro; [done| |by intros; apply acct_step_bank].
  apply bank_eq in Hb as (H1 & H2 & _). intros x. by apply client_in_cluster_view.
Qed.

Lemma ledger_touch c s : base_ok s -> ledger_step s (touch_balance c s).
Proof.
  intros Hok. apply ledger_intro; [done|done|]. intros x _. exists []. rewrite app_nil_r.
  unfold store_at. rewrite balance_of_touch. split_and!; [done| |done].
  intros Hi. cbn. by rewrite Z.add_0_r, wrap32_id.
Qed.

Lemma ledger_prepare r b s :
  base_ok s -> wf_transfer_req r -> tr_tid r <> -1 -> wf_ballot b ->
  ledger_step s (server_prepareTransaction r b s).
Proof.
  intros ((m & Hrep & Hm) & Hok) Hr Ht Hb.
  destruct (prepare_refines _ m r b Hrep Hr Hb) as [He Hrep'].
  unfold server_prepareTransaction. apply ledger_intro; [|done|].
  - split; [|exact Hok]. exists (spec_prepare m r b).1. split; [exact Hrep'|].
    unfold spec_prepare. cbn [fst]. by rewrite lookup_insert_ne.
  - intros x Hx. eexists. split_and!; [reflexivity| |done].
    intros Hi. rewrite He. cbn. by rewrite wrap32_id by (rewrite Z.add_0_r; exact Hi); rewrite Z.add_0_r.
Qed.

Lemma ledger_commit r b s :
  base_ok s -> wf_txn (tr_txn r) -> ledger_step s (server_commitTransaction r b s).
Proof.
  intros Hok Hr. pose proof Hok as ((m & Hrep & Hm) & Hrest). apply ledger_intro; [|done|].
  - split; [|exact Hrest]. exists m. split; [|done]. exact (proj2 (commit_intra_refines _ m r b Hrep)).
  - intros x Hx. apply acct_step_commit; [apply Hrep|done|by eapply mine_int].
Qed.

Lemma settle_frame c d b s :
  let s' := settle_account c d b s in
  log s' = log s /\ wal s' = wal s /\ accept_val s' = accept_val s /\
  promised_num s' = promised_num s /\ server_id s' = server_id s /\
  forall x, client_in_cluster s' x = client_in_cluster s x.
Proof. unfold settle_account. repeat case_match; by split_and!. Qed.

Lemma apply_frame e c d s :
  let s' := apply_entry e c d s in
  log s' = log s /\ wal s' = wal s /\ accept_val s' = accept_val s /\
  promised_num s' = promised_num s /\ server_id s' = server_id s /\
  forall x, client_in_cluster s' x = client_in_cluster s x.
Proof. unfold apply_entry. case_match; by split_and!. Qed.

(** The two shares of a decided or synchronised entry, after it was logged. *)
Lemma acct_step_entry e b s s1 s2 s3 x :
  log s1 = log s ++ [e] -> balances s1 = balances s -> db s1 = db s ->
  one_share (sender (we_txn e)) (- amount (we_txn e)) b s1 s2 x ->
  one_share (receiver (we_txn e)) (amount (we_txn e)) b s2 s3 x ->
  b = bool_decide (we_status e = COMMITTED) -> acct_step s s3 x.
Proof.
  intros Hlog Hbal Hdb H1 H2 Hb. destruct (two_shares e b s1 s2 s3 x H1 H2 Hb) as (Hl & _ & Hm & Hst).
  exists [e]. split_and!; [congruence| |].
  - intros Hi. unfold balance_of in *. rewrite Hbal in Hm. rewrite Hm by done. cbn. f_equal. lia.
  - intros L R Hs. apply Hst; try done. unfold store_at, balance_of in *. by rewrite Hbal, Hdb.
Qed.

Lemma ledger_settle s s1 e b :
  base_ok s1 -> (forall x, client_in_cluster s1 x = client_in_cluster s x) ->
  wf_txn (we_txn e) -> b = bool_decide (we_status e = COMMITTED) ->
  log s1 = log s ++ [e] -> balances s1 = balances s -> db s1 = db s ->
  ledger_step s (settle_account (receiver (we_txn e)) (amount (we_txn e)) b
                   (settle_account (sender (we_txn e)) (- amount (we_txn e)) b s1)).
Proof.
  intros Hok Hcl (Hs & Hr & _) Hb Hlog Hbal Hdb.
  destruct (settle_frame (sender (we_txn e)) (- amount (we_txn e)) b s1) as (_ & H1 & H2 & H3 & H4 & H5).
  set (s2 := settle_account (sender (we_txn e)) _ b s1) in *.
  destruct (settle_frame (receiver (we_txn e)) (amount (we_txn e)) b s2) as (_ & K1 & K2 & K3 & K4 & K5).
  set (s3 := settle_account (receiver (we_txn e)) _ b s2) in *.
  apply ledger_intro.
  - unfold base_ok in *. by rewrite K1, K2, K3, K4, H1, H2, H3, H4.
  - intros x. by rewrite K5, H5.
  - intros x Hx. pose proof (mine_int s x Hx) as Hi. destruct Hx as [Hx Hc].
    apply (acct_step_entry e b s s1 s2 s3); try done; apply settle_share; try done; split; try done.
    + by rewrite Hcl.
    + by rewrite H5, Hcl.
Qed.

(** What [processTpcDecision] does after the write-ahead log answered. *)
Lemma decision_cases s tid c m :
  wal_rep (wal s) m -> i_am_disconnected s = false ->
  exists r : WAL * WALEntry,
    processTpcDecision s (mk_tid tid) c =
      (let s1 := s <| wal := r.1 |> in
       let s2 := if we_tid r.2 =? -1 then s1 else push_log r.2 s1 in
       settle_account (receiver (we_txn r.2)) (amount (we_txn r.2)) c
         (settle_account (sender (we_txn r.2)) (- amount (we_txn r.2)) c s2)) /\
    match m !! tid with
    | None => r = (wal s, no_entry)
    | Some e => r.2 = e <| we_status := if c then COMMITTED else ABORTED |> /\ wal_rep r.1 (delete tid m) /\
                we_tid e = tid /\ wf_entry e
    end.
Proof.
  intros Hrep Hd. unfold processTpcDecision. rewrite Hd.
  set (r := if c then _ else _). exists r. split; [done|].
  destruct (decide_refines _ m tid Hrep) as (Hc & Hcr & Ha & Har). unfold spec_decide in *.
  destruct (m !! tid) as [e|] eqn:Em; cbn [fst snd] in *.
  - assert (we_tid e = tid /\ wf_entry e) as [Htid Hwf].
    { destruct Hrep as [_ Hrep]. specialize (Hrep tid). rewrite Em in Hrep.
      destruct (transferIndex (wal s) !! tid); [|done]. by destruct Hrep as (_ & ? & ? & _). }
    unfold r. destruct c; by split_and!.
  - apply (rep_lookup_None _ _ _ Hrep) in Em.
    unfold r, commitTransaction_cross, abortTransaction. cbn [tt_tid]. rewrite Em. by destruct c.
Qed.

(** The decision for an unknown transaction settles the account [-1], which
    no cluster has. *)
Lemma ledger_no_entry s w c :
  base_ok s -> wal_good w ->
  ledger_step s (settle_account (-1) (-1) c (settle_account (-1) (- -1) c (s <| wal := w |>))).
Proof.
  intros Hok Hw. set (s1 := s <| wal := w |>). destruct Hok as [_ Hrest].
  destruct (settle_frame (-1) (- -1) c s1) as (Hl1 & H1 & H2 & H3 & H4 & H5).
  set (s2 := settle_account (-1) _ c s1) in *.
  destruct (settle_frame (-1) (-1) c s2) as (Hl2 & K1 & K2 & K3 & K4 & K5).
  set (s3 := settle_account (-1) _ c s2) in *.
  apply ledger_intro.
  + unfold base_ok in *. rewrite K1, K2, K3, K4, H1, H2, H3, H4. split; [|exact Hrest]. exact Hw.
  + intros x. by rewrite K5, H5.
  + intros x Hx. pose proof (mine_int s x Hx) as Hi. assert (-1 <> x) as Hne by (destruct Hx; lia).
    destruct Hx as [Hx Hcx].
    assert (one_share (-1) (- -1) c s1 s2 x) as S1.
    { apply settle_share; [by vm_compute|split; [done|exact Hcx]|done]. }
    assert (one_share (-1) (-1) c s2 s3 x) as S2.
    { apply settle_share; [by vm_compute|split; [done|]|done]. rewrite H5. exact Hcx. }
    destruct S1 as (_ & _ & _ & B1 & D1), S2 as (_ & _ & _ & B2 & D2).
    apply Z.eqb_neq in Hne. rewrite Hne, andb_false_r, Z.add_0_r in *.
    exists []. rewrite app_nil_r. split_and!; [by rewrite Hl2, Hl1| |].
    * intros Hb. cbn. rewrite Z.add_0_r. rewrite B2; rewrite B1; try done; rewrite ?wrap32_idemp; try done.
      apply wrap32_range.
    * intros L R Hst. apply D2; try done. apply D1; done.
Qed.

Lemma ledger_decision s r c : base_ok s -> ledger_step s (processTpcDecision s r c).
Proof.
  intros Hok. destruct (i_am_disconnected s) eqn:Hd.
  { unfold processTpcDecision. rewrite Hd. by apply ledger_refl. }
  pose proof Hok as ((m & Hrep & Hm) & Hrest). destruct r as [tid].
  destruct (decision_cases s tid c m Hrep Hd) as (r & -> & Hr). cbv zeta.
  destruct (m !! tid) as [e|] eqn:Em.
  - destruct Hr as (Hr & Hw & Htid & Hwf). set (e' := e <| we_status := _ |>) in *.
    assert (we_tid r.2 =? -1 = false) as ->.
    { rewrite Hr. apply Z.eqb_neq. change (we_tid e <> -1). intros E. rewrite <- Htid, E in Em. congruence. }
    rewrite Hr. apply ledger_settle; try done.
    + split; [|exact Hrest]. exists (delete tid m). split; [exact Hw|]. rewrite lookup_delete_ne; [done|congruence].
    + by destruct Hwf as (_ & _ & _ & ?).
    + unfold e'. by destruct c.
  - subst r. apply (ledger_no_entry s (wal s) c Hok). by exists m.
Qed.

Lemma ledger_sync_entry s l :
  base_ok s -> wf_log_entry l -> le_tid l <> -1 -> ledger_step s (sync_entry s l).
Proof.
  intros Hok Hwf Htid. pose proof Hok as ((m & Hrep & Hm) & Hrest). unfold sync_entry, wf_log_entry in *.
  assert (we_tid (entry_of_log l) <> -1) as Hne by done.
  set (e := entry_of_log l) in *. clearbody e.
  set (s1 := push_log e s <| wal ::= fun w => insertEntry w e |>).
  assert (base_ok s1) as Hok1.
  { split; [|exact Hrest]. exists (spec_insert m e). split; [by apply insert_refines|].
    unfold spec_insert. destruct (we_status e);
      [done|by rewrite lookup_insert_ne|by rewrite lookup_delete_ne by done..]. }
  destruct Hwf as (_ & _ & _ & Hs & Hr & _).
  destruct (apply_frame e (sender (we_txn e)) (- amount (we_txn e)) s1) as (_ & H1 & H2 & H3 & H4 & H5).
  set (s2 := apply_entry e (sender (we_txn e)) _ s1) in *.
  destruct (apply_frame e (receiver (we_txn e)) (amount (we_txn e)) s2) as (_ & K1 & K2 & K3 & K4 & K5).
  set (s3 := apply_entry e (receiver (we_txn e)) _ s2) in *. change (ledger_step s s3).
  apply ledger_intro.
  - unfold base_ok in *. by rewrite K1, K2, K3, K4, H1, H2, H3, H4.
  - intros x. by rewrite K5, H5.
  - intros x Hx. pose proof (mine_int s x Hx) as Hi. destruct Hx as [Hx Hc].
    apply (acct_step_entry e (bool_decide (we_status e = COMMITTED)) s s1 s2 s3); try done;
      apply apply_share; try done; split; try done. by rewrite H5.
Qed.

Lemma ledger_sync_entries s ls :
  base_ok s -> Forall (fun l => wf_log_entry l /\ le_tid l <> -1) ls ->
  ledger_step s (foldl sync_entry s ls).
Proof.
  intros Hok Hl. revert s Hok. induction Hl as [|l ls [Hl Ht] _ IH]; intros s Hok; [by apply ledger_refl|].
  cbn. eapply ledger_trans; [by apply ledger_sync_entry|]. apply IH. by apply ledger_sync_entry.
Qed.

(** A step followed by changes outside accounts, log and well-formedness. *)
Lemma ledger_then s s1 s2 :
  ledger_step s s1 -> bank s2 = bank s1 -> accept_val s2 = accept_val s1 ->
  promised_num s2 = promised_num s1 -> server_id s2 = server_id s1 -> ledger_step s s2.
Proof.
  intros Hs Hb Ha Hp Hi. eapply ledger_trans; [exact Hs|]. apply ledger_frame; [done|].
  apply bank_eq in Hb as (_ & _ & _ & _ & Hw & _). destruct Hs as (Hok & _).
  unfold base_ok in *. by rewrite Hw, Ha, Hp, Hi.
Qed.

Lemma ledger_sync_reply s st p :
  base_ok s -> event_wf (ev_sync_reply st p) -> ledger_step s (handleSyncReply s st p).
Proof.
  intros Hok [Hl _]. unfold handleSyncReply. destruct (_ && _).
  - pose proof (ledger_sync_entries s (sr_logs p) Hok Hl) as Hs. cbv zeta.
    set (s1 := foldl sync_entry s (sr_logs p)) in *. clearbody s1. by apply (ledger_then s s1).
  - apply (ledger_then s s); [by apply ledger_refl|done..].
Qed.

(** The updates outside accounts and log that end a phase. *)
Lemma ledger_finish s s1 :
  ledger_step s s1 ->
  ledger_step s (s1 <| promised := false |> <| accepted := false |>
     <| await_prepare_decision := false |> <| await_accept_decision := false |>
     <| is_paxos_running := false |> <| paxos_tid := -1 |>).
Proof. intros Hs. by apply (ledger_then s s1). Qed.

Lemma ledger_lock c s s1 : ledger_step s s1 -> ledger_step s (lock c s1).
Proof. intros Hs. by apply (ledger_then s s1). Qed.
Lemma ledger_unlock c s s1 : ledger_step s s1 -> ledger_step s (unlock c s1).
Proof. intros Hs. by apply (ledger_then s s1). Qed.
Lemma ledger_await b s s1 : ledger_step s s1 -> ledger_step s (s1 <| await_accept_decision := b |>).
Proof. intros Hs. by apply (ledger_then s s1). Qed.

Lemma decide_commit_ledger s req cross :
  base_ok s -> wf_txn (tr_txn req) -> ledger_step s (decide_commit s req cross).1.
Proof.
  intros Hok Hr. unfold decide_commit. cbn [fst]. apply ledger_finish.
  destruct cross; [by apply ledger_await, ledger_refl|].
  assert (forall b s1, ledger_step s s1 -> ledger_step s (server_commitTransaction req b s1)) as Hc.
  { intros b s1 Hs1. eapply ledger_trans; [exact Hs1|]. apply ledger_commit; [apply Hs1|done]. }
  by apply Hc, ledger_unlock, ledger_unlock, ledger_await, ledger_refl.
Qed.

Lemma start_accept_ledger s req cross :
  base_ok s -> wf_transfer_req req -> tr_tid req <> -1 -> ledger_step s (start_accept s req cross).1.
Proof.
  intros Hok Hr Ht. unfold start_accept. cbn [fst].
  set (s1 := if client_in_cluster s (sender (tr_txn req)) then lock _ s else s).
  set (s2 := if client_in_cluster s1 (receiver (tr_txn req)) then lock _ s1 else s1).
  set (s3 := lock (receiver (tr_txn req)) s2 <| accepted := true |> <| accept_num := promised_num s2 |> <| accept_val := req |>
    <| await_accept_decision := true |> <| accept_successes := 1 |> <| accept_failures := 0 |>).
  assert (ledger_step s s3) as H3.
  { apply ledger_frame; [unfold s3, s2, s1; by repeat case_match|].
    destruct Hok as (Hw & _ & _ & Hp & Hi). unfold base_ok, s3, s2, s1.
    repeat case_match; by split_and!. }
  assert (accept_num s3 = promised_num s) as Hn by (unfold s3, s2, s1; by repeat case_match).
  change (ledger_step s (if cross then server_prepareTransaction req (accept_num s3) s3 else s3)).
  clearbody s3. clear s1 s2. destruct cross; [|done]. eapply ledger_trans; [exact H3|].
  apply ledger_prepare; [apply H3|done|done|]. rewrite Hn. apply Hok.
Qed.

Lemma ledger_runPaxos s req res cross s' res' outs b :
  runPaxos s req res cross = (s', res', outs, b) ->
  base_ok s -> wf_transfer_req req -> tr_tid req <> -1 -> ledger_step s s'.
Proof.
  intros (v & Hc & _)%runPaxos_case Hok Hr Ht.
  assert (forall c, c = conditions_fail (s <| await_prepare_decision := false |>) (tr_txn req) ->
            ledger_step s c.1) as Hcond.
  { intros c ->. set (s1 := s <| await_prepare_decision := false |>).
    assert (ledger_step s s1) as Hs1 by (by apply ledger_frame).
    unfold conditions_fail. repeat case_match; try done.
    eapply ledger_trans; [exact Hs1|]. apply ledger_touch, Hs1. }
  destruct Hc as [| |c|c| | |].
  - by apply ledger_refl.
  - apply ledger_frame; [apply bank_start_prepare|].
    destruct Hok as (Hw & Ha & Hat & _ & Hi). unfold base_ok. split_and!; try done.
    split; [apply wrap32_range|done].
  - specialize (Hcond c ltac:(done)). by apply (ledger_then s c.1).
  - eapply ledger_trans; [by apply Hcond|]. apply start_accept_ledger; try done. by apply Hcond.
  - apply (ledger_then s s); [by apply ledger_refl|done..].
  - by apply decide_commit_ledger; [|apply Hr].
  - unfold fail_accept. destruct cross; by apply ledger_frame.
Qed.

Lemma ledger_lock_if_mine c s (r : Server DB * Z) :
  ledger_step s r.1 ->
  ledger_step s (lock_if_mine c r).1 /\ accept_val (lock_if_mine c r).1 = accept_val r.1 /\
  accept_num (lock_if_mine c r).1 = accept_num r.1.
Proof. intros Hs. unfold lock_if_mine. case_match; [|done]. split; [by apply ledger_lock|done]. Qed.

Lemma ledger_unlock_if_mine c s (r : Server DB * Z) :
  ledger_step s r.1 -> ledger_step s (unlock_if_mine c r).1.
Proof. intros Hs. unfold unlock_if_mine. case_match; [by apply ledger_unlock|done]. Qed.

Lemma ledger_accept s r :
  base_ok s -> event_wf (ev_accept r) -> ledger_step s (processAcceptCall s r).1.
Proof.
  intros Hok (Hr & Ht & Hb). unfold processAcceptCall. destruct (i_am_disconnected s); [by apply ledger_refl|].
  destruct (promised s && _); [|by apply ledger_refl]. cbn [fst].
  set (s1 := s <| accepted := true |> <| accept_num := aq_ballot r |> <| accept_val := aq_r r |>).
  assert (ledger_step s s1) as Hs1.
  { apply ledger_frame; [done|]. destruct Hok as (? & _ & _ & ? & ?). unfold base_ok. by split_and!. }
  set (l := lock_if_mine _ _).
  assert (ledger_step s l.1 /\ accept_val l.1 = aq_r r /\ accept_num l.1 = aq_ballot r) as (Hs2 & -> & ->).
  { destruct (ledger_lock_if_mine (sender (tr_txn (accept_val s1))) s (s1, 0) Hs1) as (Ha & Hb1 & Hc1).
    destruct (ledger_lock_if_mine (receiver (tr_txn (accept_val s1))) s _ Ha) as (Ha2 & Hb2 & Hc2).
    unfold l. by rewrite Hb2, Hb1, Hc2, Hc1. }
  clearbody l.
  destruct (_ =? 1); [|done]. eapply ledger_trans; [exact Hs2|]. by apply ledger_prepare; [apply Hs2|..].
Qed.

Lemma ledger_commit_call s r : base_ok s -> ledger_step s (processCommitCall s r).
Proof.
  intros Hok. unfold processCommitCall. destruct (i_am_disconnected s); [by apply ledger_refl|].
  destruct (_ && _); [|by apply ledger_refl].
  set (s1 := s <| last_inserted := last_index (log s) |> <| last_inserted_ballot := accept_num s |>).
  assert (ledger_step s s1) as Hs1 by (by apply ledger_frame).
  set (l := unlock_if_mine _ _).
  assert (ledger_step s l.1) as Hs2.
  { by apply ledger_unlock_if_mine, ledger_unlock_if_mine. }
  clearbody l.
  set (s2 := if l.2 =? 2 then server_commitTransaction (accept_val l.1) (accept_num l.1) l.1 else l.1).
  assert (ledger_step s s2) as Hs3.
  { unfold s2. destruct (l.2 =? 2); [|done]. eapply ledger_trans; [exact Hs2|].
    apply ledger_commit; apply Hs2. }
  clearbody s2. by apply (ledger_then s s2).
Qed.

Lemma ledger_exec s e : base_ok s -> event_wf e -> ledger_step s (server_exec s e).1.
Proof.
  intros Hok He. destruct e as [r p|r p|r c|r|r|r|r|r| |r|st q p|st q p|st p]; cbn [server_exec fst snd].
  - destruct He. destruct (processTpcPrepare s r p) as [[[s' res'] outs] b] eqn:E. by eapply ledger_runPaxos.
  - destruct He. destruct (processTransferCall s r p) as [[[s' res'] outs] b] eqn:E. by eapply ledger_runPaxos.
  - by apply ledger_decision.
  - apply ledger_frame; [apply bank_prepare_call|].
    unfold base_ok in *. destruct Hok as (? & ? & ? & ? & ?).
    unfold processPrepareCall. repeat case_match; by split_and!.
  - by apply ledger_accept.
  - by apply ledger_commit_call.
  - by apply ledger_refl.
  - by apply ledger_touch.
  - by apply ledger_refl.
  - apply ledger_frame; [apply bank_disconnect|].
    pose proof (bank_disconnect s r) as (_ & _ & _ & _ & Hw & _)%bank_eq.
    pose proof (ctrl_disconnect s r) as Hc. injection Hc as _ _ _ _ _ Hp _ _ Ha _ _ _ _.
    unfold base_ok in *. rewrite Hw, Hp, Ha. destruct Hok as (? & ? & ? & ? & ?). split_and!; try done.
    unfold processDisconnectCall. rewrite (foldl_frame server_id).
    + unfold resetDisconnectedState. rewrite (foldl_frame server_id); [done|]. intros s' x. by case_match.
    + intros s' x. unfold disconnect_one. by repeat case_match.
  - apply ledger_frame; [apply bank_prepare_reply|].
    unfold base_ok in *. destruct Hok as (? & ? & ? & ? & ?).
    unfold handlePrepareReply. repeat case_match; by split_and!.
  - apply ledger_frame; [apply bank_accept_reply|].
    unfold base_ok in *. destruct Hok as (? & ? & ? & ? & ?).
    unfold handleAcceptReply. repeat case_match; by split_and!.
  - by apply ledger_sync_reply.
Qed.

(** ** The decision of the coordinator *)

Lemma settle_locks c d b s :
  locks (settle_account c d b s) = if client_in_cluster s c then locks s ∖ {[c]} else locks s.
Proof. unfold settle_account. by repeat case_match. Qed.

Lemma settle_other c d b s x : c <> x -> balance_of (settle_account c d b s) x = balance_of s x.
Proof.
  intros Hne. unfold settle_account. repeat case_match; try done.
  rewrite balance_of_update, balance_of_add. by rewrite decide_False.
Qed.

Lemma settle_last_inserted c d b s : last_inserted (settle_account c d b s) = last_inserted s.
Proof. unfold settle_account. by repeat case_match. Qed.

Lemma minus_my_accounts s t (l : gset Z) :
  (if client_in_cluster s (receiver t)
   then (if client_in_cluster s (sender t) then l ∖ {[sender t]} else l) ∖ {[receiver t]}
   else if client_in_cluster s (sender t) then l ∖ {[sender t]} else l) = l ∖ my_accounts s t.
Proof. unfold my_accounts. repeat case_match; set_solver. Qed.

(** A decision for a transaction the server has prepared. *)
Lemma decision_known s tid c m e :
  wal_rep (wal s) m -> m !! (-1) = None -> i_am_disconnected s = false -> m !! tid = Some e ->
  let s' := processTpcDecision s (mk_tid tid) c in
  let e' := e <| we_status := if c then COMMITTED else ABORTED |> in
  log s' = log s ++ [e'] /\ wal_rep (wal s') (delete tid m) /\
  locks s' = locks s ∖ my_accounts s (we_txn e) /\
  forall x, mine s x -> in_int (balance_of s x) ->
    balance_of s' x = wrap32 (balance_of s x + entry_delta x e').
Proof.
  intros Hrep Hm Hd Em s'. destruct (decision_cases s tid c m Hrep Hd) as (r & Hs & Hr). fold s' in Hs. cbv zeta in Hs.
  rewrite Em in Hr. destruct Hr as (Hr & Hw & Htid & Hwf). set (e' := e <| we_status := _ |>) in *.
  assert (we_tid r.2 =? -1 = false) as Hne.
  { rewrite Hr. apply Z.eqb_neq. change (we_tid e <> -1). intros E. rewrite <- Htid, E in Em. congruence. }
  rewrite Hne, Hr in Hs. set (s2 := push_log e' (s <| wal := r.1 |>)) in *.
  destruct (settle_frame (sender (we_txn e')) (- amount (we_txn e')) c s2) as (Hl1 & Hw1 & _ & _ & _ & H5).
  pose proof (settle_locks (sender (we_txn e')) (- amount (we_txn e')) c s2) as Hk1.
  set (s3 := settle_account (sender (we_txn e')) _ c s2) in *.
  destruct (settle_frame (receiver (we_txn e')) (amount (we_txn e')) c s3) as (Hl2 & Hw2 & _).
  pose proof (settle_locks (receiver (we_txn e')) (amount (we_txn e')) c s3) as Hk2.
  rewrite <- Hs in Hl2, Hw2, Hk2. cbv zeta. split_and!.
  - by rewrite Hl2, Hl1.
  - by rewrite Hw2, Hw1.
  - rewrite Hk2, H5, Hk1. apply (minus_my_accounts s (we_txn e)).
  - intros x Hx Hi. pose proof (mine_int s x Hx) as Hxi. destruct Hx as [Hx Hcx].
    destruct Hwf as (_ & _ & _ & Hsnd & Hrcv & _).
    destruct (two_shares e' c s2 s3 s' x) as (_ & _ & Hb & _).
    + apply settle_share; [done|by split|done].
    + rewrite Hs. apply settle_share; try done. split; [done|by rewrite H5].
    + unfold e'. by destruct c.
    + by apply Hb.
Qed.

(** A decision for a transaction the server does not know. *)
Lemma decision_unknown s tid c m :
  wal_rep (wal s) m -> m !! (-1) = None -> i_am_disconnected s = false -> m !! tid = None ->
  let s' := processTpcDecision s (mk_tid tid) c in
  log s' = log s /\ wal s' = wal s /\
  forall x, 1 <= x -> balance_of s' x = balance_of s x /\ (x ∈ locks s' <-> x ∈ locks s).
Proof.
  intros Hrep Hm Hd Em s'. destruct (decision_cases s tid c m Hrep Hd) as (r & Hs & Hr). fold s' in Hs. cbv zeta in Hs.
  rewrite Em in Hr. subst r. cbn [fst snd] in Hs. rewrite Hs. split_and!.
  - unfold settle_account. by repeat case_match.
  - unfold settle_account. by repeat case_match.
  - intros x Hx. change (we_tid no_entry =? -1) with true. cbn iota. split.
    + by rewrite !settle_other by (cbn; lia).
    + rewrite !settle_locks. repeat case_match; cbn [sender receiver we_txn no_entry]; set_solver by lia.
Qed.

(** C8. The whole effect of [processTpcDecision]. A server that has the transaction prepared logs it
    with the decision as status, forgets it, releases the accounts of its
    cluster, and moves the money exactly when the decision is commit; a
    server that does not know the transaction (never prepared, or already
    decided) keeps log, accounts and the locks of all clients; a
    disconnected server does nothing. The position [last_inserted] is not
    advanced in any case. *)
Theorem tpc_decision_spec s tid c m :
  wal_rep (wal s) m -> m !! (-1) = None ->
  let s' := processTpcDecision s (mk_tid tid) c in
  last_inserted s' = last_inserted s /\
  if i_am_disconnected s then s' = s else
  match m !! tid with
  | None =>
    log s' = log s /\ wal s' = wal s /\
    forall x, 1 <= x -> balance_of s' x = balance_of s x /\ (x ∈ locks s' <-> x ∈ locks s)
  | Some e =>
    let e' := e <| we_status := if c then COMMITTED else ABORTED |> in
    log s' = log s ++ [e'] /\ wal_rep (wal s') (delete tid m) /\
    locks s' = locks s ∖ my_accounts s (we_txn e) /\
    forall x, mine s x -> in_int (balance_of s x) ->
      balance_of s' x = wrap32 (balance_of s x + entry_delta x e')
  end.
Proof.
  intros Hrep Hm s'. destruct (i_am_disconnected s) eqn:Hd.
  { unfold s', processTpcDecision. by rewrite Hd. }
  destruct (decision_cases s tid c m Hrep Hd) as (r & Hs & Hr). fold s' in Hs. cbv zeta in Hs.
  split; [rewrite Hs, !settle_last_inserted; by destruct (we_tid r.2 =? -1)|].
  destruct (m !! tid) as [e|] eqn:Em; [by apply decision_known|].
  by apply (decision_unknown s tid c m).
Qed.

(** ** Start-up *)

Lemma foldl_insert_lookup (l : list Z) (m : gmap Z Z) v c :
  foldl (fun m i => <[i := v]> m) m l !! c = if decide (c ∈ l) then Some v else m !! c.
Proof.
  revert m. induction l as [|i l IH]; intros m; cbn [foldl]; [done|]. rewrite IH.
  destruct (decide (c = i)) as [->|Hne].
  - rewrite (decide_True _ _ (list_elem_of_here i l)). case_decide; [done|]. by rewrite lookup_insert_eq.
  - rewrite lookup_insert_ne by done. repeat case_decide; set_solver.
Qed.

Lemma initial_clients_elem c k x :
  x ∈ initial_clients c k <-> 1 <= x <= total_clients /\ isClientInCluster c x k = true.
Proof.
  unfold initial_clients. rewrite list_elem_of_filter, elem_of_seqZ. unfold total_clients.
  split; intros [? ?]; (split; [try done; lia|try done; lia]).
Qed.

Lemma initial_clients_int c k x : x ∈ initial_clients c k -> in_int x.
Proof. intros [Hx _]%initial_clients_elem. unfold in_int, total_clients in *. lia. Qed.

Lemma mine_initial s x : mine s x <-> x ∈ initial_clients (consts s) (cluster_id s).
Proof. by rewrite initial_clients_elem. Qed.

Lemma initial_clients_NoDup c k : NoDup (initial_clients c k).
Proof. apply NoDup_filter, NoDup_seqZ. Qed.

Lemma built_base c id f (d : DB) : file_ok f -> in_int id -> base_ok (ServerImpl c id f d).
Proof.
  intros Hf Hid. unfold ServerImpl.
  set (s1 := mk_server _ _ _ _ _ _ _ _ _ _ _ _ _ _ _ _ _ _ _ _ _ _ _ _ _ _ _ _).
  pose proof (bank_reset s1) as (_ & _ & _ & _ & Hw & _)%bank_eq.
  pose proof (ctrl_reset s1) as Hc. injection Hc as _ _ _ _ _ Hp _ _ Ha _ _ _ _.
  assert (server_id (resetDisconnectedState s1) = id) as Hi.
  { unfold resetDisconnectedState. rewrite (foldl_frame server_id); [done|].
    intros s' x. by case_match. }
  unfold base_ok. rewrite Hw, Ha, Hp, Hi. split; [|by repeat split; first [done|apply Hid]].
  exists ∅. split; [by apply rep_init|apply lookup_empty].
Qed.

Lemma setup_base c id f (d : DB) s0 :
  file_ok f -> in_int id -> run_setup (ServerImpl c id f d) = Some s0 -> base_ok s0.
Proof.
  intros Hf Hid Hrun. pose proof (built_base c id f d Hf Hid) as Hb. revert Hb Hrun.
  generalize (ServerImpl c id f d). intros s Hb Hrun. unfold run_setup in Hrun. case_match; [|done].
  by injection Hrun as <-.
Qed.

Lemma setup_accounts s s0 c :
  run_setup s = Some s0 -> mine s0 c ->
  log s0 = log s /\ balance_of s0 c = 10 /\ (KVStoreLaws DB -> store_at s0 c).
Proof.
  unfold run_setup. set (s1 := s <| stubs := peers s |>).
  set (l := initial_clients (consts s1) (cluster_id s1)).
  set (s2 := s1 <| balances ::= _ |>).
  destruct (db_write (db s2) _).2 eqn:Ew; [|done]. intros [= <-] Hm.
  apply mine_initial in Hm. change (c ∈ l) in Hm.
  set (s3 := s2 <| db := (db_write (db s2) (map (fun i => (to_string i, str "10")) l)).1 |>).
  assert (balance_of s3 c = 10) as Hb.
  { unfold balance_of. change (default 0 (foldl (fun m i => <[i := 10]> m) (balances s1) l !! c) = 10).
    by rewrite foldl_insert_lookup, decide_True. }
  split_and!; [done|exact Hb|]. intros Hl. change (db_get (db s3) (to_string c) = Some (to_string (balance_of s3 c))). rewrite Hb.
  apply db_get_write; [done| |].
  - rewrite map_map. cbn. apply NoDup_fmap_2_strong; [|apply initial_clients_NoDup].
    intros x y Hx Hy. apply to_string_inj; apply in_int_printable; eapply initial_clients_int; eassumption.
  - apply list_elem_of_fmap. exists c. by split.
Qed.

(** Every state a server reaches is one ledger step away from start-up. *)
Lemma ledger_reachable s0 s : base_ok s0 -> reachable s0 s -> ledger_step s0 s.
Proof.
  intros Hok. apply (reachable_ind_r (fun s => ledger_step s0 s)); [by apply ledger_refl|].
  intros s1 e He Hs. eapply ledger_trans; [exact Hs|]. apply ledger_exec; [apply Hs|done].
Qed.

Lemma mine_back s0 s c : ledger_step s0 s -> consts s = consts s -> mine s c -> mine s0 c.
Proof. intros (_ & Hc & _) _ [Hx Hm]. split; [done|]. by rewrite <- Hc. Qed.

(** A start-up on a usable log file with a machine-integer server id. *)
Definition started (c : constants) (id : Z) (f : File) (d : DB) (s0 : Server DB) : Prop :=
  file_ok f /\ in_int id /\ run_setup (ServerImpl c id f d) = Some s0.

Lemma started_log c id f d s0 : started c id f d s0 -> log (ServerImpl c id f d) = [].
Proof.
  intros _. unfold ServerImpl.
  set (s1 := mk_server _ _ _ _ _ _ _ _ _ _ _ _ _ _ _ _ _ _ _ _ _ _ _ _ _ _ _ _).
  by pose proof (bank_reset s1) as (_ & _ & _ & _ & _ & Hl)%bank_eq.
Qed.

Lemma account_invariant c id f d s0 s x :
  started c id f d s0 -> reachable s0 s -> mine s x ->
  balance_of s x = wrap32 (10 + log_delta x (log s)) /\
  (KVStoreLaws DB -> KVStoreReliable DB -> store_at s x).
Proof.
  intros Hst Hr Hx. pose proof Hst as (Hf & Hid & Hrun). pose proof (setup_base _ _ _ _ _ Hf Hid Hrun) as Hok.
  pose proof (ledger_reachable _ _ Hok Hr) as Hs. apply (mine_back s0) in Hx; [|done|done].
  destruct (setup_accounts _ _ x Hrun Hx) as (Hl & Hb & Hst0). rewrite (started_log _ _ _ _ _ Hst) in Hl.
  destruct Hs as (_ & _ & Ha). destruct (Ha x Hx) as (es & Hle & Hbe & Hse). split; [|by auto].
  rewrite Hbe by (rewrite Hb; by vm_compute). by rewrite Hle, Hl, Hb.
Qed.

(** C3. Balances are the replay of the log. In every state a server reaches after start-up, the balance of
    each client of its cluster is the initial ten units plus the effect of
    the committed entries of its log, in 32-bit arithmetic. *)
Theorem ledger_matches_log c id f d s0 s x :
  started c id f d s0 -> reachable s0 s -> mine s x ->
  balance_of s x = wrap32 (10 + log_delta x (log s)).
Proof. intros Hst Hr Hx. by destruct (account_invariant c id f d s0 s x Hst Hr Hx). Qed.

(** C14. The store is up to date. If the key-value store keeps what a successful
    write put there and no write fails, then after start-up and after every
    event the record of each client of the cluster is the decimal of its
    balance in memory. *)
Theorem store_matches_balances c id f d s0 s x :
  KVStoreLaws DB -> KVStoreReliable DB -> started c id f d s0 -> reachable s0 s -> mine s x ->
  db_get (db s) (to_string x) = Some (to_string (balance_of s x)).
Proof. intros L R Hst Hr Hx. destruct (account_invariant c id f d s0 s x Hst Hr Hx) as [_ Hs]. by apply Hs. Qed.

(** ** Conservation of money *)

Definition sumZ (f : Z -> Z) (l : list Z) : Z := foldr (fun x acc => f x + acc) 0 l.

Lemma sumZ_ext f g l : (forall x, x ∈ l -> f x = g x) -> sumZ f l = sumZ g l.
Proof.
  induction l as [|x l IH]; intros Hfg; [done|]. cbn.
  rewrite (Hfg x) by set_solver. f_equal. apply IH. set_solver.
Qed.

Lemma sumZ_add f g l : sumZ (fun x => f x + g x) l = sumZ f l + sumZ g l.
Proof. induction l as [|x l IH]; cbn; [done|]. unfold sumZ in *. lia. Qed.

Lemma sumZ_const k l : sumZ (fun _ => k) l = k * Z.of_nat (length l).
Proof. induction l as [|x l IH]; cbn [sumZ foldr length]; [lia|]. unfold sumZ in IH. lia. Qed.

Lemma sumZ_single c d l :
  NoDup l -> sumZ (fun x => if c =? x then d else 0) l = if decide (c ∈ l) then d else 0.
Proof.
  induction 1 as [|x l Hx Hl IH]; cbn; [done|]. unfold sumZ in IH. rewrite IH.
  destruct (Z.eqb_spec c x) as [->|Hne]; repeat case_decide; set_solver by lia.
Qed.

Lemma sumZ_mod f g l :
  (forall x, x ∈ l -> f x mod 2 ^ 32 = g x mod 2 ^ 32) -> sumZ f l mod 2 ^ 32 = sumZ g l mod 2 ^ 32.
Proof.
  induction l as [|x l IH]; intros Hfg; [done|]. cbn [sumZ foldr].
  rewrite Z.add_mod, (Z.add_mod (g x)) by done. rewrite (Hfg x) by set_solver.
  unfold sumZ in IH. rewrite IH; [done|set_solver].
Qed.

(** The money of the clients of a cluster. *)
Definition held (s : Server DB) : Z :=
  sumZ (balance_of s) (initial_clients (consts s) (cluster_id s)).

(** What a log entry brings into a cluster from outside. *)
Definition inflow (l : list Z) (e : WALEntry) : Z :=
  if decide (we_status e = COMMITTED) then
    (if decide (receiver (we_txn e) ∈ l) then amount (we_txn e) else 0) -
    (if decide (sender (we_txn e) ∈ l) then amount (we_txn e) else 0)
  else 0.

Definition net_inflow (l : list Z) (es : list WALEntry) : Z := foldr (fun e acc => inflow l e + acc) 0 es.

Lemma sum_entry_delta l e : NoDup l -> sumZ (fun x => entry_delta x e) l = inflow l e.
Proof.
  intros Hl. unfold entry_delta, inflow. case_decide; [|by rewrite sumZ_const].
  rewrite sumZ_add, !sumZ_single by done. repeat case_decide; lia.
Qed.

Lemma sum_log_delta l es : NoDup l -> sumZ (fun x => log_delta x es) l = net_inflow l es.
Proof.
  intros Hl. induction es as [|e es IH]; cbn; [by rewrite sumZ_const|].
  rewrite sumZ_add, sum_entry_delta by done. unfold log_delta in IH. by rewrite IH.
Qed.

(** An intra-shard transaction brings nothing in. *)
Lemma net_inflow_intra l es :
  Forall (fun e => we_status e = COMMITTED -> sender (we_txn e) ∈ l /\ receiver (we_txn e) ∈ l) es ->
  net_inflow l es = 0.
Proof.
  induction 1 as [|e es He Hes IH]; cbn; [done|]. unfold net_inflow in IH. rewrite IH. unfold inflow.
  case_decide as Hc; [|done]. destruct (He Hc). rewrite !decide_True by done. lia.
Qed.

(** C13. Money is conserved. In every state a server reaches, the balances of the clients of its cluster add
    up (modulo the width of an [int]) to ten units a client plus what the
    committed entries of its log moved in from other clusters; as long as the
    committed entries are between its own clients, to exactly the initial
    ten units a client. *)
Theorem money_conserved c id f d s0 s :
  started c id f d s0 -> reachable s0 s ->
  let l := initial_clients (consts s) (cluster_id s) in
  held s mod 2 ^ 32 = (10 * Z.of_nat (length l) + net_inflow l (log s)) mod 2 ^ 32 /\
  (Forall (fun e => we_status e = COMMITTED -> sender (we_txn e) ∈ l /\ receiver (we_txn e) ∈ l) (log s) ->
   held s mod 2 ^ 32 = (10 * Z.of_nat (length l)) mod 2 ^ 32).
Proof.
  intros Hst Hr l.
  assert (held s mod 2 ^ 32 = (10 * Z.of_nat (length l) + net_inflow l (log s)) mod 2 ^ 32) as Hheld.
  { rewrite <- sum_log_delta, <- sumZ_const, <- sumZ_add by apply initial_clients_NoDup.
    apply sumZ_mod. intros x Hx%mine_initial.
    destruct (account_invariant c id f d s0 s x Hst Hr Hx) as [-> _]. apply wrap32_mod. }
  split; [exact Hheld|]. intros Hf. by rewrite Hheld, net_inflow_intra, Z.add_0_r.
Qed.
End Ledger.

(** ** Witnesses *)

Lemma ledger_matches_log_witness :
  exists s0 : Server map_store,
    started default_config 1 (mk_file [] true true) ∅ s0 /\
    let s := server_run (J := zero_junk) s0
      [ev_transfer (mk_transfer_req (mk_txn 1 2 3) 7) default_transfer_res] in
    balance_of s 1 = wrap32 (10 + log_delta 1 (log s)).
Proof.
  eexists. split; [split_and!; [done|by vm_compute|reflexivity]|]. cbv zeta.
  eapply (ledger_matches_log (J := zero_junk) default_config 1 (mk_file [] true true) ∅).
  - split_and!; [done|by vm_compute|reflexivity].
  - eexists. split; [|reflexivity]. repeat constructor; vm_compute; done.
  - split; [unfold total_clients; lia|reflexivity].
Defined.

Definition sample_events : list server_event :=
  [ev_transfer (mk_transfer_req (mk_txn 1 2 3) 7) default_transfer_res;
   ev_tpc_decision (mk_tid 7) true].

Lemma sample_events_wf : Forall event_wf sample_events.
Proof. repeat constructor; vm_compute; done. Qed.

Lemma store_matches_balances_witness :
  exists s0 : Server map_store,
    started default_config 1 (mk_file [] true true) ∅ s0 /\
    let s := server_run (J := zero_junk) s0 sample_events in
    db_get (db s) (str "2") = Some (to_string (balance_of s 2)).
Proof.
  eexists. split; [split_and!; [done|by vm_compute|reflexivity]|]. cbv zeta.
  eapply (store_matches_balances (J := zero_junk) default_config 1 (mk_file [] true true) ∅ _ _ 2).
  - apply _.
  - apply _.
  - split_and!; [done|by vm_compute|reflexivity].
  - eexists. split; [apply sample_events_wf|reflexivity].
  - split; [unfold total_clients; lia|reflexivity].
Defined.

Lemma money_conserved_witness :
  exists s0 : Server map_store,
    started default_config 1 (mk_file [] true true) ∅ s0 /\
    let s := server_run (J := zero_junk) s0 sample_events in
    let l := initial_clients (consts s) (cluster_id s) in
    held s mod 2 ^ 32 = (10 * Z.of_nat (length l) + net_inflow l (log s)) mod 2 ^ 32.
Proof.
  eexists. split; [split_and!; [done|by vm_compute|reflexivity]|]. cbv zeta.
  refine (proj1 (money_conserved (J := zero_junk) default_config 1 (mk_file [] true true) ∅ _ _ _ _)).
  - split_and!; [done|by vm_compute|reflexivity].
  - eexists. split; [apply sample_events_wf|reflexivity].
Defined.

(** A server that has locked client 1 and prepared the payment of 3 to
    client 1002 of the next cluster. *)
Definition prepared_server : Server map_store :=
  server_prepareTransaction (mk_transfer_req (mk_txn 1 1002 3) 7) (mk_ballot 1 1) (lock 1 (boot 1 [1; 2])).

Lemma tpc_decision_spec_witness :
  let s' := processTpcDecision (J := zero_junk) prepared_server (mk_tid 7) true in
  balance_of s' 1 = 7 /\ 1 ∉ locks s'.
Proof.
  set (e := prepared_entry 7 1 1 (mk_txn 1 1002 3)).
  assert (wal_rep (wal prepared_server) {[7 := e]}) as Hrep.
  { apply (prepare_refines (WAL_init (mk_file [] true true)) ∅ (mk_transfer_req (mk_txn 1 1002 3) 7) (mk_ballot 1 1)).
    - by apply rep_init.
    - repeat split; by vm_compute.
    - repeat split; by vm_compute. }
  destruct (tpc_decision_spec (J := zero_junk) prepared_server 7 true {[7 := e]} Hrep) as [_ Hs].
  { by rewrite lookup_singleton_ne. }
  change (i_am_disconnected prepared_server) with false in Hs. cbn iota in Hs.
  rewrite lookup_singleton_eq in Hs. destruct Hs as (_ & _ & Hl & Hb). split.
  - rewrite Hb.
    + vm_compute. reflexivity.
    + split; [unfold total_clients; lia|vm_compute; reflexivity].
    + vm_compute. split; [discriminate|reflexivity].
  - rewrite Hl. intros [_ Hn]%elem_of_difference. apply Hn. apply (bool_decide_unpack _). by vm_compute.
Defined.
