(* ===== verification/Sync.v ===== *)
(** * Synchronisation between two servers

    What a follower has after it has synchronised with another server: the
    exact entries it appends, when that makes the two servers equal, and a
    run in which it does not. *)
From stdpp Require Import gmap list strings.
From Stdlib Require Import ZArith Lia Ascii.
From S2P Require Import Prelude Chars Types Config Wal OutCall Server Store Steps Protocol Acceptor Ledger.

(** An entry survives the trip through the log message. *)
Lemma entry_roundtrip e : entry_of_log (getLogEntryFromLocalLog e) = e.
Proof.
  unfold entry_of_log, getLogEntryFromLocalLog. cbn. rewrite type_of_to_int, status_of_to_int.
  by destruct e as [? ? ? [? ? ?] ? ?].
Qed.

Section Sync.
Context {DB : Type} `{KVStore DB} {J : Indeterminate}.
Implicit Types s f l : Server DB.

Lemma sync_entry_log s x : log (sync_entry s x) = log s ++ [entry_of_log x].
Proof. unfold sync_entry, apply_entry. by repeat case_match. Qed.

Lemma sync_entries_log s xs : log (foldl sync_entry s xs) = log s ++ map entry_of_log xs.
Proof.
  revert s. induction xs as [|x xs IH]; intros s; cbn; [by rewrite app_nil_r|].
  by rewrite IH, sync_entry_log, <- app_assoc.
Qed.

Lemma sync_entry_last s x : last_inserted (sync_entry s x) = last_inserted s.
Proof. unfold sync_entry, apply_entry. by repeat case_match. Qed.

Lemma sync_entries_last s xs : last_inserted (foldl sync_entry s xs) = last_inserted s.
Proof. apply (foldl_frame last_inserted), sync_entry_last. Qed.

(** The log of a server fits an [int]. *)
Definition short_log (s : Server DB) : Prop := Z.of_nat (length (log s)) < 2 ^ 31.

(** The entries a server has that the requester does not claim to have. *)
Definition missing (f l : Server DB) : list WALEntry := drop (Z.to_nat (last_inserted f + 1)) (log l).

Lemma sync_call_entries f l :
  -1 <= last_inserted f < last_inserted l -> last_inserted l < 2 ^ 31 - 1 ->
  processSyncCall l (mk_sync_req (last_inserted f))
  = mk_sync_res true (map getLogEntryFromLocalLog (missing f l)) (last_inserted_ballot l).
Proof.
  intros Hlt Hl. unfold processSyncCall. cbn [sq_last_inserted].
  destruct (Z.ltb_spec (last_inserted f) (last_inserted l)); [|lia].
  rewrite wrap32_id by (unfold in_int; lia). destruct (Z.ltb_spec (last_inserted f + 1) 0); [lia|]. done.
Qed.

(** One synchronisation. When a server that is behind takes another server's reply to its sync
    request, it appends exactly the responder's entries from its own
    [last_inserted] on, moves its clients' money by them, takes over the
    responder's ballot, and advances [last_inserted] by their number. *)
Definition synced (f l : Server DB) : Server DB :=
  handleSyncReply f StatusOK (processSyncCall l (mk_sync_req (last_inserted f))).

Lemma synced_fields f l :
  -1 <= last_inserted f < last_inserted l -> last_inserted l < 2 ^ 31 - 1 -> short_log l ->
  last_inserted f + Z.of_nat (length (missing f l)) < 2 ^ 31 ->
  log (synced f l) = log f ++ missing f l /\
  last_inserted (synced f l) = last_inserted f + Z.of_nat (length (missing f l)) /\
  last_inserted_ballot (synced f l) = last_inserted_ballot l /\
  ballot_num (synced f l) = b_num (last_inserted_ballot l) /\ in_sync (synced f l) = false.
Proof.
  intros H1 H2 H3 H4. unfold synced. rewrite sync_call_entries by done. unfold handleSyncReply.
  cbn [status_ok sr_ack andb sr_logs sr_last_inserted_ballot].
  set (s1 := foldl sync_entry f _).
  assert (log s1 = log f ++ missing f l) as El.
  { unfold s1. rewrite sync_entries_log, map_map. f_equal.
    rewrite (map_ext _ id) by apply entry_roundtrip. apply map_id. }
  assert (last_inserted s1 = last_inserted f) as Ei by apply sync_entries_last.
  clearbody s1. cbn. rewrite El, Ei, length_map. split_and!; try done. apply wrap32_id. unfold in_int. lia.
Qed.

Definition good_entries (l : list WALEntry) : Prop := Forall (fun e => wf_entry e /\ we_tid e <> -1) l.

Lemma synced_ledger f l :
  base_ok f -> -1 <= last_inserted f < last_inserted l -> last_inserted l < 2 ^ 31 - 1 ->
  good_entries (log l) -> wf_ballot (last_inserted_ballot l) -> ledger_step f (synced f l).
Proof.
  intros Hok H1 H2 Hg Hb. unfold synced. rewrite sync_call_entries by done.
  apply ledger_sync_reply; [done|]. split; [|done]. cbn [sr_logs]. apply Forall_map.
  assert (good_entries (missing f l)) as Hm by (by apply Forall_drop).
  eapply Forall_impl; [exact Hm|]. intros e [He Ht]. cbn. unfold wf_log_entry. by rewrite entry_roundtrip.
Qed.

(** C22. A follower catches up. A follower whose log is a prefix of another server's, with
    [last_inserted] at its last entry, has that server's log after one
    synchronisation; and if both servers' balances are the replay of their
    logs, which every reachable state satisfies, the balances of the clients
    of the cluster are equal too. *)
Theorem sync_catches_up f l :
  base_ok f -> log f `prefix_of` log l -> last_inserted f = Z.of_nat (length (log f)) - 1 ->
  last_inserted f < last_inserted l -> last_inserted l < 2 ^ 31 - 1 -> short_log l ->
  good_entries (log l) -> wf_ballot (last_inserted_ballot l) ->
  log (synced f l) = log l /\ last_inserted (synced f l) = Z.of_nat (length (log l)) - 1 /\
  forall x, mine f x ->
    balance_of f x = wrap32 (10 + log_delta x (log f)) -> balance_of l x = wrap32 (10 + log_delta x (log l)) ->
    balance_of (synced f l) x = balance_of l x.
Proof.
  intros Hok [k Hk] Hf Hlt Hl Hsh Hg Hb.
  assert (missing f l = k) as Hm.
  { unfold missing. rewrite Hf, Hk. replace (Z.to_nat _) with (length (log f)) by lia. apply drop_app_length. }
  unfold short_log in Hsh. pose proof (f_equal length Hk) as Hlen. rewrite length_app in Hlen.
  destruct (synced_fields f l) as (E1 & E2 & _); [lia|done|done|rewrite Hm; lia|].
  rewrite Hm in E1, E2. split_and!; [by rewrite E1|lia|].
  intros x Hx Hbf Hbl. destruct (synced_ledger f l Hok ltac:(lia) Hl Hg Hb) as (_ & _ & Ha).
  destruct (Ha x Hx) as (es & Hes & Hbal & _). rewrite E1 in Hes. apply app_inv_head in Hes as <-.
  rewrite Hbal by (rewrite Hbf; apply wrap32_range). rewrite Hbf, Hbl, wrap32_add_l, Hk, log_delta_app. f_equal. lia.
Qed.
End Sync.

(** ** Catching up: a fresh replica and the server of the sample payment *)

Lemma open_base_ok (clients : list Z) (s : Server map_store) : base_ok s -> base_ok (open_accounts clients s).
Proof. intros Hb. exact Hb. Qed.

Lemma boot_base_ok (id : Z) (clients : list Z) : in_int id -> base_ok (boot id clients).
Proof. intros Hid. apply open_base_ok, built_base; [split; reflexivity|done]. Qed.

Lemma sync_catches_up_witness :
  let f := boot 2 [1; 2] in
  log (synced f committed) = log committed /\
  balance_of (synced f committed) 1 = 7.
Proof.
  destruct (sync_catches_up (boot 2 [1; 2]) committed) as (H1 & _ & H2).
  - apply boot_base_ok. vm_compute. split; [discriminate|reflexivity].
  - apply (prefix_nil (log committed)).
  - vm_compute. reflexivity.
  - vm_compute. reflexivity.
  - vm_compute. reflexivity.
  - vm_compute. reflexivity.
  - unfold good_entries. replace (log committed) with [mk_entry 7 1 1 (mk_txn 1 2 3) INTRA COMMITTED]
      by (vm_compute; reflexivity).
    constructor; [|constructor]. repeat split; by vm_compute.
  - repeat split; by vm_compute.
  - split; [exact H1|]. rewrite (H2 1).
    + vm_compute. reflexivity.
    + split; [unfold total_clients; lia|vm_compute; reflexivity].
    + vm_compute. reflexivity.
    + vm_compute. reflexivity.
Defined.

(** ** A decision applied twice

    [processTpcDecision] extends the log without advancing [last_inserted],
    so the next synchronisation sends the decision again. *)

Definition cross_pay : TransferReq := mk_transfer_req (mk_txn 1 1002 3) 7.
Definition next_pay : TransferReq := mk_transfer_req (mk_txn 1 2 1) 8.

Definition promise_of (b : Ballot) : server_event :=
  ev_prepare_reply StatusOK (mk_prepare_req b 0) (mk_prepare_res true b None None None None None).
Definition vote_of (b : Ballot) : server_event :=
  ev_accept_reply StatusOK (mk_accept_req b default_transfer_req) (mk_accept_res true b).

(** Server 1 leads the prepare of the cross-shard payment, takes the commit
    decision, and then commits a payment with server 3 alone. *)
Definition leader_events : list server_event :=
  [ev_tpc_prepare cross_pay default_transfer_res; promise_of (mk_ballot 1 1);
   ev_tpc_prepare cross_pay default_transfer_res; vote_of (mk_ballot 1 1);
   ev_tpc_prepare cross_pay default_transfer_res; ev_tpc_decision (mk_tid 7) true;
   ev_transfer next_pay default_transfer_res; promise_of (mk_ballot 2 1);
   ev_transfer next_pay default_transfer_res; vote_of (mk_ballot 2 1);
   ev_transfer next_pay default_transfer_res].

(** Server 2 follows the first payment, misses the second, and learns from
    the next prepare message that it is behind. *)
Definition follower_events : list server_event :=
  [ev_prepare (mk_prepare_req (mk_ballot 1 1) (-1)); ev_accept (mk_accept_req (mk_ballot 1 1) cross_pay);
   ev_commit (mk_commit_req (mk_ballot 1 1)); ev_tpc_decision (mk_tid 7) true;
   ev_prepare (mk_prepare_req (mk_ballot 3 1) 2)].

