(* ===== verification/Typed.v ===== *)
(** * The fields of a server keep their types

    Every integer a reachable server holds is one its C++ type can hold:
    [int] ballots, indices, counters and balances, [long] transaction ids,
    and well-formed log entries. *)
From stdpp Require Import gmap list strings.
From Stdlib Require Import ZArith Lia Ascii.
From S2P Require Import Prelude Chars Types Config Wal OutCall Server Store Steps Protocol Acceptor Ledger.

(** Proves a conjunction whose parts are at hand, without opening the parts. *)
Ltac parts := repeat first [assumption | split].

Section Typed.
Context {DB : Type} `{KVStore DB} {J : Indeterminate}.
Implicit Types s : Server DB.

(** The part of a state that the type invariant reads, [base_ok] apart. *)
Definition typed_view s :=
  (ballot_num s, paxos_tid s, accept_num s, (last_inserted s, last_inserted_ballot s),
   (prepare_successes s, prepare_failures s, accept_successes s, accept_failures s), (log s, balances s)).

Definition typed s : Prop :=
  in_int (ballot_num s) /\ in_long (paxos_tid s) /\ wf_ballot (accept_num s) /\
  (in_int (last_inserted s) /\ wf_ballot (last_inserted_ballot s)) /\
  (in_int (prepare_successes s) /\ in_int (prepare_failures s) /\
   in_int (accept_successes s) /\ in_int (accept_failures s)) /\
  Forall wf_entry (log s) /\ map_Forall (fun _ b => in_int b) (balances s).

Lemma typed_frame s s' : typed_view s' = typed_view s -> typed s -> typed s'.
Proof. unfold typed. by intros [= -> -> -> -> -> -> -> -> -> -> ->]. Qed.

Lemma minus_one_long : in_long (-1).
Proof. unfold in_long. lia. Qed.
Lemma zero_int : in_int 0.
Proof. unfold in_int. lia. Qed.
Lemma one_int : in_int 1.
Proof. unfold in_int. lia. Qed.

(** ** Updates *)

Lemma typed_balances s (f : gmap Z Z -> gmap Z Z) :
  typed s -> map_Forall (fun _ b => in_int b) (f (balances s)) -> typed (s <| balances ::= f |>).
Proof. intros (H1 & H2 & H3 & H4 & H5 & H6 & H7) Hf. unfold typed. cbn. parts. Qed.

Lemma typed_touch c s : typed s -> typed (touch_balance c s).
Proof.
  intros Hs. apply typed_balances; [done|]. destruct Hs as (_ & _ & _ & _ & _ & _ & H7).
  destruct (balances s !! c) eqn:E; [done|]. apply map_Forall_insert_2; [apply zero_int|done].
Qed.

Lemma typed_add c d s : typed s -> typed (add_balance c d s).
Proof.
  intros Hs. apply typed_balances; [done|]. destruct Hs as (_ & _ & _ & _ & _ & _ & H7).
  apply map_Forall_insert_2; [apply wrap32_range|done].
Qed.

Lemma typed_push e s : typed s -> wf_entry e -> typed (push_log e s).
Proof.
  intros (H1 & H2 & H3 & H4 & H5 & H6 & H7) He. unfold typed. cbn. parts.
  apply Forall_app_2; [done|by constructor].
Qed.

Lemma typed_update c b s : typed s -> typed (updateBalance c b s).
Proof. by apply typed_frame. Qed.
Lemma typed_lock c s : typed s -> typed (lock c s).
Proof. by apply typed_frame. Qed.
Lemma typed_unlock c s : typed s -> typed (unlock c s).
Proof. by apply typed_frame. Qed.
Lemma typed_wal w s : typed s -> typed (s <| wal := w |>).
Proof. by apply typed_frame. Qed.

Lemma typed_last n b s :
  typed s -> in_int n -> wf_ballot b -> typed (s <| last_inserted := n |> <| last_inserted_ballot := b |>).
Proof. intros (H1 & H2 & H3 & H4 & H5 & H6 & H7) Hn Hb. unfold typed. cbn. parts. Qed.

Lemma typed_accept b v s : typed s -> wf_ballot b -> typed (s <| accept_num := b |> <| accept_val := v |>).
Proof. intros (H1 & H2 & H3 & H4 & H5 & H6 & H7) Hb. unfold typed. cbn. parts. Qed.

Lemma typed_tid t s : typed s -> in_long t -> typed (s <| paxos_tid := t |>).
Proof. intros (H1 & H2 & H3 & H4 & H5 & H6 & H7) Hb. unfold typed. cbn. parts. Qed.

Lemma typed_ballot b s : typed s -> in_int b -> typed (s <| ballot_num := b |>).
Proof. intros (H1 & H2 & H3 & H4 & H5 & H6 & H7) Hb. unfold typed. cbn. parts. Qed.

(** ** Recording transactions *)

Lemma prepare_entry_wf w r b : wf_transfer_req r -> wf_ballot b -> f_can_write (walFile w) = true ->
  wf_entry (prepareTransaction w r b).2.
Proof.
  intros ((Ht1 & Ht2 & Ht3) & Hl) [Hb1 Hb2] Hw. unfold prepareTransaction. rewrite Hw. cbn. unfold wf_entry, wf_txn. cbn. parts.
Qed.

Lemma typed_server_prepare r b s :
  typed s -> wf_transfer_req r -> wf_ballot b -> f_can_write (walFile (wal s)) = true ->
  typed (server_prepareTransaction r b s).
Proof.
  intros Hs Hr Hb Hw. unfold server_prepareTransaction. apply typed_last; [|apply wrap32_range|done].
  apply typed_push; [by apply typed_wal|by apply prepare_entry_wf].
Qed.

Lemma typed_server_commit r b s :
  typed s -> wf_transfer_req r -> wf_ballot b -> f_can_write (walFile (wal s)) = true ->
  typed (server_commitTransaction r b s).
Proof.
  intros Hs ((Ht1 & Ht2 & Ht3) & Hl) [Hb1 Hb2] Hw. unfold server_commitTransaction. cbv zeta.
  apply typed_last; [|apply wrap32_range|done]. do 2 apply typed_update. do 2 apply typed_add.
  apply typed_push; [by apply typed_wal|]. unfold commitTransaction_intra. rewrite Hw. cbn. unfold wf_entry, wf_txn. cbn. parts.
Qed.

Lemma typed_settle c d b s : typed s -> typed (settle_account c d b s).
Proof.
  intros Hs. unfold settle_account. destruct (client_in_cluster s c); [|done].
  destruct b; [apply typed_update, typed_add|]; by apply typed_unlock.
Qed.

Lemma typed_apply e c d s : typed s -> typed (apply_entry e c d s).
Proof. intros Hs. unfold apply_entry. destruct (_ && _); [by apply typed_update, typed_add|done]. Qed.

Lemma typed_sync_entry s l : typed s -> wf_log_entry l -> typed (sync_entry s l).
Proof.
  intros Hs Hl. unfold sync_entry. cbv zeta. do 2 apply typed_apply.
  assert (typed (push_log (entry_of_log l) s)) as H1 by (by apply typed_push). by eapply typed_frame, H1.
Qed.

Lemma no_entry_unlogged : we_tid no_entry =? -1 = true.
Proof. done. Qed.

Lemma typed_decision s r c : base_ok s -> typed s -> typed (processTpcDecision s r c).
Proof.
  intros ((m & Hrep & _) & _) Hs. destruct (i_am_disconnected s) eqn:Hd.
  { unfold processTpcDecision. by rewrite Hd. }
  destruct r as [tid]. destruct (decision_cases s tid c m Hrep Hd) as (r & -> & Hr). cbv zeta.
  do 2 apply typed_settle. destruct (m !! tid) as [e|].
  - destruct Hr as (Hr & _ & Htid & Hwf). destruct (_ =? -1); [by apply typed_wal|].
    apply typed_push; [by apply typed_wal|]. by rewrite Hr.
  - subst r. cbn [snd]. rewrite no_entry_unlogged. by apply typed_wal.
Qed.

(** ** The handlers *)

Lemma base_writes s : base_ok s -> f_can_write (walFile (wal s)) = true.
Proof. intros ((m & [[_ Hw] _] & _) & _). exact Hw. Qed.

Lemma typed_start_prepare s tid : typed s -> in_long tid -> typed (start_prepare s tid).1.
Proof.
  intros (H1 & H2 & H3 & H4 & H5 & H6 & H7) Ht.
  pose proof (wrap32_range (ballot_num s + 1)). pose proof one_int. pose proof zero_int.
  destruct H5 as (P1 & P2 & P3 & P4). unfold typed, start_prepare. cbn. parts.
Qed.

Lemma typed_conditions s t : typed s -> typed (conditions_fail s t).1.
Proof.
  intros Hs. unfold conditions_fail. destruct (_ || _); [done|].
  destruct (client_in_cluster s (sender t)); [by apply typed_touch|done].
Qed.

Lemma typed_start_accept s r cross :
  typed s -> base_ok s -> wf_transfer_req r -> typed (start_accept s r cross).1.
Proof.
  intros Hs Hok Hr. unfold start_accept. cbv zeta. cbn [fst].
  set (s1 := if client_in_cluster s _ then _ else _). set (s2 := if client_in_cluster s1 _ then _ else _).
  assert (typed s2 /\ promised_num s2 = promised_num s /\ wal s2 = wal s) as (H2 & E1 & E2).
  { unfold s2, s1. destruct (client_in_cluster s (sender (tr_txn r)));
      destruct (client_in_cluster _ (receiver (tr_txn r))); (split; [|done]); repeat apply typed_lock; done. }
  clearbody s2. set (s3 := (lock _ s2) <| accepted := true |> <| accept_num := _ |> <| accept_val := r |>
    <| await_accept_decision := true |> <| accept_successes := 1 |> <| accept_failures := 0 |>).
  assert (wf_ballot (promised_num s)) as Hb by apply Hok.
  assert (typed s3 /\ accept_num s3 = promised_num s /\ wal s3 = wal s) as (H3 & E3 & E4).
  { split; [|split; [exact E1|exact E2]]. destruct H2 as (H1 & H2 & H3 & H4 & (P1 & P2 & _ & _) & H6 & H7).
    pose proof one_int. pose proof zero_int. unfold s3, typed. cbn. rewrite E1. parts. }
  clearbody s3. destruct cross; [|done].
  apply typed_server_prepare; [done|done|by rewrite E3|rewrite E4; by apply base_writes].
Qed.

Lemma typed_finish s :
  typed s ->
  typed (s <| promised := false |> <| accepted := false |> <| await_prepare_decision := false |>
     <| await_accept_decision := false |> <| is_paxos_running := false |> <| paxos_tid := -1 |>).
Proof. intros Hs. apply typed_tid; [by eapply typed_frame, Hs|apply minus_one_long]. Qed.

Lemma typed_decide_commit s r cross :
  typed s -> base_ok s -> wf_transfer_req r -> typed (decide_commit s r cross).1.
Proof.
  intros Hs Hok Hr. unfold decide_commit. cbv zeta. cbn [fst].
  change (accept_num (s <| await_accept_decision := false |>)) with (accept_num s).
  set (s1 := s <| await_accept_decision := false |>).
  assert (typed s1) as H1 by (by eapply typed_frame, Hs). assert (wal s1 = wal s) as Ew by done. clearbody s1.
  set (s2 := if cross then s1 else _). assert (typed s2) as H2; [|clearbody s2; by apply typed_finish].
  unfold s2. destruct cross; [done|]. apply typed_server_commit; [by do 2 apply typed_unlock|done|apply Hs|].
  change (f_can_write (walFile (wal s1)) = true). rewrite Ew. by apply base_writes.
Qed.

Lemma typed_runPaxos s r p cross :
  typed s -> base_ok s -> wf_transfer_req r -> typed (runPaxos s r p cross).1.1.1.
Proof.
  intros Hs Hok Hr. destruct (runPaxos s r p cross) as [[[s' p'] outs] b] eqn:E. cbn [fst].
  apply runPaxos_case in E as (v & Hc & _).
  assert (forall s1, typed s1 -> typed (s1 <| is_paxos_running := false |> <| paxos_tid := -1 |>)) as Hrel.
  { intros s1 H1. apply typed_tid; [by eapply typed_frame, H1|apply minus_one_long]. }
  assert (typed (s <| await_prepare_decision := false |>)) as Hs0 by (by eapply typed_frame, Hs).
  assert (base_ok (conditions_fail (s <| await_prepare_decision := false |>) (tr_txn r)).1) as Hok0.
  { unfold conditions_fail. destruct (_ || _); [exact Hok|]. destruct (client_in_cluster _ _); exact Hok. }
  destruct Hc as [|Hi Hrun Ep Ea|c Ep Hm -> Ecf|c Hi Hrun Ep Hm -> Ecf|Ep Hm Hf|Hi Hrun Ep Ea Hm|Ep Ea Hm Hf].
  - done.
  - apply typed_start_prepare; [done|apply Hr].
  - by apply Hrel, typed_conditions.
  - by apply typed_start_accept; [apply typed_conditions| |].
  - by apply Hrel.
  - by apply typed_decide_commit.
  - unfold fail_accept. cbv zeta.
    assert (typed (s <| await_accept_decision := false |> <| is_paxos_running := false |> <| paxos_tid := -1 |>)) as H1.
    { apply (Hrel (s <| await_accept_decision := false |>)). by eapply typed_frame, Hs. }
    destruct cross; [done|]. by do 2 apply typed_unlock.
Qed.

Lemma typed_prepare_call s r : typed s -> wf_ballot (pq_ballot r) -> typed (processPrepareCall s r).1.1.
Proof.
  intros Hs [Hb _]. unfold processPrepareCall. destruct (i_am_disconnected s); [done|].
  destruct (_ <? _); [destruct (_ =? _); [|destruct (_ <? _)]|]; cbn [fst snd]; try (by eapply typed_frame, Hs); try done.
  destruct Hs as (H1 & H2 & H3 & H4 & H5 & H6 & H7). unfold typed. cbn. parts.
Qed.

Lemma typed_accept_call s r :
  typed s -> base_ok s -> event_wf (ev_accept r) -> typed (processAcceptCall s r).1.
Proof.
  intros Hs Hok (Hr & _ & Hb). unfold processAcceptCall. destruct (i_am_disconnected s); [done|].
  destruct (promised s && _); [|done]. cbv zeta.
  set (s1 := s <| accepted := true |> <| accept_num := aq_ballot r |> <| accept_val := aq_r r |>).
  assert (typed s1) as H1 by (apply (typed_accept _ _ (s <| accepted := true |>)); [by eapply typed_frame, Hs|done]).
  destruct (lock_both s1 (tr_txn (accept_val s1))) as [-> ->]. cbn [fst].
  set (s2 := s1 <| locks ::= _ |>). assert (typed s2) as H2 by (by eapply typed_frame, H1).
  destruct (is_cross _ _); [|done]. apply typed_server_prepare; [done|done|done|exact (base_writes s Hok)].
Qed.

Lemma typed_commit_call s r : typed s -> base_ok s -> typed (processCommitCall s r).
Proof.
  intros Hs Hok. unfold processCommitCall. destruct (i_am_disconnected s); [done|]. destruct (_ && _); [|done]. cbv zeta.
  set (s1 := s <| last_inserted := last_index (log s) |> <| last_inserted_ballot := accept_num s |>).
  assert (typed s1) as H1 by (apply typed_last; [done|apply wrap32_range|apply Hs]).
  destruct (unlock_both s1 (tr_txn (accept_val s1))) as [-> ->].
  set (s2 := s1 <| locks ::= _ |>). assert (typed s2) as H2 by (by eapply typed_frame, H1).
  assert (wf_transfer_req (accept_val s2) /\ wf_ballot (accept_num s2) /\ f_can_write (walFile (wal s2)) = true) as (Hv & Hb & Hw).
  { split; [exact (proj1 (proj2 Hok))|]. split; [exact (proj1 (proj2 (proj2 Hs)))|exact (base_writes s Hok)]. }
  clearbody s2.
  assert (forall s3, typed s3 -> typed (s3 <| promised := false |> <| accepted := false |>)) as Hend
    by (intros s3 H3; by eapply typed_frame, H3).
  apply Hend. destruct (_ && _); [by apply typed_server_commit|done].
Qed.

Lemma typed_sync_reply s st p : typed s -> event_wf (ev_sync_reply st p) -> typed (handleSyncReply s st p).
Proof.
  intros Hs [Hl Hb]. unfold handleSyncReply. destruct (_ && _); [|by eapply typed_frame, Hs]. cbv zeta.
  assert (typed (foldl sync_entry s (sr_logs p))) as H1.
  { apply (foldl_inv typed (fun l => wf_log_entry l)); [|by eapply Forall_impl; [exact Hl|intros l [? _]]|done].
    intros s' l Hwl Hs'. by apply typed_sync_entry. }
  revert H1. generalize (foldl sync_entry s (sr_logs p)). intros s1 (K1 & K2 & K3 & K4 & K5 & K6 & K7).
  pose proof (wrap32_range (last_inserted s1 + Z.of_nat (length (sr_logs p)))). pose proof Hb as [Hb1 Hb2].
  unfold typed. cbn. parts.
Qed.

Lemma typed_prepare_reply s st q p :
  typed s -> event_wf (ev_prepare_reply st q p) -> typed (handlePrepareReply s st q p).1.
Proof.
  intros Hs Hp. cbn in Hp. unfold handlePrepareReply.
  destruct (negb _); [done|].
  assert (typed (s <| prepare_successes ::= fun n => wrap32 (n + 1) |>) /\
          typed (s <| prepare_failures ::= fun n => wrap32 (n + 1) |>)) as [Hok Hno].
  { pose proof (wrap32_range (prepare_successes s + 1)) as W1. pose proof (wrap32_range (prepare_failures s + 1)) as W2.
    destruct Hs as (H1 & H2 & H3 & H4 & (P1 & P2 & P3 & P4) & H6 & H7). unfold typed. cbn. split; parts. }
  destruct (status_is_deadline st && _ && _); [done|]. destruct (_ && _ && _); [|done].
  set (s1 := if pr_ack p then _ else _). assert (typed s1) as H1 by (unfold s1; by destruct (pr_ack p)). clearbody s1.
  set (s2 := match pr_latest_ballot_num p with Some _ => _ | None => _ end).
  assert (typed s2) as H2.
  { unfold s2. destruct (pr_latest_ballot_num p) as [m|]; [|done].
    assert (typed (s1 <| ballot_num := m |>)) as H2 by (by apply typed_ballot). by eapply typed_frame, H2. }
  clearbody s2. destruct (pr_last_inserted p) as [m|]; [|done]. destruct (_ <? _); [by eapply typed_frame, H2|done].
Qed.

Lemma typed_accept_reply s st q p : typed s -> typed (handleAcceptReply s st q p).
Proof.
  intros Hs. unfold handleAcceptReply. destruct (negb _); [done|].
  assert (typed (s <| accept_successes ::= fun n => wrap32 (n + 1) |>) /\
          typed (s <| accept_failures ::= fun n => wrap32 (n + 1) |>)) as [Hok Hno].
  { pose proof (wrap32_range (accept_successes s + 1)) as W1. pose proof (wrap32_range (accept_failures s + 1)) as W2.
    destruct Hs as (H1 & H2 & H3 & H4 & (P1 & P2 & P3 & P4) & H6 & H7). unfold typed. cbn. split; parts. }
  destruct (status_is_deadline st && _ && _); [done|]. destruct (_ && _ && _); [|done]. by destruct (ar_ack p).
Qed.

Lemma typed_disconnect s r : typed s -> typed (processDisconnectCall s r).
Proof.
  apply typed_frame. unfold processDisconnectCall. rewrite (foldl_frame typed_view).
  - unfold resetDisconnectedState. rewrite (foldl_frame typed_view); [done|]. intros s' p. by case_match.
  - intros s' name. unfold disconnect_one. by repeat case_match.
Qed.

Lemma typed_exec s e : base_ok s -> event_wf e -> typed s -> typed (server_exec s e).1.
Proof.
  intros Hok He Hs. destruct e as [r p|r p|r c|r|r|r|r|r| |r|st q p|st q p|st p]; cbn [server_exec fst snd].
  - apply typed_runPaxos; [done|done|apply He].
  - apply typed_runPaxos; [done|done|apply He].
  - by apply typed_decision.
  - by apply typed_prepare_call.
  - by apply typed_accept_call.
  - by apply typed_commit_call.
  - done.
  - by apply typed_touch.
  - done.
  - by apply typed_disconnect.
  - by apply typed_prepare_reply.
  - by apply typed_accept_reply.
  - by apply typed_sync_reply.
Qed.

Lemma typed_opening (l : list Z) (m : gmap Z Z) :
  map_Forall (fun _ b => in_int b) m -> map_Forall (fun _ b => in_int b) (foldl (fun m i => <[i := 10]> m) m l).
Proof.
  revert m. induction l as [|i l IH]; intros m Hm; cbn [foldl]; [exact Hm|]. apply IH.
  apply map_Forall_insert_2; [unfold in_int; lia|exact Hm].
Qed.

Lemma typed_built c id f (d : DB) : typed (ServerImpl c id f d).
Proof.
  unfold ServerImpl. set (s1 := mk_server _ _ _ _ _ _ _ _ _ _ _ _ _ _ _ _ _ _ _ _ _ _ _ _ _ _ _ _).
  assert (typed_view (resetDisconnectedState s1) = typed_view s1) as Hv.
  { unfold resetDisconnectedState. rewrite (foldl_frame typed_view); [done|]. intros s' p. by case_match. }
  apply (typed_frame s1); [exact Hv|]. pose proof zero_int. pose proof minus_one_long.
  assert (in_int (-1)) by (unfold in_int; lia). assert (wf_ballot default_ballot) by (split; apply zero_int).
  pose proof (Forall_nil_2 wf_entry) as Hl.
  pose proof (map_Forall_empty (M := gmap Z) (fun _ b => in_int b)) as Hm. unfold typed, s1. cbn. parts.
Qed.

Lemma typed_start c id f (d : DB) s : started c id f d s -> typed s.
Proof.
  intros (_ & _ & Hrun). pose proof (typed_built c id f d) as H1. revert H1 Hrun.
  generalize (ServerImpl c id f d). intros s2 (P1 & P2 & P3 & P4 & P5 & P6 & P7) Hrun.
  unfold run_setup in Hrun. revert Hrun. case_match; [|done]. intros [= <-]. unfold typed. cbn.
  split; [exact P1|]. split; [exact P2|]. split; [exact P3|]. split; [exact P4|]. split; [exact P5|]. split; [exact P6|].
  by apply typed_opening.
Qed.

End Typed.

Lemma typed_open (clients : list Z) (s : Server map_store) : typed s -> typed (open_accounts clients s).
Proof.
  intros (P1 & P2 & P3 & P4 & P5 & P6 & P7). unfold typed. cbn.
  split; [exact P1|]. split; [exact P2|]. split; [exact P3|]. split; [exact P4|]. split; [exact P5|]. split; [exact P6|].
  apply typed_opening, map_Forall_empty.
Qed.

