(* ===== verification/Logging.v ===== *)
(** * What a handler may log and when it may wait

    Which entries each handler appends to a server's log, and when it begins
    to await an accept decision: the facts about one server that the theorems
    about the whole bank rest on. *)
From stdpp Require Import gmap list strings.
From Stdlib Require Import ZArith Lia Ascii.
From S2P Require Import Prelude Chars Types Config Wal OutCall Server Store Steps Protocol Acceptor Ledger Sync Typed.

(** The entries of a prepared and of a committed request. *)
Definition prepare_of (r : TransferReq) (b : Ballot) : WALEntry :=
  mk_entry (tr_tid r) (b_num b) (b_server_id b) (tr_txn r) CROSS PREPARED.
Definition commit_of (r : TransferReq) (b : Ballot) : WALEntry :=
  mk_entry (tr_tid r) (b_num b) (b_server_id b) (tr_txn r) INTRA COMMITTED.
Definition decided_status (commit : bool) : TransactionStatus := if commit then COMMITTED else ABORTED.

Section Logging.
Context {DB : Type} `{KVStore DB} {J : Indeterminate}.
Implicit Types s : Server DB.

(** The log grows by entries that satisfy [P]. *)
Definition logs (P : WALEntry -> Prop) s s' : Prop := exists es, log s' = log s ++ es /\ Forall P es.

(** What makes every entry an event adds satisfy [P]. *)
Definition adds (P : WALEntry -> Prop) s (e : server_event) : Prop :=
  match e with
  | ev_tpc_prepare r _ => forall b, P (prepare_of r b)
  | ev_transfer r _ => forall b, P (commit_of r b)
  | ev_tpc_decision r c => forall e, we_tid e = tt_tid r -> tt_tid r <> -1 -> P (e <| we_status := decided_status c |>)
  | ev_accept r => forall b, P (prepare_of (aq_r r) b)
  | ev_commit _ =>
    client_in_cluster s (sender (tr_txn (accept_val s))) = true ->
    client_in_cluster s (receiver (tr_txn (accept_val s))) = true -> forall b, P (commit_of (accept_val s) b)
  | ev_sync_reply _ p => Forall (fun l => P (entry_of_log l)) (sr_logs p)
  | _ => True
  end.

Section Entries.
Context (P : WALEntry -> Prop).

Lemma logs_same s s' : log s' = log s -> logs P s s'.
Proof. intros E. exists []. by rewrite app_nil_r. Qed.

Lemma logs_one s s' e : log s' = log s ++ [e] -> P e -> logs P s s'.
Proof. intros E He. exists [e]. split; [done|by constructor]. Qed.

Lemma logs_trans s1 s2 s3 : logs P s1 s2 -> logs P s2 s3 -> logs P s1 s3.
Proof.
  intros (e1 & H1 & K1) (e2 & H2 & K2). exists (e1 ++ e2). split; [by rewrite H2, H1, app_assoc|by apply Forall_app_2].
Qed.

Lemma log_server_prepare r b s : log (server_prepareTransaction r b s) = log s ++ [prepare_of r b].
Proof.
  unfold server_prepareTransaction, prepareTransaction. cbn. unfold prepare_of. by destruct r as [[? ? ?] ?].
Qed.

Lemma log_server_commit r b s :
  f_can_write (walFile (wal s)) = true -> log (server_commitTransaction r b s) = log s ++ [commit_of r b].
Proof.
  intros Hw. unfold server_commitTransaction, commitTransaction_intra. rewrite Hw. cbn. unfold commit_of.
  by destruct r as [[? ? ?] ?].
Qed.

Lemma log_start_accept s r (cross : bool) :
  exists b : Ballot, log (start_accept s r cross).1 = if cross then log s ++ [prepare_of r b] else log s.
Proof.
  unfold start_accept. cbv zeta. cbn [fst].
  set (s1 := if client_in_cluster s _ then _ else _). set (s2 := if client_in_cluster s1 _ then _ else _).
  assert (log s2 = log s) as E by (unfold s2, s1; by repeat case_match). clearbody s2. rewrite <- E.
  destruct cross; [|by exists default_ballot]. eexists. by rewrite log_server_prepare.
Qed.

Lemma log_released s :
  log (s <| promised := false |> <| accepted := false |> <| await_prepare_decision := false |>
         <| await_accept_decision := false |> <| is_paxos_running := false |> <| paxos_tid := -1 |>) = log s.
Proof. reflexivity. Qed.

Lemma log_round_over s : log (s <| promised := false |> <| accepted := false |>) = log s.
Proof. reflexivity. Qed.

Lemma log_decide_commit s r (cross : bool) :
  f_can_write (walFile (wal s)) = true ->
  exists b : Ballot, log (decide_commit s r cross).1 = if cross then log s else log s ++ [commit_of r b].
Proof.
  intros Hw. unfold decide_commit. cbv zeta. cbn [fst]. rewrite log_released.
  destruct cross; [by exists default_ballot|]. exists (accept_num s). rewrite log_server_commit; [reflexivity|exact Hw].
Qed.

Lemma logs_runPaxos s r p (cross : bool) :
  f_can_write (walFile (wal s)) = true ->
  (if cross then forall b, P (prepare_of r b) else forall b, P (commit_of r b)) ->
  logs P s (runPaxos s r p cross).1.1.1.
Proof.
  intros Hw HP. destruct (runPaxos s r p cross) as [[[s' p'] outs] b] eqn:E. cbn [fst].
  apply runPaxos_case in E as (v & Hc & _).
  assert (log (conditions_fail (s <| await_prepare_decision := false |>) (tr_txn r)).1 = log s) as Ec.
  { unfold conditions_fail. by repeat case_match. }
  destruct Hc as [|Hi Hrun Ep Ea|c Ep Hm -> Ecf|c Hi Hrun Ep Hm -> Ecf|Ep Hm Hf|Hi Hrun Ep Ea Hm|Ep Ea Hm Hf];
    try (by apply logs_same).
  - destruct (log_start_accept (conditions_fail (s <| await_prepare_decision := false |>) (tr_txn r)).1 r cross) as [b' E].
    rewrite Ec in E. destruct cross; [by eapply logs_one|by apply logs_same].
  - destruct (log_decide_commit s r cross Hw) as [b' E]. destruct cross; [by apply logs_same|by eapply logs_one].
  - apply logs_same. unfold fail_accept. by destruct cross.
Qed.

Lemma logs_decision s r c :
  base_ok s -> adds P s (ev_tpc_decision r c) -> logs P s (processTpcDecision s r c).
Proof.
  intros ((m & Hrep & Hm) & _) HP. destruct (i_am_disconnected s) eqn:Hd.
  { apply logs_same. unfold processTpcDecision. by rewrite Hd. }
  destruct r as [tid]. destruct (decision_cases s tid c m Hrep Hd) as (r & -> & Hr). cbv zeta.
  destruct (settle_frame (receiver (we_txn r.2)) (amount (we_txn r.2)) c (settle_account (sender (we_txn r.2))
    (- amount (we_txn r.2)) c (if we_tid r.2 =? -1 then s <| wal := r.1 |> else push_log r.2 (s <| wal := r.1 |>)))) as [E1 _].
  destruct (settle_frame (sender (we_txn r.2)) (- amount (we_txn r.2)) c
    (if we_tid r.2 =? -1 then s <| wal := r.1 |> else push_log r.2 (s <| wal := r.1 |>))) as [E2 _].
  cbv zeta in E1, E2. rewrite E2 in E1. destruct (Z.eqb_spec (we_tid r.2) (-1)); [by apply logs_same|].
  apply (logs_one s _ r.2); [exact E1|]. destruct (m !! tid) as [e|] eqn:Em.
  - destruct Hr as (-> & _ & Htid & _). apply HP; [done|]. cbn. intros ->. congruence.
  - subst r. done.
Qed.

Lemma logs_sync_reply s st p : Forall (fun l => P (entry_of_log l)) (sr_logs p) -> logs P s (handleSyncReply s st p).
Proof.
  intros Hl. unfold handleSyncReply. destruct (_ && _); [|by apply logs_same]. cbv zeta.
  exists (map entry_of_log (sr_logs p)). split; [apply sync_entries_log|]. by apply Forall_map.
Qed.

Lemma logs_accept_call s r : adds P s (ev_accept r) -> logs P s (processAcceptCall s r).1.
Proof.
  intros HP. unfold processAcceptCall. destruct (i_am_disconnected s); [by apply logs_same|].
  destruct (promised s && _); [|by apply logs_same]. cbv zeta.
  set (s1 := s <| accepted := true |> <| accept_num := aq_ballot r |> <| accept_val := aq_r r |>).
  destruct (lock_both s1 (tr_txn (accept_val s1))) as [-> ->]. cbn [fst].
  destruct (is_cross _ _); [|by apply logs_same].
  eapply logs_one; [by rewrite log_server_prepare|apply HP].
Qed.

Lemma logs_commit_call s r : base_ok s -> adds P s (ev_commit r) -> logs P s (processCommitCall s r).
Proof.
  intros Hok HP. pose proof (base_writes s Hok) as Hw. unfold processCommitCall.
  destruct (i_am_disconnected s); [by apply logs_same|]. destruct (_ && _); [|by apply logs_same]. cbv zeta.
  set (s1 := s <| last_inserted := last_index (log s) |> <| last_inserted_ballot := accept_num s |>).
  destruct (unlock_both s1 (tr_txn (accept_val s1))) as [-> ->].
  change (client_in_cluster s1 ?x) with (client_in_cluster s x). change (accept_val s1) with (accept_val s).
  destruct (client_in_cluster s (sender (tr_txn (accept_val s)))) eqn:E1;
    destruct (client_in_cluster s (receiver (tr_txn (accept_val s)))) eqn:E2; cbn [andb]; try (by apply logs_same).
  apply (logs_one s _ (commit_of (accept_val s) (accept_num s))); [|exact (HP E1 E2 _)]. rewrite log_round_over. by rewrite log_server_commit.
Qed.

(** Every handler. *)
Lemma logs_exec s e : base_ok s -> event_wf e -> adds P s e -> logs P s (server_exec s e).1.
Proof.
  intros Hok He HP. pose proof (base_writes s Hok) as Hw.
  destruct e as [r p|r p|r c|r|r|r|r|r| |r|st q p|st q p|st p]; cbn [server_exec fst snd].
  - by apply logs_runPaxos.
  - by apply logs_runPaxos.
  - by apply logs_decision.
  - apply logs_same. unfold processPrepareCall. by repeat case_match.
  - by apply logs_accept_call.
  - by apply logs_commit_call.
  - by apply logs_same.
  - by apply logs_same.
  - by apply logs_same.
  - apply logs_same. by destruct (bank_eq _ _ (bank_disconnect s r)) as (_ & _ & _ & _ & _ & ?).
  - apply logs_same. by destruct (bank_eq _ _ (bank_prepare_reply s st q p)) as (_ & _ & _ & _ & _ & ?).
  - apply logs_same. by destruct (bank_eq _ _ (bank_accept_reply s st q p)) as (_ & _ & _ & _ & _ & ?).
  - by apply logs_sync_reply.
Qed.
End Entries.

(** ** Awaiting acceptances *)

(** The request an event proposes or asks to accept. *)
Definition proposes (e : server_event) (r : TransferReq) : Prop :=
  match e with
  | ev_tpc_prepare q _ | ev_transfer q _ => q = r
  | ev_accept q => aq_r q = r
  | _ => False
  end.

(** The server proposes a transaction and awaits the acceptances. *)
Definition awaits s (tid : Z) : Prop := await_accept_decision s = true /\ paxos_tid s = tid.

Lemma awaits_same s s' tid : same_phase s s' -> awaits s' tid -> awaits s tid.
Proof. intros (_ & E1 & E2 & _) [H1 H2]. split; congruence. Qed.

Lemma same_phase_ctrl s s' : ctrl s' = ctrl s -> same_phase s s'.
Proof.
  intros E. split; [exact (f_equal ct_running E)|]. split; [exact (f_equal ct_tid E)|].
  split; [exact (f_equal ct_await_accept E)|exact (f_equal ct_await_prepare E)].
Qed.

Lemma awaits_runPaxos s r p (cross : bool) tid :
  ctrl_ok (ctrl s) -> tid <> -1 -> awaits (runPaxos s r p cross).1.1.1 tid ->
  awaits s tid \/ (tr_tid r = tid /\ (cross = true -> exists b, prepare_of r b ∈ log (runPaxos s r p cross).1.1.1)).
Proof.
  intros (K1 & K2 & K3) Hne. destruct (runPaxos s r p cross) as [[[s' p'] outs] b] eqn:E. cbn [fst].
  apply runPaxos_case in E as (v & Hc & _). cbn in K1, K2.
  destruct Hc as [|Hi Hrun Ep Ea|c Ep Hm -> Ecf|c Hi Hrun Ep Hm Hcf Ecf|Ep Hm Hf|Hi Hrun Ep Ea Hm|Ep Ea Hm Hf];
    try (intros [_ <-]; done).
  - by left.
  - intros [Ha _]. cbn in Ha. congruence.
  - intros [_ Ht]. right. apply conditions_ctrl in Hcf.
    pose proof (f_equal ct_tid (start_accept_ctrl c.1 r cross)) as E1. pose proof (f_equal ct_tid Hcf) as E2.
    cbn [ct_tid ctrl] in E1, E2.
    split; [rewrite <- Ht, E1, E2; symmetry; apply Hrun, K2; by rewrite Ep|]. intros ->.
    destruct (log_start_accept c.1 r true) as [b' El]. exists b'. rewrite El. apply elem_of_app. right. by left.
  - intros [_ Ht]. exfalso. apply Hne. rewrite <- Ht. exact (proj1 (proj2 (fail_accept_released s r cross))).
Qed.

(** A server begins to await acceptances for a transaction only when it is
    asked to run it, and a cross-shard one is in its log by then. *)
Lemma awaits_exec s e tid :
  ctrl_ok (ctrl s) -> tid <> -1 -> awaits (server_exec s e).1 tid ->
  awaits s tid \/ exists r, proposes e r /\ tr_tid r = tid /\
    match e with ev_tpc_prepare _ _ => exists b, prepare_of r b ∈ log (server_exec s e).1 | ev_transfer _ _ => True | _ => False end.
Proof.
  intros Hok Hne. destruct e as [r p|r p|r c|r|r|r|r|r| |r|st q p|st q p|st p]; cbn [server_exec fst snd].
  - intros [H1|[H1 H2]]%awaits_runPaxos; [by left| |done|done]. right. exists r. split; [done|]. split; [done|]. by apply H2.
  - intros [H1|[H1 H2]]%awaits_runPaxos; [by left| |done|done]. right. by exists r.
  - left. eapply awaits_same; [apply same_phase_ctrl, ctrl_decision|done].
  - left. eapply awaits_same; [apply prepare_call_ctrl|done].
  - left. destruct (accept_call_ctrl s r) as [E|E]; (eapply awaits_same; [|done]);
      [by apply same_phase_ctrl|exact (same_phase_ctrl _ _ E)].
  - left. destruct (commit_call_ctrl s r) as [E|E]; (eapply awaits_same; [|done]);
      [by apply same_phase_ctrl|exact (same_phase_ctrl _ _ E)].
  - by left.
  - by left.
  - by left.
  - left. eapply awaits_same; [apply same_phase_ctrl, ctrl_disconnect|done].
  - left. destruct (prepare_reply_ctrl s st q p) as (_ & E1 & E2 & _). destruct H0 as [H1 H2]. split; congruence.
  - left. eapply awaits_same; [apply accept_reply_ctrl|done].
  - left. eapply awaits_same; [apply sync_reply_ctrl|done].
Qed.

(** A positive answer ends such a wait and logs nothing. *)
Lemma positive_vote s r p s' res outs :
  ctrl_ok (ctrl s) -> processTpcPrepare s r p = (s', res, outs, true) -> ts_ack res = true ->
  awaits s (tr_tid r) /\ log s' = log s.
Proof.
  intros (K1 & K2 & K3) (v & Hc & Hv)%runPaxos_case Hack. cbn in K2.
  destruct Hc as [|Hi Hrun Ep Ea|c Ep Hm -> Ecf|c Hi Hrun Ep Hm Hcf Ecf|Ep Hm Hf|Hi Hrun Ep Ea Hm|Ep Ea Hm Hf];
    try done; try (destruct Hv as [_ ->]; done).
  split; [|done]. split; [done|]. apply Hrun, K2. by rewrite Ea, orb_true_r.
Qed.

(** ** The accepted value *)

Lemma accept_val_runPaxos s r p (cross : bool) :
  accept_val (runPaxos s r p cross).1.1.1 = accept_val s \/ accept_val (runPaxos s r p cross).1.1.1 = r.
Proof.
  destruct (runPaxos s r p cross) as [[[s' p'] outs] b] eqn:E. cbn [fst]. apply runPaxos_case in E as (v & Hc & _).
  destruct Hc as [|Hi Hrun Ep Ea|c Ep Hm Hcf Ecf|c Hi Hrun Ep Hm Hcf Ecf|Ep Hm Hf|Hi Hrun Ep Ea Hm|Ep Ea Hm Hf];
    try (by left).
  - left. apply conditions_ctrl in Hcf. exact (f_equal ct_accept_val Hcf).
  - right. exact (f_equal ct_accept_val (start_accept_ctrl c.1 r cross)).
  - left. exact (f_equal ct_accept_val (decide_commit_ctrl s r cross)).
  - left. unfold fail_accept. by destruct cross.
Qed.

Lemma accept_val_exec s e :
  accept_val (server_exec s e).1 = accept_val s \/ exists r, accept_val (server_exec s e).1 = r /\ proposes e r.
Proof.
  destruct e as [r p|r p|r c|r|r|r|r|r| |r|st q p|st q p|st p]; cbn [server_exec fst snd].
  - destruct (accept_val_runPaxos s r p true) as [E|E]; [by left|right]. by exists r.
  - destruct (accept_val_runPaxos s r p false) as [E|E]; [by left|right]. by exists r.
  - left. exact (f_equal ct_accept_val (ctrl_decision s r c)).
  - left. unfold processPrepareCall. by repeat case_match.
  - destruct (accept_call_ctrl s r) as [E|E]; apply (f_equal ct_accept_val) in E; [by left|right].
    exists (aq_r r). split; [exact E|done].
  - left. destruct (commit_call_ctrl s r) as [E|E]; exact (f_equal ct_accept_val E).
  - by left.
  - by left.
  - by left.
  - left. exact (f_equal ct_accept_val (ctrl_disconnect s r)).
  - left. unfold handlePrepareReply. by repeat case_match.
  - left. unfold handleAcceptReply. by repeat case_match.
  - left. unfold handleSyncReply. destruct (_ && _); [|done]. exact (f_equal ct_accept_val (ctrl_sync_entries s (sr_logs p))).
Qed.

(** ** What a handler sends *)

Definition msg_from (e : server_event) (m : peer_msg) : Prop :=
  match m with
  | MPrepare q => wf_ballot (pq_ballot q)
  | MAccept q => wf_ballot (aq_ballot q) /\ proposes e (aq_r q)
  | _ => True
  end.

(** Every RPC sent carries a message of the event and a fresh call object. *)
Definition out_from (e : server_event) (o : Out) : Prop :=
  match o with
  | Rpc _ m c => msg_from e m /\ oc_syncReply c = default_sync_res /\ oc_prepareReply c = default_prepare_res
  | NullStub _ => True
  end.

Lemma broadcast_from e s type send :
  (forall c d, oc_syncReply c = default_sync_res -> oc_prepareReply c = default_prepare_res -> out_from e (send c d)) ->
  Forall (out_from e) (broadcast s type send).
Proof. intros Hs. apply Forall_forall. intros o (d & _ & ->)%broadcast_elem. by apply Hs. Qed.

Lemma request_sync_from e s d : Forall (out_from e) (request_sync s d).
Proof. unfold request_sync. case_decide; by repeat constructor. Qed.

Lemma runPaxos_from e s r p cross :
  base_ok s -> (forall q, q = r -> proposes e q) -> Forall (out_from e) (runPaxos s r p cross).1.2.
Proof.
  intros (_ & _ & _ & Hb & Hi) He. destruct (runPaxos s r p cross) as [[[s' p'] outs] b] eqn:E. cbn [fst snd].
  apply runPaxos_case in E as (v & Hc & _).
  destruct Hc as [|? ? Ep Ea|c Ep Hm Hcf Ecf|c ? Hrun Ep Hm Hcf Ecf|Ep Hm Hf|? Hrun Ep Ea Hm|Ep Ea Hm Hf];
    try (by constructor); apply broadcast_from; intros oc d Hoc Hop.
  - split; [|by split]. split; [apply wrap32_range|exact Hi].
  - split; [|by split]. split; [|by apply He].
    match goal with |- wf_ballot ?x => assert (x = promised_num s) as -> end; [|done].
    apply conditions_ctrl in Hcf. pose proof (f_equal ct_promised_num Hcf) as E. cbn [ct_promised_num ctrl] in E.
    etransitivity; [|exact E]. clear. cbn. by repeat case_match.
  - by split.
Qed.

Lemma exec_from s e : base_ok s -> Forall (out_from e) (server_exec s e).2.
Proof.
  intros Hok. destruct e as [r p|r p|r c|r|r|r|r|r| |r|st q p|st q p|st p]; cbn [server_exec fst snd]; try (by constructor).
  - apply runPaxos_from; [done|by intros q ->].
  - apply runPaxos_from; [done|by intros q ->].
  - unfold processPrepareCall. repeat case_match; try (by constructor); apply request_sync_from.
  - unfold handlePrepareReply. repeat case_match; try (by constructor); apply request_sync_from.
Qed.
End Logging.
