(* ===== verification/Calls.v ===== *)
(** * Incoming calls and the event loop

    Class [InCall] of [server/in_call.cc] (a call object serves one RPC and
    goes through CREATE, PROCESS, RETRY and FINISH), the dispatch of replies
    [OutCall::HandleRPCResponse], and the event loop [HandleRPCs] with the
    heap of call objects.  gRPC is the environment: it hands back the tag of
    an operation that completed, with the request it has read. *)
From stdpp Require Import gmap list strings.
From Stdlib Require Import ZArith Lia Ascii.
From S2P Require Import Prelude Chars Types Config Wal OutCall Server Store Steps Protocol.

Inductive CallStatus := CREATE | PROCESS | RETRY | FINISH.

#[export] Instance CallStatus_eq_dec : EqDecision CallStatus.
Proof. solve_decision. Defined.

Record InCall := mk_in_call {
  ic_tpcTid : TpcTid;
  ic_transferReq : TransferReq;
  ic_transferRes : TransferRes;
  ic_balanceReq : BalanceReq;
  ic_prepareReq : PrepareReq;
  ic_acceptReq : AcceptReq;
  ic_commitReq : CommitReq;
  ic_syncReq : SyncReq;
  ic_disconnectReq : DisconnectReq;
  ic_status : CallStatus;
  ic_type : RequestTypes;
  ic_retry_timeout_ms : Z
}.

#[export] Instance InCall_settable : Settable InCall := fun c =>
  mk_in_call (ic_tpcTid c) (ic_transferReq c) (ic_transferRes c) (ic_balanceReq c) (ic_prepareReq c)
    (ic_acceptReq c) (ic_commitReq c) (ic_syncReq c) (ic_disconnectReq c) (ic_status c) (ic_type c)
    (ic_retry_timeout_ms c).

Inductive reply :=
| REmpty
| RTransfer (p : TransferRes)
| RBalance (p : BalanceRes)
| RLogs (p : LogRes)
| RPrepare (p : PrepareRes)
| RAccept (p : AcceptRes)
| RSync (p : SyncRes).

(** What a call object asks of its environment: to be handed the next request
    of its type, a new call object, the end of the RPC with a reply, a timer,
    or an RPC to a peer. *)
Inductive call_effect :=
| Request (type : RequestTypes)
| Spawn (type : RequestTypes) (retry_timeout_ms : Z)
| Finish (r : reply)
| Alarm (ms : Z)
| Peer (o : Out).

(** The first branch of [Proceed]. *)
Definition create (c : InCall) : InCall * list call_effect :=
  (c <| ic_status := PROCESS |>, [Request (ic_type c)]).

(** The constructor ends with [Proceed]. *)
Definition InCall_new (type : RequestTypes) (retry_timeout_ms : Z) : InCall * list call_effect :=
  create (mk_in_call (mk_tid 0) default_transfer_req default_transfer_res (mk_balance_req 0)
    (mk_prepare_req default_ballot 0) (mk_accept_req default_ballot default_transfer_req)
    (mk_commit_req default_ballot) (mk_sync_req 0) (mk_disconnect_req []) CREATE type retry_timeout_ms).

Definition Retry (c : InCall) : list call_effect := [Alarm (ic_retry_timeout_ms c)].

Section Calls.
Context {DB : Type} `{KVStore DB} {J : Indeterminate}.
Implicit Types s : Server DB.

(** A transfer is answered when [runPaxos] says so, and retried otherwise. *)
Definition answer_or_retry (c : InCall) (r : Server DB * TransferRes * list Out * bool) :
    Server DB * InCall * list call_effect :=
  let c := c <| ic_transferRes := r.1.1.2 |> in
  if negb r.2 then
    let c := c <| ic_status := RETRY |> in (r.1.1.1, c, map Peer r.1.2 ++ Retry c)
  else
    (r.1.1.1, c <| ic_status := FINISH |>, map Peer r.1.2 ++ [Finish (RTransfer (ic_transferRes c))]).

Definition answer (c : InCall) (s : Server DB) (outs : list Out) (r : reply) :
    Server DB * InCall * list call_effect :=
  (s, c <| ic_status := FINISH |>, map Peer outs ++ [Finish r]).

(** The switch of the second branch of [Proceed]. *)
Definition serve (s : Server DB) (c : InCall) : Server DB * InCall * list call_effect :=
  match ic_type c with
  | TPC_PREPARE => answer_or_retry c (processTpcPrepare s (ic_transferReq c) (ic_transferRes c))
  | TPC_COMMIT => answer c (processTpcDecision s (ic_tpcTid c) true) [] REmpty
  | TPC_ABORT => answer c (processTpcDecision s (ic_tpcTid c) false) [] REmpty
  | TRANSFER => answer_or_retry c (processTransferCall s (ic_transferReq c) (ic_transferRes c))
  | PREPARE => let r := processPrepareCall s (ic_prepareReq c) in answer c r.1.1 r.2 (RPrepare r.1.2)
  | ACCEPT => let r := processAcceptCall s (ic_acceptReq c) in answer c r.1 [] (RAccept r.2)
  | COMMIT => answer c (processCommitCall s (ic_commitReq c)) [] REmpty
  | SYNC => answer c s [] (RSync (processSyncCall s (ic_syncReq c)))
  | BALANCE => let r := processGetBalanceCall s (ic_balanceReq c) in answer c r.1 [] (RBalance r.2)
  | LOGS => answer c s [] (RLogs (processGetLogsCall s))
  | DISCONNECT => answer c (processDisconnectCall s (ic_disconnectReq c)) [] REmpty
  end.

(** [None] is [delete this]. *)
Definition Proceed (s : Server DB) (c : InCall) : Server DB * option InCall * list call_effect :=
  match ic_status c with
  | CREATE => let r := create c in (s, Some r.1, r.2)
  | PROCESS =>
    let r := serve s c in
    (r.1.1, Some r.1.2, Spawn (ic_type c) (ic_retry_timeout_ms c) :: r.2)
  | RETRY => let r := serve s c in (r.1.1, Some r.1.2, r.2)
  | FINISH => (s, None, [])
  end.

(** The dispatch of a completed RPC to its handler. *)
Definition HandleRPCResponse (s : Server DB) (c : OutCall) : Server DB * list Out :=
  match oc_type c with
  | PREPARE => handlePrepareReply s (oc_status c) (oc_prepareReq c) (oc_prepareReply c)
  | ACCEPT => (handleAcceptReply s (oc_status c) (oc_acceptReq c) (oc_acceptReply c), [])
  | SYNC => (handleSyncReply s (oc_status c) (oc_syncReply c), [])
  | _ => (s, [])
  end.

(** ** The event loop *)

(** The request gRPC has read for a call. *)
Inductive payload :=
| PTid (r : TpcTid)
| PTransfer (r : TransferReq)
| PBalance (r : BalanceReq)
| PPrepare (r : PrepareReq)
| PAccept (r : AcceptReq)
| PCommit (r : CommitReq)
| PSync (r : SyncReq)
| PDisconnect (r : DisconnectReq)
| PNone.

(** gRPC fills in the request of a registered call, once. *)
Definition fill (c : InCall) (p : payload) : InCall :=
  match ic_status c with
  | PROCESS =>
    match p with
    | PTid r => c <| ic_tpcTid := r |>
    | PTransfer r => c <| ic_transferReq := r |>
    | PBalance r => c <| ic_balanceReq := r |>
    | PPrepare r => c <| ic_prepareReq := r |>
    | PAccept r => c <| ic_acceptReq := r |>
    | PCommit r => c <| ic_commitReq := r |>
    | PSync r => c <| ic_syncReq := r |>
    | PDisconnect r => c <| ic_disconnectReq := r |>
    | PNone => c
    end
  | _ => c
  end.

(** The server, the call objects on the heap by tag, the tags with an
    operation under way, and what has been asked of the environment. *)
Record Loop := mk_loop {
  lp_server : Server DB;
  lp_calls : gmap Z InCall;
  lp_next : Z;
  lp_pending : gset Z;
  lp_trace : list (Z * call_effect)
}.
End Calls.
Arguments Loop DB : clear implicits.

#[export] Instance Loop_settable DB : Settable (Loop DB) := fun l =>
  mk_loop (lp_server l) (lp_calls l) (lp_next l) (lp_pending l) (lp_trace l).

Section EventLoop.
Context {DB : Type} `{KVStore DB} {J : Indeterminate}.
Implicit Types l : Loop DB.

(** An operation of [tag] is under way. *)
Definition started_op (tag : Z) (e : call_effect) (l : Loop DB) : Loop DB :=
  l <| lp_pending ::= fun q => {[tag]} ∪ q |> <| lp_trace ::= fun t => t ++ [(tag, e)] |>.

(** [new InCall(...)] *)
Definition new_call (type : RequestTypes) (ms : Z) (l : Loop DB) : Loop DB :=
  let r := InCall_new type ms in
  let tag := lp_next l in
  let l := l <| lp_calls ::= <[tag := r.1]> |> <| lp_next := tag + 1 |> in
  foldl (fun l e => started_op tag e l) l r.2.

Definition run_effect (tag : Z) (l : Loop DB) (e : call_effect) : Loop DB :=
  match e with
  | Request _ | Finish _ | Alarm _ => started_op tag e l
  | Spawn type ms => new_call type ms l
  | Peer _ => l <| lp_trace ::= fun t => t ++ [(tag, e)] |>
  end.

(** An event of the request queue. *)
Definition request_event (l : Loop DB) (tag : Z) (ok : bool) (p : payload) : Loop DB :=
  let l := l <| lp_pending ::= fun q => q ∖ {[tag]} |> in
  if ok then
    match lp_calls l !! tag with
    | Some c =>
      let r := Proceed (lp_server l) (fill c p) in
      let l := l <| lp_server := r.1.1 |>
                 <| lp_calls ::= match r.1.2 with Some c' => <[tag := c']> | None => delete tag end |> in
      foldl (run_effect tag) l r.2
    | None => l
    end
  else l.

(** An event of the response queue. *)
Definition response_event (l : Loop DB) (c : OutCall) (ok : bool) : Loop DB :=
  if ok then
    let r := HandleRPCResponse (lp_server l) c in
    l <| lp_server := r.1 |> <| lp_trace ::= fun t => t ++ map (fun o => (0, Peer o)) r.2 |>
  else l.

(** One round of the loop: each queue is polled once. *)
Record round := mk_round {
  rd_request : option (Z * bool * payload);
  rd_response : option (OutCall * bool)
}.

Definition iterate (l : Loop DB) (r : round) : Loop DB :=
  let l := match rd_request r with Some (tag, ok, p) => request_event l tag ok p | None => l end in
  match rd_response r with Some (c, ok) => response_event l c ok | None => l end.

Definition served_types : list RequestTypes :=
  [TPC_PREPARE; TPC_COMMIT; TPC_ABORT; TRANSFER; BALANCE; LOGS; PREPARE; ACCEPT; COMMIT; SYNC; DISCONNECT].

(** The rounds are those before the shutdown flag is set. *)
Definition HandleRPCs (s : Server DB) (rounds : list round) : Loop DB :=
  foldl iterate
    (foldl (fun l type => new_call type RETRY_TIMEOUT_MS l) (mk_loop s ∅ 1 ∅ []) served_types) rounds.
End EventLoop.

(** ** The loop runs the handlers, and nothing else *)

Definition event_of_call (c : InCall) : server_event :=
  match ic_type c with
  | TPC_PREPARE => ev_tpc_prepare (ic_transferReq c) (ic_transferRes c)
  | TPC_COMMIT => ev_tpc_decision (ic_tpcTid c) true
  | TPC_ABORT => ev_tpc_decision (ic_tpcTid c) false
  | TRANSFER => ev_transfer (ic_transferReq c) (ic_transferRes c)
  | PREPARE => ev_prepare (ic_prepareReq c)
  | ACCEPT => ev_accept (ic_acceptReq c)
  | COMMIT => ev_commit (ic_commitReq c)
  | SYNC => ev_sync (ic_syncReq c)
  | BALANCE => ev_balance (ic_balanceReq c)
  | LOGS => ev_logs
  | DISCONNECT => ev_disconnect (ic_disconnectReq c)
  end.

Definition event_of_response (c : OutCall) : option server_event :=
  match oc_type c with
  | PREPARE => Some (ev_prepare_reply (oc_status c) (oc_prepareReq c) (oc_prepareReply c))
  | ACCEPT => Some (ev_accept_reply (oc_status c) (oc_acceptReq c) (oc_acceptReply c))
  | SYNC => Some (ev_sync_reply (oc_status c) (oc_syncReply c))
  | _ => None
  end.

(** Messages whose integers are machine integers, and no transaction [-1]. *)
Definition payload_wf (p : payload) : Prop :=
  match p with
  | PTransfer r => wf_transfer_req r /\ tr_tid r <> -1
  | PBalance r => in_int (bq_client r)
  | PPrepare r => wf_ballot (pq_ballot r)
  | PAccept r => wf_transfer_req (aq_r r) /\ tr_tid (aq_r r) <> -1 /\ wf_ballot (aq_ballot r)
  | _ => True
  end.

Definition round_wf (r : round) : Prop :=
  match rd_request r with Some (_, _, p) => payload_wf p | None => True end /\
  match rd_response r with
  | Some (c, _) => match event_of_response c with Some e => event_wf e | None => True end
  | None => True
  end.

(** Every request stored in a call is well formed, whatever its type. *)
Definition call_wf (c : InCall) : Prop :=
  payload_wf (PTransfer (ic_transferReq c)) /\ payload_wf (PBalance (ic_balanceReq c)) /\
  payload_wf (PPrepare (ic_prepareReq c)) /\ payload_wf (PAccept (ic_acceptReq c)).

Section LoopLemmas.
Context {DB : Type} `{KVStore DB} {J : Indeterminate}.
Implicit Types s : Server DB.
Implicit Types l : Loop DB.

Lemma call_wf_event c : call_wf c -> event_wf (event_of_call c).
Proof. intros (H1 & H2 & H3 & H4). unfold event_of_call. by destruct (ic_type c). Qed.

Lemma call_wf_new type ms : call_wf (InCall_new type ms).1.
Proof. repeat split; cbn; lia || done. Qed.

Lemma call_wf_fill c p : call_wf c -> payload_wf p -> call_wf (fill c p).
Proof.
  intros (H1 & H2 & H3 & H4) Hp. unfold fill. destruct (ic_status c); try by split_and!.
  destruct p; by split_and!.
Qed.

Lemma serve_exec s c : (serve s c).1.1 = (server_exec s (event_of_call c)).1.
Proof.
  unfold serve, event_of_call, answer_or_retry. destruct (ic_type c); try done; by case_match.
Qed.

(** What a call object is after it served its request: it has ended the RPC
    or set its timer, after whatever it sent to peers. *)
Definition served (c : InCall) (r : Server DB * InCall * list call_effect) : Prop :=
  exists outs e,
    r.2 = map Peer outs ++ [e] /\ (call_wf c -> call_wf r.1.2) /\ ic_type r.1.2 = ic_type c /\
    ((ic_status r.1.2 = FINISH /\ exists p, e = Finish p) \/
     (ic_status r.1.2 = RETRY /\ e = Alarm (ic_retry_timeout_ms c))).

Lemma served_answer c s outs p : served c (answer c s outs p).
Proof. exists outs, (Finish p). split_and!; [done|done|done|]. left. by eauto. Qed.

Lemma served_answer_or_retry c (r : Server DB * TransferRes * list Out * bool) :
  served c (answer_or_retry c r).
Proof.
  destruct r as [[[s res] outs] b]. unfold answer_or_retry, served. cbn [fst snd].
  destruct b; cbn [negb fst snd].
  - exists outs, (Finish (RTransfer res)). split_and!; [done|done|done|]. left. by eauto.
  - exists outs, (Alarm (ic_retry_timeout_ms c)). split_and!; [done|done|done|]. by right.
Qed.

Lemma serve_served s c : served c (serve s c).
Proof. unfold serve. destruct (ic_type c); first [apply served_answer_or_retry|apply served_answer]. Qed.

(** ** Effects *)

(** The fields an effect of a served call moves. *)
Lemma run_peers tag outs l :
  foldl (run_effect tag) l (map Peer outs)
  = l <| lp_trace ::= fun t => t ++ map (fun o => (tag, Peer o)) outs |>.
Proof.
  revert l. induction outs as [|o outs IH]; intros l; cbn [map foldl].
  - destruct l. unfold upd. cbn. by rewrite app_nil_r.
  - rewrite IH. destruct l. unfold upd. cbn. by rewrite <- app_assoc.
Qed.

Lemma run_effect_server tag l e : lp_server (run_effect tag l e) = lp_server l.
Proof. by destruct e. Qed.

Lemma run_effects_server tag es l : lp_server (foldl (run_effect tag) l es) = lp_server l.
Proof. revert l. induction es as [|e es IH]; intros l; cbn; [done|]. by rewrite IH, run_effect_server. Qed.

Lemma run_effects_wf tag es l :
  map_Forall (fun _ c => call_wf c) (lp_calls l) ->
  map_Forall (fun _ c => call_wf c) (lp_calls (foldl (run_effect tag) l es)).
Proof.
  revert l. induction es as [|e es IH]; intros l Hl; cbn; [done|]. apply IH.
  destruct e; try done. cbn. apply map_Forall_insert_2; [apply call_wf_new|done].
Qed.

Lemma iterate_reachable s0 l r :
  round_wf r -> reachable s0 (lp_server l) /\ map_Forall (fun _ c => call_wf c) (lp_calls l) ->
  reachable s0 (lp_server (iterate l r)) /\ map_Forall (fun _ c => call_wf c) (lp_calls (iterate l r)).
Proof.
  intros [Hq Hp] Hl. unfold iterate.
  assert (forall s e, event_wf e -> reachable s0 s -> reachable s0 (server_exec s e).1) as Hstep.
  { intros s e He (es & Hes & ->). exists (es ++ [e]). split; [by apply Forall_app_2; [|constructor]|].
    unfold server_run. by rewrite foldl_app. }
  set (l1 := match rd_request r with Some _ => _ | None => l end).
  assert (reachable s0 (lp_server l1) /\ map_Forall (fun _ c => call_wf c) (lp_calls l1)) as [Hr1 Hw1].
  { unfold l1. destruct (rd_request r) as [[[tag ok] p]|]; [|done]. destruct Hl as [Hr Hw].
    unfold request_event. destruct ok; [|done].
    set (l2 := l <| lp_pending ::= _ |>). change (lp_calls l2) with (lp_calls l).
    destruct (lp_calls l !! tag) as [c|] eqn:Ec; [|done].
    pose proof (call_wf_fill c p (map_Forall_lookup_1 _ _ _ _ Hw Ec) Hq) as Hc. set (c' := fill c p) in *.
    cbv zeta. rewrite run_effects_server. unfold Proceed.
    assert (reachable s0 (serve (lp_server l2) c').1.1) as Hserve.
    { rewrite serve_exec. apply Hstep; [by apply call_wf_event|exact Hr]. }
    assert (call_wf (serve (lp_server l2) c').1.2) as Hcw.
    { destruct (serve_served (lp_server l2) c') as (? & ? & _ & Hsw & _). by apply Hsw. }
    destruct (ic_status c'); cbn [fst snd]; (split; [done|]); apply run_effects_wf; cbn [lp_calls].
    - by apply map_Forall_insert_2.
    - by apply map_Forall_insert_2.
    - by apply map_Forall_insert_2.
    - by apply map_Forall_delete. }
  destruct (rd_response r) as [[c ok]|]; [|done]. unfold response_event. destruct ok; [|done].
  split; [|done]. cbn [lp_server]. unfold HandleRPCResponse, event_of_response in *.
  destruct (oc_type c); try done; by apply (Hstep _ _ Hp).
Qed.

Lemma start_calls_frame s types l :
  lp_server l = s /\ map_Forall (fun _ c => call_wf c) (lp_calls l) ->
  let l' := foldl (fun l type => new_call type RETRY_TIMEOUT_MS l) l types in
  lp_server l' = s /\ map_Forall (fun _ c => call_wf c) (lp_calls l').
Proof.
  revert l. induction types as [|t types IH]; intros l Hl; [done|]. cbn. apply IH.
  destruct Hl as [Hs Hw]. split; [done|]. cbn. apply map_Forall_insert_2; [apply call_wf_new|done].
Qed.

End LoopLemmas.

(** ** One listener per type, one reply per call *)

Section Listeners.
Context {DB : Type} `{KVStore DB} {J : Indeterminate}.
Implicit Types s : Server DB.
Implicit Types l : Loop DB.

Definition is_finish (e : call_effect) : bool := match e with Finish _ => true | _ => false end.

(** The replies the call [tag] has sent. *)
Definition count_replies (tag : Z) (t : list (Z * call_effect)) : Z :=
  Z.of_nat (length (filter (fun x => x.1 = tag /\ is_finish x.2 = true) t)).

(** [tag] waits for the next request of type [t]. *)
Definition listens (calls : gmap Z InCall) (t : RequestTypes) (tag : Z) : Prop :=
  exists c, calls !! tag = Some c /\ ic_status c = PROCESS /\ ic_type c = t.

(** The replies a call ought to have sent: one when it has finished or is
    gone, none before. *)
Definition replies_due (l : Loop DB) (tag : Z) : Z :=
  match lp_calls l !! tag with
  | Some c => if decide (ic_status c = FINISH) then 1 else 0
  | None => if decide (1 <= tag < lp_next l) then 1 else 0
  end.

(** The calls on the heap are those with an operation under way, exactly one
    listens for each type in [ts], and none for the others. *)
Definition loop_inv (l : Loop DB) (ts : list RequestTypes) : Prop :=
  (forall tag, tag ∈ lp_pending l <-> is_Some (lp_calls l !! tag)) /\
  (forall tag c, lp_calls l !! tag = Some c -> 1 <= tag < lp_next l /\ ic_status c <> CREATE) /\
  (forall t, if decide (t ∈ ts) then exists tag, forall x, listens (lp_calls l) t x <-> x = tag
             else forall x, ~ listens (lp_calls l) t x) /\
  (forall tag, count_replies tag (lp_trace l) = replies_due l tag) /\ 1 <= lp_next l.

Lemma count_replies_app tag t1 t2 : count_replies tag (t1 ++ t2) = count_replies tag t1 + count_replies tag t2.
Proof. unfold count_replies. rewrite filter_app, length_app. lia. Qed.

Lemma count_replies_one tag x e :
  count_replies tag [(x, e)] = if decide (x = tag) then (if is_finish e then 1 else 0) else 0.
Proof.
  unfold count_replies. rewrite filter_cons, filter_nil.
  destruct (decide (x = tag)) as [Hx|Hx]; destruct (is_finish e) eqn:E;
    (case_decide as Hd; cbn [fst snd] in Hd); try reflexivity; exfalso; [apply Hd; by split|destruct Hd; congruence..].
Qed.

Lemma count_replies_peers tag x (outs : list Out) : count_replies tag (map (fun o => (x, Peer o)) outs) = 0.
Proof.
  induction outs as [|o outs IH]; [done|]. cbn [map].
  change ((x, Peer o) :: ?t) with ([(x, Peer o)] ++ t). rewrite count_replies_app, IH, count_replies_one.
  by case_decide.
Qed.

Lemma listens_insert calls t tag c x :
  listens (<[tag := c]> calls) t x <->
  (x = tag /\ ic_status c = PROCESS /\ ic_type c = t) \/ (x <> tag /\ listens calls t x).
Proof.
  unfold listens. destruct (decide (x = tag)) as [->|Hne].
  - rewrite lookup_insert_eq. naive_solver.
  - rewrite lookup_insert_ne by done. naive_solver.
Qed.

(** A new call object starts listening for its type. *)
Lemma new_call_fields t ms l :
  let l' := new_call t ms l in
  lp_calls l' = <[lp_next l := (InCall_new t ms).1]> (lp_calls l) /\ lp_next l' = lp_next l + 1 /\
  lp_pending l' = {[lp_next l]} ∪ lp_pending l /\ lp_trace l' = lp_trace l ++ [(lp_next l, Request t)].
Proof. by split_and!. Qed.

Lemma new_call_inv t ms l ts : loop_inv l ts -> t ∉ ts -> loop_inv (new_call t ms l) (t :: ts).
Proof.
  intros (Hp & Hc & Hl & Hr & Hn) Ht. destruct (new_call_fields t ms l) as (E1 & E2 & E3 & E4).
  set (l' := new_call t ms l) in *. set (n := lp_next l) in *.
  assert (lp_calls l !! n = None) as Hnone.
  { destruct (lp_calls l !! n) as [c|] eqn:E; [|done]. apply Hc in E as [? _]. unfold n in *. lia. }
  unfold loop_inv. rewrite E1, E2, E3, E4. split_and!; [| | | |lia].
  - intros tag. rewrite elem_of_union, elem_of_singleton, Hp, lookup_insert_is_Some.
    clear. destruct (decide (tag = n)); intuition congruence.
  - intros tag c. destruct (decide (tag = n)) as [->|Hne].
    + rewrite lookup_insert_eq. intros [= <-]. split; [lia|done].
    + rewrite lookup_insert_ne by done. intros E. apply Hc in E as [? ?]. split; [unfold n; lia|done].
  - intros u. specialize (Hl u). destruct (decide (u = t)) as [->|Hne].
    + rewrite decide_True by left. rewrite decide_False in Hl by done.
      exists n. intros x. rewrite listens_insert. split; [|by left].
      intros [[? _]|[_ ?]]; [done|]. by destruct (Hl x).
    + rewrite (decide_ext (u ∈ t :: ts) (u ∈ ts)) by set_solver. case_decide.
      * destruct Hl as [k Hk]. exists k. intros x. rewrite listens_insert, Hk.
        split; [intros [(_ & _ & ?)|[_ ?]]; [by destruct Hne|done]|].
        intros ->. right. split; [|done]. intros ->. destruct (proj2 (Hk n) eq_refl) as (c & E & _). congruence.
      * intros x. rewrite listens_insert. intros [(_ & _ & ?)|[_ ?]]; [by destruct Hne|by destruct (Hl x)].
  - intros tag. rewrite count_replies_app, Hr, count_replies_one.
    unfold replies_due. rewrite E1, E2. fold n. destruct (decide (tag = n)) as [->|Hne].
    + rewrite Hnone, lookup_insert_eq. repeat case_decide; try done; lia.
    + rewrite lookup_insert_ne by done. rewrite (decide_False (P := n = tag)) by done.
      destruct (lp_calls l !! tag); repeat case_decide; unfold n in *; lia.
Qed.

(** A call that has served its request, put back on the heap with its next
    operation under way. *)
Definition put_back (tag : Z) (c : InCall) (outs : list Out) (e : call_effect) (l : Loop DB) : Loop DB :=
  started_op tag e
    (l <| lp_calls ::= <[tag := c]> |> <| lp_trace ::= fun t => t ++ map (fun o => (tag, Peer o)) outs |>).

Definition took (tag : Z) (l : Loop DB) : Loop DB := l <| lp_pending ::= fun q => q ∖ {[tag]} |>.

(** Serving without becoming or having been a listener keeps the invariant. *)
Lemma put_back_inv tag c c' outs e l ts :
  loop_inv l ts -> lp_calls l !! tag = Some c -> ic_status c = RETRY -> ic_type c' = ic_type c ->
  ((ic_status c' = FINISH /\ exists p, e = Finish p) \/ (ic_status c' = RETRY /\ exists ms, e = Alarm ms)) ->
  loop_inv (put_back tag c' outs e (took tag l)) ts.
Proof.
  intros (Hp & Hc & Hl & Hr & Hn) Ec Hst Hty He.
  assert (ic_status c' <> PROCESS /\ ic_status c' <> CREATE) as [Hnp Hnc].
  { destruct He as [[-> _]|[-> _]]; by split. }
  pose proof (Hc tag c Ec) as [Hlt _].
  unfold loop_inv. cbn [lp_calls lp_pending lp_next lp_trace put_back took started_op upd].
  split_and!; [| | | |done].
  - intros x. cbn. rewrite elem_of_union, elem_of_singleton, elem_of_difference, elem_of_singleton, Hp,
      lookup_insert_is_Some. clear. destruct (decide (x = tag)); intuition congruence.
  - intros x y. cbn. destruct (decide (x = tag)) as [->|Hne].
    + rewrite lookup_insert_eq. by intros [= <-].
    + rewrite lookup_insert_ne by done. apply Hc.
  - intros u. specialize (Hl u). cbn.
    assert (forall x, listens (<[tag := c']> (lp_calls l)) u x <-> listens (lp_calls l) u x) as Hx.
    { intros x. rewrite listens_insert. split; [intros [(_ & ? & _)|[_ ?]]; done|]. intros Hx. right.
      split; [|done]. intros ->. destruct Hx as (? & ? & ? & _). congruence. }
    case_decide; [destruct Hl as [k Hk]; exists k|]; intros x; rewrite Hx; [apply Hk|apply Hl].
  - intros x. cbn. rewrite !count_replies_app, count_replies_peers, count_replies_one, Hr.
    unfold replies_due. cbn. destruct (decide (x = tag)) as [->|Hne].
    + rewrite Ec, lookup_insert_eq, Hst, (decide_True (P := tag = tag)) by done.
      destruct He as [[-> [p ->]]|[-> [ms ->]]]; done.
    + rewrite lookup_insert_ne, (decide_False (P := tag = x)) by done. lia.
Qed.

Lemma finish_inv tag c l ts :
  loop_inv l ts -> lp_calls l !! tag = Some c -> ic_status c = FINISH ->
  loop_inv (took tag l <| lp_calls ::= delete tag |>) ts.
Proof.
  intros (Hp & Hc & Hl & Hr & Hn) Ec Hst. pose proof (Hc tag c Ec) as [Hlt _].
  unfold loop_inv. cbn [lp_calls lp_pending lp_next lp_trace took upd]. split_and!; [| | | |done].
  - intros x. cbn. rewrite elem_of_difference, elem_of_singleton, Hp, lookup_delete_is_Some.
    clear. intuition congruence.
  - intros x y. cbn. rewrite lookup_delete_Some. intros [_ E]. by apply Hc in E.
  - intros u. specialize (Hl u). cbn.
    assert (forall x, listens (delete tag (lp_calls l)) u x <-> listens (lp_calls l) u x) as Hx.
    { intros x. unfold listens. setoid_rewrite lookup_delete_Some. split.
      - intros (y & [_ Hy] & Hrest). by exists y.
      - intros (y & Hy & Hrest & ?). exists y. split_and!; try done. intros ->. congruence. }
    case_decide; [destruct Hl as [k Hk]; exists k|]; intros x; rewrite Hx; [apply Hk|apply Hl].
  - intros x. cbn. rewrite Hr. unfold replies_due. cbn. destruct (decide (x = tag)) as [->|Hne].
    + rewrite Ec, lookup_delete_eq, Hst, !decide_True by done. done.
    + by rewrite lookup_delete_ne.
Qed.

Lemma loop_inv_ext l ts ts' : (forall t, t ∈ ts <-> t ∈ ts') -> loop_inv l ts -> loop_inv l ts'.
Proof.
  intros Ht (Hp & Hc & Hl & Hr & Hn). unfold loop_inv. split_and!; [done|done| |done|done].
  intros t. specialize (Hl t). rewrite (decide_ext _ (t ∈ ts)) by (symmetry; apply Ht). exact Hl.
Qed.

(** A listener that stops listening. *)
Definition stop_listening (tag : Z) (c : InCall) (l : Loop DB) : Loop DB :=
  l <| lp_calls ::= <[tag := c <| ic_status := RETRY |>]> |>.

Lemma stop_listening_inv tag c l ts :
  loop_inv l ts -> lp_calls l !! tag = Some c -> ic_status c = PROCESS ->
  ic_type c ∈ ts /\ loop_inv (stop_listening tag c l) (filter (fun t => t <> ic_type c) ts).
Proof.
  intros (Hp & Hc & Hl & Hr & Hn) Ec Hst. pose proof (Hc tag c Ec) as [Hlt _].
  assert (listens (lp_calls l) (ic_type c) tag) as Hlis by (by exists c).
  assert (ic_type c ∈ ts) as Hin.
  { specialize (Hl (ic_type c)). case_decide; [done|]. by destruct (Hl tag). }
  split; [exact Hin|].
  unfold loop_inv. cbn [lp_calls lp_pending lp_next lp_trace stop_listening upd]. split_and!; [| | | |done].
  - intros x. cbn. rewrite Hp, lookup_insert_is_Some. destruct (decide (x = tag)) as [->|Hne].
    + split; [by left|]. intros _. by exists c.
    + intuition congruence.
  - intros x y. cbn. destruct (decide (x = tag)) as [->|Hne].
    + rewrite lookup_insert_eq. by intros [= <-].
    + rewrite lookup_insert_ne by done. apply Hc.
  - intros u. specialize (Hl u). cbn.
    assert (forall x, listens (<[tag := c <| ic_status := RETRY |>]> (lp_calls l)) u x <->
                      x <> tag /\ listens (lp_calls l) u x) as Hx.
    { intros x. rewrite listens_insert. split; [intros [(_ & ? & _)|?]; done|by right]. }
    destruct (decide (u = ic_type c)) as [->|Hne].
    + rewrite decide_False by (rewrite list_elem_of_filter; tauto). rewrite decide_True in Hl by done.
      destruct Hl as [k Hk]. intros x. rewrite Hx. intros [Hxt Hxl]. apply Hk in Hxl, Hlis. congruence.
    + rewrite (decide_ext (u ∈ filter _ ts) (u ∈ ts)) by (rewrite list_elem_of_filter; tauto).
      assert (~ listens (lp_calls l) u tag) as Hnt by (intros (y & Ey & _ & ?); congruence).
      case_decide; [destruct Hl as [k Hk]; exists k|]; intros x; rewrite Hx.
      * rewrite Hk. split; [tauto|]. intros ->. split; [|done]. intros ->. by apply Hnt, Hk.
      * intros [_ ?]. by apply (Hl x).
  - intros x. cbn. rewrite Hr. unfold replies_due. cbn. destruct (decide (x = tag)) as [->|Hne].
    + rewrite Ec, lookup_insert_eq, Hst. done.
    + by rewrite lookup_insert_ne.
Qed.

(** Serving a fresh request: a successor takes over listening. *)
Lemma process_inv tag c c' outs e ms l ts :
  loop_inv l ts -> lp_calls l !! tag = Some c -> ic_status c = PROCESS -> ic_type c' = ic_type c ->
  ((ic_status c' = FINISH /\ exists p, e = Finish p) \/ (ic_status c' = RETRY /\ exists ms, e = Alarm ms)) ->
  loop_inv (put_back tag c' outs e (took tag (new_call (ic_type c) ms (stop_listening tag c l)))) ts.
Proof.
  intros Hinv Ec Hst Hty He. destruct (stop_listening_inv tag c l ts Hinv Ec Hst) as [Hin Hs].
  pose proof Hinv as (_ & Hc & _). destruct (Hc _ _ Ec) as [Hlt _].
  apply (new_call_inv (ic_type c) ms) in Hs; [|rewrite list_elem_of_filter; tauto].
  apply (put_back_inv tag (c <| ic_status := RETRY |>) c' outs e) in Hs; try done.
  - revert Hs. apply loop_inv_ext. intros t. rewrite elem_of_cons, list_elem_of_filter.
    destruct (decide (t = ic_type c)) as [->|]; tauto.
  - unfold new_call, stop_listening. cbn. rewrite lookup_insert_ne by lia. by rewrite lookup_insert_eq.
Qed.

Definition fields (l : Loop DB) := (lp_calls l, lp_next l, lp_pending l, lp_trace l).

Lemma loop_inv_fields l l' ts : fields l' = fields l -> loop_inv l ts -> loop_inv l' ts.
Proof. intros [= E1 E2 E3 E4]. unfold loop_inv, replies_due. by rewrite E1, E2, E3, E4. Qed.

(** The effects of one served call, as the put-back of the call object. *)
Lemma run_served tag l c' outs e :
  (exists p, e = Finish p) \/ (exists ms, e = Alarm ms) ->
  foldl (run_effect tag) (l <| lp_calls ::= <[tag := c']> |>) (map Peer outs ++ [e]) = put_back tag c' outs e l.
Proof.
  intros He. rewrite foldl_app, run_peers. cbn [foldl]. unfold run_effect.
  destruct He as [[p ->]|[ms ->]]; done.
Qed.

Lemma fill_frame c p : ic_status (fill c p) = ic_status c /\ ic_type (fill c p) = ic_type c.
Proof. unfold fill. destruct (ic_status c) eqn:E; [done| |done|done]. destruct p; by split. Qed.

(** Spawning before or after the call object is written back. *)
Lemma spawn_commutes tag c c' outs e ms l :
  lp_next l <> tag -> (exists p, e = Finish p) \/ (exists m, e = Alarm m) ->
  fields (foldl (run_effect tag) (took tag l <| lp_calls ::= <[tag := c']> |>)
            (Spawn (ic_type c) ms :: map Peer outs ++ [e]))
  = fields (put_back tag c' outs e (took tag (new_call (ic_type c) ms (stop_listening tag c l)))).
Proof.
  intros Hne He. cbn [foldl run_effect]. rewrite foldl_app, run_peers. cbn [foldl].
  assert (forall l1 : Loop DB, run_effect tag l1 e = started_op tag e l1) as Hrun.
  { intros l1. by destruct He as [[p ->]|[m ->]]. }
  rewrite Hrun. unfold fields, put_back, took, new_call, stop_listening, started_op. cbn.
  rewrite (insert_insert_ne _ tag (lp_next l)), insert_insert_eq by congruence.
  replace (({[lp_next l]} ∪ lp_pending l) ∖ {[tag]}) with ({[lp_next l]} ∪ lp_pending l ∖ {[tag]}) by set_solver.
  reflexivity.
Qed.

Lemma request_event_inv l tag p ts :
  loop_inv l ts -> tag ∈ lp_pending l -> loop_inv (request_event l tag true p) ts.
Proof.
  intros Hinv Hin. pose proof Hinv as (Hp & Hc & _). apply Hp in Hin as [c Ec].
  destruct (Hc _ _ Ec) as [Hlt Hncr]. unfold request_event. cbn iota.
  change (l <| lp_pending ::= fun q => q ∖ {[tag]} |>) with (took tag l).
  change (lp_calls (took tag l)) with (lp_calls l). rewrite Ec. cbv zeta.
  destruct (fill_frame c p) as [Hst Hty]. set (c1 := fill c p) in *. clearbody c1.
  change (lp_server (took tag l)) with (lp_server l). unfold Proceed. rewrite Hst.
  destruct (serve_served (lp_server l) c1) as (outs & e & Hout & _ & Hty' & He).
  set (r := serve (lp_server l) c1) in *. clearbody r.
  assert ((ic_status r.1.2 = FINISH /\ exists p, e = Finish p) \/
          (ic_status r.1.2 = RETRY /\ exists ms, e = Alarm ms)) as He' by naive_solver.
  assert ((exists p, e = Finish p) \/ (exists ms, e = Alarm ms)) as Hend by naive_solver.
  destruct (ic_status c) eqn:Ecs; cbn [fst snd]; [done| | |].
  - rewrite Hty, Hout. set (l' := l <| lp_server := r.1.1 |>).
    assert (loop_inv l' ts) as Hinv' by (by apply (loop_inv_fields l)).
    assert (lp_calls l' !! tag = Some c) as Ec' by exact Ec.
    assert (lp_next l' <> tag) as Hne by (change (lp_next l <> tag); lia).
    change (loop_inv (foldl (run_effect tag) (took tag l' <| lp_calls ::= <[tag := r.1.2]> |>)
              (Spawn (ic_type c) (ic_retry_timeout_ms c1) :: map Peer outs ++ [e])) ts). clearbody l'.
    eapply loop_inv_fields; [by apply (spawn_commutes tag c)|].
    apply process_inv; [done|done|done|congruence|done].
  - rewrite Hout. set (l' := l <| lp_server := r.1.1 |>).
    assert (loop_inv l' ts) as Hinv' by (by apply (loop_inv_fields l)).
    assert (lp_calls l' !! tag = Some c) as Ec' by exact Ec.
    change (loop_inv (foldl (run_effect tag) (took tag l' <| lp_calls ::= <[tag := r.1.2]> |>)
              (map Peer outs ++ [e])) ts). clearbody l'.
    eapply loop_inv_fields; [exact (f_equal fields (run_served tag (took tag l') r.1.2 outs e Hend))|].
    eapply put_back_inv; [done|done|done|congruence|done].
  - cbn [foldl]. set (l' := l <| lp_server := lp_server l |>).
    assert (loop_inv l' ts) as Hinv' by (by apply (loop_inv_fields l)).
    assert (lp_calls l' !! tag = Some c) as Ec' by exact Ec.
    change (loop_inv (took tag l' <| lp_calls ::= delete tag |>) ts). clearbody l'.
    by apply (finish_inv tag c).
Qed.

(** Rounds in which gRPC hands back only tags with an operation under way,
    and each successfully. *)
Definition legal_round (l : Loop DB) (r : round) : Prop :=
  match rd_request r with Some (tag, ok, _) => ok = true /\ tag ∈ lp_pending l | None => True end.

Fixpoint legal_rounds (l : Loop DB) (rs : list round) : Prop :=
  match rs with
  | [] => True
  | r :: rs' => legal_round l r /\ legal_rounds (iterate l r) rs'
  end.

Lemma count_replies_responses tag (outs : list Out) :
  count_replies tag (map (fun o => (0, Peer o)) outs) = 0.
Proof. apply count_replies_peers. Qed.

Lemma iterate_inv l r ts : loop_inv l ts -> legal_round l r -> loop_inv (iterate l r) ts.
Proof.
  intros Hinv Hleg. unfold iterate, legal_round in *.
  set (l1 := match rd_request r with Some _ => _ | None => l end).
  assert (loop_inv l1 ts) as H1.
  { unfold l1. destruct (rd_request r) as [[[tag ok] p]|]; [|done]. destruct Hleg as [-> Hin].
    by apply request_event_inv. }
  destruct (rd_response r) as [[c ok]|]; [|done]. unfold response_event. destruct ok; [|done].
  destruct H1 as (Hp & Hc & Hl & Hr & Hn). unfold loop_inv. cbn. split_and!; try done.
  intros tag. rewrite count_replies_app, count_replies_responses, Hr. unfold replies_due. cbn. lia.
Qed.

Lemma start_inv s :
  loop_inv (foldl (fun l type => new_call type RETRY_TIMEOUT_MS l) (mk_loop s ∅ 1 ∅ []) served_types)
    (rev served_types).
Proof.
  assert (forall ts l acc, loop_inv l acc -> NoDup (ts ++ acc) ->
    loop_inv (foldl (fun l type => new_call type RETRY_TIMEOUT_MS l) l ts) (rev ts ++ acc)) as Hgen.
  { induction ts as [|t ts IH]; intros l acc Hl Hnd; [done|]. cbn [foldl rev]. rewrite <- app_assoc. apply IH.
    - apply new_call_inv; [done|]. cbn in Hnd. apply NoDup_cons in Hnd as [Hni _].
      intros Hin. apply Hni, elem_of_app. by right.
    - cbn. rewrite <- Permutation_middle. exact Hnd. }
  rewrite <- (app_nil_r (rev served_types)). apply Hgen.
  - unfold loop_inv. cbn [lp_calls lp_next lp_trace lp_pending]. split_and!; try done.
    + intros tag. rewrite lookup_empty. split; [intros Hx%elem_of_empty; done|by intros [? ?]].
    + intros t. rewrite decide_False by (intros Hin; by apply elem_of_nil in Hin).
      intros x (c & E & _). by rewrite lookup_empty in E.
    + intros tag. unfold replies_due. cbn [lp_calls lp_next lp_trace].
      rewrite lookup_empty, decide_False by lia. reflexivity.
  - rewrite app_nil_r. apply (bool_decide_unpack _). vm_compute. exact I.
Qed.

Lemma rounds_inv l rounds ts :
  loop_inv l ts -> legal_rounds l rounds -> loop_inv (foldl iterate l rounds) ts.
Proof.
  revert l. induction rounds as [|r rounds IH]; intros l Hs Hleg; [done|].
  destruct Hleg as [H1 H2]. cbn [foldl]. apply IH; [by apply iterate_inv|exact H2].
Qed.

End Listeners.

Section Answers.
Context {DB : Type} `{KVStore DB} {J : Indeterminate}.
Implicit Types s : Server DB.

(** A transfer is answered when decided and retried otherwise. When a call object of one of the two transfer RPCs is run, either it sets its timer and keeps
    request and listener untouched, or it finishes with a reply that carries
    the request's transaction id, positive exactly when the accept phase was
    awaited with a majority of acceptances; never both. *)
Theorem transfer_answered_or_retried s c :
  ctrl_ok (ctrl s) -> ic_type c = TRANSFER \/ ic_type c = TPC_PREPARE ->
  ic_status c = PROCESS \/ ic_status c = RETRY ->
  exists c' outs e,
    (Proceed s c).1.2 = Some c' /\
    (Proceed s c).2 = (if decide (ic_status c = PROCESS) then [Spawn (ic_type c) (ic_retry_timeout_ms c)] else [])
                      ++ map Peer outs ++ [e] /\
    ((ic_status c' = RETRY /\ e = Alarm (ic_retry_timeout_ms c) /\ ic_transferReq c' = ic_transferReq c) \/
     (ic_status c' = FINISH /\ exists ack,
        e = Finish (RTransfer (mk_transfer_res ack (tr_tid (ic_transferReq c)))) /\
        (ack = true <-> await_accept_decision s = true /\ MAJORITY <= accept_successes s))).
Proof.
  intros Hok Ht Hst.
  set (cross := if decide (ic_type c = TPC_PREPARE) then true else false).
  assert (serve s c = answer_or_retry c (runPaxos s (ic_transferReq c) (ic_transferRes c) cross)) as Hs.
  { unfold serve, cross. by destruct Ht as [-> | ->]. }
  destruct (runPaxos s (ic_transferReq c) (ic_transferRes c) cross) as [[[s1 res] outs] b] eqn:E.
  assert (exists c', (Proceed s c).1.2 = Some c' /\ c' = (serve s c).1.2 /\
    (Proceed s c).2 = (if decide (ic_status c = PROCESS) then [Spawn (ic_type c) (ic_retry_timeout_ms c)] else [])
                      ++ (serve s c).2) as (c' & Hc' & Hc'' & Heff).
  { unfold Proceed. destruct Hst as [-> | ->]; by eexists. }
  rewrite Hs in Hc'', Heff. unfold answer_or_retry in Hc'', Heff. cbn [fst snd] in Hc'', Heff.
  destruct (runPaxos_case _ _ _ _ _ _ _ _ E) as (v & Hv & Hb). exists c', outs. destruct v as [ack|].
  - destruct Hb as [-> ->]. cbn [negb fst snd] in Hc'', Heff. eexists. split_and!; [exact Hc'|exact Heff|].
    right. subst c'. split; [done|]. exists ack. split; [done|].
    destruct Hok as (H1 & _ & _). cbn in H1.
    inversion Hv; subst; split; try done.
    + intros [Ha _]. rewrite Ha in *. match goal with E : await_prepare_decision s = true |- _ => rewrite E in H1 end. done.
    + intros [Ha _]. rewrite Ha in *. match goal with E : await_prepare_decision s = true |- _ => rewrite E in H1 end. done.
    + intros [_ Hm]. lia.
  - subst b. cbn [negb fst snd] in Hc'', Heff. eexists. split_and!; [exact Hc'|exact Heff|].
    left. by subst c'.
Qed.
End Answers.

(** ** Witnesses *)

(** A transfer request arrives on its listener (the fourth call object), is
    answered by a timer, and the timer fires. *)
Definition sample_rounds : list round :=
  [mk_round (Some (4, true, PTransfer pay)) None; mk_round None None;
   mk_round (Some (4, true, PNone)) None].



Lemma transfer_answered_or_retried_witness :
  exists c' outs e,
    (Proceed (J := zero_junk) voted (fill (InCall_new TRANSFER RETRY_TIMEOUT_MS).1 (PTransfer pay))).1.2 = Some c' /\
    (Proceed (J := zero_junk) voted (fill (InCall_new TRANSFER RETRY_TIMEOUT_MS).1 (PTransfer pay))).2
      = [Spawn TRANSFER 10] ++ map Peer outs ++ [e].
Proof.
  destruct (transfer_answered_or_retried (J := zero_junk) voted
              (fill (InCall_new TRANSFER RETRY_TIMEOUT_MS).1 (PTransfer pay))) as (c' & outs & e & H1 & H2 & _).
  - repeat split; vm_compute; done.
  - by left.
  - by left.
  - exists c', outs, e. split; [exact H1|exact H2].
Defined.
