(* ===== verification/ServerMain.v ===== *)
(** * The server process: [RunServer] and [main] of [server/server.cc]

    The command line, the set-up of a server from its name, and the event
    loop.  The log file, the key-value store ([None] when it cannot be
    opened) and the operations gRPC completes are the environment's. *)
From stdpp Require Import gmap list strings.
From Stdlib Require Import ZArith Lia Ascii.
From S2P Require Import Prelude Chars Types Config Wal OutCall Server Store Steps Protocol Ledger Calls.

(** ** A server at start-up *)

Section Startup.
Context {DB : Type} `{KVStore DB}.
Implicit Types s : Server DB.

Lemma peers_sorted s : omap_sorted Z.ltb (foldl (fun m p => omap_set Z.ltb p.2 tt m) []
  (filter (fun p => p.2 <> server_id s /\ getClusterIdFromServerId (consts s) p.2 = cluster_id s) (server_ids (consts s)))).
Proof.
  apply (foldl_inv (omap_sorted Z.ltb) (fun _ => True)); [|by apply Forall_true|constructor].
  intros m p _ Hm. apply (omap_set_sorted Z.ltb); exact Hm.
Qed.

(** A server is not its own peer, and has one stub per peer. *)
Lemma peers_ok s : NoDup (peers s) /\ server_id s ∉ peers s.
Proof.
  split; [apply omap_sorted_NoDup with Z.ltb; [apply _|apply peers_sorted]|].
  unfold peers. intros [[k []] [Hk Hin]]%list_elem_of_fmap. revert Hin. cbn [fst] in Hk.
  set (f := fun m p => _). set (ps := filter _ _).
  assert (Forall (fun kv : Z * unit => kv.1 <> server_id s) (foldl f [] ps)) as Hall.
  { apply (foldl_inv (Forall (fun kv => kv.1 <> server_id s)) (fun p => p.2 <> server_id s)); [| |constructor].
    - intros m p Hp Hm. by apply omap_set_Forall.
    - apply Forall_forall. intros p Hp. apply list_elem_of_filter in Hp. apply Hp. }
  intros Hin. rewrite Forall_forall in Hall. by destruct (Hall _ Hin).
Qed.

Lemma built_view c id f (d : DB) :
  let s := ServerImpl c id f d in
  server_id s = id /\ last_inserted s = -1 /\ log s = [] /\ walFile (wal s) = f /\
  ctrl s = mk_ctrl false false (-1) 0 false default_ballot false default_ballot default_transfer_req false false 0 0.
Proof.
  cbv zeta. unfold ServerImpl.
  set (s1 := mk_server _ _ _ _ _ _ _ _ _ _ _ _ _ _ _ _ _ _ _ _ _ _ _ _ _ _ _ _).
  pose proof (bank_reset s1) as (_ & _ & _ & _ & Hw & Hl)%bank_eq. pose proof (ctrl_reset s1) as Hc.
  assert (server_id (resetDisconnectedState s1) = id /\ last_inserted (resetDisconnectedState s1) = -1) as [E1 E2].
  { unfold resetDisconnectedState.
    split; [rewrite (foldl_frame server_id)|rewrite (foldl_frame last_inserted)]; try done; intros s' p; by case_match. }
  rewrite Hw, Hl, Hc, E1, E2. done.
Qed.

Lemma fold_set_get (k : Z) (l : list (std_string * Z)) m :
  omap_get Z.ltb k (foldl (fun m p => omap_set Z.ltb p.2 tt m) m l) = Some tt <->
  (exists name, (name, k) ∈ l) \/ omap_get Z.ltb k m = Some tt.
Proof.
  revert m. induction l as [|[name j] l IH]; intros m; cbn [foldl].
  - split; [by right|]. intros [[name Hn]|]; [by apply elem_of_nil in Hn|done].
  - rewrite IH. cbn [snd]. destruct (decide (k = j)) as [->|Hne].
    + rewrite omap_get_set_eq by apply _. split; [|by right]. intros _. left. exists name. left.
    + rewrite omap_get_set_ne by (apply _ || done). setoid_rewrite elem_of_cons. split.
      * intros [[n Hn]|]; [left; exists n; by right|by right].
      * intros [[n [[= _ ->]|Hn]]|]; [done|left; by exists n|by right].
Qed.

Lemma built_config c id f (d : DB) :
  let s := ServerImpl c id f d in
  consts s = c /\ cluster_id s = getClusterIdFromServerId c id /\ balances s = ∅.
Proof.
  cbv zeta. unfold ServerImpl.
  set (s1 := mk_server _ _ _ _ _ _ _ _ _ _ _ _ _ _ _ _ _ _ _ _ _ _ _ _ _ _ _ _).
  pose proof (bank_reset s1) as (_ & Hc & Hb & _)%bank_eq. rewrite Hc, Hb. split; [|done].
  unfold resetDisconnectedState. rewrite (foldl_frame consts); [done|]. intros s' p. by case_match.
Qed.

(** The peers are the other servers of the cluster. *)
Lemma peers_elem s j :
  j ∈ peers s <-> (exists name, (name, j) ∈ server_ids (consts s)) /\ j <> server_id s /\
                  getClusterIdFromServerId (consts s) j = cluster_id s.
Proof.
  unfold peers. rewrite list_elem_of_fmap.
  assert ((exists y : Z * unit, j = y.1 /\ y ∈ foldl (fun m p => omap_set Z.ltb p.2 tt m) []
      (filter (fun p : std_string * Z => p.2 <> server_id s /\ getClusterIdFromServerId (consts s) p.2 = cluster_id s)
         (server_ids (consts s)))) <->
    omap_get Z.ltb j (foldl (fun m p => omap_set Z.ltb p.2 tt m) []
      (filter (fun p : std_string * Z => p.2 <> server_id s /\ getClusterIdFromServerId (consts s) p.2 = cluster_id s)
         (server_ids (consts s)))) = Some tt) as ->.
  { rewrite (omap_get_elem Z.ltb) by apply peers_sorted. split; [intros ([? []] & -> & Hin); exact Hin|].
    intros Hin. by exists (j, tt). }
  rewrite fold_set_get. cbn. setoid_rewrite list_elem_of_filter. cbn [snd]. naive_solver.
Qed.

(** The accounts of a server at start-up: ten units for each client of its
    cluster, and no other account. *)
Lemma setup_opening s s0 x :
  run_setup s = Some s0 -> balances s = ∅ ->
  balances s0 !! x = if decide (x ∈ initial_clients (consts s) (cluster_id s)) then Some 10 else None.
Proof.
  unfold run_setup. case_match; [|done]. intros [= <-] He. cbn. rewrite He, foldl_insert_lookup.
  case_decide; [done|apply lookup_empty].
Qed.
End Startup.

Section ServerMain.
Context {DB : Type} `{KVStore DB} {J : Indeterminate}.

(** What a server finds outside: the log file of its id, the store of its
    name, the rounds of its event loop. *)
Record ServerEnv := mk_server_env {
  se_file : std_string -> File;
  se_open : std_string -> option DB;
  se_rounds : list round
}.

(** How the process ends, or its event loop when it runs. *)
Inductive server_end :=
| BadUsage
| BadNumber (e : exn)
| NoStore
| Serving (l : Loop DB).

(** [constants::server_ids[name]] and [constants::server_addresses[name]]
    add a missing name with the id 0 and an empty address. *)
Definition lookup_server (C : constants) (name : std_string) : constants * Z * std_string :=
  let C1 := match omap_get string_ltb name (server_ids C) with
            | Some _ => C
            | None => C <| server_ids ::= omap_set string_ltb name 0 |>
            end in
  let C2 := match omap_get string_ltb name (server_addresses C1) with
            | Some _ => C1
            | None => C1 <| server_addresses ::= omap_set string_ltb name [] |>
            end in
  (C2, default 0 (omap_get string_ltb name (server_ids C2)),
   default [] (omap_get string_ltb name (server_addresses C2))).

Definition wal_name (id : Z) : std_string := str "wal_" ++ to_string id ++ str ".log".
Definition db_name (name : std_string) : std_string := name ++ str "_db".

(** The constructor and [run], up to and including the event loop. *)
Definition RunServer (C : constants) (name : std_string) (e : ServerEnv) : server_end :=
  let r := lookup_server C name in
  let id := r.1.2 in
  match se_open e (db_name name) with
  | None => NoStore
  | Some d =>
    match run_setup (ServerImpl r.1.1 id (se_file e (wal_name id)) d) with
    | None => NoStore
    | Some s => Serving (HandleRPCs s (se_rounds e))
    end
  end.

(** [main]; the signal handlers are set only after [RunServer] has returned. *)
Definition server_main (argv : list std_string) (e : ServerEnv) : server_end :=
  match argv with
  | [_; name; a2; a3] =>
    match stoi a2 with
    | Throw x => BadNumber x
    | Ok nc =>
      match stoi a3 with
      | Throw x => BadNumber x
      | Ok cs => RunServer (setupApplicationState nc cs constants_default) name e
      end
    end
  | _ => BadUsage
  end.

(** The log file of a server can be used. *)
Definition base_view (s : Server DB) : Prop := file_ok (walFile (wal s)).

(** The environment of a healthy machine. *)
Definition healthy (e : ServerEnv) : Prop :=
  (forall n, file_ok (se_file e n)) /\ (forall n, is_Some (se_open e n)) /\
  forall (d : DB) l, (db_write d l).2 = true.

Lemma lookup_known nc cs i :
  1 <= nc <= 3000 -> 1 <= cs <= 1000 -> 1 <= i <= nc * cs ->
  let C := setupApplicationState nc cs constants_default in
  num_clusters (lookup_server C (server_name i)).1.1 = nc /\ cluster_size (lookup_server C (server_name i)).1.1 = cs /\
  server_ids (lookup_server C (server_name i)).1.1 = server_ids C /\ (lookup_server C (server_name i)).1.2 = i.
Proof.
  intros Hn Hs Hi C. pose proof (setup_get nc cs Hn Hs (server_name i) i) as [_ Hg].
  specialize (Hg (conj Hi eq_refl)). fold C in Hg. destruct (setup_params nc cs) as [Hp1 Hp2]. fold C in Hp1, Hp2.
  clearbody C. unfold lookup_server. rewrite Hg.
  destruct (omap_get _ _ (server_addresses C)); cbn [fst snd]; (split_and!; [done|done|done|]);
    change (server_ids (C <| server_addresses ::= _ |>)) with (server_ids C); by rewrite Hg.
Qed.

(** What [RunServer] makes of the id it has found. *)
Lemma run_server_serving C name e :
  healthy e ->
  let r := lookup_server C name in
  exists s0, RunServer C name e = Serving (HandleRPCs s0 (se_rounds e)) /\
    server_id s0 = r.1.2 /\ cluster_id s0 = getClusterIdFromServerId r.1.1 r.1.2 /\ log s0 = [] /\ base_view s0 /\
    (forall j, j ∈ stubs s0 <-> (exists n, (n, j) ∈ server_ids r.1.1) /\ j <> r.1.2 /\
       getClusterIdFromServerId r.1.1 j = getClusterIdFromServerId r.1.1 r.1.2) /\
    forall x, balances s0 !! x =
      if decide (x ∈ initial_clients r.1.1 (getClusterIdFromServerId r.1.1 r.1.2)) then Some 10 else None.
Proof.
  intros (Hf & Ho & Hw) r. unfold RunServer. fold r. destruct (Ho (db_name name)) as [d ->].
  destruct (built_config r.1.1 r.1.2 (se_file e (wal_name r.1.2)) d) as (E1 & E2 & E3).
  destruct (built_view r.1.1 r.1.2 (se_file e (wal_name r.1.2)) d) as (V1 & _ & V3 & V4 & _).
  revert E1 E2 E3 V1 V3 V4. generalize (ServerImpl r.1.1 r.1.2 (se_file e (wal_name r.1.2)) d). intros s E1 E2 E3 V1 V3 V4.
  destruct (run_setup s) as [s0|] eqn:Er.
  2:{ unfold run_setup in Er. rewrite Hw in Er. done. }
  exists s0. split; [done|]. pose proof Er as Er'. unfold run_setup in Er'. rewrite Hw in Er'. injection Er' as Er'.
  rewrite <- E2, <- V1. split_and!; try (by rewrite <- Er'); try (rewrite <- Er'; exact V3).
  - rewrite <- Er'. unfold base_view. cbn. rewrite V4. apply Hf.
  - intros j. rewrite <- Er'. change (stubs _) with (peers s). rewrite peers_elem, E1. done.
  - intros x. rewrite (setup_opening s s0 x Er E3), E1. done.
Qed.

Lemma cluster_of_server_view c C j :
  cluster_size c = cluster_size C -> getClusterIdFromServerId c j = getClusterIdFromServerId C j.
Proof. unfold getClusterIdFromServerId. by intros ->. Qed.

Lemma lookup_unknown nc cs name :
  1 <= nc <= 3000 -> 1 <= cs <= 1000 -> (forall i, 1 <= i <= nc * cs -> name <> server_name i) ->
  let C := setupApplicationState nc cs constants_default in
  let r := lookup_server C name in
  num_clusters r.1.1 = nc /\ cluster_size r.1.1 = cs /\
  server_ids r.1.1 = omap_set string_ltb name 0 (server_ids C) /\ r.1.2 = 0.
Proof.
  intros Hn Hs Hno C r. destruct (setup_params nc cs) as [Hp1 Hp2]. fold C in Hp1, Hp2.
  assert (omap_get string_ltb name (server_ids C) = None) as Hg.
  { destruct (omap_get string_ltb name (server_ids C)) as [i|] eqn:E; [|done].
    apply (setup_get nc cs Hn Hs) in E as [Hi Heq]. by destruct (Hno i Hi). }
  subst r. clearbody C. unfold lookup_server. rewrite Hg.
  set (C1 := C <| server_ids ::= omap_set string_ltb name 0 |>).
  assert (server_ids C1 = omap_set string_ltb name 0 (server_ids C)) as E1 by done.
  destruct (omap_get _ _ (server_addresses C1)); cbn [fst snd]; (split_and!; [done|done|done|]);
    try (change (server_ids (C1 <| server_addresses ::= _ |>)) with (server_ids C1));
    rewrite E1; by rewrite omap_get_set_eq by apply _.
Qed.

(** The state of a server that has started as server [i] of a bank of [nc]
    clusters of [cs] servers. *)
Definition serves_as (nc cs i : Z) (s0 : Server DB) : Prop :=
  log s0 = [] /\ server_id s0 = i /\ cluster_id s0 = ceil_div i cs /\
  (forall j, j ∈ stubs s0 <-> 1 <= j <= nc * cs /\ j <> i /\ ceil_div j cs = ceil_div i cs) /\
  forall x, balances s0 !! x =
    if decide (1 <= x <= total_clients /\ ceil_div (x * nc) total_clients = ceil_div i cs) then Some 10 else None.

Lemma server_main_runs prog name nc cs e :
  in_int nc -> in_int cs ->
  server_main [prog; name; to_string nc; to_string cs] e = RunServer (setupApplicationState nc cs constants_default) name e.
Proof. intros Hn Hs. unfold server_main. by rewrite !stoi_of_string. Qed.

(** Started with the name of a server of the bank, the process serves as it. *)
Lemma server_main_known prog nc cs i e :
  1 <= nc <= 3000 -> 1 <= cs <= 1000 -> 1 <= i <= nc * cs -> healthy e ->
  exists s0, server_main [prog; server_name i; to_string nc; to_string cs] e = Serving (HandleRPCs s0 (se_rounds e)) /\
    serves_as nc cs i s0.
Proof.
  intros Hn Hs Hi He. rewrite server_main_runs by (unfold in_int; lia).
  set (C := setupApplicationState nc cs constants_default).
  destruct (run_server_serving C (server_name i) e He) as (s0 & -> & E1 & E2 & E3 & _ & E4 & E5).
  exists s0. split; [done|]. split; [done|].
  destruct (lookup_known nc cs i Hn Hs Hi) as (K1 & K2 & K3 & K4). fold C in K1, K2, K3, K4.
  rewrite K4 in *. destruct (setup_params nc cs) as [_ Hcs]. fold C in Hcs.
  assert (forall j, 1 <= j <= nc * cs ->
    getClusterIdFromServerId (lookup_server C (server_name i)).1.1 j = ceil_div j cs) as Hcl.
  { intros j Hj. rewrite (cluster_of_server_view _ C) by congruence. by apply cluster_of_server. }
  split; [done|]. split; [by rewrite E2, Hcl|]. split.
  - intros j. rewrite E4, K3. split.
    + intros ([n Hin] & Hne & Heq). apply (setup_elem nc cs Hn Hs) in Hin as [Hj _]. by rewrite !Hcl in Heq.
    + intros (Hj & Hne & Heq). rewrite !Hcl by done. split; [|done]. exists (server_name j).
      by apply (setup_elem nc cs Hn Hs).
  - intros x. rewrite E5, (Hcl i Hi). apply decide_ext. rewrite initial_clients_elem.
    assert (1 <= x <= total_clients -> getClusterIdFromClientId (lookup_server C (server_name i)).1.1 x
              = ceil_div (x * nc) total_clients) as Hx.
    { intros Hx. rewrite cluster_of_client, K1; [done|]. unfold id_ok. rewrite K1. unfold total_clients in Hx. nia. }
    unfold isClientInCluster. rewrite Z.eqb_eq.
    split; intros [H1 H2]; (split; [done|]); [by rewrite <- Hx|by rewrite Hx].
Qed.

(** Started with any other name, it runs all the same: as server 0, without
    peers and without accounts. *)
Lemma server_main_unknown prog name nc cs e :
  1 <= nc <= 3000 -> 1 <= cs <= 1000 -> healthy e -> (forall i, 1 <= i <= nc * cs -> name <> server_name i) ->
  exists s0, server_main [prog; name; to_string nc; to_string cs] e = Serving (HandleRPCs s0 (se_rounds e)) /\
    log s0 = [] /\ server_id s0 = 0 /\ stubs s0 = [] /\ balances s0 = ∅.
Proof.
  intros Hn Hs He Hno. rewrite server_main_runs by (unfold in_int; lia).
  set (C := setupApplicationState nc cs constants_default).
  destruct (run_server_serving C name e He) as (s0 & -> & E1 & E2 & E3 & _ & E4 & E5).
  exists s0. split; [done|]. split; [done|].
  destruct (lookup_unknown nc cs name Hn Hs Hno) as (K1 & K2 & K3 & K4). fold C in K1, K2, K3, K4.
  rewrite K4 in *. destruct (setup_params nc cs) as [_ Hcs]. fold C in Hcs.
  assert (getClusterIdFromServerId (lookup_server C name).1.1 0 = 0) as H0.
  { unfold getClusterIdFromServerId. rewrite K2. rewrite fdiv_ceil_ceil by lia. apply ceil_div_unique; lia. }
  split; [done|]. rewrite H0 in *. split.
  - destruct (stubs s0) as [|j l] eqn:Est; [done|]. exfalso.
    assert (j ∈ j :: l) as Hin by left. apply E4 in Hin as ([n Hin] & Hne & Heq). rewrite K3 in Hin.
    apply (omap_get_elem string_ltb) in Hin; [|apply omap_set_sorted; [apply _|by apply setup_sorted]].
    destruct (decide (n = name)) as [->|Hnn]; [rewrite omap_get_set_eq in Hin by apply _; congruence|].
    rewrite omap_get_set_ne in Hin by (apply _ || done). apply (setup_get nc cs Hn Hs) in Hin as [Hj _].
    rewrite (cluster_of_server_view _ C) in Heq by congruence. rewrite (cluster_of_server nc cs) in Heq by done.
    pose proof (ceil_div_spec j cs ltac:(lia)). nia.
  - apply map_eq. intros x. rewrite E5, lookup_empty, decide_False; [done|]. rewrite initial_clients_elem.
    intros [Hx Hcl]. unfold isClientInCluster in Hcl. apply Z.eqb_eq in Hcl.
    assert (config_ok (lookup_server C name).1.1) as Hcfg by (unfold config_ok; rewrite K1, K2; lia).
    pose proof (client_cluster_range _ x Hcfg Hx). lia.
Qed.
End ServerMain.
