(* ===== verification/Network.v ===== *)
(** * Servers and the messages between them

    Several servers and the RPCs in flight.  A server's handler is atomic;
    the RPCs it sends travel as packets that carry the call object awaiting
    the reply.  The network answers a call at most once, in any order; it may
    lose a packet, and it may end a call with the deadline status while its
    request is still on the way.  [net_exec] runs one such event, so that a
    scenario of the whole cluster is a list of actions. *)
From stdpp Require Import gmap list strings.
From Stdlib Require Import ZArith Lia Ascii.
From S2P Require Import Prelude Chars Types Config Wal OutCall Server Store Steps Protocol Calls.

(** A request on its way, with the call object of the sender (none once the
    sender has given up), or a completed call on its way back. *)
Inductive packet :=
| Req (src dst : Z) (m : peer_msg) (call : option OutCall)
| Rep (dst : Z) (call : OutCall).

(** A request that comes from outside: the coordinator's client or driver. *)
Definition is_external (e : server_event) : bool :=
  match e with
  | ev_tpc_prepare _ _ | ev_transfer _ _ | ev_tpc_decision _ _
  | ev_balance _ | ev_logs | ev_disconnect _ => true
  | _ => false
  end.

(** The events of a network; packets are named by their position. *)
Inductive action :=
| Ask (i : Z) (e : server_event)
| Deliver (k : nat)
| Expire (k : nat)
| Lose (k : nat).

Section Network.
Context {DB : Type} `{KVStore DB} {J : Indeterminate}.
Implicit Types s : Server DB.

Record Net := mk_net { servers : gmap Z (Server DB); wire : list packet }.

(** The packets of a handler's effects.  A call through a null stub ends the
    process: there is no state after it. *)
Fixpoint packets (src : Z) (outs : list Out) : option (list packet) :=
  match outs with
  | [] => Some []
  | Rpc d m c :: outs' => ps ← packets src outs'; Some (Req src d m (Some c) :: ps)
  | NullStub _ :: _ => None
  end.

(** The handler of a request, with the event it is and the call object as
    the reply completes it. *)
Definition peer_event (m : peer_msg) : server_event :=
  match m with
  | MPrepare r => ev_prepare r
  | MAccept r => ev_accept r
  | MCommit r => ev_commit r
  | MSync r => ev_sync r
  end.

Definition complete (s : Server DB) (m : peer_msg) (c : OutCall) : OutCall :=
  (match m with
   | MPrepare r => c <| oc_prepareReply := (processPrepareCall s r).1.2 |>
   | MAccept r => c <| oc_acceptReply := (processAcceptCall s r).2 |>
   | MCommit _ => c
   | MSync r => c <| oc_syncReply := processSyncCall s r |>
   end) <| oc_status := StatusOK |>.

(** Server [i] moves to [s], sending [outs], with [ps] left on the wire. *)
Definition moved (n : Net) (i : Z) (s : Server DB) (outs : list Out) (ps : list packet) : option Net :=
  new ← packets i outs; Some (mk_net (<[i := s]> (servers n)) (ps ++ new)).

(** The call object [c] of server [i] ends. *)
Definition call_ends (n : Net) (i : Z) (c : OutCall) (ps : list packet) : option Net :=
  s ← servers n !! i;
  moved n i (HandleRPCResponse s c).1 (HandleRPCResponse s c).2 ps.

Definition net_exec (n : Net) (a : action) : option Net :=
  match a with
  | Ask i e =>
    if is_external e then
      s ← servers n !! i;
      moved n i (server_exec s e).1 (server_exec s e).2 (wire n)
    else None
  | Deliver k =>
    p ← wire n !! k;
    let rest := delete k (wire n) in
    match p with
    | Req src dst m c =>
      s ← servers n !! dst;
      let back := match c with Some c => [Rep src (complete s m c)] | None => [] end in
      moved n dst (server_exec s (peer_event m)).1 (server_exec s (peer_event m)).2 (rest ++ back)
    | Rep dst c => call_ends n dst c rest
    end
  | Expire k =>
    p ← wire n !! k;
    match p with
    | Req src dst m (Some c) =>
      call_ends n src (c <| oc_status := DEADLINE_EXCEEDED |>) (<[k := Req src dst m None]> (wire n))
    | Req _ _ _ None => None
    | Rep dst c => call_ends n dst (c <| oc_status := DEADLINE_EXCEEDED |>) (delete k (wire n))
    end
  | Lose k => p ← wire n !! k; Some (mk_net (servers n) (delete k (wire n)))
  end.

Fixpoint net_run (n : Net) (acts : list action) : option Net :=
  match acts with
  | [] => Some n
  | a :: acts' => n' ← net_exec n a; net_run n' acts'
  end.
End Network.
Arguments Net DB : clear implicits.
Arguments mk_net {DB}. Arguments servers {DB}. Arguments wire {DB}.

(** ** Runs of one cluster

    Servers 1 to 3 of the default deployment, freshly started. *)

Definition cluster_one : Net map_store :=
  mk_net (list_to_map (map (fun i => (i, boot i [1; 2])) [1; 2; 3])) [].

Definition ask (i : Z) (r : TransferReq) : action := Ask i (ev_transfer r default_transfer_res).

(** The transactions in a server's log, with their ballot numbers. *)
Definition logged (n : option (Net map_store)) (i : Z) : option (list (Z * Z)) :=
  n ← n; s ← servers n !! i; Some (map (fun e => (we_tid e, we_ballot_num e)) (log s)).

(** The proposals still on the wire: sender, ballot, transaction. *)
Definition proposals (n : option (Net map_store)) : option (list (Z * Ballot * Z)) :=
  n ← n; Some (omap (fun p => match p with
                              | Req src _ (MAccept r) _ => Some (src, aq_ballot r, tr_tid (aq_r r))
                              | _ => None
                              end) (wire n)).

Definition first_pay : TransferReq := mk_transfer_req (mk_txn 1 2 3) 7.
Definition second_pay : TransferReq := mk_transfer_req (mk_txn 2 1 5) 8.
Definition third_pay : TransferReq := mk_transfer_req (mk_txn 1 2 1) 9.

(** Server 1 has a majority of promises for its ballot when it promises
    server 2's; it then proposes its own payment under server 2's ballot. *)
Definition two_leaders : list action :=
  [ask 1 first_pay; Deliver 0; Deliver 1;              (* server 2 promises (1,1), server 1 counts it *)
   ask 2 second_pay; Deliver 1; Deliver 1; Lose 0;     (* servers 1 and 3 promise (2,2) *)
   Deliver 0; Lose 0;                                  (* server 2 counts a promise *)
   ask 2 second_pay; ask 1 first_pay;                  (* both propose under (2,2) *)
   Deliver 1; Deliver 2; Deliver 2;                    (* server 3 accepts one, then the other; server 2 counts *)
   ask 2 second_pay; Deliver 4].                       (* server 2 commits; server 3 takes the commit message *)


(** Server 3's commit message is delayed until it has synchronised. *)
Definition late_commit : list action :=
  [ask 1 first_pay; Deliver 0; Deliver 0; Deliver 0; Deliver 0;   (* both replicas promise *)
   ask 1 first_pay; Deliver 0; Deliver 0; Deliver 0; Lose 0;      (* both accept *)
   ask 1 first_pay; Deliver 0;                                    (* commit; server 2 takes it *)
   ask 1 third_pay; Deliver 3; Deliver 4; Deliver 4;              (* server 3 is behind and synchronises *)
   Deliver 0].                                                    (* the commit message arrives *)

