(* ===== verification/Replication.v ===== *)
(** * Replication under one leader

    A cluster in which one server leads, intra-shard payments only, and no
    synchronisation reply is delivered: whatever the network loses, delays,
    reorders or lets expire, every log is a prefix of the leader's, and a
    payment the leader commits is held by another server.  The invariant
    relates the servers and the packets to the history of the leader's
    rounds; it is kept apart for the leader, for a follower and for a packet,
    and each handler is one lemma. *)
From stdpp Require Import gmap list strings.
From Stdlib Require Import ZArith Lia Ascii.
From S2P Require Import Prelude Chars Types Config Wal OutCall Server Store Steps Protocol Acceptor Ledger Calls Network.

Lemma prefix_grow {A} (l k : list A) x : l `prefix_of` k -> k !! length l = Some x -> l ++ [x] `prefix_of` k.
Proof.
  intros [r ->]. rewrite lookup_app_r, Nat.sub_diag by lia. destruct r as [|y r]; [done|]. intros [= ->].
  exists r. by rewrite <- app_assoc.
Qed.

(** ** Packets and commit messages *)

(** The commit messages of round [b] on their way to [i]. *)
Definition is_commit (i b : Z) (p : packet) : bool :=
  match p with
  | Req _ dst (MCommit r) _ => (dst =? i) && (b_num (cq_ballot r) =? b)
  | _ => false
  end.
Definition commits (i b : Z) (w : list packet) : nat := length (filter (fun p => is_commit i b p = true) w).

Lemma commits_app i b w1 w2 : commits i b (w1 ++ w2) = (commits i b w1 + commits i b w2)%nat.
Proof. unfold commits. by rewrite filter_app, length_app. Qed.

Lemma commits_cons i b p w : commits i b (p :: w) = (Nat.b2n (is_commit i b p) + commits i b w)%nat.
Proof. unfold commits. rewrite filter_cons. by destruct (is_commit i b p). Qed.

(** Taking the packet at [k] off the wire, or replacing it. *)
Lemma commits_take i b w k p :
  w !! k = Some p -> commits i b w = (Nat.b2n (is_commit i b p) + commits i b (delete k w))%nat.
Proof.
  intros Hk. rewrite delete_take_drop, commits_app.
  rewrite <- (take_drop_middle w k p Hk) at 1. rewrite commits_app, commits_cons. lia.
Qed.

Lemma commits_delete i b w k : (commits i b (delete k w) <= commits i b w)%nat.
Proof.
  destruct (w !! k) as [p|] eqn:E; [rewrite (commits_take i b w k p E); lia|].
  apply lookup_ge_None in E. rewrite delete_take_drop, take_ge, drop_ge, app_nil_r by lia. done.
Qed.

Lemma commits_replace i b w k p q :
  w !! k = Some p -> is_commit i b q = is_commit i b p -> commits i b (<[k := q]> w) = commits i b w.
Proof.
  intros Hk Hq. rewrite (insert_take_drop w k q) by (by eapply lookup_lt_Some).
  rewrite <- (take_drop_middle w k p Hk) at 3. rewrite !commits_app, !commits_cons. by rewrite Hq.
Qed.

Lemma elem_of_replace {A} (w : list A) k q p : p ∈ <[k := q]> w -> p = q \/ p ∈ w.
Proof.
  intros [j Hj]%list_elem_of_lookup. apply list_lookup_insert_Some in Hj as [(_ & -> & _)|[_ Hj]]; [by left|right].
  by eapply list_elem_of_lookup_2.
Qed.

(** The effects of a handler as packets. *)
Lemma packets_elem src outs ps p :
  packets src outs = Some ps -> p ∈ ps -> exists d m c, p = Req src d m (Some c) /\ Rpc d m c ∈ outs.
Proof.
  revert ps. induction outs as [|[d m c|d] outs IH]; cbn; intros ps.
  - intros [= <-] Hp. by apply elem_of_nil in Hp.
  - destruct (packets src outs) as [ps'|]; [|done]. intros [= <-]. rewrite elem_of_cons. intros [->|Hp].
    + exists d, m, c. split; [done|left].
    + destruct (IH ps' eq_refl Hp) as (d' & m' & c' & -> & Hin). exists d', m', c'. split; [done|by right].
  - done.
Qed.

Lemma packets_same src m c ds :
  packets src (map (fun d => Rpc d m c) ds) = Some (map (fun d => Req src d m (Some c)) ds).
Proof. induction ds as [|d ds IH]; cbn; [done|]. by rewrite IH. Qed.

Definition commit_ballot (m : peer_msg) : option Z :=
  match m with MCommit r => Some (b_num (cq_ballot r)) | _ => None end.

Lemma is_commit_req i b src dst m c : is_commit i b (Req src dst m c) = true <-> dst = i /\ commit_ballot m = Some b.
Proof.
  destruct m as [r|r|r|r]; cbn; [naive_solver| naive_solver| |naive_solver].
  rewrite andb_true_iff, !Z.eqb_eq. naive_solver.
Qed.

Lemma commits_none i b src m c ds :
  commit_ballot m <> Some b -> commits i b (map (fun d => Req src d m c) ds) = 0%nat.
Proof.
  intros Hm. induction ds as [|d ds IH]; cbn [map]; [done|]. rewrite commits_cons, IH.
  destruct (is_commit i b (Req src d m c)) eqn:E; [|done]. apply is_commit_req in E as [_ E]. done.
Qed.

Lemma commits_once i b src m c ds :
  NoDup ds -> (commits i b (map (fun d => Req src d m c) ds) <= 1)%nat.
Proof.
  intros Hd. induction Hd as [|d ds Hn Hd IH]; cbn [map]; [unfold commits; cbn; lia|]. rewrite commits_cons.
  destruct (is_commit i b (Req src d m c)) eqn:E; cbn [Nat.b2n]; [|lia].
  apply is_commit_req in E as [-> _]. enough (commits i b (map (fun d => Req src d m c) ds) = 0)%nat by lia.
  clear -Hn. induction ds as [|d ds IH]; cbn [map]; [done|]. apply not_elem_of_cons in Hn as [Hne Hn].
  rewrite commits_cons, IH by done. destruct (is_commit i b _) eqn:E; [|done].
  apply is_commit_req in E as [? _]. congruence.
Qed.

Section Replication.
Context {DB : Type} `{KVStore DB} {J : Indeterminate}.
Context (L : Z) (payload : Z -> Transaction).
Implicit Types (s l f : Server DB) (n : Net DB).

(** ** What may happen *)

(** The request of a transaction id. *)
Definition req_of (tid : Z) : TransferReq := mk_transfer_req (payload tid) tid.

(** Both accounts of every payment belong to the cluster of [s]. *)
Definition intra (s : Server DB) : Prop :=
  forall tid, client_in_cluster s (sender (payload tid)) = true /\
              client_in_cluster s (receiver (payload tid)) = true.

(** Payments are asked of the leader alone; queries and disconnections are
    free; no synchronisation reply is delivered. *)
Definition allowed (n : Net DB) (a : action) : Prop :=
  match a with
  | Ask i e =>
    event_wf e /\
    match e with
    | ev_transfer r _ => i = L /\ r = req_of (tr_tid r)
    | ev_balance _ | ev_logs | ev_disconnect _ => True
    | _ => False
    end
  | Deliver k => match wire n !! k with Some (Rep _ c) => oc_type c <> SYNC | _ => True end
  | Expire _ | Lose _ => True
  end.

Fixpoint allowed_run (n : Net DB) (acts : list action) : Prop :=
  match acts with
  | [] => True
  | a :: acts' => allowed n a /\ match net_exec n a with Some n' => allowed_run n' acts' | None => True end
  end.

(** ** The history of the leader's rounds

    [base b] is the length of the leader's log when round [b] began and
    [val b] the request the round proposed, if it came to that. *)
Record history := mk_history { base : Z -> nat; val : Z -> option TransferReq }.

Definition entry_of (b : Z) (v : TransferReq) : WALEntry :=
  mk_entry (tr_tid v) b L (tr_txn v) INTRA COMMITTED.

(** What the invariant reads of the leader. *)
Record leader_inv (h : history) (l : Server DB) : Prop := {
  li_id : server_id l = L;
  li_ctrl : ctrl_ok (ctrl l);
  li_num : 0 <= ballot_num l;
  li_last : last_inserted l = Z.of_nat (length (log l)) - 1;
  li_len : Z.of_nat (length (log l)) <= ballot_num l;
  li_wal : f_can_write (walFile (wal l)) = true;
  li_stubs : NoDup (stubs l) /\ L ∉ stubs l;
  li_prepare : await_prepare_decision l = true ->
    promised_num l = mk_ballot (ballot_num l) L /\ base h (ballot_num l) = length (log l) /\
    val h (ballot_num l) = None /\ Z.of_nat (length (log l)) < ballot_num l;
  li_accept : await_accept_decision l = true ->
    accept_num l = mk_ballot (ballot_num l) L /\ base h (ballot_num l) = length (log l) /\
    val h (ballot_num l) = Some (req_of (paxos_tid l)) /\ accept_val l = req_of (paxos_tid l) /\
    Z.of_nat (length (log l)) < ballot_num l;
  li_val : forall b v, val h b = Some v ->
    1 <= b <= ballot_num l /\ v = req_of (tr_tid v) /\ wf_transfer_req v /\ tr_tid v <> -1
}.

(** A follower's log is part of the leader's; its vote is for the value of
    the round. *)
Record follower_inv (h : history) (l f : Server DB) : Prop := {
  fi_last : last_inserted f = Z.of_nat (length (log f)) - 1;
  fi_log : log f `prefix_of` log l;
  fi_num : ballot_num f = b_num (promised_num f);
  fi_promised : 0 <= b_num (promised_num f) <= ballot_num l;
  fi_accepted : 0 <= b_num (accept_num f) <= b_num (promised_num f);
  fi_val : 1 <= b_num (accept_num f) ->
    accept_num f = mk_ballot (b_num (accept_num f)) L /\ val h (b_num (accept_num f)) = Some (accept_val f);
  fi_idle : await_prepare_decision f = false /\ await_accept_decision f = false;
  fi_wal : f_can_write (walFile (wal f)) = true;
  fi_intra : intra f
}.

(** Where a follower stands in the round it has promised: it has not
    committed it, or it has and no other commit message can come. *)
Definition in_round (h : history) (w : list packet) (i : Z) (f : Server DB) : Prop :=
  let b := b_num (promised_num f) in
  1 <= b -> base h b = length (log f) \/ (length (log f) = S (base h b) /\ commits i b w = 0%nat).

(** Some follower has voted in round [b], or in a later one. *)
Definition voted (n : Net DB) (b : Z) : Prop :=
  exists i f, i <> L /\ servers n !! i = Some f /\ b <= b_num (accept_num f).

Definition call_ok (n : Net DB) (l : Server DB) (c : OutCall) : Prop :=
  (forall m, pr_latest_ballot_num (oc_prepareReply c) = Some m ->
     0 <= b_num (pr_ballot (oc_prepareReply c)) /\
     b_num (pr_ballot (oc_prepareReply c)) <= m <= ballot_num l) /\
  (ar_ack (oc_acceptReply c) = true -> voted n (b_num (ar_ballot (oc_acceptReply c)))).

Definition msg_ok (h : history) (l : Server DB) (dst : Z) (m : peer_msg) : Prop :=
  match m with
  | MPrepare r => dst <> L /\ exists b, 1 <= b <= ballot_num l /\
      r = mk_prepare_req (mk_ballot b L) (Z.of_nat (base h b) - 1)
  | MAccept r => dst <> L /\ exists b v, r = mk_accept_req (mk_ballot b L) v /\ val h b = Some v
  | MCommit r => dst <> L /\ exists b v, r = mk_commit_req (mk_ballot b L) /\
      val h b = Some v /\ log l !! base h b = Some (entry_of b v)
  | MSync _ => True
  end.

Definition packet_ok (h : history) (n : Net DB) (l : Server DB) (p : packet) : Prop :=
  match p with
  | Req src dst m c => msg_ok h l dst m /\ match c with Some c => call_ok n l c | None => True end
  | Rep dst c => call_ok n l c
  end.

Record net_inv (h : history) (l : Server DB) (n : Net DB) : Prop := {
  ni_leader : servers n !! L = Some l;
  ni_leader_ok : leader_inv h l;
  ni_follower : forall i f, i <> L -> servers n !! i = Some f ->
    follower_inv h l f /\ in_round h (wire n) i f;
  ni_packet : forall p, p ∈ wire n -> packet_ok h n l p;
  ni_commits : forall i b, (commits i b (wire n) <= 1)%nat;
  ni_votes : await_accept_decision l = true -> accept_successes l = 1 \/ voted n (ballot_num l)
}.

(** ** Growing histories

    Rounds only get added; what followers and packets rely on persists. *)

Definition extends (h : history) (l : Server DB) (h' : history) (l' : Server DB) : Prop :=
  ballot_num l <= ballot_num l' /\ log l `prefix_of` log l' /\
  (forall b, b <= ballot_num l -> base h' b = base h b) /\
  (forall b v, val h b = Some v -> val h' b = Some v).

Lemma extends_refl h l : extends h l h l.
Proof. by repeat split. Qed.

(** A move of the leader that keeps its history. *)
Lemma extends_same h l l' : ballot_num l' = ballot_num l -> log l' = log l -> extends h l h l'.
Proof. intros E1 E2. unfold extends. rewrite E1, E2. by repeat split. Qed.

Lemma follower_extends h l h' l' f : extends h l h' l' -> follower_inv h l f -> follower_inv h' l' f.
Proof.
  intros (Hb & Hl & _ & Hv) [H1 H2 H3 H4 H5 H6 H7 H8 H9]. split; try done.
  - by trans (log l).
  - lia.
  - intros Ha. destruct (H6 Ha). split; auto.
Qed.

Lemma call_extends h l h' l' n n' c :
  extends h l h' l' -> (forall b, voted n b -> voted n' b) -> call_ok n l c -> call_ok n' l' c.
Proof.
  intros (Hb & _) Hv [H1 H2]. split; [|by auto]. intros m Hm. specialize (H1 m Hm). lia.
Qed.

Lemma msg_extends h l h' l' dst m :
  extends h l h' l' -> (forall b v, val h b = Some v -> 1 <= b <= ballot_num l) ->
  msg_ok h l dst m -> msg_ok h' l' dst m.
Proof.
  intros (Hb & Hl & Hba & Hv) Hn. destruct m as [r|r|r|r]; cbn [msg_ok]; [| | |done].
  - intros (Hd & b & Hr & ->). split; [done|]. exists b. rewrite Hba by lia. split; [lia|done].
  - intros (Hd & b & v & -> & Hval). split; [done|]. exists b, v. auto.
  - intros (Hd & b & v & -> & Hval & Hlk). split; [done|]. exists b, v.
    rewrite Hba by (apply Hn in Hval; lia). eauto using prefix_lookup_Some.
Qed.

Lemma packet_extends h l h' l' n n' p :
  extends h l h' l' -> (forall b v, val h b = Some v -> 1 <= b <= ballot_num l) ->
  (forall b, voted n b -> voted n' b) -> packet_ok h n l p -> packet_ok h' n' l' p.
Proof.
  intros Hx Hn Hv. destruct p as [src dst m [c|]|dst c]; cbn [packet_ok]; eauto using call_extends.
  - intros [Hm Hc]. eauto using call_extends, msg_extends.
  - intros [Hm _]. eauto using msg_extends.
Qed.

(** ** One server moves *)

Lemma voted_insert n i f f' w b :
  servers n !! i = Some f -> b_num (accept_num f) <= b_num (accept_num f') \/ i = L ->
  voted n b -> voted (mk_net (<[i := f']> (servers n)) w) b.
Proof.
  intros Hi Hle (j & g & Hj & Hg & Hb). destruct (decide (i = j)) as [<-|Hne].
  - exists i, f'. cbn. rewrite lookup_insert_eq. split_and!; [done|done|].
    assert (g = f) as -> by congruence. destruct Hle; [lia|done].
  - exists j, g. cbn. by rewrite lookup_insert_ne.
Qed.

(** A follower's move keeps the invariant, given its own part. *)
Lemma inv_follower h l n i f f' w :
  net_inv h l n -> i <> L -> servers n !! i = Some f ->
  follower_inv h l f' -> in_round h w i f' -> b_num (accept_num f) <= b_num (accept_num f') ->
  (forall p, p ∈ w -> p ∈ wire n \/ packet_ok h (mk_net (<[i := f']> (servers n)) w) l p) ->
  (forall j b, (commits j b w <= commits j b (wire n))%nat) ->
  net_inv h l (mk_net (<[i := f']> (servers n)) w).
Proof.
  intros [N1 N2 N3 N4 N5 N6] Hi Hf Hf' Hr Ha Hp Hc.
  assert (forall b, voted n b -> voted (mk_net (<[i := f']> (servers n)) w) b) as Hv by eauto using voted_insert.
  split; cbn [servers wire]; try done.
  - by rewrite lookup_insert_ne.
  - intros j g Hj Hg. destruct (decide (i = j)) as [<-|Hne].
    { rewrite lookup_insert_eq in Hg. by injection Hg as <-. }
    rewrite lookup_insert_ne in Hg by done. destruct (N3 j g Hj Hg) as [K1 K2]. split; [done|].
    intros Hb. destruct (K2 Hb) as [|[K3 K4]]; [by left|right]. split; [done|].
    specialize (Hc j (b_num (promised_num g))). lia.
  - intros p Hin. destruct (Hp p Hin) as [Hold|]; [|done].
    eapply packet_extends; [apply extends_refl|by apply N2|exact Hv|by apply N4].
  - intros j b. specialize (Hc j b). specialize (N5 j b). lia.
  - intros Haw. destruct (N6 Haw); auto.
Qed.

(** A move of the leader keeps the invariant, given its own part; commit
    messages are added only for the round whose entry it has just logged. *)
Lemma inv_leader h l n h' l' w :
  net_inv h l n -> leader_inv h' l' -> extends h l h' l' ->
  (forall p, p ∈ w -> p ∈ wire n \/ packet_ok h' (mk_net (<[L := l']> (servers n)) w) l' p) ->
  (forall j b, (commits j b w <= 1)%nat) ->
  (forall j b, (commits j b w <= commits j b (wire n))%nat \/ base h b = length (log l)) ->
  (await_accept_decision l' = true ->
     accept_successes l' = 1 \/ voted n (ballot_num l')) ->
  net_inv h' l' (mk_net (<[L := l']> (servers n)) w).
Proof.
  intros [N1 N2 N3 N4 N5 N6] Hl' Hx Hp Hc Hc' Hvo.
  assert (forall b, voted n b -> voted (mk_net (<[L := l']> (servers n)) w) b) as Hv by eauto using voted_insert.
  split; cbn [servers wire]; try done.
  - by rewrite lookup_insert_eq.
  - intros j g Hj Hg. rewrite lookup_insert_ne in Hg by done. destruct (N3 j g Hj Hg) as [K1 K2].
    split; [by eapply follower_extends|]. intros Hb. pose proof (fi_promised _ _ _ K1) as Hpr.
    destruct Hx as (_ & _ & Hba & _). rewrite Hba by lia.
    destruct (K2 Hb) as [|[K3 K4]]; [by left|right]. split; [done|].
    pose proof (prefix_length _ _ (fi_log _ _ _ K1)). destruct (Hc' j (b_num (promised_num g))) as [Hle|Hb']; lia.
  - intros p Hin. destruct (Hp p Hin) as [Hold|]; [|done].
    eapply packet_extends; [exact Hx|by apply N2|exact Hv|by apply N4].
  - intros Haw. destruct (Hvo Haw); auto.
Qed.

(** ** The follower's handlers *)

(** What the invariant reads of a follower. *)
Definition follower_view (f : Server DB) :=
  (last_inserted f, log f, (ballot_num f, promised_num f, accept_num f, accept_val f),
   (await_prepare_decision f, await_accept_decision f), f_can_write (walFile (wal f))).

Definition quiet (f f' : Server DB) : Prop :=
  follower_view f' = follower_view f /\ forall x, client_in_cluster f' x = client_in_cluster f x.

Lemma quiet_refl f : quiet f f.
Proof. done. Qed.

Lemma follower_quiet h l f f' : quiet f f' -> follower_inv h l f -> follower_inv h l f'.
Proof.
  intros [Hv Hc] [H1 H2 H3 H4 H5 H6 H7 H8 H9]. injection Hv as E1 E2 E3 E4 E5 E6 E7 E8 E9.
  split; rewrite ?E1, ?E2, ?E3, ?E4, ?E5, ?E6, ?E7, ?E8, ?E9; try done.
  intros tid. rewrite !Hc. apply H9.
Qed.

Lemma inv_follower_quiet h l n i f f' w :
  net_inv h l n -> i <> L -> servers n !! i = Some f -> quiet f f' ->
  (forall p, p ∈ w -> p ∈ wire n \/ packet_ok h (mk_net (<[i := f']> (servers n)) w) l p) ->
  (forall j b, (commits j b w <= commits j b (wire n))%nat) ->
  net_inv h l (mk_net (<[i := f']> (servers n)) w).
Proof.
  intros Hn Hi Hf Hq Hp Hc. destruct (ni_follower _ _ _ Hn i f Hi Hf) as [K1 K2].
  pose proof Hq as [Hv _]. injection Hv as E1 E2 E3 E4 E5 E6 E7 E8 E9.
  eapply inv_follower; [exact Hn|done|exact Hf|by eapply follower_quiet| |by rewrite E5|done|done].
  unfold in_round in *. rewrite E4, E2. intros Hb. destruct (K2 Hb) as [|[K3 K4]]; [by left|right].
  split; [done|]. specialize (Hc i (b_num (promised_num f))). lia.
Qed.

(** A prepare message opens a new round, or changes nothing the invariant
    reads. *)
Lemma follower_prepare h l f b :
  follower_inv h l f -> 1 <= b <= ballot_num l ->
  let r := mk_prepare_req (mk_ballot b L) (Z.of_nat (base h b) - 1) in
  let f' := (processPrepareCall f r).1.1 in
  quiet f f' \/ (follower_inv h l f' /\ accept_num f' = accept_num f /\
                 promised_num f' = mk_ballot b L /\ base h b = length (log f')).
Proof.
  intros [H1 H2 H3 H4 H5 H6 H7 H8 H9] Hb r. unfold processPrepareCall. cbn [pq_ballot r b_num pq_last_inserted b_server_id].
  destruct (i_am_disconnected f); [by left|]. destruct (Z.ltb_spec (ballot_num f) b); [|by left].
  destruct (Z.eqb_spec (Z.of_nat (base h b) - 1) (last_inserted f)) as [El|_]; cbn [fst snd].
  - right. split; [|split_and!; [done|done|cbn; lia]]. split; try done; cbn; lia.
  - left. by destruct (last_inserted f <? _).
Qed.

(** The reply never reports a ballot above the leader's. *)
Lemma prepare_reply_ok h l f r m :
  follower_inv h l f -> 0 <= b_num (pq_ballot r) -> pr_latest_ballot_num (processPrepareCall f r).1.2 = Some m ->
  0 <= b_num (pr_ballot (processPrepareCall f r).1.2) /\
  b_num (pr_ballot (processPrepareCall f r).1.2) <= m <= ballot_num l.
Proof.
  intros [H1 H2 H3 H4 H5 H6 H7 H8 H9] Hr. unfold processPrepareCall.
  destruct (i_am_disconnected f); [done|].
  destruct (Z.ltb_spec (ballot_num f) (b_num (pq_ballot r))); [destruct (_ =? _); [|destruct (_ <? _)]|];
    cbn [fst snd andb negb]; repeat case_match; cbn; try done; intros [= <-]; cbn in *; lia.
Qed.

(** An accept message is voted for, or changes nothing. *)
Lemma follower_accept h l f b v :
  follower_inv h l f -> val h b = Some v -> 1 <= b -> v = req_of (tr_tid v) ->
  let r := mk_accept_req (mk_ballot b L) v in
  let x := processAcceptCall f r in
  ar_ballot x.2 = mk_ballot b L /\
  ((x.1 = f /\ ar_ack x.2 = false) \/
   (follower_inv h l x.1 /\ promised_num x.1 = promised_num f /\ log x.1 = log f /\
    b_num (accept_num x.1) = b /\ b = b_num (promised_num f))).
Proof.
  intros [H1 H2 H3 H4 H5 H6 H7 H8 H9] Hv Hb Hreq r. unfold processAcceptCall.
  destruct (i_am_disconnected f); [split; [done|by left]|].
  destruct (promised f); cbn [andb]; [|split; [done|by left]]. cbn [aq_ballot aq_r r b_num].
  destruct (Z.eqb_spec b (b_num (promised_num f))) as [Eb|]; [|split; [done|by left]].
  split; [done|]. right.
  set (f1 := f <| accepted := true |> <| accept_num := mk_ballot b L |> <| accept_val := v |>).
  destruct (lock_both f1 (tr_txn (accept_val f1))) as [-> ->].
  assert (is_cross f1 (tr_txn (accept_val f1)) = false) as ->.
  { change (is_cross f (tr_txn v) = false). rewrite Hreq. unfold is_cross. cbn [tr_txn req_of].
    destruct (H9 (tr_tid v)) as [-> ->]. done. }
  cbn [fst]. split_and!; try done. split; try done; cbn; lia.
Qed.

(** What logging an intra-shard payment does to the view. *)
Lemma commit_view r b s :
  f_can_write (walFile (wal s)) = true ->
  let s' := server_commitTransaction r b s in
  let l' := log s ++ [mk_entry (tr_tid r) (b_num b) (b_server_id b) (tr_txn r) INTRA COMMITTED] in
  follower_view s' = (last_index l', l', (ballot_num s, promised_num s, accept_num s, accept_val s),
                      (await_prepare_decision s, await_accept_decision s), true) /\
  forall x, client_in_cluster s' x = client_in_cluster s x.
Proof.
  intros Hw. split; [|done]. unfold server_commitTransaction, commitTransaction_intra. rewrite Hw, txn_eta.
  cbn [negb fst snd]. unfold follower_view. repeat f_equal. exact Hw.
Qed.

(** A follower that has logged the entry of its round. *)
Lemma follower_logged h l f f3 b i w :
  follower_inv h l f -> ballot_num l < 2 ^ 31 -> Z.of_nat (length (log l)) <= ballot_num l ->
  let l' := log f ++ [entry_of b (accept_val f)] in
  follower_view f3 = (last_index l', l', (ballot_num f, promised_num f, accept_num f, accept_val f),
                      (await_prepare_decision f, await_accept_decision f), true) ->
  (forall x, client_in_cluster f3 x = client_in_cluster f x) ->
  log l !! length (log f) = Some (entry_of b (accept_val f)) -> b = b_num (promised_num f) ->
  base h b = length (log f) -> commits i b w = 0%nat ->
  follower_inv h l f3 /\ accept_num f3 = accept_num f /\ in_round h w i f3.
Proof.
  intros [H1 H2 H3 H4 H5 H6 H7 H8 H9] Hmax Hlen l' Hv Hc Hlk Hb Hbase Hnone.
  injection Hv as E1 E2 E3 E4 E5 E6 E7 E8 E9.
  assert (l' `prefix_of` log l) as Hpre by (by apply prefix_grow).
  pose proof (prefix_length _ _ Hpre) as Hl2.
  assert (length l' = S (length (log f))) as El by (unfold l'; rewrite length_app; cbn [length]; lia).
  assert (last_index l' = Z.of_nat (length l') - 1) as Ei
    by (unfold last_index; apply wrap32_id; unfold in_int; lia).
  split; [|split; [done|]].
  - split; rewrite ?E1, ?E2, ?E3, ?E4, ?E5, ?E6, ?E7, ?E8, ?E9; try done.
    intros tid. rewrite !Hc. apply H9.
  - intros _. right. rewrite E2, E4, <- Hb, El, Hbase. done.
Qed.

(** The commit of an intra-shard payment, as one equation. *)
Definition released f : Server DB :=
  f <| last_inserted := last_index (log f) |> <| last_inserted_ballot := accept_num f |>
    <| locks ::= fun k => k ∖ my_accounts f (tr_txn (accept_val f)) |>.
Definition round_over (s : Server DB) : Server DB := s <| promised := false |> <| accepted := false |>.

Lemma commit_call_acts f b :
  i_am_disconnected f = false -> b_num (promised_num f) = b_num b -> b_num (accept_num f) = b_num b ->
  client_in_cluster f (sender (tr_txn (accept_val f))) = true ->
  client_in_cluster f (receiver (tr_txn (accept_val f))) = true ->
  processCommitCall f (mk_commit_req b)
  = round_over (server_commitTransaction (accept_val f) (accept_num f) (released f)).
Proof.
  intros Hd Hp Ha Hs Hr. unfold processCommitCall. rewrite Hd. cbn [cq_ballot].
  rewrite Hp, Ha, Z.eqb_refl. cbn [andb].
  set (f1 := f <| last_inserted := last_index (log f) |> <| last_inserted_ballot := accept_num f |>).
  destruct (unlock_both f1 (tr_txn (accept_val f1))) as [E1 E2].
  cbv zeta. rewrite E1, E2.
  assert (client_in_cluster f1 (sender (tr_txn (accept_val f1))) &&
          client_in_cluster f1 (receiver (tr_txn (accept_val f1))) = true) as -> by (apply andb_true_intro; split; [exact Hs|exact Hr]).
  reflexivity.
Qed.

Lemma round_over_quiet f : quiet f (round_over f).
Proof. done. Qed.

(** A commit message extends the log by the leader's entry, or changes
    nothing.  [w] is the wire without the message. *)
Lemma follower_commit h l f b v i w :
  follower_inv h l f -> ballot_num l < 2 ^ 31 -> Z.of_nat (length (log l)) <= ballot_num l ->
  val h b = Some v -> 1 <= b -> v = req_of (tr_tid v) -> log l !! base h b = Some (entry_of b v) ->
  (b = b_num (promised_num f) -> base h b = length (log f) /\ commits i b w = 0%nat) ->
  let f' := processCommitCall f (mk_commit_req (mk_ballot b L)) in
  f' = f \/ (follower_inv h l f' /\ accept_num f' = accept_num f /\ in_round h w i f').
Proof.
  intros Hf Hmax Hlen Hv Hb Hreq Hlk Hround f'. pose proof Hf as [H1 H2 H3 H4 H5 H6 H7 H8 H9].
  destruct (i_am_disconnected f) eqn:Ed; [left; unfold f', processCommitCall; by rewrite Ed|].
  destruct (Z.eq_dec (b_num (promised_num f)) b) as [Ep|Ep];
    [|left; unfold f', processCommitCall; rewrite Ed; cbn [cq_ballot b_num]; by destruct (Z.eqb_spec (b_num (promised_num f)) b)].
  destruct (Z.eq_dec (b_num (accept_num f)) b) as [Ea|Ea];
    [|left; unfold f', processCommitCall; rewrite Ed; cbn [cq_ballot b_num];
      destruct (Z.eqb_spec (b_num (accept_num f)) b); [done|by rewrite andb_false_r]].
  right. destruct (Hround (eq_sym Ep)) as [Hbase Hnone].
  destruct H6 as [Ean Eval]; [lia|]. rewrite Ea, Hv in Eval. injection Eval as Eval. rewrite Ea in Ean. subst v.
  assert (client_in_cluster f (sender (tr_txn (accept_val f))) = true /\
          client_in_cluster f (receiver (tr_txn (accept_val f))) = true) as [Hs Hr].
  { rewrite Hreq. apply H9. }
  assert (f' = round_over (server_commitTransaction (accept_val f) (accept_num f) (released f))) as ->
    by (by apply commit_call_acts).
  destruct (commit_view (accept_val f) (accept_num f) (released f) H8) as [Hvw Hcl].
  assert (mk_entry (tr_tid (accept_val f)) (b_num (accept_num f)) (b_server_id (accept_num f))
            (tr_txn (accept_val f)) INTRA COMMITTED = entry_of b (accept_val f)) as He by (by rewrite Ean).
  revert Hvw Hcl. cbv zeta. rewrite He.
  generalize (server_commitTransaction (accept_val f) (accept_num f) (released f)). intros f3 Hvw Hcl.
  destruct (follower_logged h l f f3 b i w) as (K1 & K2 & K3);
    [done|done|done|exact Hvw|exact Hcl|by rewrite <- Hbase|done|done|done|].
  split; [|split; [exact K2|exact K3]]. by eapply follower_quiet, K1.
Qed.

(** ** Handlers that move nothing the invariant reads *)

Definition weaker (l l' : Server DB) : Prop :=
  (server_id l', ballot_num l', log l', last_inserted l', f_can_write (walFile (wal l')), stubs l')
    = (server_id l, ballot_num l, log l, last_inserted l, f_can_write (walFile (wal l)), stubs l) /\
  (await_prepare_decision l' = true -> await_prepare_decision l = true /\ promised_num l' = promised_num l) /\
  (await_accept_decision l' = true ->
     await_accept_decision l = true /\
     (accept_num l', accept_val l', paxos_tid l') = (accept_num l, accept_val l, paxos_tid l)).

(** Queries and disconnections. *)
Definition neutral (s s' : Server DB) : Prop :=
  weaker s s' /\ ctrl s' = ctrl s /\ quiet s s'.

Lemma neutral_refl s : neutral s s.
Proof. unfold neutral, weaker, quiet. by split_and!. Qed.

Lemma neutral_touch c s : neutral s (touch_balance c s).
Proof. unfold neutral, weaker, quiet. split_and!; try done; by intros ->. Qed.

Definition fixed_part s :=
  (server_id s, last_inserted s, stubs s, accept_val s).

Lemma fixed_disconnect s r : fixed_part (processDisconnectCall s r) = fixed_part s.
Proof.
  unfold processDisconnectCall. rewrite (foldl_frame fixed_part).
  - unfold resetDisconnectedState. rewrite (foldl_frame fixed_part); [done|]. intros s' p. by case_match.
  - intros s' name. unfold disconnect_one. by repeat case_match.
Qed.

Lemma neutral_disconnect s r : neutral s (processDisconnectCall s r).
Proof.
  pose proof (fixed_disconnect s r) as Hf. pose proof (ctrl_disconnect s r) as Hc.
  pose proof (bank_disconnect s r) as Hb. revert Hf Hc Hb. generalize (processDisconnectCall s r). intros s' Hf Hc Hb.
  pose proof (bank_eq _ _ Hb) as (Hn & Hcl & _ & _ & Hw & Hl). pose proof Hc as Hc'.
  injection Hf as F1 F2 F3 F4. injection Hc as C1 C2 C3 C4 C5 C6 C7 C8 C9 C10 C11 C12 C13.
  unfold neutral, weaker, quiet, follower_view.
  split_and!; try done; try (intros; by apply client_in_cluster_view); try congruence.
  - intros Hx. split; congruence.
  - intros Hx. split; congruence.
Qed.

Definition sync_ended (c : OutCall) : Prop := oc_type c = SYNC -> status_ok (oc_status c) = false.

Lemma idle_reply f c :
  await_prepare_decision f = false -> await_accept_decision f = false -> sync_ended c ->
  quiet f (HandleRPCResponse f c).1 /\ (HandleRPCResponse f c).2 = [].
Proof.
  intros Hp Ha Hs. unfold HandleRPCResponse. destruct (oc_type c) eqn:Et; try (split; [apply quiet_refl|reflexivity]).
  - unfold handlePrepareReply. rewrite Hp. cbn [negb fst snd]. split; [apply quiet_refl|done].
  - unfold handleAcceptReply. rewrite Ha. cbn [negb fst snd]. split; [apply quiet_refl|done].
  - unfold handleSyncReply. rewrite Hs by done. cbn [andb fst snd]. by split.
Qed.

(** ** The leader's handlers *)

Lemma leader_weaker h l l' : leader_inv h l -> weaker l l' -> ctrl_ok (ctrl l') -> leader_inv h l'.
Proof.
  intros [H1 H2 H3 H4 H5 H6 H7 H8 H9 H10] (Hv & Hp & Ha) Hc. injection Hv as E1 E2 E3 E4 E5 E6.
  split; rewrite ?E1, ?E2, ?E3, ?E4, ?E5, ?E6; try done.
  - intros Hp'. destruct (Hp Hp') as [Hp1 ->]. by apply H8.
  - intros Ha'. destruct (Ha Ha') as [Ha1 Heq]. injection Heq as -> -> ->. by apply H9.
Qed.

Lemma inv_leader_weaker h l n l' w :
  net_inv h l n -> weaker l l' -> ctrl_ok (ctrl l') ->
  (forall p, p ∈ w -> p ∈ wire n \/ packet_ok h (mk_net (<[L := l']> (servers n)) w) l' p) ->
  (forall j b, (commits j b w <= commits j b (wire n))%nat) ->
  (await_accept_decision l' = true -> accept_successes l' = 1 \/ voted n (ballot_num l')) ->
  net_inv h l' (mk_net (<[L := l']> (servers n)) w).
Proof.
  intros Hn Hw Hc Hp Hco Hv. pose proof Hw as (Heq & _). injection Heq as _ E2 E3 _ _ _.
  eapply inv_leader; [exact Hn|eapply leader_weaker; [apply Hn|done|done]|by apply extends_same|done| | |done].
  - intros j b. specialize (Hco j b). pose proof (ni_commits _ _ _ Hn j b). lia.
  - intros j b. by left.
Qed.

(** A call that has no reply yet. *)
Definition unanswered (c : OutCall) : Prop :=
  oc_prepareReply c = default_prepare_res /\ oc_acceptReply c = default_accept_res.

Lemma unanswered_ok n l c : unanswered c -> call_ok n l c.
Proof. intros [H1 H2]. unfold call_ok. by rewrite H1, H2. Qed.

Definition only_syncs (outs : list Out) : Prop :=
  forall d m c, Rpc d m c ∈ outs -> (exists r, m = MSync r) /\ unanswered c.

Lemma only_syncs_nil : only_syncs [].
Proof. intros d m c Hin. by apply elem_of_nil in Hin. Qed.

Lemma only_syncs_request s i : only_syncs (request_sync s i).
Proof.
  intros d m c. unfold request_sync. case_decide; rewrite list_elem_of_singleton; [|done].
  intros [= -> -> ->]. split; [by eexists|done].
Qed.

Lemma weaker_refl l : weaker l l.
Proof. apply neutral_refl. Qed.

(** A prepare reply is counted, or ends the wait. *)
Lemma leader_prepare_reply h l st q p :
  leader_inv h l ->
  (forall m, pr_latest_ballot_num p = Some m ->
     0 <= b_num (pr_ballot p) /\ b_num (pr_ballot p) <= m <= ballot_num l) ->
  let x := handlePrepareReply l st q p in
  weaker l x.1 /\ await_accept_decision x.1 = await_accept_decision l /\
  accept_successes x.1 = accept_successes l /\ only_syncs x.2.
Proof.
  intros Hl Hm x. subst x. unfold handlePrepareReply. destruct (await_prepare_decision l) eqn:Ew; cbn [negb].
  2:{ split_and!; [apply weaker_refl|done..|apply only_syncs_nil]. }
  destruct (li_prepare _ _ Hl Ew) as (Hpn & _ & _ & _).
  destruct (status_is_deadline st && _ && _).
  { split_and!; [unfold weaker; by split_and!|done..|apply only_syncs_nil]. }
  destruct (status_ok st); cbn [andb];
    [|split_and!; [apply weaker_refl|done..|apply only_syncs_nil]].
  destruct (Z.eqb_spec (b_num (pr_ballot p)) (b_num (promised_num l))) as [Eb|]; cbn [andb];
    [|split_and!; [apply weaker_refl|done..|apply only_syncs_nil]].
  destruct (b_server_id (pr_ballot p) =? server_id l);
    [|split_and!; [apply weaker_refl|done..|apply only_syncs_nil]].
  assert (forall m, pr_latest_ballot_num p = Some m -> m = ballot_num l) as Hm'.
  { intros m Hs. specialize (Hm m Hs). rewrite Eb, Hpn in Hm. cbn in Hm. lia. }
  clear Hm. set (s1 := if pr_ack p then _ else _).
  assert (weaker l s1 /\ await_accept_decision s1 = await_accept_decision l /\
          accept_successes s1 = accept_successes l) as (W1 & A1 & S1).
  { unfold s1, weaker. destruct (pr_ack p); by split_and!. }
  clearbody s1. set (s2 := match pr_latest_ballot_num p with Some _ => _ | None => _ end).
  assert (weaker l s2 /\ await_accept_decision s2 = await_accept_decision l /\
          accept_successes s2 = accept_successes l) as (W2 & A2 & S2).
  { unfold s2. destruct (pr_latest_ballot_num p) as [m|]; [|done]. rewrite (Hm' m eq_refl).
    split_and!; [|done|done]. destruct W1 as (V & _ & Ha). injection V as V1 V2 V3 V4 V5 V6.
    unfold weaker. split_and!; [cbn; congruence|done|exact Ha]. }
  clearbody s2. destruct (pr_last_inserted p) as [m|]; [destruct (_ <? m)|]; cbn [fst snd];
    (split_and!; [|done|done|first [apply only_syncs_nil|apply only_syncs_request]]); try done.
  destruct W2 as (V & _ & Ha). split; [exact V|]. split; [done|exact Ha].
Qed.

(** An accept reply is counted; a vote counted is a vote given. *)
Lemma leader_accept_reply h n l st q p :
  leader_inv h l -> (ar_ack p = true -> voted n (b_num (ar_ballot p))) ->
  (await_accept_decision l = true -> accept_successes l = 1 \/ voted n (ballot_num l)) ->
  let l' := handleAcceptReply l st q p in
  weaker l l' /\ (await_accept_decision l' = true -> accept_successes l' = 1 \/ voted n (ballot_num l')).
Proof.
  intros Hl Hv Ho. unfold handleAcceptReply. destruct (await_accept_decision l) eqn:Ew; cbn [negb];
    [|split; [apply weaker_refl|by rewrite Ew]].
  destruct (li_accept _ _ Hl Ew) as (Han & _). specialize (Ho eq_refl).
  destruct (status_is_deadline st && _ && _); [split; [unfold weaker; by split_and!|by intros]|].
  destruct (status_ok st); cbn [andb]; [|split; [apply weaker_refl|done]].
  destruct (Z.eqb_spec (b_num (ar_ballot p)) (b_num (accept_num l))) as [Eb|]; cbn [andb];
    [|split; [apply weaker_refl|done]].
  destruct (b_server_id (ar_ballot p) =? server_id l); [|split; [apply weaker_refl|done]].
  destruct (ar_ack p); (split; [unfold weaker; by split_and!|]); intros _; [|exact Ho].
  right. rewrite Eb, Han in Hv. by apply Hv.
Qed.

Lemma leader_reply h n l c :
  leader_inv h l -> call_ok n l c -> sync_ended c ->
  (await_accept_decision l = true -> accept_successes l = 1 \/ voted n (ballot_num l)) ->
  let x := HandleRPCResponse l c in
  weaker l x.1 /\ only_syncs x.2 /\
  (await_accept_decision x.1 = true -> accept_successes x.1 = 1 \/ voted n (ballot_num x.1)).
Proof.
  intros Hl [Hc1 Hc2] Hs Hv x. subst x. unfold HandleRPCResponse.
  destruct (oc_type c) eqn:Et; try (split; [apply weaker_refl|split; [apply only_syncs_nil|exact Hv]]).
  - destruct (leader_prepare_reply h l (oc_status c) (oc_prepareReq c) _ Hl Hc1) as (W & A & S & O).
    split_and!; [done|done|]. rewrite A, S. intros Ha. destruct W as (V & _). injection V as _ -> _ _ _ _. auto.
  - destruct (leader_accept_reply h n l (oc_status c) (oc_acceptReq c) _ Hl Hc2 Hv) as [W V].
    split_and!; [done|apply only_syncs_nil|done].
  - unfold handleSyncReply. rewrite Hs by done. cbn [andb fst snd].
    split_and!; [unfold weaker; by split_and!|apply only_syncs_nil|done].
Qed.

(** *** A payment at the leader *)

(** The effects of the leader: the same message to every replica. *)
Definition told (h' : history) (l l' : Server DB) (outs : list Out) : Prop :=
  outs = [] \/
  exists m c, outs = map (fun d => Rpc d m c) (stubs l) /\ unanswered c /\
    (forall d, d <> L -> msg_ok h' l' d m) /\
    (forall b, commit_ballot m = Some b -> b = ballot_num l /\ await_accept_decision l = true).

(** A call of the leader: its part of the invariant, the longer history, what
    it tells the replicas. *)
Definition leads (h : history) (l : Server DB) (h' : history) (l' : Server DB) (outs : list Out) : Prop :=
  leader_inv h' l' /\ extends h l h' l' /\ ballot_num l' <= ballot_num l + 1 /\ told h' l l' outs /\
  (await_accept_decision l' = true ->
     accept_successes l' = 1 \/
     (await_accept_decision l = true /\ accept_successes l' = accept_successes l /\ ballot_num l' = ballot_num l)).

Lemma leads_weaker h l l' :
  leader_inv h l -> weaker l l' -> ctrl_ok (ctrl l') -> accept_successes l' = accept_successes l ->
  leads h l h l' [].
Proof.
  intros Hl Hw Hc Ha. pose proof Hw as (V & _ & Hwa). injection V as _ V2 V3 _ _ _.
  split_and!; [by eapply leader_weaker|by apply extends_same|lia|by left|].
  intros Hx. right. split; [by apply Hwa|done].
Qed.

Lemma conditions_weaker s t :
  let s0 := s <| await_prepare_decision := false |> in
  weaker s0 (conditions_fail s0 t).1 /\ ctrl (conditions_fail s0 t).1 = ctrl s0.
Proof.
  cbv zeta. generalize (s <| await_prepare_decision := false |>). intros s0.
  split; [|apply ctrl_conditions]. unfold conditions_fail.
  destruct (_ || _); [apply weaker_refl|]. destruct (client_in_cluster s0 (sender t)); [|apply weaker_refl].
  apply neutral_touch.
Qed.

Lemma leads_start h l tid :
  leader_inv h l -> ballot_num l < 2 ^ 31 - 1 -> await_accept_decision l = false ->
  ctrl_ok (ctrl (start_prepare l tid).1) ->
  exists h', leads h l h' (start_prepare l tid).1 (start_prepare l tid).2.
Proof.
  intros [H1 H2 H3 H4 H5 H6 H7 H8 H9 H10] Hmax Ha Hc.
  set (b := ballot_num l + 1).
  assert (wrap32 (ballot_num l + 1) = b) as Hb by (apply wrap32_id; unfold in_int; lia).
  assert (forall v, val h b <> Some v) as Hnew by (intros v Hv; apply H10 in Hv; lia).
  exists (mk_history (fun x => if decide (x = b) then length (log l) else base h x) (val h)).
  set (l' := (start_prepare l tid).1) in *.
  assert (ballot_num l' = b) as Eb by exact Hb.
  assert (promised_num l' = mk_ballot b L) as Ep.
  { change (mk_ballot (wrap32 (ballot_num l + 1)) (server_id l) = mk_ballot b L). by rewrite Hb, H1. }
  split_and!.
  - split; rewrite ?Eb; try done; try lia.
    + change (Z.of_nat (length (log l)) <= b). lia.
    + intros _. cbn [base val]. rewrite decide_True by done. split_and!; [done|done| |].
      * destruct (val h b) as [v|] eqn:E; [by destruct (Hnew v)|done].
      * change (Z.of_nat (length (log l)) < b). lia.
    + change (await_accept_decision l') with (await_accept_decision l). by rewrite Ha.
    + intros x v Hv. cbn [val] in Hv. destruct (H10 x v Hv) as (Hx & Hrest). split; [lia|exact Hrest].
  - unfold extends. rewrite Eb. split_and!; [lia|done| |done].
    intros x Hx. cbn [base]. rewrite decide_False by lia. done.
  - rewrite Eb. lia.
  - right. eexists _, _. split; [reflexivity|]. split; [done|]. split; [|done].
    intros d Hd. split; [done|]. exists b. rewrite Eb. cbn [base]. rewrite decide_True by done.
    split; [lia|]. change (mk_prepare_req (mk_ballot (wrap32 (ballot_num l + 1)) (server_id l)) (last_inserted l)
                           = mk_prepare_req (mk_ballot b L) (Z.of_nat (length (log l)) - 1)).
    by rewrite Hb, H1, H4.
  - change (await_accept_decision l') with (await_accept_decision l). by rewrite Ha.
Qed.

(** What the accept phase of an intra-shard payment does to the leader. *)
Lemma start_accept_view s r :
  let s' := (start_accept s r false).1 in
  (server_id s', ballot_num s', log s', last_inserted s', f_can_write (walFile (wal s')), stubs s')
    = (server_id s, ballot_num s, log s, last_inserted s, f_can_write (walFile (wal s)), stubs s) /\
  (paxos_tid s', accept_num s', accept_val s', accept_successes s') = (paxos_tid s, promised_num s, r, 1) /\
  await_prepare_decision s' = await_prepare_decision s /\
  exists c, unanswered c /\
    (start_accept s r false).2 = map (fun d => Rpc d (MAccept (mk_accept_req (promised_num s) r)) c) (stubs s).
Proof.
  cbv zeta. unfold start_accept. repeat case_match; (split_and!; [done|done|done|]); eexists; (split; [|reflexivity]); done.
Qed.

Lemma leads_accept h l s r :
  leader_inv h l -> await_prepare_decision l = true -> weaker (l <| await_prepare_decision := false |>) s ->
  ctrl s = ctrl (l <| await_prepare_decision := false |>) ->
  r = req_of (paxos_tid l) -> wf_transfer_req r -> tr_tid r <> -1 ->
  ctrl_ok (ctrl (start_accept s r false).1) ->
  exists h', leads h l h' (start_accept s r false).1 (start_accept s r false).2.
Proof.
  intros [H1 H2 H3 H4 H5 H6 H7 H8 H9 H10] Hw (V & _) Hcs Hr Hwf Hne Hc.
  destruct (H8 Hw) as (Hpn & Hbase & Hnone & Hlt).
  destruct (start_accept_view s r) as (E1 & E2 & E3 & c & Hun & Ho). rewrite Ho.
  revert E1 E2 E3 Hc. generalize (start_accept s r false).1. intros l' E1 E2 E3 Hc.
  injection Hcs as C1 C2 C3 C4 C5 C6 C7 C8 C9 C10 C11 C12 C13. cbn in *.
  injection V as V1 V2 V3 V4 V5 V6. injection E1 as F1 F2 F3 F4 F5 F6. injection E2 as G1 G2 G3 G4.
  set (b := ballot_num l) in *.
  exists (mk_history (base h) (fun x => if decide (x = b) then Some r else val h x)).
  assert (log l' = log l) as El by congruence. assert (ballot_num l' = b) as Eb by congruence.
  split_and!.
  - split; rewrite ?El, ?Eb; try congruence.
    + intros _. cbn [base val]. rewrite decide_True by done. split_and!; try congruence; try done.
    + intros x v. cbn [val]. case_decide as Hx; [|apply H10]. intros [= <-]. subst x.
      split_and!; try done; [lia|]. by rewrite Hr.
  - unfold extends. rewrite El, Eb. split_and!; [done|done|done|].
    intros x v Hv. cbn [val]. case_decide; [congruence|done].
  - rewrite Eb. lia.
  - right. eexists _, c. rewrite V6. split; [reflexivity|]. split; [done|]. split; [|done].
    intros d Hd. split; [done|]. exists b, r. cbn [val]. rewrite decide_True by done. split; [congruence|done].
  - intros _. left. congruence.
Qed.

(** What the commit of an intra-shard payment does to the leader. *)
Lemma decide_commit_view s r :
  f_can_write (walFile (wal s)) = true ->
  let s' := (decide_commit s r false).1 in
  let k := log s ++ [mk_entry (tr_tid r) (b_num (accept_num s)) (b_server_id (accept_num s)) (tr_txn r) INTRA COMMITTED] in
  (server_id s', ballot_num s', log s', last_inserted s', f_can_write (walFile (wal s')), stubs s')
    = (server_id s, ballot_num s, k, last_index k, true, stubs s) /\
  await_prepare_decision s' = false /\ await_accept_decision s' = false /\
  exists c, unanswered c /\
    (decide_commit s r false).2 = map (fun d => Rpc d (MCommit (mk_commit_req (accept_num s))) c) (stubs s).
Proof.
  intros Hw. cbv zeta. unfold decide_commit.
  set (s2 := unlock (receiver (tr_txn r)) (unlock (sender (tr_txn r)) (s <| await_accept_decision := false |>))).
  destruct (commit_view r (accept_num s) s2 Hw) as [Hv _].
  assert (server_id (server_commitTransaction r (accept_num s) s2) = server_id s /\
          stubs (server_commitTransaction r (accept_num s) s2) = stubs s) as [E1 E2] by done.
  revert Hv E1 E2. cbv zeta. cbn [fst snd]. 
  change (accept_num (s <| await_accept_decision := false |>)) with (accept_num s).
  generalize (server_commitTransaction r (accept_num s) s2). intros s3 Hv E1 E2.
  injection Hv as V1 V2 V3 V4 V5 V6 V7 V8 V9.
  split_and!; [|done|done|].
  - cbn. rewrite E1, E2, V3, V1, V2, V9. done.
  - eexists. split; [|reflexivity]. done.
Qed.

Lemma leads_commit h l r :
  leader_inv h l -> ballot_num l < 2 ^ 31 -> await_accept_decision l = true -> r = req_of (paxos_tid l) ->
  ctrl_ok (ctrl (decide_commit l r false).1) ->
  leads h l h (decide_commit l r false).1 (decide_commit l r false).2.
Proof.
  intros [H1 H2 H3 H4 H5 H6 H7 H8 H9 H10] Hmax Hw Hr Hc.
  destruct (H9 Hw) as (Han & Hbase & Hval & Hav & Hlt).
  destruct (decide_commit_view l r H6) as (E1 & E2 & E3 & c & Hun & Ho). rewrite Ho.
  revert E1 E2 E3 Hc. generalize (decide_commit l r false).1. intros l' E1 E2 E3 Hc.
  rewrite Han in E1. cbn [b_num b_server_id] in E1.
  change (mk_entry (tr_tid r) (ballot_num l) L (tr_txn r) INTRA COMMITTED) with (entry_of (ballot_num l) r) in E1.
  injection E1 as F1 F2 F3 F4 F5 F6.
  assert (length (log l') = S (length (log l))) as El by (rewrite F3, length_app; cbn [length]; lia).
  assert (last_inserted l' = Z.of_nat (length (log l')) - 1) as Ei.
  { rewrite F4, <- F3. unfold last_index. apply wrap32_id. unfold in_int. lia. }
  split_and!.
  - split; rewrite ?F2, ?E2, ?E3; try done; try congruence; try lia.
  - unfold extends. rewrite F2, F3. split_and!; [done|by eexists|done|done].
  - lia.
  - right. eexists _, c. rewrite Han. split; [reflexivity|]. split; [done|]. split.
    + intros d Hd. split; [done|]. exists (ballot_num l), r. split_and!; [done|congruence|].
      rewrite F3, Hbase, lookup_app_r, Nat.sub_diag by lia. done.
    + intros b [= <-]. done.
  - by rewrite E3.
Qed.

(** A payment at the leader, on every path of [runPaxos]. *)
Lemma leads_transfer h l r l' outs v :
  leader_inv h l -> ballot_num l < 2 ^ 31 - 1 -> r = req_of (tr_tid r) ->
  wf_transfer_req r -> tr_tid r <> -1 -> ctrl_ok (ctrl l') ->
  paxos_case l r false l' outs v -> exists h', leads h l h' l' outs.
Proof.
  intros Hl Hmax Hr Hwf Hne Hc Hcase. pose proof (li_ctrl _ _ Hl) as (K1 & K2 & _). cbn in K1, K2.
  destruct Hcase as [|Hs Hrun Ep Ea|c Ep Hm Ec Ecf|c Hs Hrun Ep Hm Ec Ecf|Ep Hm Hf|Hs Hrun Ep Ea Hm|Ep Ea Hm Hf].
  - exists h. apply leads_weaker; [done|apply weaker_refl|done|done].
  - by apply leads_start.
  - exists h. destruct (conditions_weaker l (tr_txn r)) as [Hw Hcc]. rewrite <- Ec in Hw, Hcc.
    injection Hcc as C1 C2 C3 C4 C5 C6 C7 C8 C9 C10 C11 C12 C13. destruct Hw as (V & _).
    apply leads_weaker; [done| |done|cbn; congruence].
    rewrite Ep in K1. split; [exact V|]. cbn. rewrite C10, C11. cbn.
    split; [done|]. by destruct (await_accept_decision l).
  - destruct (conditions_weaker l (tr_txn r)) as [Hw Hcc]. rewrite <- Ec in Hw, Hcc.
    apply leads_accept; try done. rewrite Hr. f_equal. symmetry. apply Hrun, K2. by rewrite Ep.
  - exists h. apply leads_weaker; try done. rewrite Ep in K1. unfold weaker. cbn.
    split_and!; [done|done|]. by destruct (await_accept_decision l).
  - exists h. apply leads_commit; try done; [lia|]. rewrite Hr. f_equal. symmetry. apply Hrun, K2.
    by rewrite Ea, orb_true_r.
  - exists h. by apply leads_weaker.
Qed.

(** ** The network's moves *)

Lemma commits_zero i b w : (forall p, p ∈ w -> is_commit i b p = false) -> commits i b w = 0%nat.
Proof.
  induction w as [|p w IH]; intros Hp; [done|]. rewrite commits_cons, IH, Hp; [done|left|].
  intros q Hq. apply Hp. by right.
Qed.

Lemma syncs_packets h n l src outs ps :
  only_syncs outs -> packets src outs = Some ps ->
  (forall p, p ∈ ps -> packet_ok h n l p) /\ forall i b, commits i b ps = 0%nat.
Proof.
  intros Ho Hps. split.
  - intros p Hp. destruct (packets_elem _ _ _ _ Hps Hp) as (d & m & c & -> & Hin).
    destruct (Ho d m c Hin) as [[r ->] Hun]. split; [done|by apply unanswered_ok].
  - intros i b. apply commits_zero. intros p Hp.
    destruct (packets_elem _ _ _ _ Hps Hp) as (d & m & c & -> & Hin). by destruct (Ho d m c Hin) as [[r ->] _].
Qed.

Lemma only_syncs_prepare s r : only_syncs (processPrepareCall s r).2.
Proof.
  unfold processPrepareCall. destruct (i_am_disconnected s); [apply only_syncs_nil|].
  destruct (_ <? _); [destruct (_ =? _); [|destruct (_ <? _)]|]; cbn [fst snd];
    first [apply only_syncs_nil|apply only_syncs_request].
Qed.

Lemma val_range h l : leader_inv h l -> forall b v, val h b = Some v -> 1 <= b <= ballot_num l.
Proof. intros Hl b v Hv. apply (li_val _ _ Hl b v Hv). Qed.

Lemma ctrl_ok_reply s c : ctrl_ok (ctrl s) -> ctrl_ok (ctrl (HandleRPCResponse s c).1).
Proof.
  intros Hs. unfold HandleRPCResponse. destruct (oc_type c); try exact Hs.
  - exact (ctrl_ok_exec s (ev_prepare_reply (oc_status c) (oc_prepareReq c) (oc_prepareReply c)) Hs).
  - exact (ctrl_ok_exec s (ev_accept_reply (oc_status c) (oc_acceptReq c) (oc_acceptReply c)) Hs).
  - exact (ctrl_ok_exec s (ev_sync_reply (oc_status c) (oc_syncReply c)) Hs).
Qed.

(** A call ends, at the leader or at a follower. [w] is what is left on the
    wire. *)
Lemma inv_call_ends h l n i c w n' :
  net_inv h l n -> call_ok n l c -> sync_ended c ->
  (forall p, p ∈ w -> packet_ok h n l p) ->
  (forall j b, (commits j b w <= commits j b (wire n))%nat) ->
  call_ends n i c w = Some n' -> exists l', net_inv h l' n' /\ ballot_num l' = ballot_num l.
Proof.
  intros Hn Hc Hs Hw Hco. unfold call_ends. destruct (servers n !! i) as [s|] eqn:Ei; [|done]. cbn [mbind option_bind].
  unfold moved. destruct (packets i _) as [ps|] eqn:Eps; [|done]. intros [= <-].
  pose proof (val_range h l (ni_leader_ok _ _ _ Hn)) as Hval.
  destruct (decide (i = L)) as [->|Hne].
  - assert (s = l) as -> by (pose proof (ni_leader _ _ _ Hn); congruence).
    destruct (leader_reply h n l c (ni_leader_ok _ _ _ Hn) Hc Hs (ni_votes _ _ _ Hn)) as (W & O & V).
    set (l' := (HandleRPCResponse l c).1) in *. pose proof W as (Wv & _). injection Wv as _ W2 W3 _ _ _.
    assert (ctrl_ok (ctrl l')) as Hctrl.
    { apply ctrl_ok_reply, (li_ctrl _ _ (ni_leader_ok _ _ _ Hn)). }
    exists l'. split; [|done]. apply (inv_leader_weaker h l); try done.
    + intros p [Hp|Hp]%elem_of_app; right.
      * eapply packet_extends; [by apply (extends_same h l l')|done| |by apply Hw].
        intros b. apply voted_insert with l; [apply Hn|by right].
      * eapply syncs_packets; [exact O|exact Eps|exact Hp].
    + intros j b. rewrite commits_app, (proj2 (syncs_packets h n l _ _ _ O Eps)), Nat.add_0_r. apply Hco.
  - destruct (ni_follower _ _ _ Hn i s Hne Ei) as [Hf _]. destruct (fi_idle _ _ _ Hf) as [I1 I2].
    destruct (idle_reply s c I1 I2 Hs) as [Hq Ho]. rewrite Ho in Eps. injection Eps as <-. rewrite app_nil_r.
    exists l. split; [|done]. apply (inv_follower_quiet h l n i s); try done.
    intros p Hp. right. eapply packet_extends; [apply extends_refl|done| |by apply Hw].
    intros b. apply voted_insert with s; [done|]. left. destruct Hq as [Hq _]. injection Hq as _ _ _ _ -> _ _ _ _. lia.
Qed.

(** The reply of a request, if the caller still waits for one. *)
Definition reply_packet (src : Z) (s : Server DB) (m : peer_msg) (c : option OutCall) : list packet :=
  match c with Some c => [Rep src (complete s m c)] | None => [] end.

Lemma commits_reply i b src s m c : commits i b (reply_packet src s m c) = 0%nat.
Proof. by destruct c. Qed.

(** What is left on the wire after the request at [k] has been handled. *)
Lemma handled_packets h n l l' n' k src s i m c ps :
  (forall p, p ∈ wire n -> packet_ok h n l p) ->
  (forall x, c = Some x -> call_ok n' l' (complete s m x)) ->
  (forall p, p ∈ ps -> packet_ok h n' l' p) ->
  wire n !! k = Some (Req src i m c) ->
  forall p, p ∈ (delete k (wire n) ++ reply_packet src s m c) ++ ps -> p ∈ wire n \/ packet_ok h n' l' p.
Proof.
  intros Hw Hc Hps Hk p [[Hp|Hp]%elem_of_app|Hp]%elem_of_app.
  - left. by eapply list_elem_of_delete_inv.
  - right. destruct c as [x|]; [|by apply elem_of_nil in Hp]. apply list_elem_of_singleton in Hp as ->. by apply Hc.
  - right. auto.
Qed.

(** The reply is as good as the call and the handler's part of it. *)
Lemma complete_ok n l n' f m c :
  call_ok n l c -> (forall b, voted n b -> voted n' b) ->
  match m with
  | MPrepare r => forall x, pr_latest_ballot_num (processPrepareCall f r).1.2 = Some x ->
      0 <= b_num (pr_ballot (processPrepareCall f r).1.2) /\
      b_num (pr_ballot (processPrepareCall f r).1.2) <= x <= ballot_num l
  | MAccept r => ar_ack (processAcceptCall f r).2 = true -> voted n' (b_num (ar_ballot (processAcceptCall f r).2))
  | _ => True
  end -> call_ok n' l (complete f m c).
Proof. intros [H1 H2] Hv Hm. destruct m as [r|r|r|r]; split; cbn; auto. Qed.

(** The wire after a follower has handled a request: no commit message is
    new, and every packet is fine once the handler's own part is. *)
Definition wire_fine h l n i f' (w : list packet) : Prop :=
  (forall j b, (commits j b w <= commits j b (wire n))%nat) /\
  (forall p, p ∈ w -> p ∈ wire n \/ packet_ok h (mk_net (<[i := f']> (servers n)) w) l p).

Lemma inv_handles_prepare h l n i f b w :
  net_inv h l n -> i <> L -> servers n !! i = Some f -> 1 <= b <= ballot_num l ->
  let f' := (processPrepareCall f (mk_prepare_req (mk_ballot b L) (Z.of_nat (base h b) - 1))).1.1 in
  (b_num (accept_num f) <= b_num (accept_num f') -> wire_fine h l n i f' w) ->
  net_inv h l (mk_net (<[i := f']> (servers n)) w).
Proof.
  intros Hn Hi Hf Hb f' Hw. destruct (ni_follower _ _ _ Hn i f Hi Hf) as [K1 K2].
  pose proof (follower_prepare h l f b K1 Hb) as Hpre. cbv zeta in Hpre.
  change (quiet f f' \/ follower_inv h l f' /\ accept_num f' = accept_num f /\
          promised_num f' = mk_ballot b L /\ base h b = length (log f')) in Hpre. clearbody f'.
  destruct Hpre as [Hq|(F1 & F2 & F3 & F4)].
  - destruct Hw as [Hw1 Hw2]; [|by apply (inv_follower_quiet h l n i f)].
    destruct Hq as [Hq _]. injection Hq as _ _ _ _ -> _ _ _ _. lia.
  - destruct Hw as [Hw1 Hw2]; [rewrite F2; lia|]. apply (inv_follower h l n i f); try done; [|rewrite F2; lia].
    intros _. left. by rewrite F3.
Qed.

Lemma inv_handles_accept h l n i f b v w :
  net_inv h l n -> i <> L -> servers n !! i = Some f -> val h b = Some v ->
  let x := processAcceptCall f (mk_accept_req (mk_ballot b L) v) in
  (b_num (accept_num f) <= b_num (accept_num x.1) ->
   (ar_ack x.2 = true -> voted (mk_net (<[i := x.1]> (servers n)) w) (b_num (ar_ballot x.2))) ->
   wire_fine h l n i x.1 w) ->
  net_inv h l (mk_net (<[i := x.1]> (servers n)) w).
Proof.
  intros Hn Hi Hf Hv x Hw. destruct (ni_follower _ _ _ Hn i f Hi Hf) as [K1 K2].
  pose proof (li_val _ _ (ni_leader_ok _ _ _ Hn) b v Hv) as (Hb & Hreq & _).
  pose proof (follower_accept h l f b v K1 Hv ltac:(lia) Hreq) as Hacc. cbv zeta in Hacc. fold x in Hacc. clearbody x.
  destruct Hacc as [Eb [[E1 E2]|(F1 & F2 & F3 & F4 & F5)]].
  - destruct Hw as [Hw1 Hw2]; [rewrite E1; lia|by rewrite E2|].
    apply (inv_follower_quiet h l n i f); try done. rewrite E1. apply quiet_refl.
  - pose proof (fi_accepted _ _ _ K1). destruct Hw as [Hw1 Hw2]; [lia| |].
    + intros _. rewrite Eb. exists i, x.1. cbn. rewrite lookup_insert_eq, F4. split_and!; [done|done|lia].
    + apply (inv_follower h l n i f); try done; [|lia].
      unfold in_round. rewrite F2, F3. intros Hx. destruct (K2 Hx) as [|[G1 G2]]; [by left|right].
      split; [done|]. specialize (Hw1 i (b_num (promised_num f))). lia.
Qed.

Lemma inv_handles_commit h l n i f b v w :
  net_inv h l n -> ballot_num l < 2 ^ 31 -> i <> L -> servers n !! i = Some f -> val h b = Some v ->
  log l !! base h b = Some (entry_of b v) -> commits i b (wire n) = S (commits i b w) ->
  let f' := processCommitCall f (mk_commit_req (mk_ballot b L)) in
  (b_num (accept_num f) <= b_num (accept_num f') -> wire_fine h l n i f' w) ->
  net_inv h l (mk_net (<[i := f']> (servers n)) w).
Proof.
  intros Hn Hmax Hi Hf Hv Hlk Hone f' Hw. destruct (ni_follower _ _ _ Hn i f Hi Hf) as [K1 K2].
  pose proof (li_val _ _ (ni_leader_ok _ _ _ Hn) b v Hv) as (Hb & Hreq & _).
  pose proof (ni_commits _ _ _ Hn i b) as Hle.
  pose proof (follower_commit h l f b v i w K1 Hmax (li_len _ _ (ni_leader_ok _ _ _ Hn)) Hv ltac:(lia) Hreq Hlk) as Hcom.
  cbv zeta in Hcom. fold f' in Hcom. clearbody f'. destruct Hcom as [E|(F1 & F2 & F3)].
  - intros ->. destruct (K2 ltac:(lia)) as [|[G1 G2]]; [split; [done|lia]|lia].
  - destruct Hw as [Hw1 Hw2]; [rewrite E; lia|]. apply (inv_follower_quiet h l n i f); try done. rewrite E. apply quiet_refl.
  - destruct Hw as [Hw1 Hw2]; [rewrite F2; lia|]. apply (inv_follower h l n i f); try done. rewrite F2. lia.
Qed.

(** A follower handles a request. *)
Lemma inv_follower_handles h l n k src i m c f ps :
  net_inv h l n -> ballot_num l < 2 ^ 31 -> wire n !! k = Some (Req src i m c) -> i <> L ->
  servers n !! i = Some f -> packets i (server_exec f (peer_event m)).2 = Some ps ->
  net_inv h l (mk_net (<[i := (server_exec f (peer_event m)).1]> (servers n))
                 ((delete k (wire n) ++ reply_packet src f m c) ++ ps)).
Proof.
  intros Hn Hmax Hk Hi Hf Hps. destruct (ni_follower _ _ _ Hn i f Hi Hf) as [K1 _].
  pose proof (ni_packet _ _ _ Hn _ (list_elem_of_lookup_2 _ _ _ Hk)) as [Hm Hc].
  assert (only_syncs (server_exec f (peer_event m)).2) as Ho.
  { destruct m; try apply only_syncs_nil. apply only_syncs_prepare. }
  set (w := _ ++ ps).
  assert (forall j b, commits j b w = commits j b (delete k (wire n))) as Hw.
  { intros j b. unfold w. by rewrite !commits_app, commits_reply, (proj2 (syncs_packets h n l _ _ _ Ho Hps)), !Nat.add_0_r. }
  assert (forall f', b_num (accept_num f) <= b_num (accept_num f') ->
          match m with
          | MAccept r => ar_ack (processAcceptCall f r).2 = true ->
              voted (mk_net (<[i := f']> (servers n)) w) (b_num (ar_ballot (processAcceptCall f r).2))
          | _ => True
          end -> wire_fine h l n i f' w) as Hp.
  { intros f' Ha Hpart. split; [intros; rewrite Hw; apply commits_delete|].
    eapply handled_packets; [apply (ni_packet _ _ _ Hn)| | |exact Hk].
    - intros x ->. apply (complete_ok n); [exact Hc|intros b; apply voted_insert with f; auto|].
      destruct m as [r|r|r|r]; auto. intros y Hy. apply (prepare_reply_ok h); [done| |done].
      destruct Hm as (_ & b & Hb & ->). cbn. lia.
    - by apply (syncs_packets h _ l _ _ _ Ho Hps). }
  clearbody w. destruct m as [r|r|r|r]; cbn [msg_ok peer_event server_exec fst snd] in *.
  - destruct Hm as (_ & b & Hb & ->). apply (inv_handles_prepare h l n i f b w); auto.
  - destruct Hm as (_ & b & v & -> & Hv). apply (inv_handles_accept h l n i f b v w); auto.
  - destruct Hm as (_ & b & v & -> & Hv & Hlk). apply (inv_handles_commit h l n i f b v w); auto.
    rewrite Hw, (commits_take _ _ _ _ _ Hk). replace (is_commit i b _) with true by (symmetry; by apply is_commit_req). done.
  - destruct (Hp f) as [Hp1 Hp2]; [lia|done|]. apply (inv_follower_quiet h l n i f); done.
Qed.

(** Before its entry is logged, no commit message of a round is on its way. *)
Lemma no_commit_yet h l n i b :
  net_inv h l n -> base h b = length (log l) -> commits i b (wire n) = 0%nat.
Proof.
  intros Hn Hb. apply commits_zero. intros p Hp. pose proof (ni_packet _ _ _ Hn p Hp) as Hok.
  destruct p as [src dst m c|dst c]; [|done]. destruct (is_commit i b _) eqn:E; [|done].
  apply is_commit_req in E as [-> E]. destruct m as [r|r|r|r]; try done. injection E as E.
  destruct Hok as [(_ & b' & v & -> & _ & Hlk) _]. cbn in E. subst b'.
  apply lookup_lt_Some in Hlk. lia.
Qed.

Lemma told_packets h' n' l l' outs ps :
  NoDup (stubs l) -> L ∉ stubs l -> told h' l l' outs -> packets L outs = Some ps ->
  (forall p, p ∈ ps -> packet_ok h' n' l' p) /\
  forall i b, (commits i b ps <= 1)%nat /\
    (commits i b ps = 0%nat \/ (b = ballot_num l /\ await_accept_decision l = true)).
Proof.
  intros Hnd HL [->|(m & c & -> & Hun & Hm & Hcb)].
  { intros [= <-]. split; [intros p Hp; by apply elem_of_nil in Hp|]. intros i b. unfold commits. cbn. auto with lia. }
  rewrite packets_same. intros [= <-]. split.
  - intros p (d & -> & Hd)%list_elem_of_fmap. split; [|by apply unanswered_ok]. apply Hm. by intros ->.
  - intros i b. split; [by apply commits_once|].
    destruct (decide (commit_ballot m = Some b)) as [E|E]; [right; auto|left; by apply commits_none].
Qed.

Lemma inv_transfer h l n r p outs l' ps :
  net_inv h l n -> ballot_num l < 2 ^ 31 - 1 -> r = req_of (tr_tid r) -> wf_transfer_req r -> tr_tid r <> -1 ->
  l' = (server_exec l (ev_transfer r p)).1 -> outs = (server_exec l (ev_transfer r p)).2 ->
  packets L outs = Some ps ->
  exists h', net_inv h' l' (mk_net (<[L := l']> (servers n)) (wire n ++ ps)) /\ ballot_num l' <= ballot_num l + 1.
Proof.
  intros Hn Hmax Hr Hwf Hne El Eo Hps. pose proof (ni_leader_ok _ _ _ Hn) as Hl.
  assert (ctrl_ok (ctrl l')) as Hctrl by (rewrite El; apply ctrl_ok_exec, (li_ctrl _ _ Hl)).
  cbn [server_exec fst snd] in El, Eo. unfold processTransferCall in El, Eo.
  destruct (runPaxos l r p false) as [[[x1 x2] x3] x4] eqn:E. cbn [fst snd] in El, Eo. subst x1 x3.
  destruct (runPaxos_case _ _ _ _ _ _ _ _ E) as (v & Hcase & _).
  destruct (leads_transfer h l r l' outs v Hl Hmax Hr Hwf Hne Hctrl Hcase) as (h' & Hl' & Hx & Hle & Ht & Hv).
  exists h'. split; [|done]. destruct (li_stubs _ _ Hl) as [Hnd HL].
  destruct (told_packets h' (mk_net (<[L := l']> (servers n)) (wire n ++ ps)) l l' outs ps Hnd HL Ht Hps) as [Hp Hco].
  apply (inv_leader h l); try done.
  - intros q [Hq|Hq]%elem_of_app; auto.
  - intros j b. rewrite commits_app. pose proof (ni_commits _ _ _ Hn j b). destruct (Hco j b) as [H1 [H2|[-> H2]]]; [lia|].
    rewrite (no_commit_yet h l n j (ballot_num l)); [lia|done|]. by apply (li_accept _ _ Hl).
  - intros j b. rewrite commits_app. destruct (Hco j b) as [_ [->|[-> H2]]]; [left; lia|right]. by apply (li_accept _ _ Hl).
  - intros Ha. destruct (Hv Ha) as [|(A1 & A2 & A3)]; [by left|]. rewrite A2, A3. by apply (ni_votes _ _ _ Hn).
Qed.

(** A query or a disconnection, at any server. *)
Lemma inv_neutral h l n i s s' :
  net_inv h l n -> servers n !! i = Some s -> neutral s s' ->
  exists l', net_inv h l' (mk_net (<[i := s']> (servers n)) (wire n)) /\ ballot_num l' = ballot_num l.
Proof.
  intros Hn Hi (Hw & Hc & Hq). destruct (decide (i = L)) as [->|Hne].
  - assert (s = l) as -> by (pose proof (ni_leader _ _ _ Hn); congruence).
    assert (ballot_num s' = ballot_num l /\ accept_successes s' = accept_successes l /\
            await_accept_decision s' = await_accept_decision l) as (E1 & E2 & E3).
    { injection Hc as C1 C2 C3 C4 C5 C6 C7 C8 C9 C10 C11 C12 C13. done. }
    exists s'. split; [|done]. apply (inv_leader_weaker h l); try done.
    + rewrite Hc. apply (li_ctrl _ _ (ni_leader_ok _ _ _ Hn)).
    + intros p Hp. by left.
    + rewrite E1, E2, E3. apply (ni_votes _ _ _ Hn).
  - exists l. split; [|done]. apply (inv_follower_quiet h l n i s); try done. intros p Hp. by left.
Qed.

Lemma inv_ask h l n i e n' :
  net_inv h l n -> ballot_num l < 2 ^ 31 - 1 -> allowed n (Ask i e) -> net_exec n (Ask i e) = Some n' ->
  exists h' l', net_inv h' l' n' /\ ballot_num l' <= ballot_num l + 1.
Proof.
  intros Hn Hmax [Hwf Ha]. cbn [net_exec]. destruct (is_external e); [|done].
  destruct (servers n !! i) as [s|] eqn:Ei; [|done]. cbn [mbind option_bind]. unfold moved.
  destruct (packets i _) as [ps|] eqn:Eps; [|done]. intros [= <-].
  destruct e as [|r p| | | | | |r| |r| | | ]; try done.
  - destruct Ha as [-> Hr]. destruct Hwf as [Hwf Hne].
    assert (s = l) as -> by (pose proof (ni_leader _ _ _ Hn); congruence).
    destruct (inv_transfer h l n r p _ _ ps Hn Hmax Hr Hwf Hne eq_refl eq_refl Eps) as (h' & Hn' & Hle).
    by exists h', (server_exec l (ev_transfer r p)).1.
  - injection Eps as <-. rewrite app_nil_r. destruct (inv_neutral h l n i s _ Hn Ei (neutral_touch (bq_client r) s)) as (l' & Hn' & E).
    exists h, l'. split; [exact Hn'|lia].
  - injection Eps as <-. rewrite app_nil_r. destruct (inv_neutral h l n i s _ Hn Ei (neutral_refl s)) as (l' & Hn' & E).
    exists h, l'. split; [exact Hn'|lia].
  - injection Eps as <-. rewrite app_nil_r. destruct (inv_neutral h l n i s _ Hn Ei (neutral_disconnect s r)) as (l' & Hn' & E).
    exists h, l'. split; [exact Hn'|lia].
Qed.

Lemma inv_deliver h l n k n' :
  net_inv h l n -> ballot_num l < 2 ^ 31 -> allowed n (Deliver k) -> net_exec n (Deliver k) = Some n' ->
  exists l', net_inv h l' n' /\ ballot_num l' = ballot_num l.
Proof.
  intros Hn Hmax. cbn [net_exec allowed]. destruct (wire n !! k) as [[src i m c|i c]|] eqn:Ek; [| |done];
    cbn [mbind option_bind]; pose proof (ni_packet _ _ _ Hn _ (list_elem_of_lookup_2 _ _ _ Ek)) as Hp.
  - intros _. destruct (servers n !! i) as [s|] eqn:Ei; [|done]. cbn [mbind option_bind]. unfold moved.
    destruct (packets i _) as [ps|] eqn:Eps; [|done]. intros [= <-].
    destruct (decide (i = L)) as [->|Hne].
    + assert (s = l) as -> by (pose proof (ni_leader _ _ _ Hn); congruence). destruct Hp as [Hm Hc].
      destruct m as [r|r|r|r]; [by destruct Hm as [? _]|by destruct Hm as [? _]|by destruct Hm as [? _]|].
      injection Eps as <-. rewrite app_nil_r. exists l. split; [|done]. cbn [peer_event server_exec fst].
      apply (inv_leader_weaker h l); [done|apply weaker_refl|apply (li_ctrl _ _ (ni_leader_ok _ _ _ Hn))| | |apply (ni_votes _ _ _ Hn)].
      * intros p [Hp|Hp]%elem_of_app; [left; by eapply list_elem_of_delete_inv|right].
        destruct c as [c|]; [|by apply elem_of_nil in Hp]. apply list_elem_of_singleton in Hp as ->.
        apply (complete_ok n); [exact Hc| |done]. intros b. apply voted_insert with l; [done|by right].
      * intros j b. rewrite commits_app. pose proof (commits_reply j b src l (MSync r) c) as Hz.
        unfold reply_packet in Hz. rewrite Hz, Nat.add_0_r. apply commits_delete.
    + exists l. split; [|done]. exact (inv_follower_handles h l n k src i m c s ps Hn Hmax Ek Hne Ei Eps).
  - intros Ht. eapply inv_call_ends; [exact Hn|exact Hp|intros Hs; exfalso; exact (Ht Hs)| |].
    + intros p Hin%list_elem_of_delete_inv. by apply (ni_packet _ _ _ Hn).
    + intros j b. apply commits_delete.
Qed.

Lemma inv_expire h l n k n' :
  net_inv h l n -> net_exec n (Expire k) = Some n' -> exists l', net_inv h l' n' /\ ballot_num l' = ballot_num l.
Proof.
  intros Hn. cbn [net_exec]. destruct (wire n !! k) as [[src i m [c|]|i c]|] eqn:Ek; [|done| |done];
    cbn [mbind option_bind]; pose proof (ni_packet _ _ _ Hn _ (list_elem_of_lookup_2 _ _ _ Ek)) as Hp.
  - destruct Hp as [Hm Hc]. apply inv_call_ends; [done|exact Hc|done| |].
    + intros p [->|Hin]%elem_of_replace; [by split|by apply (ni_packet _ _ _ Hn)].
    + intros j b. by rewrite (commits_replace _ _ _ _ _ _ Ek).
  - apply inv_call_ends; [done|exact Hp|done| |].
    + intros p Hin%list_elem_of_delete_inv. by apply (ni_packet _ _ _ Hn).
    + intros j b. apply commits_delete.
Qed.

Lemma inv_lose h l n k n' : net_inv h l n -> net_exec n (Lose k) = Some n' -> net_inv h l n'.
Proof.
  intros Hn. cbn [net_exec]. destruct (wire n !! k); [|done]. intros [= <-]. pose proof Hn as [N1 N2 N3 N4 N5 N6].
  split; cbn [servers wire]; try done.
  - intros i f Hi Hf. destruct (N3 i f Hi Hf) as [K1 K2]. split; [done|]. intros Hb.
    destruct (K2 Hb) as [|[K3 K4]]; [by left|right]. split; [done|].
    pose proof (commits_delete i (b_num (promised_num f)) (wire n) k). lia.
  - intros q Hq%list_elem_of_delete_inv. by apply N4.
  - intros i b. pose proof (commits_delete i b (wire n) k). specialize (N5 i b). lia.
Qed.

Lemma inv_step h l n a n' :
  net_inv h l n -> ballot_num l < 2 ^ 31 - 1 -> allowed n a -> net_exec n a = Some n' ->
  exists h' l', net_inv h' l' n' /\ ballot_num l' <= ballot_num l + 1.
Proof.
  intros Hn Hmax Ha He. destruct a as [i e|k|k|k].
  - by eapply inv_ask.
  - destruct (inv_deliver h l n k n') as (l' & ? & E); [done|lia|done|done|]. exists h, l'. split; [done|lia].
  - destruct (inv_expire h l n k n') as (l' & ? & E); [done|done|]. exists h, l'. split; [done|lia].
  - exists h, l. split; [by eapply inv_lose|lia].
Qed.

Lemma inv_run acts h l n n' :
  net_inv h l n -> ballot_num l + Z.of_nat (length acts) < 2 ^ 31 ->
  allowed_run n acts -> net_run n acts = Some n' ->
  exists h' l', net_inv h' l' n' /\ ballot_num l' <= ballot_num l + Z.of_nat (length acts).
Proof.
  revert h l n. induction acts as [|a acts IH]; cbn [length net_run allowed_run]; intros h l n Hn Hmax Ha.
  { intros [= <-]. exists h, l. split; [done|lia]. }
  destruct Ha as [Ha Hrest]. destruct (net_exec n a) as [n1|] eqn:E; [|done]. cbn [mbind option_bind]. intros Hr.
  destruct (inv_step h l n a n1 Hn ltac:(lia) Ha E) as (h1 & l1 & Hn1 & Hle).
  destruct (IH h1 l1 n1 Hn1 ltac:(lia) Hrest Hr) as (h' & l' & Hn' & Hle'). exists h', l'. split; [done|lia].
Qed.
End Replication.
