(* ===== verification/Agreement.v ===== *)
(** * What one leader's cluster agrees on

    The invariant of [Replication] holds when the servers have just started;
    the theorems about a cluster under one leader follow.  Every server of a
    run is in a state its own event loop can reach, which connects the
    cluster with the ledger. *)
From stdpp Require Import gmap list strings.
From Stdlib Require Import ZArith Lia Ascii.
From S2P Require Import Prelude Chars Types Config Wal OutCall Server Store Steps Protocol Acceptor Ledger Sync Calls ServerMain Network Replication.

Section Start.
Context {DB : Type} `{KVStore DB} {J : Indeterminate}.
Implicit Types s : Server DB.

(** A server that has just started, as the rest of the cluster relies on it. *)
Record fresh (i : Z) (s : Server DB) : Prop := {
  fr_base : base_ok s;
  fr_id : server_id s = i;
  fr_last : last_inserted s = -1;
  fr_log : log s = [];
  fr_wal : f_can_write (walFile (wal s)) = true;
  fr_stubs : NoDup (stubs s) /\ i ∉ stubs s;
  fr_ctrl : ctrl s = mk_ctrl false false (-1) 0 false default_ballot false default_ballot
                       default_transfer_req false false 0 0
}.

Lemma started_fresh c i f (d : DB) s : started c i f d s -> fresh i s.
Proof.
  intros ([Hr Hf] & Hi & Hrun). pose proof (setup_base c i f d s (conj Hr Hf) Hi Hrun) as Hb.
  destruct (built_view c i f d) as (E1 & E2 & E3 & E4 & E5).
  revert Hrun E1 E2 E3 E4 E5. generalize (ServerImpl c i f d). intros s1 Hrun E1 E2 E3 E4 E5.
  unfold run_setup in Hrun. destruct (peers_ok s1) as [P1 P2]. revert Hrun. case_match; [|done].
  intros Hs. rewrite E1 in P2. revert Hb. injection Hs as <-. intros Hb. split; try done. cbn. by rewrite E4.
Qed.
End Start.

Section Agreement.
Context {DB : Type} `{KVStore DB} {J : Indeterminate}.
Context (L : Z) (payload : Z -> Transaction).
Implicit Types (s l f : Server DB) (n : Net DB).

(** All servers have just started, the leader among them, with the same
    opening balances, and the payments are between clients of their cluster. *)
Definition cluster_started (n : Net DB) : Prop :=
  wire n = [] /\ is_Some (servers n !! L) /\
  exists opening : Z -> Z, forall i s, servers n !! i = Some s ->
    fresh i s /\ intra payload s /\ forall x, mine s x -> in_int (opening x) /\ balance_of s x = opening x.

(** Servers that went through [ServerImpl::run] make such a cluster. *)
Lemma started_cluster n :
  wire n = [] -> is_Some (servers n !! L) ->
  (forall i s, servers n !! i = Some s -> (exists c fl (d : DB), started c i fl d s) /\ intra payload s) ->
  cluster_started n.
Proof.
  intros Hw HL Hall. split; [done|]. split; [done|]. exists (fun _ => 10). intros i s Hs.
  destruct (Hall i s Hs) as [(c & fl & d & Hst) Hin]. split; [by eapply started_fresh|]. split; [done|].
  intros x Hx. split; [unfold in_int; lia|]. destruct Hst as (_ & _ & Hrun). by destruct (setup_accounts _ _ x Hrun Hx) as (_ & ? & _).
Qed.

Lemma cluster_start_inv n :
  cluster_started n -> exists l, net_inv L payload (mk_history (fun _ => 0%nat) (fun _ => None)) l n /\ ballot_num l = 0.
Proof.
  intros (Hw & [l Hl] & opening & Hall). exists l.
  destruct (Hall L l Hl) as ([_ G1 G2 G3 G4 G5 G6] & _ & _). pose proof G6 as G6'.
  injection G6 as C1 C2 C3 C4 C5 C6 C7 C8 C9 C10 C11 C12 C13.
  split; [|done]. split; [done| | | | |by rewrite C11].
  - split; rewrite ?G2, ?G3, ?C4, ?C10, ?C11; try done. by rewrite G6'.
  - intros i s Hi Hs. destruct (Hall i s Hs) as ([_ E1 E2 E3 E4 E5 Hc] & Hin & _). clear -Hin E1 E2 E3 E4 E5 Hc C4. rename C4 into Hl0.
    injection Hc as C1 C2 C3 C4 C5 C6 C7 C8 C9 C10 C11 C12 C13. split.
    + split; rewrite ?E2, ?E3, ?C4, ?C6, ?C8, ?C10, ?C11; try done; [apply prefix_nil|rewrite Hl0; cbn; lia].
    + unfold in_round. by rewrite C6.
  - rewrite Hw. intros p Hp. by apply elem_of_nil in Hp.
  - rewrite Hw. intros i b. unfold commits. cbn. lia.
Qed.

(** ** Every server of a run is one its event loop can reach *)

Lemma msg_wf h l i m :
  leader_inv L payload h l -> ballot_num l < 2 ^ 31 -> in_int L -> msg_ok L h l i m -> event_wf (peer_event m).
Proof.
  intros Hl Hmax HL. destruct m as [r|r|r|r]; cbn [msg_ok peer_event event_wf]; [| |done|done].
  - intros (_ & b & Hb & ->). cbn. split; [unfold in_int; cbn; lia|done].
  - intros (_ & b & v & -> & Hv). destruct (li_val _ _ _ _ Hl b v Hv) as (Hb & _ & Hwf & Hne). cbn [aq_r aq_ballot].
    split_and!; [done|done|]. split; [unfold in_int; cbn; lia|done].
Qed.

Lemma reply_event n l s c :
  call_ok L n l c -> ballot_num l < 2 ^ 31 -> sync_ended c ->
  exists e, event_wf e /\ (HandleRPCResponse s c).1 = (server_exec s e).1.
Proof.
  intros [Hc _] Hmax Hs. unfold HandleRPCResponse. destruct (oc_type c) eqn:Et; try (by exists ev_logs).
  - exists (ev_prepare_reply (oc_status c) (oc_prepareReq c) (oc_prepareReply c)). split; [|done].
    cbn. destruct (pr_latest_ballot_num (oc_prepareReply c)) as [m|] eqn:E; [|done].
    specialize (Hc m eq_refl). unfold in_int. lia.
  - by exists (ev_accept_reply (oc_status c) (oc_acceptReq c) (oc_acceptReply c)).
  - exists (ev_sync_reply (oc_status c) default_sync_res). split; [by repeat constructor|].
    cbn [server_exec fst]. unfold handleSyncReply. by rewrite Hs.
Qed.

(** One move of the network is one event of one server. *)
Definition one_event (n n' : Net DB) : Prop :=
  forall i s', servers n' !! i = Some s' ->
    exists s, servers n !! i = Some s /\ (s' = s \/ exists e, event_wf e /\ s' = (server_exec s e).1).

Lemma moved_event n i s s' outs w n' e :
  servers n !! i = Some s -> event_wf e -> s' = (server_exec s e).1 ->
  moved n i s' outs w = Some n' -> one_event n n'.
Proof.
  unfold moved. intros Hi He Hs. destruct (packets i outs); [|done]. intros [= <-] j t. cbn [servers].
  destruct (decide (i = j)) as [<-|Hne].
  - rewrite lookup_insert_eq. intros [= <-]. exists s. eauto.
  - rewrite lookup_insert_ne by done. intros Ht. exists t. auto.
Qed.

Lemma call_ends_event n l i c w n' :
  call_ok L n l c -> ballot_num l < 2 ^ 31 -> sync_ended c -> call_ends n i c w = Some n' -> one_event n n'.
Proof.
  intros Hc Hmax Hs. unfold call_ends. destruct (servers n !! i) as [s|] eqn:Ei; [|done]. cbn [mbind option_bind].
  destruct (reply_event n l s c Hc Hmax Hs) as (e & He & Heq). by eapply moved_event.
Qed.

Lemma exec_one_event h l n a n' :
  net_inv L payload h l n -> ballot_num l < 2 ^ 31 -> in_int L -> allowed L payload n a ->
  net_exec n a = Some n' -> one_event n n'.
Proof.
  intros Hn Hmax HL Ha. destruct a as [i e|k|k|k]; cbn [net_exec allowed] in *.
  - destruct (is_external e); [|done]. destruct (servers n !! i) as [s|] eqn:Ei; [|done]. cbn [mbind option_bind].
    by eapply moved_event; [|apply Ha|].
  - destruct (wire n !! k) as [[src i m c|i c]|] eqn:Ek; [| |done]; cbn [mbind option_bind];
      pose proof (ni_packet _ _ _ _ _ Hn _ (list_elem_of_lookup_2 _ _ _ Ek)) as Hp.
    + destruct (servers n !! i) as [s|] eqn:Ei; [|done]. cbn [mbind option_bind].
      eapply moved_event; [exact Ei| |done]. eapply msg_wf; [apply (ni_leader_ok _ _ _ _ _ Hn)|done|done|apply Hp].
    + eapply call_ends_event; [exact Hp|done|]. intros Hs. exfalso. exact (Ha Hs).
  - destruct (wire n !! k) as [[src i m [c|]|i c]|] eqn:Ek; [|done| |done]; cbn [mbind option_bind];
      pose proof (ni_packet _ _ _ _ _ Hn _ (list_elem_of_lookup_2 _ _ _ Ek)) as Hp;
      (eapply call_ends_event; [apply Hp|done|done]).
  - destruct (wire n !! k); [|done]. intros [= <-] i s Hs. exists s. auto.
Qed.

Lemma reachable_step s0 s e : reachable s0 s -> event_wf e -> reachable s0 (server_exec s e).1.
Proof.
  intros (es & Hes & ->) He. exists (es ++ [e]). split; [by apply Forall_app_2; [|constructor]|].
  unfold server_run. by rewrite foldl_app.
Qed.

(** All servers of [n] are in states their event loops reach from [n0]. *)
Definition all_reachable (n0 n : Net DB) : Prop :=
  forall i s, servers n !! i = Some s -> exists s0, servers n0 !! i = Some s0 /\ reachable s0 s.

Lemma all_reachable_refl n : all_reachable n n.
Proof. intros i s Hs. exists s. split; [done|]. by exists []. Qed.

Lemma run_agrees acts h l n0 n n' :
  net_inv L payload h l n -> all_reachable n0 n -> in_int L ->
  ballot_num l + Z.of_nat (length acts) < 2 ^ 31 ->
  allowed_run L payload n acts -> net_run n acts = Some n' ->
  (exists h' l', net_inv L payload h' l' n' /\ ballot_num l' <= ballot_num l + Z.of_nat (length acts)) /\
  all_reachable n0 n'.
Proof.
  revert h l n. induction acts as [|a acts IH]; cbn [length net_run allowed_run]; intros h l n Hn Hre HL Hmax Ha.
  { intros [= <-]. split; [|done]. exists h, l. split; [done|lia]. }
  destruct Ha as [Ha Hrest]. destruct (net_exec n a) as [n1|] eqn:E; [|done]. cbn [mbind option_bind]. intros Hr.
  destruct (inv_step L payload h l n a n1 Hn ltac:(lia) Ha E) as (h1 & l1 & Hn1 & Hle).
  destruct (IH h1 l1 n1) as [(h' & l' & Hn' & Hle') Hre']; try done; [|lia|].
  - intros i s Hs. destruct (exec_one_event h l n a n1 Hn ltac:(lia) HL Ha E i s Hs) as (s1 & Hs1 & [->|(e & He & ->)]);
      destruct (Hre i s1 Hs1) as (s0 & Hs0 & Hr0); exists s0; eauto using reachable_step.
  - split; [|done]. exists h', l'. split; [done|lia].
Qed.

(** ** The theorems *)

(** The setting: a cluster that has just started, a run in it. *)
Definition one_leader_run (n0 : Net DB) (acts : list action) (n : Net DB) : Prop :=
  cluster_started n0 /\ in_int L /\ allowed_run L payload n0 acts /\
  Z.of_nat (length acts) < 2 ^ 31 - 1 /\ net_run n0 acts = Some n.

Lemma one_leader_inv n0 acts n :
  one_leader_run n0 acts n ->
  (exists h l, net_inv L payload h l n /\ ballot_num l < 2 ^ 31 - 1) /\ all_reachable n0 n.
Proof.
  intros (Hst & HL & Ha & Hlen & Hr). destruct (cluster_start_inv n0 Hst) as (l0 & Hn0 & E0).
  destruct (run_agrees acts _ l0 n0 n0 n Hn0 (all_reachable_refl n0) HL ltac:(lia) Ha Hr) as [(h & l & Hn & Hle) Hre].
  split; [|done]. exists h, l. split; [done|lia].
Qed.

(** C4. Replicas follow one leader. In a cluster of freshly started servers, when one server leads,
    payments are between clients of the cluster and no synchronisation reply
    is delivered, every server's log is a prefix of the leader's, whatever
    messages are lost, late, reordered or expired and whoever is
    disconnected; a server that has the whole log has the leader's balances. *)
Theorem one_leader_prefix n0 acts n :
  one_leader_run n0 acts n ->
  exists l, servers n !! L = Some l /\
    forall i f, servers n !! i = Some f ->
      log f `prefix_of` log l /\
      forall x, length (log f) = length (log l) -> mine f x -> mine l x -> balance_of f x = balance_of l x.
Proof.
  intros Hrun. pose proof Hrun as ((_ & _ & opening & Hall) & _).
  destruct (one_leader_inv _ _ _ Hrun) as [(h & l & Hn & _) Hre].
  exists l. split; [apply Hn|]. intros i f Hf.
  assert (log f `prefix_of` log l) as Hpre.
  { destruct (decide (i = L)) as [->|Hne]; [by rewrite (ni_leader _ _ _ _ _ Hn) in Hf; injection Hf as ->|].
    apply (ni_follower _ _ _ _ _ Hn i f Hne Hf). }
  split; [done|]. intros x Hlen Hx Hx'.
  assert (log f = log l) as El by (destruct Hpre as [k Hk]; rewrite Hk, length_app in Hlen;
    destruct k; [by rewrite app_nil_r in Hk|cbn in Hlen; lia]).
  assert (forall j s, servers n !! j = Some s -> mine s x -> balance_of s x = wrap32 (opening x + log_delta x (log s))) as Hbal.
  { intros j s Hs Hm. destruct (Hre j s Hs) as (s0 & Hs0 & Hr). destruct (Hall j s0 Hs0) as (Hfr & _ & Hop).
    pose proof (ledger_reachable _ _ (fr_base _ _ Hfr) Hr) as (_ & Hcl & Hacct).
    assert (mine s0 x) as Hm0 by (destruct Hm as [Hx1 Hx2]; split; [done|by rewrite <- Hcl]).
    destruct (Hop x Hm0) as [Hint Hopen]. destruct (Hacct x Hm0) as (es & Hes & Hb & _).
    rewrite Hes, (fr_log _ _ Hfr), Hb, Hopen by (by rewrite Hopen). done. }
  rewrite (Hbal i f Hf Hx), (Hbal L l (ni_leader _ _ _ _ _ Hn) Hx'). by rewrite El.
Qed.

(** C5. A committed payment is held by a majority. Under the same conditions, when the leader acknowledges a payment, it
    appends exactly that payment's entry to its log, and another server of
    the cluster has accepted the same request under the same ballot. *)
Theorem commit_is_held n0 acts n l r res l' res' outs :
  one_leader_run n0 acts n -> servers n !! L = Some l -> r = req_of payload (tr_tid r) ->
  runPaxos l r res false = (l', res', outs, true) -> ts_ack res' = true ->
  log l' = log l ++ [mk_entry (tr_tid r) (ballot_num l) L (tr_txn r) INTRA COMMITTED] /\
  exists i f, i <> L /\ servers n !! i = Some f /\
    accept_num f = mk_ballot (ballot_num l) L /\ accept_val f = r.
Proof.
  intros Hrun Hl Hr Hp Hack. destruct (one_leader_inv _ _ _ Hrun) as [(h & l1 & Hn & Hmax) _].
  assert (l1 = l) as -> by (pose proof (ni_leader _ _ _ _ _ Hn); congruence).
  pose proof (ni_leader_ok _ _ _ _ _ Hn) as Hli. pose proof (li_ctrl _ _ _ _ Hli) as (_ & K2 & _). cbn in K2.
  destruct (runPaxos_case _ _ _ _ _ _ _ _ Hp) as (v & Hcase & Hv).
  destruct Hcase as [| | | | |Hs Hidle Ep Ea Hm|];
    try done; try (destruct Hv as [_ ->]; done).
  destruct (li_accept _ _ _ _ Hli Ea) as (Han & Hbase & Hval & Hav & _).
  assert (r = req_of payload (paxos_tid l)) as Hr' by (rewrite Hr, Hidle by (apply K2; by rewrite Ea, orb_true_r); done).
  destruct (decide_commit_view l r (li_wal _ _ _ _ Hli)) as (E & _).
  apply (f_equal (fun x => x.1.1.1.2)) in E. cbn [fst snd] in E.
  rewrite E, Han. split; [done|]. destruct (ni_votes _ _ _ _ _ Hn Ea) as [H1|(i & f & Hi & Hf & Hb)].
  - unfold MAJORITY in Hm. lia.
  - exists i, f. split_and!; [done|done| |]; destruct (ni_follower _ _ _ _ _ Hn i f Hi Hf) as [[F1 F2 F3 F4 F5 F6 F7 F8 F9] _];
      assert (b_num (accept_num f) = ballot_num l) as Eb by lia;
      destruct F6 as [G1 G2]; [pose proof (val_range _ _ _ _ Hli _ _ Hval); lia| |pose proof (val_range _ _ _ _ Hli _ _ Hval); lia|];
      rewrite Eb in *; [done|congruence].
Qed.
End Agreement.

(** ** Runs that satisfy the conditions *)

Section Check.
Context {DB : Type} `{KVStore DB} {J : Indeterminate}.
Context (L : Z) (payload : Z -> Transaction).

(** The conditions on a run, as a program. *)
Definition allowedb (n : Net DB) (a : action) : bool :=
  match a with
  | Ask i (ev_transfer r _) =>
    bool_decide (i = L) && bool_decide (r = req_of payload (tr_tid r)) && bool_decide (wf_txn (tr_txn r)) &&
    bool_decide (in_long (tr_tid r)) && bool_decide (tr_tid r <> -1)
  | Ask _ (ev_balance r) => bool_decide (in_int (bq_client r))
  | Ask _ ev_logs | Ask _ (ev_disconnect _) => true
  | Ask _ _ => false
  | Deliver k => match wire n !! k with Some (Rep _ c) => bool_decide (oc_type c <> SYNC) | _ => true end
  | Expire _ | Lose _ => true
  end.

Fixpoint allowed_runb (n : Net DB) (acts : list action) : bool :=
  match acts with
  | [] => true
  | a :: acts' => allowedb n a && match net_exec n a with Some n' => allowed_runb n' acts' | None => true end
  end.

Lemma allowedb_sound n a : allowedb n a = true -> allowed L payload n a.
Proof.
  destruct a as [i e|k|k|k]; cbn [allowedb allowed]; [|destruct (wire n !! k) as [[]|]| |]; try done.
  - destruct e; try done; rewrite ?andb_true_iff, ?bool_decide_eq_true; cbn; [|done].
    intros [[[[? ?] ?] ?] ?]. by split_and!.
  - by rewrite bool_decide_eq_true.
Qed.

Lemma allowed_runb_sound n acts : allowed_runb n acts = true -> allowed_run L payload n acts.
Proof.
  revert n. induction acts as [|a acts IH]; cbn; intros n; [done|]. rewrite andb_true_iff. intros [Ha Hr].
  split; [by apply allowedb_sound|]. destruct (net_exec n a); auto.
Qed.
End Check.

(** Servers 1 to 3 of the default deployment ([cluster_one]) are such a
    cluster. *)
Definition same_payment (tid : Z) : Transaction := mk_txn 1 2 3.

Lemma open_fresh (i : Z) (clients : list Z) (s : Server map_store) :
  base_ok s -> server_id s = i -> last_inserted s = -1 -> log s = [] -> f_can_write (walFile (wal s)) = true ->
  ctrl s = mk_ctrl false false (-1) 0 false default_ballot false default_ballot default_transfer_req false false 0 0 ->
  fresh i (open_accounts clients s).
Proof.
  intros Hb H1 H2 H3 H4 H5. destruct (peers_ok s) as [P1 P2]. rewrite H1 in P2.
  split; [by apply open_base_ok|exact H1|exact H2|exact H3|exact H4|by split|exact H5].
Qed.

Lemma boot_fresh (i : Z) (clients : list Z) : in_int i -> fresh i (boot i clients).
Proof.
  intros Hi. destruct (built_view default_config i (mk_file [] true true) (∅ : map_store)) as (E1 & E2 & E3 & E4 & E5).
  assert (base_ok (ServerImpl default_config i (mk_file [] true true) (∅ : map_store))) as Hb
    by (apply built_base; [split; reflexivity|exact Hi]).
  unfold boot. revert Hb E1 E2 E3 E4 E5.
  generalize (ServerImpl default_config i (mk_file [] true true) (∅ : map_store)). intros s Hb E1 E2 E3 E4 E5.
  apply open_fresh; try assumption. by rewrite E4.
Qed.

Lemma cluster_one_started : cluster_started 1 same_payment cluster_one.
Proof.
  split; [done|]. split.
  { exists (boot 1 [1; 2]). apply elem_of_list_to_map_1; [cbn; apply (bool_decide_unpack _); vm_compute; exact I|left]. }
  exists (fun x => if decide (x = 1 \/ x = 2) then 10 else 0). intros i s Hs.
  apply elem_of_list_to_map_2, list_elem_of_fmap in Hs as (j & [= -> ->] & Hj).
  assert (in_int j) as Hij by (rewrite !elem_of_cons, elem_of_nil in Hj; unfold in_int; lia).
  split; [by apply boot_fresh|]. split.
  - intros tid. rewrite !elem_of_cons, elem_of_nil in Hj.
    destruct Hj as [->|[->|[->|[]]]]; split; vm_compute; reflexivity.
  - intros x _. split; [by case_decide|]. unfold balance_of.
    change (balances (boot j [1; 2])) with (<[2 := 10]> (<[1 := 10]> (∅ : gmap Z Z))).
    destruct (decide (x = 2)) as [->|H2]; [by rewrite lookup_insert_eq, decide_True by (by right)|].
    rewrite lookup_insert_ne by done.
    destruct (decide (x = 1)) as [->|H1]; [by rewrite lookup_insert_eq, decide_True by (by left)|].
    rewrite lookup_insert_ne, lookup_empty, decide_False; [done|lia|done].
Qed.

(** One payment, server 3 missing both phases; then its commit at server 2. *)
Definition pay_seven : TransferReq := req_of same_payment 7.
Definition until_votes : list action :=
  [ask 1 pay_seven; Deliver 0; Lose 0; Deliver 0; ask 1 pay_seven; Deliver 0; Lose 0; Deliver 0].
Definition until_commit : list action := until_votes ++ [ask 1 pay_seven; Deliver 0; Lose 0].

Definition after (acts : list action) : Net map_store :=
  default cluster_one (net_run (J := zero_junk) cluster_one acts).

Definition run_ok (acts : list action) : bool :=
  allowed_runb (J := zero_junk) 1 same_payment cluster_one acts &&
  match net_run (J := zero_junk) cluster_one acts with Some _ => true | None => false end.

Lemma run_ok_run (acts : list action) :
  run_ok acts = true -> (length acts < 100)%nat ->
  one_leader_run (J := zero_junk) 1 same_payment cluster_one acts (after acts).
Proof.
  unfold run_ok. rewrite andb_true_iff. intros [Ha Hr] Hlen. split; [apply cluster_one_started|].
  split; [unfold in_int; lia|]. split; [by apply allowed_runb_sound|]. split; [lia|].
  unfold after. by destruct (net_run _ acts).
Qed.

(** The server [i] of a network, for the examples. *)
Definition server_at (n : Net map_store) (i : Z) : Server map_store :=
  default (boot i [1; 2]) (servers n !! i).

Lemma one_leader_prefix_witness :
  let n := after until_commit in
  exists l, servers n !! 1 = Some l /\ log (server_at n 2) `prefix_of` log l /\
    map we_tid (log (server_at n 2)) = [7] /\ balance_of (server_at n 2) 1 = balance_of l 1.
Proof.
  cbv zeta. destruct (one_leader_prefix (J := zero_junk) 1 same_payment cluster_one until_commit (after until_commit))
    as (l & Hl & Hall).
  { apply run_ok_run; [vm_compute; reflexivity|cbn; lia]. }
  exists l. split; [exact Hl|].
  assert (servers (after until_commit) !! 2 = Some (server_at (after until_commit) 2)) as H2.
  { unfold server_at. assert (match servers (after until_commit) !! 2 with Some _ => true | None => false end = true)
      as Hsome by (vm_compute; reflexivity). revert Hsome.
    generalize (servers (after until_commit) !! 2). intros [s|] Hsome; [reflexivity|discriminate Hsome]. }
  assert (l = server_at (after until_commit) 1) as El.
  { unfold server_at. rewrite Hl. reflexivity. }
  destruct (Hall 2 _ H2) as [Hp Hb]. split; [exact Hp|]. split; [vm_compute; reflexivity|].
  apply Hb; rewrite ?El.
  - vm_compute. reflexivity.
  - split; [unfold total_clients; lia|vm_compute; reflexivity].
  - split; [unfold total_clients; lia|vm_compute; reflexivity].
Defined.

Lemma commit_is_held_witness :
  let n := after until_votes in
  exists i f, i <> 1 /\ servers n !! i = Some f /\ accept_num f = mk_ballot 1 1 /\ accept_val f = pay_seven.
Proof.
  cbv zeta. set (n := after until_votes).
  set (x := runPaxos (server_at n 1) pay_seven default_transfer_res false).
  destruct (commit_is_held (J := zero_junk) 1 same_payment cluster_one until_votes n (server_at n 1) pay_seven
              default_transfer_res x.1.1.1 x.1.1.2 x.1.2) as [_ (i & f & Hi & Hf & Ha & Hv)].
  - apply run_ok_run; [vm_compute; reflexivity|cbn; lia].
  - unfold server_at. assert (match servers n !! 1 with Some _ => true | None => false end = true)
      as Hsome by (vm_compute; reflexivity). revert Hsome.
    generalize (servers n !! 1). intros [s|] Hsome; [reflexivity|discriminate Hsome].
  - reflexivity.
  - assert (x.2 = true) as <- by (vm_compute; reflexivity). unfold x.
    generalize (runPaxos (server_at n 1) pay_seven default_transfer_res false). intros [[[? ?] ?] ?]. reflexivity.
  - vm_compute. reflexivity.
  - exists i, f. split; [exact Hi|]. split; [exact Hf|]. split; [|exact Hv]. rewrite Ha. 
    assert (ballot_num (server_at n 1) = 1) as -> by (vm_compute; reflexivity). reflexivity.
Defined.
