(* ===== verification/Round.v ===== *)
(** * One round of Paxos, seen from both ends

    The leader [L] of a cluster with the other servers [j] and [g]: what each
    phase of [runPaxos] reads and leaves of it, what the messages of the
    round do to the follower [j], and the round as three exchanges after
    which a local payment is committed, or one between clusters prepared, on
    both.  The third server [g] takes no part. *)
From stdpp Require Import gmap list strings.
From Stdlib Require Import ZArith Lia Ascii.
From S2P Require Import Prelude Chars Types Config Wal OutCall Server Store Steps Protocol Acceptor Ledger Calls Network Replication.

(** The two other servers, in the order of the stubs. *)
Definition others (j g : Z) : list Z := if j <? g then [j; g] else [g; j].

Section Round.
Context {DB : Type} `{KVStore DB} {J : Indeterminate}.
Context (L j g : Z).
Implicit Types (s l f : Server DB) (n : Net DB).

(** ** The leader, phase by phase *)

(** What a phase reads and leaves of the leader: the phase, the ballots, the
    counters, the log and the fixed part. *)
Definition lead_view s :=
  (in_sync s, is_paxos_running s, await_prepare_decision s, await_accept_decision s,
   (ballot_num s, last_inserted s, log s, locks s, stubs s, server_id s, f_can_write (walFile (wal s)))).

(** Between transactions, at ballot [b] with log [k] and locks [K]. *)
Definition at_rest (b li : Z) (k : list WALEntry) (K : gset Z) s : Prop :=
  lead_view s = (false, false, false, false, (b, li, k, K, others j g, L, true)).

(** Accounts, membership and connection as before, [w] for write-ahead log. *)
Definition same_accounts (w : WAL) s s' : Prop :=
  (forall x, client_in_cluster s' x = client_in_cluster s x) /\ (forall x, balance_of s' x = balance_of s x) /\
  (wal s', i_am_disconnected s') = (w, i_am_disconnected s).

Lemma same_trans w1 w2 s1 s2 s3 : same_accounts w1 s1 s2 -> same_accounts w2 s2 s3 -> same_accounts w2 s1 s3.
Proof.
  intros (H1 & H2 & H3) (H4 & H5 & H6). split_and!; [intros x; by rewrite H4|intros x; by rewrite H5|].
  injection H3 as _ E. by rewrite H6, E.
Qed.

Lemma same_wal w s s' : same_accounts w s s' -> wal s' = w.
Proof. intros (_ & _ & H3). by injection H3. Qed.

Lemma my_accounts_same w t s s' : same_accounts w s s' -> my_accounts s' t = my_accounts s t.
Proof. intros [Hc _]. unfold my_accounts. by rewrite !Hc. Qed.

Definition preparing (b li : Z) (k : list WALEntry) (K : gset Z) (r : TransferReq) (votes : Z) s : Prop :=
  lead_view s = (false, true, true, false, (b, li, k, K, others j g, L, true)) /\
  paxos_tid s = tr_tid r /\ promised_num s = mk_ballot b L /\ prepare_successes s = votes.

Definition accepting_phase (b li : Z) (k : list WALEntry) (K : gset Z) (r : TransferReq) (votes : Z) s : Prop :=
  lead_view s = (false, true, false, true, (b, li, k, K, others j g, L, true)) /\
  paxos_tid s = tr_tid r /\ accept_num s = mk_ballot b L /\ accept_successes s = votes.

(** Two RPCs with the same message to the two other servers. *)
Definition to_both (m : peer_msg) (type : RequestTypes) (outs : list Out) : Prop :=
  exists c, outs = map (fun i => Rpc i m c) (others j g) /\ oc_type c = type.

Lemma begin_round b li k K r res cross l :
  at_rest b li k K l -> b + 1 < 2 ^ 31 -> 0 <= b ->
  exists l' res' outs, runPaxos l r res cross = (l', res', outs, false) /\
    preparing (b + 1) li k K r 1 l' /\ same_accounts (wal l) l l' /\
    to_both (MPrepare (mk_prepare_req (mk_ballot (b + 1) L) li)) PREPARE outs.
Proof.
  intros Hv Hb Hb0. injection Hv as H1 H2 H3 H4 H5 H6 H7 H8 H9 H10 H11.
  unfold runPaxos. rewrite H1, H2, H3, H4. cbn [andb negb].
  assert (wrap32 (b + 1) = b + 1) as Ew by (apply wrap32_id; unfold in_int; lia).
  do 3 eexists. split; [reflexivity|]. split; [|split].
  - unfold preparing, lead_view, start_prepare. cbn. rewrite H1, H4, H5, H6, H7, H8, H9, H10, H11, Ew. done.
  - done.
  - unfold to_both, start_prepare, broadcast. cbn. rewrite H5, H6, H9, H10, Ew. eexists. by split.
Qed.

Lemma hear_promise b li k K r v l q p :
  preparing b li k K r v l -> 0 <= v < 2 ^ 31 - 1 ->
  p = mk_prepare_res true (mk_ballot b L) (pr_accept_num p) (pr_accept_val p) None None None ->
  exists l', handlePrepareReply l StatusOK q p = (l', []) /\ preparing b li k K r (v + 1) l' /\ same_accounts (wal l) l l'.
Proof.
  intros (Hv & Ht & Hp & Hs) Hr ->. injection Hv as H1 H2 H3 H4 H5 H6 H7 H8 H9 H10 H11.
  unfold handlePrepareReply. cbn [pr_ack pr_ballot pr_latest_ballot_num pr_last_inserted b_num b_server_id].
  rewrite H3, Hp, H10, !Z.eqb_refl. cbn [negb status_is_deadline status_ok andb].
  assert (wrap32 (v + 1) = v + 1) as Ew by (apply wrap32_id; unfold in_int; lia).
  eexists. split; [reflexivity|]. split; [|done].
  unfold preparing, lead_view. cbn. rewrite H1, H2, H3, H4, H5, H6, H7, H8, H9, H10, H11, Hs, Ew. done.
Qed.

(** The leader's conditions: its own accounts are free and the sender, if it
    is one of them, can pay. *)
Definition can_pay (K : gset Z) (t : Transaction) s : Prop :=
  (client_in_cluster s (sender t) = true -> sender t ∉ K /\ amount t <= balance_of s (sender t)) /\
  (client_in_cluster s (receiver t) = true -> receiver t ∉ K).

Lemma conditions_met b li k K r l res cross :
  preparing b li k K r 2 l -> can_pay K (tr_txn r) l ->
  exists l2 res', runPaxos l r res cross = ((start_accept l2 r cross).1, res', (start_accept l2 r cross).2, false) /\
    lead_view l2 = (false, true, false, false, (b, li, k, K, others j g, L, true)) /\ paxos_tid l2 = tr_tid r /\
    promised_num l2 = mk_ballot b L /\ same_accounts (wal l) l l2.
Proof.
  intros (Hv & Ht & Hp & Hs) [Hcs Hcr]. injection Hv as H1 H2 H3 H4 H5 H6 H7 H8 H9 H10 H11.
  unfold runPaxos. rewrite H1, H2, H3, H4, Ht, Z.eqb_refl, Hs. cbn [andb negb].
  change (MAJORITY <=? 2) with true. cbv iota zeta.
  set (l1 := l <| await_prepare_decision := false |>).
  set (l2 := if client_in_cluster l (sender (tr_txn r)) then touch_balance (sender (tr_txn r)) l1 else l1).
  assert (conditions_fail l1 (tr_txn r) = (l2, false)) as ->.
  { unfold conditions_fail, l2. change (client_in_cluster l1 ?x) with (client_in_cluster l x). change (locks l1) with (locks l).
    rewrite H8. destruct (client_in_cluster l (receiver (tr_txn r))); [rewrite (bool_decide_eq_false_2 (receiver (tr_txn r) ∈ K)) by auto|];
      (destruct (client_in_cluster l (sender (tr_txn r))); cbn [andb orb]; [|done];
       destruct (Hcs eq_refl) as [Hn Ha]; rewrite (bool_decide_eq_false_2 (sender (tr_txn r) ∈ K)) by done; cbn [orb];
       f_equal; rewrite balance_of_touch; apply Z.ltb_ge; exact Ha). }
  exists l2. eexists. split; [reflexivity|].
  assert (lead_view l1 = (false, true, false, false, (b, li, k, K, others j g, L, true))) as V1.
  { unfold lead_view. cbn. rewrite H1, H2, H4, H5, H6, H7, H8, H9, H10, H11. done. }
  unfold l2. destruct (client_in_cluster l (sender (tr_txn r))); (split; [exact V1|]); (split; [done|]); (split; [done|]); [|done].
  split_and!; [done|intros x; apply (balance_of_touch (sender (tr_txn r)) x l1)|done].
Qed.

(** The sender cannot pay: the leader answers no and is between transactions
    again. *)
Lemma refuse b li k K r l res cross :
  preparing b li k K r 2 l -> client_in_cluster l (sender (tr_txn r)) = true ->
  balance_of l (sender (tr_txn r)) < amount (tr_txn r) ->
  exists l', runPaxos l r res cross = (l', mk_transfer_res false (tr_tid r), [], true) /\
    at_rest b li k K l' /\ same_accounts (wal l) l l'.
Proof.
  intros (Hv & Ht & Hp & Hs) Hc Ha. injection Hv as H1 H2 H3 H4 H5 H6 H7 H8 H9 H10 H11.
  unfold runPaxos. rewrite H1, H2, H3, H4, Ht, Z.eqb_refl, Hs. cbn [andb negb].
  change (MAJORITY <=? 2) with true. cbv iota zeta. set (l1 := l <| await_prepare_decision := false |>).
  assert (exists l2, conditions_fail l1 (tr_txn r) = (l2, true) /\ (l2 = l1 \/ l2 = touch_balance (sender (tr_txn r)) l1)) as (l2 & -> & Hl2).
  { unfold conditions_fail. change (client_in_cluster l1 ?x) with (client_in_cluster l x). rewrite Hc.
    destruct (_ || _); [by eauto|]. eexists. split; [|by right]. f_equal. rewrite balance_of_touch. by apply Z.ltb_lt. }
  cbn [fst snd]. eexists. split; [reflexivity|].
  destruct Hl2 as [-> | ->]; (split; [unfold at_rest, lead_view; cbn; by rewrite H1, H4, H5, H6, H7, H8, H9, H10, H11|]); [done|].
  split_and!; [done|intros x; apply (balance_of_touch (sender (tr_txn r)) x l1)|done].
Qed.

Definition proposed_log (cross : bool) (b : Z) (k : list WALEntry) (r : TransferReq) : list WALEntry :=
  if cross then k ++ [prepared_entry (tr_tid r) b L (tr_txn r)] else k.
Definition proposed_last (cross : bool) (li : Z) (k : list WALEntry) : Z := if cross then last_index k else li.
Definition proposed_wal (cross : bool) (b : Z) (r : TransferReq) (w : WAL) : WAL :=
  if cross then (prepareTransaction w r (mk_ballot b L)).1 else w.

Lemma prepare_can_write w r b : f_can_write (walFile (prepareTransaction w r b).1) = f_can_write (walFile w).
Proof. unfold prepareTransaction. cbn. destruct (f_can_write (walFile w)) eqn:E; cbn; by rewrite ?E. Qed.

Lemma prepare_entry w r b :
  (prepareTransaction w r b).2 = prepared_entry (tr_tid r) (b_num b) (b_server_id b) (tr_txn r).
Proof. unfold prepareTransaction. cbn [fst snd]. by rewrite txn_eta. Qed.

Lemma propose b li k K r l res cross :
  preparing b li k K r 2 l -> can_pay K (tr_txn r) l ->
  let k' := proposed_log cross b k r in let li' := proposed_last cross li k' in
  exists l' res' outs, runPaxos l r res cross = (l', res', outs, false) /\
    accepting_phase b li' k' ({[receiver (tr_txn r)]} ∪ (my_accounts l (tr_txn r) ∪ K)) r 1 l' /\
    same_accounts (proposed_wal cross b r (wal l)) l l' /\ to_both (MAccept (mk_accept_req (mk_ballot b L) r)) ACCEPT outs.
Proof.
  intros Hl Hc. destruct (conditions_met b li k K r l res cross Hl Hc) as (l2 & res' & Hrun & V & T & P & Hsame).
  injection V as V1 V2 V3 V4 V5 V6 V7 V8 V9 V10 V11. do 3 eexists. split; [exact Hrun|]. clear Hrun.
  pose proof Hsame as (Hcl & Hb & _). pose proof (same_wal _ _ _ Hsame) as Hw. unfold start_accept. cbv zeta. cbn [fst snd].
  assert (forall (c : bool) x y, client_in_cluster (if c then lock x l2 else l2) y = client_in_cluster l2 y) as -> by (by intros []).
  set (l3 := lock (receiver (tr_txn r)) (if client_in_cluster l2 (receiver (tr_txn r)) then _ else _)).
  assert (locks l3 = {[receiver (tr_txn r)]} ∪ (my_accounts l (tr_txn r) ∪ K)) as El.
  { unfold l3, my_accounts. rewrite <- !Hcl. repeat case_match; cbn; rewrite V8; set_solver. }
  assert (lead_view l3 = (false, true, false, false, (b, li, k, locks l3, others j g, L, true)) /\
    paxos_tid l3 = tr_tid r /\ promised_num l3 = mk_ballot b L /\ same_accounts (wal l) l l3) as (W & T3 & P3 & S3).
  { unfold l3, lead_view. split_and!; try done; repeat case_match; cbn; rewrite ?V1, ?V2, ?V3, ?V4, ?V5, ?V6, ?V7, ?V9, ?V10, ?V11; done. }
  clearbody l3. rewrite El in W. injection W as W1 W2 W3 W4 W5 W6 W7 W8 W9 W10 W11. cbv zeta. cbn [fst snd].
  destruct cross; cbn [proposed_log proposed_last proposed_wal].
  - split; [|split].
    + unfold accepting_phase, lead_view, server_prepareTransaction. cbn -[prepareTransaction].
      rewrite prepare_can_write, prepare_entry, W1, W2, W3, W5, W7, W8, W9, W10, W11, T3, P3. done.
    + destruct S3 as (S31 & S32 & S33). injection S33 as Sw Sd. split_and!; [done|done|]. cbn. by rewrite Sw, Sd, P3.
    + unfold to_both, broadcast. cbn. rewrite W9, P3. eexists. by split.
  - split; [|split].
    + unfold accepting_phase, lead_view. cbn. rewrite W1, W2, W3, W5, W6, W7, W8, W9, W10, W11, T3, P3. done.
    + done.
    + unfold to_both, broadcast. cbn. rewrite W9, P3. eexists. by split.
Qed.

Lemma hear_vote b li k K r v l q :
  accepting_phase b li k K r v l -> 0 <= v < 2 ^ 31 - 1 ->
  exists l', handleAcceptReply l StatusOK q (mk_accept_res true (mk_ballot b L)) = l' /\
    accepting_phase b li k K r (v + 1) l' /\ same_accounts (wal l) l l'.
Proof.
  intros (Hv & Ht & Hp & Hs) Hr. injection Hv as H1 H2 H3 H4 H5 H6 H7 H8 H9 H10 H11.
  unfold handleAcceptReply. cbn [ar_ack ar_ballot b_num b_server_id].
  rewrite H4, Hp, H10, !Z.eqb_refl. cbn [negb status_is_deadline status_ok andb].
  assert (wrap32 (v + 1) = v + 1) as Ew by (apply wrap32_id; unfold in_int; lia).
  eexists. split; [reflexivity|]. split; [|done].
  unfold accepting_phase, lead_view. cbn. rewrite H1, H2, H3, H4, H5, H6, H7, H8, H9, H10, H11, Hs, Ew. done.
Qed.

(** A cross-shard round ends without a commit: the accounts stay locked. *)
Lemma finish_prepared b li k K r l res :
  accepting_phase b li k K r 2 l ->
  exists l' outs, runPaxos l r res true = (l', mk_transfer_res true (tr_tid r), outs, true) /\
    at_rest b li k K l' /\ same_accounts (wal l) l l' /\ to_both (MCommit (mk_commit_req (mk_ballot b L))) COMMIT outs.
Proof.
  intros (Hv & Ht & Hp & Hs). injection Hv as H1 H2 H3 H4 H5 H6 H7 H8 H9 H10 H11.
  unfold runPaxos. rewrite H1, H2, H3, H4, Ht, Z.eqb_refl, Hs. cbn [andb negb].
  change (MAJORITY <=? 2) with true. cbv iota zeta.
  do 2 eexists. split; [reflexivity|]. unfold decide_commit. cbv zeta. cbn [fst snd]. split; [|split].
  - unfold at_rest, lead_view. cbn. rewrite H1, H5, H6, H7, H8, H9, H10, H11. done.
  - done.
  - unfold to_both, broadcast. cbn. rewrite H9, Hp. eexists. by split.
Qed.

(** The effect of a payment on the accounts. *)
Definition after_pay (r : TransferReq) (bal : Z -> Z) (x : Z) : Z :=
  wrap32 (bal x + ((if sender (tr_txn r) =? x then - amount (tr_txn r) else 0) +
                   (if receiver (tr_txn r) =? x then amount (tr_txn r) else 0))).

(** The write-ahead log is usable and holds no undecided transaction. *)
Definition nothing_pending (w : WAL) : Prop := wal_rep w ∅.

Definition paid (r : TransferReq) s s' : Prop :=
  (forall x, client_in_cluster s' x = client_in_cluster s x) /\
  (forall x, in_int (balance_of s x) -> balance_of s' x = after_pay r (balance_of s) x) /\
  i_am_disconnected s' = i_am_disconnected s /\ (nothing_pending (wal s) -> nothing_pending (wal s')).

(** Logging a payment, as the two servers see it. *)
Lemma commit_paid r bl s :
  f_can_write (walFile (wal s)) = true -> b_server_id bl = L ->
  let s' := server_commitTransaction r bl s in
  (log s', last_inserted s', f_can_write (walFile (wal s')))
    = (log s ++ [entry_of L (b_num bl) r], last_index (log s ++ [entry_of L (b_num bl) r]), true) /\
  (in_sync s', is_paxos_running s', await_prepare_decision s', await_accept_decision s', ballot_num s', locks s',
   stubs s', server_id s', i_am_disconnected s')
    = (in_sync s, is_paxos_running s, await_prepare_decision s, await_accept_decision s, ballot_num s, locks s,
       stubs s, server_id s, i_am_disconnected s) /\ paid r s s'.
Proof.
  intros Hw HL. cbv zeta. split; [|split].
  - destruct (commit_view r bl s Hw) as [Hv _]. cbv zeta in Hv. revert Hv.
    generalize (server_commitTransaction r bl s). intros s' Hv. unfold entry_of. rewrite <- HL.
    injection Hv as V1 V2 _ _ _ _ _ _ V3. by rewrite V1, V2, V3.
  - reflexivity.
  - split_and!; [reflexivity| |reflexivity|].
    + intros x Hx. unfold server_commitTransaction, commitTransaction_intra.
      rewrite Hw, txn_eta. cbn [negb fst snd we_txn]. set (s1 := push_log _ _).
      set (s2 := add_balance (receiver (tr_txn r)) _ _). change (balance_of s2 x = after_pay r (balance_of s) x).
      exact (balance_of_moves (tr_txn r) s1 x Hx).
    + unfold nothing_pending. intros Hm. exact (proj2 (commit_intra_refines (wal s) _ r bl Hm)).
Qed.

Lemma finish_round b li k K r l res :
  accepting_phase b li k K r 2 l ->
  exists l' outs, runPaxos l r res false = (l', mk_transfer_res true (tr_tid r), outs, true) /\
    (let k' := k ++ [entry_of L b r] in at_rest b (last_index k') k' (K ∖ {[sender (tr_txn r)]} ∖ {[receiver (tr_txn r)]}) l') /\
    paid r l l' /\ to_both (MCommit (mk_commit_req (mk_ballot b L))) COMMIT outs.
Proof.
  intros (Hv & Ht & Hp & Hs). injection Hv as H1 H2 H3 H4 H5 H6 H7 H8 H9 H10 H11.
  unfold runPaxos. rewrite H1, H2, H3, H4, Ht, Z.eqb_refl, Hs. cbn [andb negb].
  change (MAJORITY <=? 2) with true. cbv iota zeta.
  do 2 eexists. split; [reflexivity|]. unfold decide_commit. cbv zeta. cbn [fst snd].
  change (accept_num (l <| await_accept_decision := false |>)) with (accept_num l). rewrite Hp.
  set (l1 := unlock (receiver (tr_txn r)) (unlock (sender (tr_txn r)) (l <| await_accept_decision := false |>))).
  assert (lead_view l1 = (false, true, false, false, (b, li, k, K ∖ {[sender (tr_txn r)]} ∖ {[receiver (tr_txn r)]}, others j g, L, true))) as V.
  { unfold lead_view, l1. cbn. rewrite H1, H2, H3, H5, H6, H7, H8, H9, H10, H11. done. }
  assert (paid r l1 = paid r l) as Epaid by reflexivity.
  assert (broadcast (l <| await_accept_decision := false |>) COMMIT (fun c => sendCommit c (mk_commit_req (mk_ballot b L)))
    = broadcast l COMMIT (fun c => sendCommit c (mk_commit_req (mk_ballot b L)))) as -> by reflexivity.
  clearbody l1. injection V as V1 V2 V3 V4 V5 V6 V7 V8 V9 V10 V11.
  destruct (commit_paid r (mk_ballot b L) l1 V11 eq_refl) as (W1 & W2 & W3). cbv zeta in W1, W2, W3. rewrite Epaid in W3.
  revert W1 W2 W3. generalize (server_commitTransaction r (mk_ballot b L) l1). intros l2 W1 W2 W3.
  injection W1 as X1 X2 X3. injection W2 as Y1 Y2 Y3 Y4 Y5 Y6 Y7 Y8 _. cbn [b_num] in *.
  split; [|split].
  - unfold at_rest, lead_view. cbn. rewrite X1, X2, X3, Y1, Y5, Y6, Y7, Y8, V1, V5, V7, V8, V9, V10. done.
  - exact W3.
  - unfold to_both, broadcast. rewrite H9. cbn. eexists. by split.
Qed.

(** ** The follower *)

Definition follower_at (b li : Z) (k : list WALEntry) (K : gset Z) f : Prop :=
  (i_am_disconnected f, ballot_num f, last_inserted f, log f, locks f, f_can_write (walFile (wal f)))
    = (false, b, li, k, K, true).

Lemma follower_promises b li k K f :
  follower_at b li k K f ->
  let r := processPrepareCall f (mk_prepare_req (mk_ballot (b + 1) L) li) in
  follower_at (b + 1) li k K r.1.1 /\ promised r.1.1 = true /\ promised_num r.1.1 = mk_ballot (b + 1) L /\ r.2 = [] /\
  r.1.2 = mk_prepare_res true (mk_ballot (b + 1) L) (pr_accept_num r.1.2) (pr_accept_val r.1.2) None None None /\
  same_accounts (wal f) f r.1.1.
Proof.
  intros Hf. injection Hf as H1 H2 H3 H4 H5 H6. cbv zeta. unfold processPrepareCall. rewrite H1, H2. cbn [b_num pq_ballot pq_last_inserted].
  destruct (Z.ltb_spec b (b + 1)); [|lia]. rewrite H3, Z.eqb_refl. cbn [fst snd andb negb].
  unfold follower_at. cbn. rewrite H1, H3, H4, H5, H6. split_and!; try done. by destruct (accepted f).
Qed.

(** A follower holds a proposal: it has voted for [r] in round [b]. *)
Definition holding (b li : Z) (k : list WALEntry) (K : gset Z) (r : TransferReq) f : Prop :=
  follower_at b li k K f /\ promised_num f = mk_ballot b L /\ accept_num f = mk_ballot b L /\ accept_val f = r.

Lemma follower_accepts b li k K r f :
  follower_at b li k K f -> promised f = true -> promised_num f = mk_ballot b L ->
  let x := processAcceptCall f (mk_accept_req (mk_ballot b L) r) in
  let k' := proposed_log (is_cross f (tr_txn r)) b k r in let li' := proposed_last (is_cross f (tr_txn r)) li k' in
  x.2 = mk_accept_res true (mk_ballot b L) /\
  same_accounts (proposed_wal (is_cross f (tr_txn r)) b r (wal f)) f x.1 /\
  holding b li' k' (my_accounts f (tr_txn r) ∪ K) r x.1.
Proof.
  intros Hf Hp Hpn. injection Hf as H1 H2 H3 H4 H5 H6. cbv zeta. unfold processAcceptCall.
  rewrite H1, Hp, Hpn. cbn [aq_ballot aq_r b_num]. rewrite Z.eqb_refl. cbn [andb]. cbv zeta.
  set (f1 := f <| accepted := true |> <| accept_num := mk_ballot b L |> <| accept_val := r |>).
  destruct (lock_both f1 (tr_txn (accept_val f1))) as [-> ->]. change (accept_val f1) with r.
  change (is_cross f1 (tr_txn r)) with (is_cross f (tr_txn r)). change (my_accounts f1 (tr_txn r)) with (my_accounts f (tr_txn r)).
  unfold holding, follower_at. destruct (is_cross f (tr_txn r)); cbn [proposed_log proposed_last proposed_wal fst snd].
  - split; [done|]. split; [done|]. unfold server_prepareTransaction. cbn -[prepareTransaction].
    rewrite prepare_can_write, prepare_entry, H1, H2, H4, H5, H6, Hpn. done.
  - split; [done|]. split; [done|]. cbn. rewrite H1, H2, H3, H4, H5, H6, Hpn. done.
Qed.

(** The commit message for a payment of the cluster. *)
Lemma follower_commits b li k K r f :
  holding b li k K r f ->
  client_in_cluster f (sender (tr_txn r)) = true -> client_in_cluster f (receiver (tr_txn r)) = true ->
  let f' := processCommitCall f (mk_commit_req (mk_ballot b L)) in
  let k' := k ++ [entry_of L b r] in
  follower_at b (last_index k') k' (K ∖ my_accounts f (tr_txn r)) f' /\ paid r f f'.
Proof.
  intros (Hv & Hpn & Han & Hav) Hcs Hcr. injection Hv as H1 H2 H3 H4 H5 H6. cbv zeta.
  rewrite commit_call_acts; [|done|by rewrite Hpn|by rewrite Han|by rewrite Hav|by rewrite Hav]. rewrite Han, Hav.
  assert (locks (released f) = K ∖ my_accounts f (tr_txn r)) as El.
  { unfold released. cbn. by rewrite Hav, H5. }
  assert (f_can_write (walFile (wal (released f))) = true /\ log (released f) = k /\ ballot_num (released f) = b /\
    i_am_disconnected (released f) = false /\ paid r (released f) = paid r f) as (E1 & E2 & E3 & E4 & E5) by (by split_and!).
  revert El E1 E2 E3 E4 E5. generalize (released f). intros f1 El E1 E2 E3 E4 E5.
  destruct (commit_paid r (mk_ballot b L) f1 E1 eq_refl) as (W1 & W2 & W3). cbv zeta in W1, W2, W3. rewrite E5 in W3.
  revert W1 W2 W3. generalize (server_commitTransaction r (mk_ballot b L) f1). intros f2 W1 W2 W3.
  injection W1 as X1 X2 X3. injection W2 as _ _ _ _ Y1 Y2 _ _ Y3. cbn [b_num] in *.
  split; [|exact W3]. unfold follower_at, round_over. cbn. rewrite X1, X2, X3, Y1, Y2, Y3, E2, E3, E4, El. done.
Qed.

(** For a payment between clusters the commit message only releases the
    accounts. *)
Lemma follower_releases b li k K r f :
  holding b li k K r f -> is_cross f (tr_txn r) = true ->
  let f' := processCommitCall f (mk_commit_req (mk_ballot b L)) in
  follower_at b (last_index k) k (K ∖ my_accounts f (tr_txn r)) f' /\ same_accounts (wal f) f f'.
Proof.
  intros (Hv & Hpn & Han & Hav) Hx. injection Hv as H1 H2 H3 H4 H5 H6. cbv zeta. unfold processCommitCall.
  rewrite H1, Hpn, Han. cbn [b_num cq_ballot]. rewrite Z.eqb_refl. cbn [andb]. cbv zeta.
  set (f1 := f <| last_inserted := last_index (log f) |> <| last_inserted_ballot := mk_ballot b L |>).
  destruct (unlock_both f1 (tr_txn (accept_val f1))) as [-> ->]. change (accept_val f1) with (accept_val f). rewrite Hav.
  assert (client_in_cluster f1 (sender (tr_txn r)) && client_in_cluster f1 (receiver (tr_txn r)) = false) as ->.
  { revert Hx. unfold is_cross. change (client_in_cluster f1 ?c) with (client_in_cluster f c). by do 2 destruct (client_in_cluster f _). }
  change (my_accounts f1 (tr_txn r)) with (my_accounts f (tr_txn r)).
  split; [|done]. unfold follower_at. cbn. rewrite H1, H2, H4, H5, H6. done.
Qed.

(** The follower takes message [m] and the leader hears of it. *)
Definition heard (l f : Server DB) (m : peer_msg) (c : OutCall) (l2 f' : Server DB) : Prop :=
  server_exec f (peer_event m) = (f', []) /\ HandleRPCResponse l (complete f m c) = (l2, []).

Lemma prepare_heard b li k K Kf r l f c :
  preparing (b + 1) li k K r 1 l -> follower_at b li k Kf f -> oc_type c = PREPARE ->
  exists l2 f', heard l f (MPrepare (mk_prepare_req (mk_ballot (b + 1) L) li)) c l2 f' /\
    preparing (b + 1) li k K r 2 l2 /\ same_accounts (wal l) l l2 /\
    follower_at (b + 1) li k Kf f' /\ promised f' = true /\ promised_num f' = mk_ballot (b + 1) L /\ same_accounts (wal f) f f'.
Proof.
  intros Hp Hf Hty. destruct (follower_promises b li k Kf f Hf) as (F1 & F2 & F3 & F4 & F5 & F6). revert F1 F2 F3 F4 F5 F6.
  remember (processPrepareCall f _) as x eqn:Ex. intros F1 F2 F3 F4 F5 F6.
  destruct (hear_promise (b + 1) li k K r 1 l (oc_prepareReq c) x.1.2 Hp ltac:(lia) F5) as (l2 & Hh & Hp2 & Hs2).
  exists l2, x.1.1. split; [|by split_and!]. split.
  - cbn [server_exec peer_event]. rewrite <- Ex. cbv zeta. by rewrite F4.
  - unfold HandleRPCResponse, complete. cbn. rewrite Hty, <- Ex. exact Hh.
Qed.

Lemma accept_heard b li k lk fk r l f c :
  let x := is_cross f (tr_txn r) in let k' := proposed_log x b k r in let li' := proposed_last x li k' in
  accepting_phase b li' k' lk r 1 l -> follower_at b li k fk f ->
  promised f = true -> promised_num f = mk_ballot b L -> oc_type c = ACCEPT ->
  exists l2 f', heard l f (MAccept (mk_accept_req (mk_ballot b L) r)) c l2 f' /\
    accepting_phase b li' k' lk r 2 l2 /\ same_accounts (wal l) l l2 /\
    holding b li' k' (my_accounts f (tr_txn r) ∪ fk) r f' /\ same_accounts (proposed_wal x b r (wal f)) f f'.
Proof.
  intros x k' li' Hl Hf Hp Hpn Hty. destruct (follower_accepts b li k fk r f Hf Hp Hpn) as (F1 & F2 & F3). revert F1 F2 F3.
  remember (processAcceptCall f _) as y eqn:Ey. intros F1 F2 F3.
  destruct (hear_vote b li' k' lk r 1 l (oc_acceptReq c) Hl ltac:(lia)) as (l2 & Hh & Hl2 & Hs2).
  exists l2, y.1. split; [|by split_and!]. split.
  - cbn [server_exec peer_event]. by rewrite <- Ey.
  - unfold HandleRPCResponse, complete. cbn. rewrite Hty, <- Ey, F1. f_equal. exact Hh.
Qed.

(** A commit message changes the follower alone. *)
Lemma commit_heard b l f c :
  oc_type c = COMMIT ->
  heard l f (MCommit (mk_commit_req (mk_ballot b L))) c l (processCommitCall f (mk_commit_req (mk_ballot b L))).
Proof. intros Hty. split; [done|]. unfold HandleRPCResponse, complete. cbn. by rewrite Hty. Qed.

Definition local_clients (r : TransferReq) s : Prop :=
  client_in_cluster s (sender (tr_txn r)) = true /\ client_in_cluster s (receiver (tr_txn r)) = true.

Lemma local_same r s s' :
  (forall x, client_in_cluster s' x = client_in_cluster s x) -> local_clients r s -> local_clients r s'.
Proof. intros Hc [H1 H2]. split; by rewrite Hc. Qed.

Lemma paid_same r s1 s2 s3 : same_accounts (wal s1) s1 s2 -> paid r s2 s3 -> paid r s1 s3.
Proof.
  intros (H1 & H2 & H3) (H4 & H5 & H6 & H7). injection H3 as Hw Hd. split_and!; [intros x; by rewrite H4| |by rewrite H6|].
  - intros x Hx. rewrite H5 by (by rewrite H2). unfold after_pay. by rewrite H2.
  - intros Hu. apply H7. by rewrite Hw.
Qed.

(** Both accounts of a payment inside the cluster are its own. *)
Lemma local_accounts r s :
  local_clients r s -> is_cross s (tr_txn r) = false /\ my_accounts s (tr_txn r) = {[sender (tr_txn r); receiver (tr_txn r)]}.
Proof. intros [E1 E2]. unfold is_cross, my_accounts. by rewrite E1, E2. Qed.

Lemma can_pay_same w r K s s' : same_accounts w s s' -> can_pay K (tr_txn r) s -> can_pay K (tr_txn r) s'.
Proof. intros (H1 & H2 & _) [H3 H4]. split; rewrite H1; [by rewrite H2|done]. Qed.

(** The accounts of a payment are free. *)
Definition unlocked (K : gset Z) (r : TransferReq) : Prop := sender (tr_txn r) ∉ K /\ receiver (tr_txn r) ∉ K.

(** ** Three exchanges *)

(** The leader is asked about [r], sends a message to both others, and hears
    of [j]'s answer; what it would answer the caller does not depend on the
    response it is given. *)
Definition exchanged (cross : bool) (r : TransferReq) (fin : bool) (l f l2 f2 : Server DB) : Prop :=
  exists l1 m c, heard l1 f m c l2 f2 /\ forall res, exists res',
    runPaxos l r res cross = (l1, res', map (fun i => Rpc i m c) (others j g), fin) /\ (fin = true -> res' = mk_transfer_res true (tr_tid r)).

Definition round (cross : bool) (r : TransferReq) (l f l6 f6 : Server DB) : Prop :=
  exists l2 f2 l4 f4, exchanged cross r false l f l2 f2 /\ exchanged cross r false l2 f2 l4 f4 /\ exchanged cross r true l4 f4 l6 f6.

Lemma runPaxos_reply s r res1 res2 cross :
  let x1 := runPaxos s r res1 cross in let x2 := runPaxos s r res2 cross in
  x1.1.1.1 = x2.1.1.1 /\ x1.1.2 = x2.1.2 /\ x1.2 = x2.2.
Proof.
  cbv zeta. unfold runPaxos. generalize (start_prepare s (tr_tid r)). intros sp.
  generalize (decide_commit s r cross) (fail_accept s r cross). intros dc fa.
  generalize (conditions_fail (s <| await_prepare_decision := false |>) (tr_txn r)). intros c.
  generalize (start_accept c.1 r cross). intros sa. cbv zeta.
  repeat (match goal with |- context [if ?b then _ else _] => destruct b end; cbn [fst snd]; try (by split_and!)).
Qed.

Lemma exchanged_intro cross r fin l f l1 res0 res1 m c l2 f2 :
  runPaxos l r res0 cross = (l1, res1, map (fun i => Rpc i m c) (others j g), fin) -> heard l1 f m c l2 f2 ->
  (fin = true -> forall res, (runPaxos l r res cross).1.1.2 = mk_transfer_res true (tr_tid r)) ->
  exchanged cross r fin l f l2 f2.
Proof.
  intros Hrun Hh Hfin. exists l1, m, c. split; [done|]. intros res. destruct (runPaxos_reply l r res0 res cross) as (E1 & E2 & E3).
  rewrite Hrun in E1, E2, E3. cbn [fst snd] in E1, E2, E3. specialize (fun E => Hfin E res). revert E1 E2 E3 Hfin.
  destruct (runPaxos l r res cross) as [[[s' res'] outs] fin']. cbn [fst snd]. intros <- <- <- Hfin. by exists res'.
Qed.

Lemma two_exchanges cross b li k K Kf r l f :
  at_rest b li k K l -> follower_at b li k Kf f -> 0 <= b -> b + 1 < 2 ^ 31 ->
  can_pay K (tr_txn r) l -> is_cross f (tr_txn r) = cross ->
  let k' := proposed_log cross (b + 1) k r in let li' := proposed_last cross li k' in
  exists l2 f2 l4 f4, exchanged cross r false l f l2 f2 /\ exchanged cross r false l2 f2 l4 f4 /\
    accepting_phase (b + 1) li' k' ({[receiver (tr_txn r)]} ∪ (my_accounts l (tr_txn r) ∪ K)) r 2 l4 /\
    holding (b + 1) li' k' (my_accounts f (tr_txn r) ∪ Kf) r f4 /\
    same_accounts (proposed_wal cross (b + 1) r (wal l)) l l4 /\ same_accounts (proposed_wal cross (b + 1) r (wal f)) f f4.
Proof.
  intros Hl Hf Hb0 Hb Hpay Hx k' li'.
  destruct (begin_round b li k K r default_transfer_res cross l Hl Hb Hb0) as (l1 & res1 & o1 & X1 & Hl1 & Sl1 & c1 & -> & Ty1).
  destruct (prepare_heard b li k K Kf r l1 f c1 Hl1 Hf Ty1) as (l2 & f2 & E1 & Hl2 & Sl2 & Hf2 & Hp & Hpn & Sf2).
  pose proof (same_trans _ _ _ _ _ Sl1 Sl2) as Sl. rewrite (same_wal _ _ _ Sl1) in Sl.
  destruct (propose (b + 1) li k K r l2 default_transfer_res cross Hl2) as (l3 & res3 & o3 & X3 & Hl3 & Sl3 & c3 & -> & Ty3).
  { by eapply can_pay_same; [exact Sl|]. }
  rewrite (my_accounts_same _ _ _ _ Sl), (same_wal _ _ _ Sl) in *.
  pose proof (my_accounts_same _ (tr_txn r) _ _ Sf2) as Em.
  assert (is_cross f2 (tr_txn r) = cross) as Hx2 by (rewrite <- Hx; unfold is_cross; by rewrite !(proj1 Sf2)).
  destruct (accept_heard (b + 1) li k ({[receiver (tr_txn r)]} ∪ (my_accounts l (tr_txn r) ∪ K)) Kf r l3 f2 c3)
    as (l4 & f4 & E3 & Hl4 & Sl4 & Hf4 & Sf4); try done; [by rewrite Hx2|].
  rewrite Hx2, (same_wal _ _ _ Sf2), Em in *. rewrite (same_wal _ _ _ Sl3) in Sl4.
  exists l2, f2, l4, f4. split_and!; try done.
  - by eapply exchanged_intro.
  - by eapply exchanged_intro.
  - eapply same_trans; [exact Sl|]. by eapply same_trans.
  - by eapply same_trans.
Qed.

(** A payment inside the cluster is committed by both. *)
Lemma round_commits b li k K Kf r l f :
  at_rest b li k K l -> follower_at b li k Kf f -> 0 <= b -> b + 1 < 2 ^ 31 ->
  local_clients r l -> local_clients r f -> unlocked K r -> amount (tr_txn r) <= balance_of l (sender (tr_txn r)) ->
  let k' := k ++ [entry_of L (b + 1) r] in
  exists l' f' Kf', round false r l f l' f' /\ Kf' ⊆ Kf /\
    at_rest (b + 1) (last_index k') k' K l' /\ follower_at (b + 1) (last_index k') k' Kf' f' /\ paid r l l' /\ paid r f f'.
Proof.
  intros Hl Hf Hb0 Hb Cl Cf [Hus Hur] Ha k'. destruct (local_accounts r l Cl) as [_ Eml]. destruct (local_accounts r f Cf) as [Hx Emf].
  destruct (two_exchanges false b li k K Kf r l f Hl Hf Hb0 Hb) as (l2 & f2 & l4 & f4 & X1 & X2 & Hl4 & Hf4 & Sl & Sf); [by split|done|].
  rewrite Eml in Hl4. set (held := {[receiver (tr_txn r)]} ∪ _) in Hl4. cbn [proposed_log proposed_last proposed_wal] in *.
  destruct (finish_round (b + 1) li k held r l4 default_transfer_res Hl4) as (l5 & o5 & X5 & Hl5 & Pl & c5 & -> & Ty5).
  destruct (local_same r f f4 (proj1 Sf) Cf) as [Cf1 Cf2]. destruct (follower_commits (b + 1) li k _ r f4 Hf4 Cf1 Cf2) as [Hf6 Pf].
  rewrite (my_accounts_same _ _ _ _ Sf), Emf in Hf6.
  replace (held ∖ {[sender (tr_txn r)]} ∖ {[receiver (tr_txn r)]}) with K in Hl5 by (unfold held; set_solver).
  do 3 eexists. split; [|split; [|split; [exact Hl5|split; [exact Hf6|split; by eapply paid_same]]]]; [|set_solver].
  exists l2, f2, l4, f4. split_and!; [done|done|]. eapply exchanged_intro; [exact X5|by apply commit_heard|].
  intros _ res. destruct (finish_round (b + 1) li k held r l4 res Hl4) as (? & ? & -> & _). done.
Qed.

(** A refused request: one exchange, after which the leader answers no. *)
Definition refused (cross : bool) (r : TransferReq) (l f l' f' : Server DB) : Prop :=
  exists l2, exchanged cross r false l f l2 f' /\
    forall res, runPaxos l2 r res cross = (l', mk_transfer_res false (tr_tid r), [], true).

Lemma round_refused cross b li k K Kf r l f :
  at_rest b li k K l -> follower_at b li k Kf f -> 0 <= b -> b + 1 < 2 ^ 31 ->
  client_in_cluster l (sender (tr_txn r)) = true -> balance_of l (sender (tr_txn r)) < amount (tr_txn r) ->
  exists l' f', refused cross r l f l' f' /\ at_rest (b + 1) li k K l' /\ follower_at (b + 1) li k Kf f' /\
    same_accounts (wal l) l l' /\ same_accounts (wal f) f f'.
Proof.
  intros Hl Hf Hb0 Hb Hc Ha.
  destruct (begin_round b li k K r default_transfer_res cross l Hl Hb Hb0) as (l1 & res1 & o1 & X1 & Hl1 & Sl1 & c1 & -> & Ty1).
  destruct (prepare_heard b li k K Kf r l1 f c1 Hl1 Hf Ty1) as (l2 & f2 & E1 & Hl2 & Sl2 & Hf2 & _ & _ & Sf2).
  pose proof (same_trans _ _ _ _ _ Sl1 Sl2) as Sl. rewrite (same_wal _ _ _ Sl1) in Sl.
  assert (client_in_cluster l2 (sender (tr_txn r)) = true /\ balance_of l2 (sender (tr_txn r)) < amount (tr_txn r)) as [Hc2 Ha2].
  { destruct Sl as (-> & -> & _). by split. }
  destruct (refuse (b + 1) li k K r l2 default_transfer_res cross Hl2 Hc2 Ha2) as (l3 & X3 & Hl3 & Sl3).
  rewrite (same_wal _ _ _ Sl) in Sl3. exists l3, f2. split; [|split_and!; [done..|by eapply same_trans|done]].
  exists l2. split; [by eapply exchanged_intro|]. intros res.
  destruct (refuse (b + 1) li k K r l2 res cross Hl2 Hc2 Ha2) as (l4 & X4 & _).
  pose proof (runPaxos_reply l2 r default_transfer_res res cross) as (E & _). rewrite X3, X4 in E. cbn [fst snd] in E. by rewrite X4, E.
Qed.

(** ** A payment between clusters *)

Section Prepare.
Context (t : Transaction) (tid : Z).
Hypothesis Ht : wf_txn t.
Hypothesis Htid : in_long tid /\ tid <> -1.

Definition the_request : TransferReq := mk_transfer_req t tid.
Definition the_entry (b : Z) : WALEntry := prepared_entry tid b L t.
Definition the_decision (c : bool) (b : Z) : WALEntry := (the_entry b) <| we_status := if c then COMMITTED else ABORTED |>.

(** A server has logged the transaction as prepared and can look it up;
    accounts are as before. *)
Record prepared_from (b : Z) s s' : Prop := {
  pf_log : log s' = log s ++ [the_entry b];
  pf_client : forall x, client_in_cluster s' x = client_in_cluster s x;
  pf_balance : forall x, balance_of s' x = balance_of s x;
  pf_up : i_am_disconnected s' = false;
  pf_wal : wal_rep (wal s') {[tid := the_entry b]};
  pf_locks : forall x, client_in_cluster s x = true -> x ∉ my_accounts s t -> (x ∈ locks s' <-> x ∈ locks s)
}.

Lemma prepare_pending w b :
  nothing_pending w -> in_int b -> in_int L -> wal_rep (proposed_wal true b the_request w) {[tid := the_entry b]}.
Proof.
  unfold nothing_pending. intros Hm Hb HL. destruct (prepare_refines w _ the_request (mk_ballot b L) Hm) as [_ Hr]; [split; [done|apply Htid]|by split|].
  exact Hr.
Qed.

Lemma held_elsewhere s x (K : gset Z) :
  client_in_cluster s x = true -> x ∉ my_accounts s t -> x ∈ {[receiver t]} ∪ (my_accounts s t ∪ K) <-> x ∈ K.
Proof.
  intros Hx Hn. assert (x <> receiver t) as Hr.
  { intros ->. apply Hn. unfold my_accounts. rewrite Hx. apply elem_of_union_r. by apply elem_of_singleton. }
  rewrite !elem_of_union, elem_of_singleton. tauto.
Qed.

Lemma released_elsewhere s x (K : gset Z) :
  x ∉ my_accounts s t -> x ∈ (my_accounts s t ∪ K) ∖ my_accounts s t <-> x ∈ K.
Proof. rewrite elem_of_difference, elem_of_union. tauto. Qed.

Lemma prepared_intro b s s' :
  same_accounts (proposed_wal true b the_request (wal s)) s s' -> i_am_disconnected s = false -> nothing_pending (wal s) ->
  in_int b -> in_int L -> log s' = log s ++ [the_entry b] ->
  (forall x, client_in_cluster s x = true -> x ∉ my_accounts s t -> (x ∈ locks s' <-> x ∈ locks s)) ->
  prepared_from b s s'.
Proof.
  intros (Hc & Hbal & Hw) Hd Hu Hb HL Hlog Hk. injection Hw as Hw Hd'. split; try done.
  - by rewrite Hd'.
  - rewrite Hw. by apply prepare_pending.
Qed.

(** The cluster prepares the transaction on both. *)
Lemma round_prepares b li k K Kf l f :
  at_rest b li k K l -> follower_at b li k Kf f -> 0 <= b -> b + 1 < 2 ^ 31 -> in_int L ->
  is_cross l t = true -> is_cross f t = true -> can_pay K t l ->
  i_am_disconnected l = false -> nothing_pending (wal l) -> nothing_pending (wal f) ->
  let k' := k ++ [the_entry (b + 1)] in
  exists l' f' K' Kf', round true the_request l f l' f' /\
    at_rest (b + 1) (last_index k') k' K' l' /\ follower_at (b + 1) (last_index k') k' Kf' f' /\
    prepared_from (b + 1) l l' /\ prepared_from (b + 1) f f'.
Proof.
  intros Rl Rf Hb0 Hb HL Xl Xf Hpay Hup Ul Uf k'.
  destruct (two_exchanges true b li k K Kf the_request l f Rl Rf Hb0 Hb Hpay Xf) as (l2 & f2 & l4 & f4 & X1 & X2 & Hl4 & Hf4 & Sl & Sf).
  cbn [proposed_log proposed_last tr_txn tr_tid the_request] in *.
  destruct (finish_prepared (b + 1) _ _ _ the_request l4 default_transfer_res Hl4) as (l5 & o5 & X5 & Hl5 & Sl5 & c5 & -> & Ty5).
  destruct (follower_releases (b + 1) _ _ _ the_request f4 Hf4) as [Hf6 Sf6].
  { cbn [tr_txn the_request]. unfold is_cross in *. by rewrite !(proj1 Sf). }
  pose proof (commit_heard (b + 1) l5 f4 c5 Ty5) as E5. cbv zeta in Hf6, Sf6. revert Hf6 Sf6 E5.
  generalize (processCommitCall f4 (mk_commit_req (mk_ballot (b + 1) L))). intros f6 Hf6 Sf6 E5.
  do 4 eexists. split.
  { exists l2, f2, l4, f4. split_and!; [done|done|]. eapply exchanged_intro; [exact X5|exact E5|].
    intros _ res. destruct (finish_prepared (b + 1) _ _ _ the_request l4 res Hl4) as (? & ? & -> & _). done. }
  split; [exact Hl5|]. split; [exact Hf6|]. rewrite (same_wal _ _ _ Sl) in Sl5. rewrite (same_wal _ _ _ Sf) in Sf6.
  pose proof (same_trans _ _ _ _ _ Sl Sl5) as SL. pose proof (same_trans _ _ _ _ _ Sf Sf6) as SF.
  assert (in_int (b + 1)) as Hbi by (unfold in_int; lia).
  injection Rl as _ _ _ _ _ _ Ek El _ _ _. injection Hl5 as _ _ _ _ _ _ Ek5 El5 _ _ _.
  injection Rf as Ed _ _ Ekf Elf _. injection Hf6 as _ _ _ Ek6 El6 _.
  split; (apply prepared_intro; [done..| |intros x Hx Hn]).
  - by rewrite Ek5, Ek.
  - rewrite El5, El. by apply held_elsewhere.
  - by rewrite Ek6, Ekf.
  - rewrite El6, Elf. cbn [tr_txn the_request]. rewrite (my_accounts_same _ t _ _ Sf). by apply released_elsewhere.
Qed.

(** ** A server settles *)

(** The whole effect of the transaction on a server that has prepared it: it
    has logged the transaction as prepared and as decided, every account of
    its cluster has moved by the payment if the decision is to commit, and
    the accounts of the payment are free. *)
Definition settled (c : bool) (b : Z) s s' : Prop :=
  log s' = log s ++ [the_entry b; the_decision c b] /\
  (forall x, mine s x -> in_int (balance_of s x) ->
     balance_of s' x = wrap32 (balance_of s x + entry_delta x (the_decision c b))) /\
  forall x, client_in_cluster s x = true -> (x ∈ locks s' <-> x ∈ locks s /\ x ∉ my_accounts s t).

Lemma one_pending b : ({[tid := the_entry b]} : gmap Z WALEntry) !! (-1) = None /\
  ({[tid := the_entry b]} : gmap Z WALEntry) !! tid = Some (the_entry b).
Proof. split; [apply lookup_singleton_ne; apply Htid|apply lookup_singleton_eq]. Qed.

Lemma prepared_settles c b s s' : prepared_from b s s' -> settled c b s (processTpcDecision s' (mk_tid tid) c).
Proof.
  intros [Hlog Hc Hbal Hup Hm Hk]. destruct (one_pending b) as [Hn Htm].
  destruct (decision_known s' tid c _ (the_entry b) Hm Hn Hup Htm) as (D1 & _ & D3 & D4). split_and!.
  - by rewrite D1, Hlog, <- app_assoc.
  - intros x [Hx1 Hx2] Hi. rewrite D4; [by rewrite Hbal|split; [done|by rewrite Hc]|by rewrite Hbal].
  - intros x Hx. rewrite D3. assert (my_accounts s' (we_txn (the_entry b)) = my_accounts s t) as ->.
    { unfold my_accounts. cbn [we_txn the_entry prepared_entry]. by rewrite !Hc. }
    rewrite elem_of_difference. specialize (Hk x Hx). tauto.
Qed.

(** What a decision leaves alone. *)
Definition frame s :=
  (in_sync s, is_paxos_running s, await_prepare_decision s, await_accept_decision s, ballot_num s, last_inserted s, stubs s,
   server_id s, i_am_disconnected s).

Definition framed s s' : Prop := frame s' = frame s /\ forall x, client_in_cluster s' x = client_in_cluster s x.

Lemma framed_trans s1 s2 s3 : framed s1 s2 -> framed s2 s3 -> framed s1 s3.
Proof. intros [H1 H2] [H3 H4]. split; [congruence|]. intros x. by rewrite H4. Qed.

Lemma settle_framed c d b s : framed s (settle_account c d b s).
Proof. unfold settle_account. destruct (client_in_cluster s c); [destruct b|]; by split. Qed.

Lemma decision_frame s c : framed s (processTpcDecision s (mk_tid tid) c).
Proof.
  unfold processTpcDecision. destruct (i_am_disconnected s); [by split|]. cbv zeta. generalize (if c then commitTransaction_cross (wal s) (mk_tid tid) else abortTransaction (wal s) (mk_tid tid)).
  intros r. do 2 (eapply framed_trans; [|apply settle_framed]). destruct (we_tid r.2 =? -1); by split.
Qed.

Lemma decided_wal c b s s' :
  prepared_from b s s' -> nothing_pending (wal (processTpcDecision s' (mk_tid tid) c)) /\
  f_can_write (walFile (wal (processTpcDecision s' (mk_tid tid) c))) = true.
Proof.
  intros [_ _ _ Hup Hm _]. destruct (one_pending b) as [Hn Htm].
  destruct (decision_known s' tid c _ (the_entry b) Hm Hn Hup Htm) as (_ & Hw & _). rewrite delete_singleton_eq in Hw.
  split; [exact Hw|apply Hw].
Qed.

(** After the decision both are between transactions again; the position
    stays at the prepared entry. *)
Lemma decided_rest c b li k K s s' :
  prepared_from b s s' -> at_rest b li (k ++ [the_entry b]) K s' -> log s = k ->
  exists K', at_rest b li (k ++ [the_entry b; the_decision c b]) K' (processTpcDecision s' (mk_tid tid) c).
Proof.
  intros Hp Hr <-. pose proof (prepared_settles c b s s' Hp) as [Hlog _]. destruct (decided_wal c b s s' Hp) as [_ Hcw].
  destruct (decision_frame s' c) as [Hf _]. unfold frame in Hf. revert Hlog Hcw Hf. generalize (processTpcDecision s' (mk_tid tid) c).
  intros s2 Hlog Hcw Hf. injection Hf as E1 E2 E3 E4 E5 E6 E7 E8 _. injection Hr as R1 R2 R3 R4 R5 R6 R7 R8 R9 R10 R11.
  eexists. unfold at_rest, lead_view. rewrite E1, E2, E3, E4, E5, E6, E7, E8, Hcw, Hlog, R1, R2, R3, R4, R5, R6, R9, R10. reflexivity.
Qed.

Lemma decided_follower c b li k K s s' :
  prepared_from b s s' -> follower_at b li (k ++ [the_entry b]) K s' -> log s = k ->
  exists K', follower_at b li (k ++ [the_entry b; the_decision c b]) K' (processTpcDecision s' (mk_tid tid) c).
Proof.
  intros Hp Hr <-. pose proof (prepared_settles c b s s' Hp) as [Hlog _]. destruct (decided_wal c b s s' Hp) as [_ Hcw].
  destruct (decision_frame s' c) as [Hf _]. unfold frame in Hf. revert Hlog Hcw Hf. generalize (processTpcDecision s' (mk_tid tid) c).
  intros s2 Hlog Hcw Hf. injection Hf as _ _ _ _ E5 E6 _ _ E9. injection Hr as R1 R2 R3 R4 R5 R6.
  eexists. unfold follower_at. rewrite E5, E6, E9, Hcw, Hlog, R1, R2, R3. reflexivity.
Qed.
(** A decision on a transaction the server has not prepared changes nothing
    the protocol reads. *)
Lemma decision_ignored c s :
  nothing_pending (wal s) -> i_am_disconnected s = false ->
  let s' := processTpcDecision s (mk_tid tid) c in
  framed s s' /\ log s' = log s /\ wal s' = wal s /\
  forall x, 1 <= x -> balance_of s' x = balance_of s x /\ (x ∈ locks s' <-> x ∈ locks s).
Proof.
  intros Hm Hd s'. split; [apply decision_frame|]. unfold nothing_pending in Hm.
  by apply (decision_unknown s tid c _ Hm).
Qed.

Lemma ignored_rest c b li k K s :
  at_rest b li k K s -> nothing_pending (wal s) -> i_am_disconnected s = false ->
  exists K', at_rest b li k K' (processTpcDecision s (mk_tid tid) c).
Proof.
  intros Hr Hm Hd. destruct (decision_ignored c s Hm Hd) as ([Hf _] & Hl & Hw & _). unfold frame in Hf. revert Hf Hl Hw.
  generalize (processTpcDecision s (mk_tid tid) c). intros s2 Hf Hl Hw. injection Hf as E1 E2 E3 E4 E5 E6 E7 E8 _.
  injection Hr as R1 R2 R3 R4 R5 R6 R7 R8 R9 R10 R11.
  eexists. unfold at_rest, lead_view. rewrite E1, E2, E3, E4, E5, E6, E7, E8, Hl, Hw, R1, R2, R3, R4, R5, R6, R7, R9, R10, R11. reflexivity.
Qed.

Lemma ignored_follower c b li k K s :
  follower_at b li k K s -> nothing_pending (wal s) ->
  exists K', follower_at b li k K' (processTpcDecision s (mk_tid tid) c).
Proof.
  intros Hr Hm. injection Hr as R1 R2 R3 R4 R5 R6. destruct (decision_ignored c s Hm R1) as ([Hf _] & Hl & Hw & _).
  unfold frame in Hf. revert Hf Hl Hw. generalize (processTpcDecision s (mk_tid tid) c). intros s2 Hf Hl Hw.
  injection Hf as _ _ _ _ E5 E6 _ _ E9. eexists. unfold follower_at. rewrite E5, E6, E9, Hl, Hw, R1, R2, R3, R4, R6. reflexivity.
Qed.
End Prepare.
End Round.
