(* ===== verification/Progress.v ===== *)
(** * A cluster makes progress with a minority down

    Two of the three servers of a cluster answer, the third never does: the
    leader commits every affordable sequence of payments, each in three
    exchanges with the other server ([Round]), and both end in step with each
    other. *)
From stdpp Require Import gmap list strings.
From Stdlib Require Import ZArith Lia Ascii.
From S2P Require Import Prelude Chars Types Config Wal OutCall Server Store Steps Calls Network Replication Round.

Section Progress.
Context {DB : Type} `{KVStore DB} {J : Indeterminate}.
Context (L j g : Z).
Implicit Types (s l f : Server DB) (n : Net DB).

(** ** One exchange on the network

    The leader has sent a message to both; [j] takes it and answers, the
    message to [g] is lost. *)

Hypothesis Hj : L <> j.

Definition stand n l f : Prop := servers n !! L = Some l /\ servers n !! j = Some f /\ wire n = [].

(** The message to [j] arrives and is answered, the one to [g] is lost. *)
Definition answer_one : list action := if j <? g then [Deliver 0; Lose 0; Deliver 0] else [Lose 0; Deliver 0; Deliver 0].

(** The messages of a broadcast, on the wire. *)
Definition sent (m : peer_msg) (c : OutCall) : list packet := map (fun i => Req L i m (Some c)) (others j g).

Lemma sent_packets m c : packets L (map (fun i => Rpc i m c) (others j g)) = Some (sent m c).
Proof. unfold sent, others. by destruct (j <? g). Qed.

Lemma one_answers (ss : gmap Z (Server DB)) l f m c f' l2 :
  ss !! j = Some f -> server_exec f (peer_event m) = (f', []) -> HandleRPCResponse l (complete f m c) = (l2, []) ->
  net_run (mk_net (<[L := l]> ss) (sent m c)) answer_one = Some (mk_net (<[L := l2]> (<[j := f']> ss)) []).
Proof.
  intros Hf Hex Hrep.
  assert (forall w, net_exec (mk_net (<[L := l]> ss) (Req L j m (Some c) :: w)) (Deliver 0)
    = Some (mk_net (<[L := l]> (<[j := f']> ss)) (w ++ [Rep L (complete f m c)]))) as E1.
  { intros w. cbn -[server_exec complete]. rewrite lookup_insert_ne, Hf by done. cbn -[server_exec complete]. rewrite Hex.
    unfold moved. cbn -[complete]. rewrite app_nil_r. by rewrite insert_insert_ne. }
  assert (net_exec (mk_net (<[L := l]> (<[j := f']> ss)) [Rep L (complete f m c)]) (Deliver 0)
    = Some (mk_net (<[L := l2]> (<[j := f']> ss)) [])) as E2.
  { cbn -[complete HandleRPCResponse]. unfold call_ends. cbn [servers]. rewrite lookup_insert_eq. cbn [mbind option_bind]. rewrite Hrep.
    cbn. by rewrite insert_insert_eq. }
  assert (forall (m0 : gmap Z (Server DB)) p q, net_exec (mk_net m0 [p; q]) (Lose 0) = Some (mk_net m0 [q])) as E3 by done.
  unfold answer_one, sent, others. destruct (j <? g); cbn [map net_run].
  - rewrite E1. cbn [mbind option_bind app]. rewrite E3. cbn [mbind option_bind]. by rewrite E2.
  - rewrite E3. cbn [mbind option_bind]. rewrite E1. cbn [mbind option_bind app]. by rewrite E2.
Qed.

Definition exchange_of (r : TransferReq) : list action := Ask L (ev_transfer r default_transfer_res) :: answer_one.

Lemma ask_sends ss l r l1 res m c fin :
  ss !! L = Some l -> runPaxos l r default_transfer_res false = (l1, res, map (fun i => Rpc i m c) (others j g), fin) ->
  net_exec (mk_net ss []) (Ask L (ev_transfer r default_transfer_res)) = Some (mk_net (<[L := l1]> ss) (sent m c)).
Proof.
  intros Hl Hr. cbn -[processTransferCall]. rewrite Hl. cbn -[processTransferCall]. unfold processTransferCall. rewrite Hr.
  unfold sent, others. by destruct (j <? g).
Qed.

Lemma exchange n l f r fin l2 f2 :
  stand n l f -> exchanged j g false r fin l f l2 f2 -> exists n', net_run n (exchange_of r) = Some n' /\ stand n' l2 f2.
Proof.
  destruct n as [ss w]. intros (Hl & Hf & Hw) (l1 & m & c & [Hex Hrep] & Hrun). cbn [servers wire] in *. subst w.
  destruct (Hrun default_transfer_res) as (res' & Hr & _).
  exists (mk_net (<[L := l2]> (<[j := f2]> ss)) []). split.
  - unfold exchange_of. cbn [net_run]. rewrite (ask_sends ss l r l1 res' m c fin Hl Hr). by apply one_answers with (f := f).
  - split_and!; cbn [servers wire]; [by rewrite lookup_insert_eq| |done].
    rewrite lookup_insert_ne by done. by rewrite lookup_insert_eq.
Qed.

(** ** One payment, three exchanges *)

Lemma net_run_app n a1 a2 : net_run n (a1 ++ a2) = n' ← net_run n a1; net_run n' a2.
Proof.
  revert n. induction a1 as [|a a1 IH]; intros n; cbn; [done|]. destruct (net_exec n a) as [n'|]; cbn; [apply IH|done].
Qed.

(** [runPaxos] is asked for the payment three times: by the client's call
    and at two retries of its timer. *)
Definition payment (r : TransferReq) : list action := exchange_of r ++ exchange_of r ++ exchange_of r.

Lemma payment_runs n l f r l6 f6 :
  stand n l f -> round j g false r l f l6 f6 -> exists n', net_run n (payment r) = Some n' /\ stand n' l6 f6.
Proof.
  intros Hn (l2 & f2 & l4 & f4 & X1 & X2 & X3). destruct (exchange n l f r _ _ _ Hn X1) as (n1 & R1 & Hn1).
  destruct (exchange n1 l2 f2 r _ _ _ Hn1 X2) as (n2 & R2 & Hn2). destruct (exchange n2 l4 f4 r _ _ _ Hn2 X3) as (n3 & R3 & Hn3).
  exists n3. split; [|done]. unfold payment. rewrite net_run_app, R1. cbn [mbind option_bind]. by rewrite net_run_app, R2.
Qed.

(** ** Any number of payments *)

Definition payments (rs : list TransferReq) : list action := concat (map payment rs).

(** The entries of the payments, ballot after ballot. *)
Fixpoint entries (b : Z) (rs : list TransferReq) : list WALEntry :=
  match rs with
  | [] => []
  | r :: rs' => entry_of L (b + 1) r :: entries (b + 1) rs'
  end.

Definition after_pays (rs : list TransferReq) (bal : Z -> Z) : Z -> Z := foldl (fun m r => after_pay r m) bal rs.

(** Each sender can pay when its turn comes. *)
Fixpoint affordable (bal : Z -> Z) (rs : list TransferReq) : Prop :=
  match rs with
  | [] => True
  | r :: rs' => amount (tr_txn r) <= bal (sender (tr_txn r)) /\ affordable (after_pay r bal) rs'
  end.

Lemma after_pay_ext r m1 m2 : (forall x, m1 x = m2 x) -> forall x, after_pay r m1 x = after_pay r m2 x.
Proof. intros Hm x. unfold after_pay. by rewrite Hm. Qed.

Lemma affordable_ext rs m1 m2 : (forall x, m1 x = m2 x) -> affordable m1 rs -> affordable m2 rs.
Proof.
  revert m1 m2. induction rs as [|r rs IH]; cbn [affordable]; intros m1 m2 Hm; [done|]. rewrite Hm.
  intros [? ?]. split; [done|]. eapply IH; [|done]. by apply after_pay_ext.
Qed.

Lemma after_pays_ext rs m1 m2 : (forall x, m1 x = m2 x) -> forall x, after_pays rs m1 x = after_pays rs m2 x.
Proof. revert m1 m2. induction rs as [|r rs IH]; intros m1 m2 Hm; [exact Hm|]. apply IH. by apply after_pay_ext. Qed.

(** Balances that are integers of the program. *)
Definition int_accounts s : Prop := forall x, in_int (balance_of s x).

Lemma paid_int r s s' : int_accounts s -> paid r s s' -> int_accounts s' /\ forall x, balance_of s' x = after_pay r (balance_of s) x.
Proof. intros Hi (_ & Hp & _). split; intros x; rewrite Hp by apply Hi; [apply wrap32_range|done]. Qed.

(** The position after the payments. *)
Definition last_after (b li : Z) (k : list WALEntry) (rs : list TransferReq) : Z :=
  match rs with [] => li | _ => last_index (k ++ entries b rs) end.

(** C6. A minority may fail. With one of the three servers down, every
    affordable sequence of payments inside the cluster is committed, in
    order, by the two that are up, whatever other accounts are locked.  The
    leader and the follower start and end between transactions, with the
    same log, position and ballot; the log grows by exactly the payments. *)
Theorem minority_down b li k K Kf rs n l f :
  stand n l f -> at_rest L j g b li k K l -> follower_at b li k Kf f -> 0 <= b -> b + Z.of_nat (length rs) < 2 ^ 31 ->
  int_accounts l -> int_accounts f ->
  Forall (fun r => local_clients r l /\ local_clients r f /\ unlocked K r) rs -> affordable (balance_of l) rs ->
  exists n' l' f' Kf', net_run n (payments rs) = Some n' /\ stand n' l' f' /\ Kf' ⊆ Kf /\
    at_rest L j g (b + Z.of_nat (length rs)) (last_after b li k rs) (k ++ entries b rs) K l' /\
    follower_at (b + Z.of_nat (length rs)) (last_after b li k rs) (k ++ entries b rs) Kf' f' /\
    forall x, balance_of l' x = after_pays rs (balance_of l) x /\ balance_of f' x = after_pays rs (balance_of f) x.
Proof.
  revert b li k n l f Kf. induction rs as [|r rs IH]; intros b li k n l f Kf Hn Hl Hf Hb0 Hb Il If Hcs Ha.
  { exists n, l, f, Kf. cbn [length entries last_after]. rewrite app_nil_r, Z.add_0_r. by split_and!. }
  cbn [length] in Hb |- *. apply Forall_cons in Hcs as [(Cl & Cf & Hu) Hcs]. destruct Ha as [Ha Has].
  destruct (round_commits L j g b li k K Kf r l f) as (l1 & f1 & K1 & Hround & HK1 & Hl1 & Hf1 & Pl & Pf); try done; [lia|].
  destruct (payment_runs n l f r l1 f1 Hn Hround) as (n1 & R1 & Hn1).
  destruct (paid_int r l l1 Il Pl) as [Il1 Bl], (paid_int r f f1 If Pf) as [If1 Bf].
  destruct (IH (b + 1) _ (k ++ [entry_of L (b + 1) r]) n1 l1 f1 K1 Hn1 Hl1 Hf1)
    as (n2 & l2 & f2 & K2 & R2 & Hn2 & HK2 & Hl2 & Hf2 & B); try done; try lia.
  { eapply Forall_impl; [exact Hcs|]. intros q (? & ? & ?).
    split_and!; [eapply local_same; [apply Pl|done]|eapply local_same; [apply Pf|done]|done]. }
  { eapply affordable_ext; [|exact Has]. intros x. by rewrite Bl. }
  replace (b + Z.of_nat (S (length rs))) with (b + 1 + Z.of_nat (length rs)) by lia.
  assert (last_after (b + 1) (last_index (k ++ [entry_of L (b + 1) r])) (k ++ [entry_of L (b + 1) r]) rs
    = last_after b li k (r :: rs)) as Elast.
  { destruct rs; cbn [last_after entries]; [done|]. by rewrite <- app_assoc. }
  rewrite Elast, <- app_assoc in Hl2, Hf2. exists n2, l2, f2, K2. split_and!; try done.
  - unfold payments. cbn [map concat]. rewrite net_run_app, R1. exact R2.
  - by trans K1.
  - intros x. destruct (B x) as [-> ->]. split; [apply (after_pays_ext rs _ _ Bl x)|apply (after_pays_ext rs _ _ Bf x)].
Qed.
End Progress.

(** Servers 1 and 3 of the first cluster; server 2 never answers. *)
Lemma minority_down_witness :
  let rs := [first_pay; second_pay; third_pay] in
  exists n' l' f' Kf', net_run (J := zero_junk) cluster_one (payments 1 3 2 rs) = Some n' /\ stand 1 3 n' l' f' /\ Kf' ⊆ ∅ /\
    at_rest 1 3 2 3 (last_after 1 0 (-1) [] rs) ([] ++ entries 1 0 rs) ∅ l' /\
    follower_at 3 (last_after 1 0 (-1) [] rs) ([] ++ entries 1 0 rs) Kf' f' /\
    forall x, balance_of l' x = after_pays rs (balance_of (boot 1 [1; 2])) x /\
              balance_of f' x = after_pays rs (balance_of (boot 3 [1; 2])) x.
Proof.
  intros rs.
  assert (forall i x, in_int (balance_of (boot i [1; 2]) x)) as Hint.
  { intros i x. unfold balance_of. change (balances (boot i [1; 2])) with (<[2 := 10]> (<[1 := 10]> (∅ : gmap Z Z))).
    destruct (decide (x = 2)) as [->|]; [vm_compute; split; congruence|].
    destruct (decide (x = 1)) as [->|]; [vm_compute; split; congruence|].
    rewrite !lookup_insert_ne by congruence. rewrite lookup_empty. vm_compute; split; congruence. }
  apply (minority_down (J := zero_junk) 1 3 2 ltac:(lia) 0 (-1) [] ∅ ∅ rs cluster_one (boot 1 [1; 2]) (boot 3 [1; 2])).
  - split; [|split]; vm_compute; reflexivity.
  - vm_compute. reflexivity.
  - vm_compute. reflexivity.
  - lia.
  - vm_compute. reflexivity.
  - intros x. apply Hint.
  - intros x. apply Hint.
  - subst rs. repeat (apply Forall_cons; split; [split; [split; vm_compute; reflexivity|split; [split; vm_compute; reflexivity|split; apply not_elem_of_empty]]|]).
    apply Forall_nil. exact I.
  - subst rs. split; [|split; [|split; [|exact I]]]; vm_compute; congruence.
Defined.
