(* ===== verification/Laggard.v ===== *)
(** * A replica that has fallen behind

    Leader [L], follower [j] and replica [g] of one cluster, with nothing
    lost: [g] has missed a payment.  Each round's prepare message makes [g]
    synchronise, which brings it to the leader's log, but without a promise;
    so the payment of the round passes it by, and it is one payment behind
    again.  It takes part in no decision while payments follow one
    another. *)
From stdpp Require Import gmap list strings.
From Stdlib Require Import ZArith Lia Ascii.
From S2P Require Import Prelude Chars Types Config Wal OutCall Server Store Steps Protocol Acceptor Ledger Sync Calls Network Replication Round Progress.

Section Laggard.
Context {DB : Type} `{KVStore DB} {J : Indeterminate}.
Context (L j g : Z).
Implicit Types (s l f : Server DB) (n : Net DB) (ss : gmap Z (Server DB)).
Hypothesis Hj : L <> j.
Hypothesis Hg : L <> g.
Hypothesis Hjg : j <> g.

(** ** Deliveries *)

(** [j] is asked and heard first; [g]'s message stays on the wire. *)
Definition hear_j : list action := [Deliver (if j <? g then 0 else 1); Deliver 1].

Lemma j_answers ss l f m c f' l2 :
  ss !! j = Some f -> server_exec f (peer_event m) = (f', []) -> HandleRPCResponse l (complete f m c) = (l2, []) ->
  net_run (mk_net (<[L := l]> ss) (sent L j g m c)) hear_j = Some (mk_net (<[L := l2]> (<[j := f']> ss)) [Req L g m (Some c)]).
Proof.
  intros Hf Hex Hrep.
  assert (net_exec (mk_net (<[L := l]> ss) (sent L j g m c)) (Deliver (if j <? g then 0 else 1))
    = Some (mk_net (<[L := l]> (<[j := f']> ss)) [Req L g m (Some c); Rep L (complete f m c)])) as E1.
  { unfold sent, others. destruct (j <? g); cbn -[server_exec complete]; rewrite lookup_insert_ne, Hf by done;
      cbn -[server_exec complete]; rewrite Hex; unfold moved; cbn -[complete]; by rewrite insert_insert_ne. }
  unfold hear_j. cbn [net_run]. rewrite E1. cbn -[complete HandleRPCResponse]. unfold call_ends. cbn [servers].
  rewrite lookup_insert_eq. cbn [mbind option_bind]. rewrite Hrep. cbn. by rewrite insert_insert_eq.
Qed.

(** [g] answers without a message of its own. *)
Definition hear_g : list action := [Deliver 0; Deliver 0].

Lemma g_answers ss l s m c s' l2 :
  ss !! L = Some l -> ss !! g = Some s -> server_exec s (peer_event m) = (s', []) -> HandleRPCResponse l (complete s m c) = (l2, []) ->
  net_run (mk_net ss [Req L g m (Some c)]) hear_g = Some (mk_net (<[L := l2]> (<[g := s']> ss)) []).
Proof.
  intros Hl Hs Hex Hrep. unfold hear_g. cbn -[server_exec complete HandleRPCResponse]. rewrite Hs. cbn -[server_exec complete HandleRPCResponse].
  rewrite Hex. cbn -[complete HandleRPCResponse]. unfold call_ends. cbn [servers]. rewrite lookup_insert_ne, Hl by done.
  cbn [mbind option_bind]. by rewrite Hrep.
Qed.

(** [g] answers and asks for a synchronisation, which the leader serves. *)
Lemma g_syncs ss l s m c s1 l2 q cs :
  ss !! L = Some l -> ss !! g = Some s -> server_exec s (peer_event m) = (s1, [Rpc L (MSync q) cs]) ->
  HandleRPCResponse l (complete s m c) = (l2, []) -> oc_type cs = SYNC ->
  net_run (mk_net ss [Req L g m (Some c)]) (hear_g ++ hear_g)
    = Some (mk_net (<[g := handleSyncReply s1 StatusOK (processSyncCall l2 q)]> (<[L := l2]> ss)) []).
Proof.
  intros Hl Hs Hex Hrep Hc. unfold hear_g. cbn -[server_exec complete HandleRPCResponse]. rewrite Hs. cbn -[server_exec complete HandleRPCResponse].
  rewrite Hex. cbn -[complete HandleRPCResponse server_exec]. unfold call_ends. cbn [servers]. rewrite lookup_insert_ne, Hl by done.
  cbn [mbind option_bind]. rewrite Hrep. cbn -[HandleRPCResponse complete]. rewrite lookup_insert_eq. cbn -[HandleRPCResponse complete].
  unfold call_ends. cbn [servers]. rewrite insert_insert_eq, lookup_insert_ne, lookup_insert_eq by done. cbn [mbind option_bind].
  unfold HandleRPCResponse, complete. cbn. rewrite Hc. cbn. rewrite insert_insert_ne by done. by rewrite insert_insert_eq, insert_insert_ne.
Qed.

(** ** The replica *)

(** [g] has the log [kg], has not promised a ballot above [b], and can reach
    the leader. *)
Record behind (b : Z) (kg : list WALEntry) s : Prop := {
  bh_up : i_am_disconnected s = false;
  bh_log : log s = kg /\ last_inserted s = Z.of_nat (length kg) - 1;
  bh_ballot : ballot_num s <= b /\ b_num (promised_num s) <= b;
  bh_stub : L ∈ stubs s;
  bh_ok : base_ok s
}.

(** What [g] has promised and accepted. *)
Definition votes s := (promised s, promised_num s, accepted s, accept_num s, accept_val s).

Lemma behind_prepare b kg s li :
  behind b kg s -> Z.of_nat (length kg) - 1 < li ->
  processPrepareCall s (mk_prepare_req (mk_ballot (b + 1) L) li)
  = (s <| in_sync := true |>, mk_prepare_res false (mk_ballot (b + 1) L) None None None None (Some (server_id s)),
     [Rpc L (MSync (mk_sync_req (last_inserted s))) (OutCall_new SYNC RPC_TIMEOUT_MS)]).
Proof.
  intros [Hd [_ Hi] [Hb _] Hs _] Hli. unfold processPrepareCall. rewrite Hd. cbn [pq_ballot b_num pq_last_inserted].
  rewrite (proj2 (Z.ltb_lt _ _)) by lia. rewrite (proj2 (Z.eqb_neq li _)) by lia. rewrite (proj2 (Z.ltb_lt (last_inserted s) li)) by lia.
  unfold request_sync. cbn [b_server_id]. rewrite decide_True by done. cbn.
  rewrite (proj2 (Z.leb_gt (b + 1) _)) by lia. rewrite (proj2 (Z.ltb_ge li _)) by lia. done.
Qed.

Lemma behind_accept b kg s r :
  behind b kg s -> processAcceptCall s (mk_accept_req (mk_ballot (b + 1) L) r) = (s, mk_accept_res false (mk_ballot (b + 1) L)).
Proof.
  intros [Hd _ [_ Hp] _ _]. unfold processAcceptCall. rewrite Hd. cbn [aq_ballot b_num].
  rewrite (proj2 (Z.eqb_neq (b + 1) _)) by lia. by rewrite andb_false_r.
Qed.

Lemma behind_commit b kg s : behind b kg s -> processCommitCall s (mk_commit_req (mk_ballot (b + 1) L)) = s.
Proof.
  intros [Hd _ [_ Hp] _ _]. unfold processCommitCall. rewrite Hd. cbn [cq_ballot b_num].
  by rewrite (proj2 (Z.eqb_neq _ (b + 1))) by lia.
Qed.

(** Synchronisation brings [g] to the leader's log. *)
Lemma behind_synced b kg k s l :
  behind b kg s -> log l = k -> last_inserted l = Z.of_nat (length k) - 1 -> Z.of_nat (length k) < 2 ^ 31 - 1 ->
  kg `prefix_of` k -> (length kg < length k)%nat -> good_entries k ->
  wf_ballot (last_inserted_ballot l) -> b_num (last_inserted_ballot l) <= b ->
  let s' := synced (s <| in_sync := true |>) l in
  behind b k s' /\ ledger_step s s' /\ votes s' = votes s.
Proof.
  intros [Hd [Hk Hi] [Hb Hp] Hs Hok] Hl Hil Hlen [e He] Hlt Hgood Hwf Hbl s'. set (s1 := s <| in_sync := true |>) in *.
  assert (missing s1 l = e) as Hm.
  { unfold missing. rewrite Hl, He. change (last_inserted s1) with (last_inserted s). rewrite Hi.
    replace (Z.to_nat (Z.of_nat (length kg) - 1 + 1)) with (length kg) by lia. apply drop_app_length. }
  pose proof (f_equal length He) as Hlk. rewrite length_app in Hlk.
  destruct (synced_fields s1 l) as (E1 & E2 & E3 & E4 & E5); try rewrite Hm;
    try (change (last_inserted s1) with (last_inserted s)); unfold short_log; rewrite ?Hl; try lia.
  rewrite Hm in E1, E2. change (last_inserted s1) with (last_inserted s) in E2. change (log s1) with (log s) in E1.
  assert (ledger_step s s') as Hstep.
  { apply (ledger_trans s s1); [by apply ledger_frame|]. apply synced_ledger; [exact Hok|..]; rewrite ?Hl; try done;
      change (last_inserted s1) with (last_inserted s); lia. }
  assert (i_am_disconnected s' = i_am_disconnected s /\ stubs s' = stubs s /\ votes s' = votes s) as (F1 & F2 & F3).
  { unfold s', synced. generalize (processSyncCall l (mk_sync_req (last_inserted s1))). intros p. unfold handleSyncReply.
    pose proof (foldl_frame (fun s2 => (i_am_disconnected s2, stubs s2, votes s2)) sync_entry (sr_logs p) s1) as Hfr.
    destruct (status_ok StatusOK && sr_ack p); [|done]. cbn in Hfr. revert Hfr. generalize (foldl sync_entry s1 (sr_logs p)). intros s2 Hfr.
    assert ((i_am_disconnected s2, stubs s2, votes s2) = (i_am_disconnected s1, stubs s1, votes s1)) as Ev.
    { apply Hfr. intros s3 x. unfold sync_entry, apply_entry, votes. by repeat case_match. }
    unfold votes in *. injection Ev as V1 V2 V3 V4 V5 V6 V7. cbn. by rewrite V1, V2, V3, V4, V5, V6, V7. }
  fold s' in E1, E2, E4. split; [|by split]. split.
  - by rewrite F1.
  - rewrite E1, E2, Hk, Hi. split; [done|]. rewrite He, length_app. lia.
  - rewrite E4. pose proof (f_equal (fun v => v.1.1.1.2) F3) as F4. cbn [votes fst snd] in F4. by rewrite F4.
  - by rewrite F2.
  - apply Hstep.
Qed.

(** ** The leader hears of it *)

Lemma hear_nack b li k K r v l q o :
  preparing L j g b li k K r v l ->
  exists l', handlePrepareReply l StatusOK q (mk_prepare_res false (mk_ballot b L) None None None None o) = (l', []) /\
    preparing L j g b li k K r v l' /\ same_accounts (wal l) l l' /\ last_inserted_ballot l' = last_inserted_ballot l.
Proof.
  intros (Hv & Ht & Hp & Hs). pose proof Hv as Hv'. injection Hv as H1 H2 H3 H4 H5 H6 H7 H8 H9 H10 H11.
  unfold handlePrepareReply. cbn [pr_ack pr_ballot pr_latest_ballot_num pr_last_inserted b_num b_server_id].
  rewrite H3, Hp, H10, !Z.eqb_refl. cbn [negb status_is_deadline status_ok andb].
  eexists. split; [reflexivity|]. by split_and!.
Qed.

Lemma hear_refusal b li k K r v l q :
  accepting_phase L j g b li k K r v l ->
  exists l', handleAcceptReply l StatusOK q (mk_accept_res false (mk_ballot b L)) = l' /\
    accepting_phase L j g b li k K r v l' /\ same_accounts (wal l) l l'.
Proof.
  intros (Hv & Ht & Hp & Hs). pose proof Hv as Hv'. injection Hv as H1 H2 H3 H4 H5 H6 H7 H8 H9 H10 H11.
  unfold handleAcceptReply. cbn [ar_ack ar_ballot b_num b_server_id].
  rewrite H4, Hp, H10, !Z.eqb_refl. cbn [negb status_is_deadline status_ok andb].
  eexists. split; [reflexivity|]. by split_and!.
Qed.

(** The leader's position in a round. *)
Lemma begin_ballot b li k K r res cross l :
  at_rest L j g b li k K l -> last_inserted_ballot (runPaxos l r res cross).1.1.1 = last_inserted_ballot l.
Proof. intros Hv. injection Hv as H1 H2 H3 H4 _ _ _ _ _ _ _. unfold runPaxos. by rewrite H1, H2, H3, H4. Qed.

Lemma promise_ballot s st q p : last_inserted_ballot (handlePrepareReply s st q p).1 = last_inserted_ballot s.
Proof. unfold handlePrepareReply. by repeat case_match. Qed.

Lemma finish_ballot b li k K r res l :
  accepting_phase L j g b li k K r 2 l -> last_inserted_ballot (runPaxos l r res false).1.1.1 = mk_ballot b L.
Proof.
  intros (Hv & Ht & Hp & Hs). injection Hv as H1 H2 H3 H4 H5 H6 H7 H8 H9 H10 H11.
  unfold runPaxos. rewrite H1, H2, H3, H4, Ht, Z.eqb_refl, Hs, <- Hp. done.
Qed.

(** ** The exchanges of a round, nothing lost *)

Definition stand3 n l f s : Prop :=
  servers n !! L = Some l /\ servers n !! j = Some f /\ servers n !! g = Some s /\ wire n = [].

Definition asked (r : TransferReq) : action := Ask L (ev_transfer r default_transfer_res).
Definition exchange3 (r : TransferReq) : list action := asked r :: hear_j ++ hear_g.
Definition exchange_sync (r : TransferReq) : list action := asked r :: hear_j ++ hear_g ++ hear_g.

Lemma exchange_three n l f s r l1 res m c fin l2 f2 s2 l3 :
  stand3 n l f s -> runPaxos l r default_transfer_res false = (l1, res, map (fun i => Rpc i m c) (others j g), fin) ->
  heard l1 f m c l2 f2 -> server_exec s (peer_event m) = (s2, []) -> HandleRPCResponse l2 (complete s m c) = (l3, []) ->
  exists n', net_run n (exchange3 r) = Some n' /\ stand3 n' l3 f2 s2.
Proof.
  destruct n as [ss w]. intros (Hl & Hf & Hs & Hw) Hr [Hex Hrep] Hexs Hreps. cbn [servers wire] in *. subst w.
  eexists. split.
  - unfold exchange3, asked. cbn [net_run app]. erewrite ask_sends by done. cbn [mbind option_bind]. rewrite net_run_app.
    erewrite j_answers by done. cbn [mbind option_bind]. eapply g_answers; [by rewrite lookup_insert_eq| |exact Hexs|exact Hreps].
    by rewrite !lookup_insert_ne.
  - split_and!; cbn [servers wire]; [by rewrite lookup_insert_eq| |rewrite lookup_insert_ne by done; by rewrite lookup_insert_eq|done].
    rewrite !(lookup_insert_ne _ _ j) by done. by rewrite lookup_insert_eq.
Qed.

Lemma exchange_synced n l f s r l1 res m c fin l2 f2 s1 q cs l3 :
  stand3 n l f s -> runPaxos l r default_transfer_res false = (l1, res, map (fun i => Rpc i m c) (others j g), fin) ->
  heard l1 f m c l2 f2 -> server_exec s (peer_event m) = (s1, [Rpc L (MSync q) cs]) -> oc_type cs = SYNC ->
  HandleRPCResponse l2 (complete s m c) = (l3, []) ->
  exists n', net_run n (exchange_sync r) = Some n' /\ stand3 n' l3 f2 (handleSyncReply s1 StatusOK (processSyncCall l3 q)).
Proof.
  destruct n as [ss w]. intros (Hl & Hf & Hs & Hw) Hr [Hex Hrep] Hexs Hc Hreps. cbn [servers wire] in *. subst w.
  eexists. split.
  - unfold exchange_sync, asked. cbn [net_run app]. erewrite ask_sends by done. cbn [mbind option_bind]. rewrite net_run_app.
    erewrite j_answers by done. cbn [mbind option_bind]. eapply g_syncs; [by rewrite lookup_insert_eq| |exact Hexs|exact Hreps|exact Hc].
    by rewrite !lookup_insert_ne.
  - split_and!; cbn [servers wire]; [| |by rewrite lookup_insert_eq|done].
    + rewrite lookup_insert_ne by done. by rewrite lookup_insert_eq.
    + rewrite !(lookup_insert_ne _ _ j) by done. by rewrite lookup_insert_eq.
Qed.

(** ** One payment *)

(** The leader and the follower at rest with the log [k], and [g] behind. *)
Record trio (b : Z) (k : list WALEntry) (K : gset Z) (kg : list WALEntry) n l f s : Prop := {
  tr_stand : stand3 n l f s;
  tr_lead : at_rest L j g b (last_index k) k K l;
  tr_follow : exists Kf, follower_at b (last_index k) k Kf f;
  tr_behind : behind b kg s /\ kg `prefix_of` k /\ (length kg < length k)%nat;
  tr_good : good_entries k;
  tr_ballot : wf_ballot (last_inserted_ballot l) /\ b_num (last_inserted_ballot l) <= b
}.

Lemma behind_weaken b b' kg s : b <= b' -> behind b kg s -> behind b' kg s.
Proof. intros Hle [H1 H2 [H3 H4] H5 H6]. split; try done. split; lia. Qed.

Lemma last_index_short (k : list WALEntry) : Z.of_nat (length k) < 2 ^ 31 - 1 -> last_index k = Z.of_nat (length k) - 1.
Proof. intros Hk. apply wrap32_id. unfold in_int. lia. Qed.

(** The prepare messages: [j] promises, [g] synchronises. *)
Lemma all_prepare b k K kg n l f s r :
  trio b k K kg n l f s -> 0 <= b -> b + 1 < 2 ^ 31 -> Z.of_nat (length k) < 2 ^ 31 - 1 ->
  exists n' l' f' s' Kf, net_run n (exchange_sync r) = Some n' /\ stand3 n' l' f' s' /\
    preparing L j g (b + 1) (last_index k) k K r 2 l' /\ same_accounts (wal l) l l' /\
    follower_at (b + 1) (last_index k) k Kf f' /\ promised f' = true /\ promised_num f' = mk_ballot (b + 1) L /\ same_accounts (wal f) f f' /\
    behind b k s' /\ ledger_step s s' /\ votes s' = votes s.
Proof.
  intros [Hn Hl [Kf Hf] (Hs & Hpre & Hlt) Hgood [Hwf Hbl]] Hb0 Hb Hlen. pose proof (last_index_short k Hlen) as Eli.
  destruct (begin_round L j g b _ k K r default_transfer_res false l Hl Hb Hb0) as (l1 & res1 & o1 & X1 & Hl1 & Sl1 & c1 & -> & Ty1).
  destruct (prepare_heard L j g b _ k K Kf r l1 f c1 Hl1 Hf Ty1) as (l2 & f2 & E1 & Hl2 & Sl2 & Hf2 & Hp & Hpn & Sf2).
  pose proof (begin_ballot b _ k K r default_transfer_res false l Hl) as B1. rewrite X1 in B1. cbn [fst] in B1.
  pose proof (behind_prepare b kg s (last_index k) Hs ltac:(lia)) as Ep.
  destruct (hear_nack (b + 1) _ k K r 2 l2 (oc_prepareReq c1) (Some (server_id s)) Hl2) as (l3 & Hh & Hl3 & Sl3 & B3).
  destruct (exchange_synced n l f s r l1 res1 _ c1 false l2 f2 (s <| in_sync := true |>) (mk_sync_req (last_inserted s))
    (OutCall_new SYNC RPC_TIMEOUT_MS) l3 Hn X1 E1) as (n' & R & Hn').
  { cbn [server_exec peer_event]. rewrite Ep. reflexivity. }
  { done. }
  { unfold HandleRPCResponse, complete. cbn. rewrite Ty1, Ep. exact Hh. }
  assert (last_inserted_ballot l3 = last_inserted_ballot l) as B.
  { rewrite B3, <- B1. destruct E1 as [_ E1]. unfold HandleRPCResponse, complete in E1. cbn in E1. rewrite Ty1 in E1.
    apply (f_equal fst) in E1. cbn in E1. rewrite <- E1. apply promise_ballot. }
  pose proof Hl3 as (V3 & _). injection V3 as _ _ _ _ _ G1 G2 _ _ _ _.
  destruct (behind_synced b kg k s l3 Hs G2) as (Bs & Hst & Hv); rewrite ?B; try done; [by rewrite G1|].
  do 5 eexists. split; [exact R|]. split; [exact Hn'|]. split; [exact Hl3|]. split.
  { pose proof (same_trans _ _ _ _ _ Sl1 Sl2) as Sl. rewrite (same_wal _ _ _ Sl1) in Sl. rewrite (same_wal _ _ _ Sl) in Sl3. by eapply same_trans. }
  split; [exact Hf2|]. by split_and!.
Qed.

(** The accept messages: [j] accepts, [g] refuses. *)
Lemma all_accept b li k K Kf kg n l f s r :
  stand3 n l f s -> preparing L j g (b + 1) li k K r 2 l -> follower_at (b + 1) li k Kf f -> promised f = true ->
  promised_num f = mk_ballot (b + 1) L -> behind b kg s -> can_pay K (tr_txn r) l -> is_cross f (tr_txn r) = false ->
  exists n' l' f', net_run n (exchange3 r) = Some n' /\ stand3 n' l' f' s /\
    accepting_phase L j g (b + 1) li k ({[receiver (tr_txn r)]} ∪ (my_accounts l (tr_txn r) ∪ K)) r 2 l' /\ same_accounts (wal l) l l' /\
    holding L (b + 1) li k (my_accounts f (tr_txn r) ∪ Kf) r f' /\ same_accounts (wal f) f f'.
Proof.
  intros Hn Hl Hf Hp Hpn Hs Hpay Hx.
  destruct (propose L j g (b + 1) li k K r l default_transfer_res false Hl Hpay) as (l1 & res1 & o1 & X1 & Hl1 & Sl1 & c1 & -> & Ty1).
  destruct (accept_heard L j g (b + 1) li k ({[receiver (tr_txn r)]} ∪ (my_accounts l (tr_txn r) ∪ K)) Kf r l1 f c1)
    as (l2 & f2 & E1 & Hl2 & Sl2 & Hf2 & Sf2); try done; [by rewrite Hx|].
  rewrite Hx in *. cbn [proposed_log proposed_last proposed_wal] in *.
  destruct (hear_refusal (b + 1) li k _ r 2 l2 (oc_acceptReq c1) Hl2) as (l3 & Hh & Hl3 & Sl3).
  pose proof (behind_accept b kg s r Hs) as Ea.
  destruct (exchange_three n l f s r l1 res1 _ c1 false l2 f2 s l3 Hn X1 E1) as (n' & R & Hn').
  { cbn [server_exec peer_event]. by rewrite Ea. }
  { unfold HandleRPCResponse, complete. cbn. rewrite Ty1, Ea. f_equal. exact Hh. }
  exists n', l3, f2. split; [exact R|]. split; [exact Hn'|]. split; [exact Hl3|]. split; [|by split].
  pose proof (same_trans _ _ _ _ _ Sl1 Sl2) as Sl. rewrite (same_wal _ _ _ Sl1) in Sl. rewrite (same_wal _ _ _ Sl) in Sl3. by eapply same_trans.
Qed.

(** The commit messages: [j] commits, [g] lets it pass. *)
Lemma all_commit b li k K Kf kg n l f s r :
  stand3 n l f s -> accepting_phase L j g (b + 1) li k K r 2 l -> holding L (b + 1) li k Kf r f -> local_clients r f -> behind b kg s ->
  let k' := k ++ [entry_of L (b + 1) r] in
  exists n' l' f', net_run n (exchange3 r) = Some n' /\ stand3 n' l' f' s /\
    at_rest L j g (b + 1) (last_index k') k' (K ∖ {[sender (tr_txn r)]} ∖ {[receiver (tr_txn r)]}) l' /\
    follower_at (b + 1) (last_index k') k' (Kf ∖ my_accounts f (tr_txn r)) f' /\ paid r l l' /\ paid r f f' /\
    last_inserted_ballot l' = mk_ballot (b + 1) L.
Proof.
  intros Hn Hl Hf [Cf1 Cf2] Hs k'.
  destruct (finish_round L j g (b + 1) li k K r l default_transfer_res Hl) as (l1 & o1 & X1 & Hl1 & Pl & c1 & -> & Ty1).
  pose proof (finish_ballot (b + 1) li k K r default_transfer_res l Hl) as B1. rewrite X1 in B1. cbn [fst] in B1.
  destruct (follower_commits L (b + 1) li k _ r f Hf Cf1 Cf2) as [Hf2 Pf].
  destruct (exchange_three n l f s r l1 _ _ c1 true l1 _ s l1 Hn X1 (commit_heard L (b + 1) l1 f c1 Ty1)) as (n' & R & Hn').
  { cbn [server_exec peer_event]. by rewrite (behind_commit b kg s Hs). }
  { unfold HandleRPCResponse, complete. cbn. by rewrite Ty1. }
  do 3 eexists. split; [exact R|]. split; [exact Hn'|]. by split_and!.
Qed.

Definition payment3 (r : TransferReq) : list action := exchange_sync r ++ exchange3 r ++ exchange3 r.

(** A request the cluster can take: a payment of two of its clients. *)
Definition local_payment (r : TransferReq) : Prop := wf_transfer_req r /\ tr_tid r <> -1.

Lemma trio_round b k K kg n l f s r :
  trio b k K kg n l f s -> 0 <= b -> b + 1 < 2 ^ 31 -> in_int L -> Z.of_nat (length k) < 2 ^ 31 - 1 ->
  local_payment r -> local_clients r l -> local_clients r f -> unlocked K r -> amount (tr_txn r) <= balance_of l (sender (tr_txn r)) ->
  exists n' l' f' s', net_run n (payment3 r) = Some n' /\ trio (b + 1) (k ++ [entry_of L (b + 1) r]) K k n' l' f' s' /\
    ledger_step s s' /\ votes s' = votes s /\ paid r l l' /\ paid r f f'.
Proof.
  intros Ht Hb0 Hb HL Hlen [Hwf Htid] Cl Cf [Hus Hur] Ha. pose proof (tr_good _ _ _ _ _ _ _ _ Ht) as Hgood.
  destruct (local_accounts r l Cl) as [_ Eml]. destruct (local_accounts r f Cf) as [Hx Emf].
  destruct (all_prepare b k K kg n l f s r Ht Hb0 Hb Hlen) as (n1 & l1 & f1 & s1 & Kf1 & R1 & Hn1 & Hl1 & Sl1 & Hf1 & Hp & Hpn & Sf1 & Hs1 & St & Hv).
  destruct (all_accept b _ k K Kf1 k n1 l1 f1 s1 r Hn1 Hl1 Hf1 Hp Hpn Hs1) as (n2 & l2 & f2 & R2 & Hn2 & Hl2 & Sl2 & Hf2 & Sf2).
  { eapply can_pay_same; [exact Sl1|]. by split. }
  { unfold is_cross in *. by rewrite !(proj1 Sf1). }
  rewrite (my_accounts_same _ _ _ _ Sl1), Eml in Hl2. rewrite (same_wal _ _ _ Sl1) in Sl2. rewrite (same_wal _ _ _ Sf1) in Sf2.
  pose proof (same_trans _ _ _ _ _ Sl1 Sl2) as Sl. pose proof (same_trans _ _ _ _ _ Sf1 Sf2) as Sf.
  destruct (all_commit b _ k _ _ k n2 l2 f2 s1 r Hn2 Hl2 Hf2 (local_same r f f2 (proj1 Sf) Cf) Hs1) as (n3 & l3 & f3 & R3 & Hn3 & Hl3 & Hf3 & Pl & Pf & B3).
  exists n3, l3, f3, s1. split; [unfold payment3; rewrite net_run_app, R1; cbn [mbind option_bind]; by rewrite net_run_app, R2|].
  split; [|split_and!; [exact St|exact Hv|by eapply paid_same|by eapply paid_same]].
  assert (wf_entry (entry_of L (b + 1) r)) as Hwe.
  { refine (conj (proj2 Hwf) (conj _ (conj HL (proj1 Hwf)))). unfold in_int. cbn [we_ballot_num entry_of]. lia. }
  assert (wf_ballot (mk_ballot (b + 1) L) /\ b_num (mk_ballot (b + 1) L) <= b + 1) as Hbl.
  { unfold wf_ballot, in_int in *. cbn [b_num b_server_id]. lia. }
  split; [exact Hn3| |eauto| | |by rewrite B3].
  - replace K with (({[receiver (tr_txn r)]} ∪ ({[sender (tr_txn r); receiver (tr_txn r)]} ∪ K)) ∖ {[sender (tr_txn r)]} ∖ {[receiver (tr_txn r)]})
      by set_solver. exact Hl3.
  - split; [apply (behind_weaken b); [lia|exact Hs1]|]. split; [apply prefix_app_r; done|]. rewrite length_app. cbn. lia.
  - apply Forall_app. split; [exact Hgood|]. apply Forall_singleton. by split.
Qed.

(** ** Any sequence of payments *)

Definition payments3 (rs : list TransferReq) : list action := concat (map payment3 rs).

(** The replica's log after the payments: the leader's, but for the last. *)
Definition lagging_log (kg k : list WALEntry) (b : Z) (rs : list TransferReq) : list WALEntry :=
  match rs with [] => kg | _ => removelast (k ++ entries L b rs) end.

(** C7. A replica that has fallen behind stays behind.  Leader, follower and
    a replica that misses at least one payment; nothing is lost or delayed,
    and the replica synchronises in every round.  Every affordable sequence
    of payments is committed by the other two, and all the while the replica
    promises nothing and accepts nothing: after the payments it has the
    leader's log but for the last entry, and its accounts have moved by
    exactly the entries it has taken over. *)
Theorem laggard_stays_behind b k K kg rs n l f s :
  trio b k K kg n l f s -> 0 <= b -> b + Z.of_nat (length rs) < 2 ^ 31 -> in_int L ->
  Z.of_nat (length k + length rs) < 2 ^ 31 - 1 -> int_accounts l -> int_accounts f ->
  Forall (fun r => local_payment r /\ local_clients r l /\ local_clients r f /\ unlocked K r) rs -> affordable (balance_of l) rs ->
  exists n' l' f' s', net_run n (payments3 rs) = Some n' /\
    trio (b + Z.of_nat (length rs)) (k ++ entries L b rs) K (lagging_log kg k b rs) n' l' f' s' /\
    votes s' = votes s /\ ledger_step s s'.
Proof.
  revert b k kg n l f s. induction rs as [|r rs IH]; intros b k kg n l f s Ht Hb0 Hb HL Hlen Il If Hcs Ha.
  { exists n, l, f, s. cbn [length entries lagging_log]. rewrite app_nil_r, Z.add_0_r. split_and!; try done.
    apply ledger_refl. apply Ht. }
  cbn [length] in Hb, Hlen |- *. apply Forall_cons in Hcs as [(Hr & Cl & Cf & Hu) Hcs]. destruct Ha as [Ha Has].
  destruct (trio_round b k K kg n l f s r) as (n1 & l1 & f1 & s1 & R1 & Ht1 & St1 & V1 & Pl & Pf); try done; [lia|lia|].
  destruct (paid_int r l l1 Il Pl) as [Il1 Bl], (paid_int r f f1 If Pf) as [If1 _].
  destruct (IH (b + 1) (k ++ [entry_of L (b + 1) r]) k n1 l1 f1 s1 Ht1)
    as (n2 & l2 & f2 & s2 & R2 & Ht2 & V2 & St2); try done; try lia.
  { rewrite length_app. cbn [length]. lia. }
  { eapply Forall_impl; [exact Hcs|]. intros q (? & ? & ? & ?).
    split_and!; [done|eapply local_same; [apply Pl|done]|eapply local_same; [apply Pf|done]|done]. }
  { eapply affordable_ext; [|exact Has]. intros x. by rewrite Bl. }
  assert (lagging_log k (k ++ [entry_of L (b + 1) r]) (b + 1) rs = lagging_log kg k b (r :: rs)) as Elog.
  { destruct rs; cbn [lagging_log entries]; [by rewrite removelast_last|]. by rewrite <- app_assoc. }
  replace (b + Z.of_nat (S (length rs))) with (b + 1 + Z.of_nat (length rs)) by lia.
  rewrite Elog, <- app_assoc in Ht2. exists n2, l2, f2, s2. split; [|split; [exact Ht2|split; [congruence|by eapply ledger_trans]]].
  unfold payments3. cbn [map concat]. by rewrite net_run_app, R1.
Qed.
End Laggard.

(** ** Witness

    Server 3 has missed the first payment of server 1; then everything
    arrives. *)

Definition one_missed : Net map_store := default cluster_one (net_run (J := zero_junk) cluster_one (payments 1 2 3 [first_pay])).
Definition server_of (n : Net map_store) (i : Z) : Server map_store := default (boot i [1; 2]) (servers n !! i).
Definition missed_log : list WALEntry := [entry_of 1 1 first_pay].

Lemma two_accounts (s : Server map_store) : balances s = {[1 := 7; 2 := 13]} -> int_accounts s.
Proof.
  unfold int_accounts, balance_of. intros -> x. unfold in_int. rewrite lookup_insert. case_decide; cbn; [lia|].
  destruct (decide (x = 2)) as [->|H2]; [rewrite lookup_singleton_eq; cbn; lia|]. rewrite lookup_singleton_ne by congruence. cbn. lia.
Qed.

Lemma missed_trio : trio 1 2 3 1 missed_log ∅ [] one_missed (server_of one_missed 1) (server_of one_missed 2) (boot 3 [1; 2]).
Proof.
  split.
  - split_and!; vm_compute; reflexivity.
  - vm_compute. reflexivity.
  - exists ∅. vm_compute. reflexivity.
  - split; [|split; [apply prefix_nil|cbn; lia]]. split.
    + vm_compute. reflexivity.
    + split; vm_compute; reflexivity.
    + split; vm_compute; congruence.
    + apply (bool_decide_unpack _). vm_compute. exact I.
    + apply boot_base_ok. unfold in_int. lia.
  - apply Forall_singleton. split; [|vm_compute; congruence]. apply (bool_decide_unpack _). vm_compute. exact I.
  - split; [split|]; vm_compute; [split; congruence..|congruence].
Qed.

Lemma laggard_stays_behind_witness :
  let rs := [second_pay; third_pay] in
  exists n' l' f' s', net_run (J := zero_junk) one_missed (payments3 1 2 3 rs) = Some n' /\
    trio 1 2 3 3 (missed_log ++ entries 1 1 rs) ∅ (lagging_log 1 [] missed_log 1 rs) n' l' f' s' /\
    votes s' = votes (boot 3 [1; 2]) /\ ledger_step (boot 3 [1; 2]) s'.
Proof.
  intros rs. apply (laggard_stays_behind (J := zero_junk) 1 2 3 ltac:(lia) ltac:(lia) ltac:(lia) 1 missed_log ∅ [] rs
    one_missed (server_of one_missed 1) (server_of one_missed 2) (boot 3 [1; 2])).
  - exact missed_trio.
  - lia.
  - vm_compute. reflexivity.
  - unfold in_int. lia.
  - vm_compute. reflexivity.
  - apply two_accounts. vm_compute. reflexivity.
  - apply two_accounts. vm_compute. reflexivity.
  - subst rs. repeat (apply Forall_cons; split;
      [split; [split; [apply (bool_decide_unpack _); vm_compute; exact I|vm_compute; congruence]|
        split; [split; vm_compute; reflexivity|split; [split; vm_compute; reflexivity|split; apply not_elem_of_empty]]]|]).
    apply Forall_nil. exact I.
  - subst rs. split; [|split; [|exact I]]; vm_compute; congruence.
Defined.

(** The other replica fails next: the leader has one refusal and one
    deadline, and turns the payment away although two servers are up. *)
Definition then_one_fails : list action :=
  payments3 1 2 3 [second_pay] ++ [asked 1 third_pay; Expire 0; Lose 0; Deliver 0; Deliver 0; Deliver 0; Deliver 0].

Example payment_turned_away :
  (n ← net_run (J := zero_junk) one_missed then_one_fails; s ← servers n !! 1;
   Some ((processTransferCall s third_pay default_transfer_res).1.1.2, (processTransferCall s third_pay default_transfer_res).2,
         balance_of s 1)) = Some (mk_transfer_res false 9, true, 12).
Proof. vm_compute. reflexivity. Qed.
