(* ===== verification/Client.v ===== *)
(** * The coordinator: class [Client] of [client/client.cc]

    The client of the bank is the coordinator of two-phase commit.  Its
    state is the map of transactions being prepared; [processTransactions]
    starts transactions, [consume] is one turn of the loop of
    [consumeReplies].  The clock and the replies are the environment's.  The
    sum of durations is a [double] in the source; the model keeps the list of
    its addends. *)
From stdpp Require Import gmap list strings.
From Stdlib Require Import ZArith Lia Ascii.
From S2P Require Import Prelude Chars Types Config OutCall Server.

Record TpcPrepareRes := mk_tpc_prepare_res { tp_txn : Transaction; successes : Z; failures : Z }.

#[export] Instance TpcPrepareRes_settable : Settable TpcPrepareRes := fun p =>
  mk_tpc_prepare_res (tp_txn p) (successes p) (failures p).

Record Client := mk_client {
  cl_consts : constants;
  cl_stubs : list std_string;
  cl_processing : gmap Z TpcPrepareRes;
  cl_durations : list Z;
  transactions_processed : Z
}.

#[export] Instance Client_settable : Settable Client := fun c =>
  mk_client (cl_consts c) (cl_stubs c) (cl_processing c) (cl_durations c) (transactions_processed c).

(** An RPC in flight, as its completion finds it. *)
Record ClientCall := mk_client_call { cc_type : RequestTypes; cc_reply : TransferRes; cc_status : Status }.

Inductive client_msg :=
| CTransfer (r : TransferReq)
| CTpcPrepare (r : TransferReq)
| CTpcCommit (r : TpcTid)
| CTpcAbort (r : TpcTid)
| CDisconnect (r : DisconnectReq).

(** An RPC to the named server; [CNull] is a call through the null stub that
    [operator[]] makes for an unknown name. *)
Inductive COut := CRpc (server : std_string) (m : client_msg) | CNull (server : std_string).

Definition Client_new (c : constants) : Client := mk_client c (server_ids c).*1 ∅ [] 0.

Definition call_stub (c : Client) (server : std_string) (m : client_msg) : COut :=
  if decide (server ∈ cl_stubs c) then CRpc server m else CNull server.

Definition updateDisconnected (c : Client) (disconnected_servers : list std_string) : list COut :=
  map (fun s => CRpc s (CDisconnect (mk_disconnect_req disconnected_servers))) (cl_stubs c).

Definition sendTransfer (c : Client) (request : TransferReq) (leader : std_string) : list COut :=
  [call_stub c leader (CTransfer request)].

Definition tpcPrepare (c : Client) (request : TransferReq) (leader : std_string) : list COut :=
  [call_stub c leader (CTpcPrepare request)].

(** The servers of the two clusters, in the order of the table. *)
Definition participants (c : Client) (sender_cluster receiver_cluster : Z) : list std_string :=
  (filter (fun p => getClusterIdFromServerId (cl_consts c) p.2 = sender_cluster \/
                    getClusterIdFromServerId (cl_consts c) p.2 = receiver_cluster)
     (server_ids (cl_consts c))).*1.

Definition tpcCommit (c : Client) (request : TpcTid) (sender_cluster receiver_cluster : Z) : list COut :=
  map (fun s => call_stub c s (CTpcCommit request)) (participants c sender_cluster receiver_cluster).

Definition tpcAbort (c : Client) (request : TpcTid) (sender_cluster receiver_cluster : Z) : list COut :=
  map (fun s => call_stub c s (CTpcAbort request)) (participants c sender_cluster receiver_cluster).

(** [leaders[cluster - 1]]; outside the vector the behaviour is undefined. *)
Definition leader_of (leaders : list std_string) (cluster : Z) : option std_string :=
  if cluster <? 1 then None else leaders !! Z.to_nat (cluster - 1).

(** One transaction; [tid] is the time read from the clock. *)
Definition process_one (leaders : list std_string) (c : Client) (t : Transaction) (tid : Z) :
    option (Client * list COut) :=
  let sender_cluster := getClusterIdFromClientId (cl_consts c) (sender t) in
  let receiver_cluster := getClusterIdFromClientId (cl_consts c) (receiver t) in
  match leader_of leaders sender_cluster, leader_of leaders receiver_cluster with
  | Some sender_leader, Some receiver_leader =>
    let request := mk_transfer_req (mk_txn (sender t) (receiver t) (amount t)) tid in
    if sender_cluster =? receiver_cluster then Some (c, sendTransfer c request sender_leader)
    else
      let c := c <| cl_processing ::= <[tid := mk_tpc_prepare_res (mk_txn (sender t) (receiver t) (amount t)) 0 0]> |> in
      Some (c, tpcPrepare c request sender_leader ++ tpcPrepare c request receiver_leader)
  | _, _ => None
  end.

(** Each transaction comes with the time at which its turn is reached. *)
Fixpoint processTransactions (c : Client) (ts : list (Transaction * Z)) (leaders : list std_string) :
    option (Client * list COut) :=
  match ts with
  | [] => Some (c, [])
  | (t, tid) :: ts' =>
    match process_one leaders c t tid with
    | None => None
    | Some (c, o) =>
      match processTransactions c ts' leaders with
      | None => None
      | Some (c, o') => Some (c, o ++ o')
      end
    end
  end.

(** [processing[tid]]: a missing record is added as zeros. *)
Definition processing_at (c : Client) (tid : Z) : TpcPrepareRes :=
  default (mk_tpc_prepare_res (mk_txn 0 0 0) 0 0) (cl_processing c !! tid).

(** One completed call: the body of the loop of [consumeReplies].  [end_time]
    is the clock. *)
Definition consume (c : Client) (call : ClientCall) (end_time : Z) : Client * list COut :=
  if bool_decide (cc_type call = TRANSFER) && status_ok (cc_status call) then
    (c <| cl_durations ::= fun d => d ++ [wrap64 (end_time - ts_tid (cc_reply call))] |>
       <| transactions_processed ::= fun n => wrap32 (n + 1) |>, [])
  else if bool_decide (cc_type call = TPC_PREPARE) then
    let tid := ts_tid (cc_reply call) in
    let p := processing_at c tid in
    let p := if negb (status_ok (cc_status call)) || negb (ts_ack (cc_reply call))
             then p <| failures ::= fun n => wrap32 (n + 1) |>
             else p <| successes ::= fun n => wrap32 (n + 1) |> in
    let c := c <| cl_processing ::= <[tid := p]> |> in
    let commit := successes p =? 2 in
    let abort := (0 <? failures p) && (wrap32 (successes p + failures p) =? 2) in
    if commit || abort then
      let c := c <| cl_durations ::= fun d => d ++ [wrap64 (end_time - tid)] |>
                 <| transactions_processed ::= fun n => wrap32 (n + 1) |> in
      let sender_cluster := getClusterIdFromClientId (cl_consts c) (sender (tp_txn p)) in
      let receiver_cluster := getClusterIdFromClientId (cl_consts c) (receiver (tp_txn p)) in
      let request := mk_tid tid in
      let outs := if commit then tpcCommit c request sender_cluster receiver_cluster
                  else tpcAbort c request sender_cluster receiver_cluster in
      (c <| cl_processing ::= delete tid |>, outs)
    else (c, [])
  else (c, []).

(** A completion the queue reports as not ok stops the process ([CHECK]). *)
Definition consumeReply (c : Client) (call : ClientCall) (ok : bool) (end_time : Z) : option (Client * list COut) :=
  if ok then Some (consume c call end_time) else None.

Definition consumeReplies (c : Client) (calls : list (ClientCall * Z)) : Client * list COut :=
  foldl (fun r x => let r' := consume r.1 x.1 x.2 in (r'.1, r.2 ++ r'.2)) (c, []) calls.

(** ** Printing *)

(** [std::setw(10)], which pads on the left. *)
Definition setw10 (s : std_string) : std_string := repeat " "%char (10 - length s) ++ s.

(** [rpc] is what each server answers; [None] is a failed RPC. *)
Definition printBalance (c : Client) (client_id : Z)
    (rpc : std_string -> BalanceReq -> option BalanceRes) : std_string :=
  let cluster_id := getClusterIdFromClientId (cl_consts c) client_id in
  let servers := getServersInCluster (cl_consts c) cluster_id in
  let balances := map (fun s => match rpc s (mk_balance_req client_id) with
                                | Some reply => to_string (br_amount reply)
                                | None => str "-"
                                end) servers in
  setw10 (str "Server|") ++ setw10 (str "Balance|") ++ [newline] ++
  concat (zip_with (fun s b => setw10 (s ++ str "|") ++ setw10 (b ++ str "|") ++ [newline]) servers balances).

Definition status_letter (s : TransactionStatus) : std_string :=
  match s with PREPARED => str "P" | COMMITTED => str "C" | ABORTED => str "A" | NO_STATUS => str "NS" end.

Definition print_entry (e : WALEntry) : std_string :=
  str "[<" ++ to_string (we_ballot_num e) ++ str "," ++ to_string (we_ballot_server_id e) ++ str ">, " ++
  (if decide (we_type e = CROSS) then status_letter (we_status e) ++ str ", " else []) ++
  str "(" ++ to_string (sender (we_txn e)) ++ str ", " ++ to_string (receiver (we_txn e)) ++ str ", " ++
  to_string (amount (we_txn e)) ++ str ")]".

Fixpoint print_entries (first : bool) (l : list WALEntry) : std_string :=
  match l with
  | [] => []
  | e :: l' => (if first then [] else str " -> ") ++ print_entry e ++ print_entries false l'
  end.

Definition printDatastore (c : Client) (rpc : std_string -> option LogRes) : std_string :=
  let datastore := map (fun p => (p.1, match rpc p.1 with
                                       | Some reply => map entry_of_log (lr_logs reply)
                                       | None => []
                                       end)) (server_ids (cl_consts c)) in
  setw10 (str "Server|") ++ setw10 (str " ") ++ str "Datastore" ++ [newline] ++
  concat (map (fun p => setw10 (p.1 ++ str "|") ++ setw10 (str " ") ++ print_entries true p.2 ++
                        [newline; newline]) datastore).

(** The [double] arithmetic and its formatting are parameters: the text of
    the sum of the durations, and of the rate. *)
Definition printPerformance (show_total : list Z -> std_string) (show_rate : Z -> list Z -> std_string)
    (c : Client) : std_string :=
  str "Transactions Processed: " ++ to_string (transactions_processed c) ++ [newline] ++
  str "Time taken: " ++ show_total (cl_durations c) ++ str " ns" ++ [newline] ++
  str "Performance: " ++
  (if 0 <? transactions_processed c then show_rate (transactions_processed c) (cl_durations c) else str "0") ++
  str " transactions/second" ++ [newline].

(** ** Starting transactions *)

Section Start.
Context (c : Client) (leaders : list std_string).

(** The leaders name one server of the table for each cluster. *)
Definition leaders_ok : Prop :=
  Z.of_nat (length leaders) = num_clusters (cl_consts c) /\ Forall (fun s => s ∈ cl_stubs c) leaders.

Lemma leader_of_ok k :
  leaders_ok -> 1 <= k <= num_clusters (cl_consts c) ->
  exists s, leader_of leaders k = Some s /\ s ∈ cl_stubs c.
Proof.
  intros [Hlen Hall] Hk. unfold leader_of. destruct (Z.ltb_spec k 1); [lia|].
  destruct (lookup_lt_is_Some_2 leaders (Z.to_nat (k - 1))) as [s Hs]; [lia|].
  exists s. split; [done|]. by apply (Forall_lookup_1 _ _ _ _ Hall Hs).
Qed.
End Start.

Lemma process_one_eq c leaders t tid :
  config_ok (cl_consts c) -> leaders_ok c leaders ->
  1 <= sender t <= total_clients -> 1 <= receiver t <= total_clients ->
  let k1 := getClusterIdFromClientId (cl_consts c) (sender t) in
  let k2 := getClusterIdFromClientId (cl_consts c) (receiver t) in
  exists l1 l2, leader_of leaders k1 = Some l1 /\ leader_of leaders k2 = Some l2 /\
  process_one leaders c t tid =
    Some (if k1 =? k2 then (c, [CRpc l1 (CTransfer (mk_transfer_req t tid))])
          else (c <| cl_processing ::= <[tid := mk_tpc_prepare_res t 0 0]> |>,
                [CRpc l1 (CTpcPrepare (mk_transfer_req t tid)); CRpc l2 (CTpcPrepare (mk_transfer_req t tid))])).
Proof.
  intros Hc Hl Hs Hr k1 k2.
  destruct (leader_of_ok c leaders k1 Hl) as (l1 & E1 & H1); [by apply client_cluster_range|].
  destruct (leader_of_ok c leaders k2 Hl) as (l2 & E2 & H2); [by apply client_cluster_range|].
  exists l1, l2. split_and!; [done|done|]. unfold process_one. fold k1 k2. rewrite E1, E2.
  assert (mk_txn (sender t) (receiver t) (amount t) = t) as -> by (by destruct t).
  destruct (k1 =? k2); unfold sendTransfer, tpcPrepare, call_stub; rewrite !decide_True by done; reflexivity.
Qed.

(** A started transaction: inside one cluster or between two. *)
Definition crosses (c : Client) (t : Transaction) : bool :=
  negb (getClusterIdFromClientId (cl_consts c) (sender t) =? getClusterIdFromClientId (cl_consts c) (receiver t)).

Definition leader (c : Client) (leaders : list std_string) (client : Z) : std_string :=
  default [] (leader_of leaders (getClusterIdFromClientId (cl_consts c) client)).

Definition start_msgs (c : Client) (leaders : list std_string) (x : Transaction * Z) : list COut :=
  let r := mk_transfer_req x.1 x.2 in
  if crosses c x.1 then
    [CRpc (leader c leaders (sender x.1)) (CTpcPrepare r); CRpc (leader c leaders (receiver x.1)) (CTpcPrepare r)]
  else [CRpc (leader c leaders (sender x.1)) (CTransfer r)].

Definition register (c : Client) (m : gmap Z TpcPrepareRes) (x : Transaction * Z) : gmap Z TpcPrepareRes :=
  if crosses c x.1 then <[x.2 := mk_tpc_prepare_res x.1 0 0]> m else m.

Definition known_clients (t : Transaction) : Prop :=
  1 <= sender t <= total_clients /\ 1 <= receiver t <= total_clients.

(** For transactions between clients of the bank and one leader per cluster,
    [processTransactions] has defined behaviour: each transaction inside one
    cluster becomes one transfer request to that cluster's leader, each one
    between clusters is registered with no votes and becomes one prepare
    request to each of the two leaders, in order; nothing else changes, and
    nothing is sent through a null stub. *)
Lemma process_transactions_spec c leaders ts :
  config_ok (cl_consts c) -> leaders_ok c leaders -> Forall (fun x => known_clients x.1) ts ->
  processTransactions c ts leaders =
    Some (c <| cl_processing ::= fun m => foldl (register c) m ts |>, concat (map (start_msgs c leaders) ts)).
Proof.
  intros Hc Hl Hts. revert c Hc Hl.
  induction Hts as [|[t tid] ts [Hs Hr] Hts IH]; intros c Hc Hl; [by destruct c|]. cbn [processTransactions].
  destruct (process_one_eq c leaders t tid Hc Hl Hs Hr) as (l1 & l2 & E1 & E2 & ->).
  assert (start_msgs c leaders (t, tid) =
    if getClusterIdFromClientId (cl_consts c) (sender t) =? getClusterIdFromClientId (cl_consts c) (receiver t)
    then [CRpc l1 (CTransfer (mk_transfer_req t tid))]
    else [CRpc l1 (CTpcPrepare (mk_transfer_req t tid)); CRpc l2 (CTpcPrepare (mk_transfer_req t tid))]) as Em.
  { unfold start_msgs, crosses, leader. cbn [fst snd]. rewrite E1, E2. by destruct (_ =? _). }
  assert (register c (cl_processing c) (t, tid) =
    if getClusterIdFromClientId (cl_consts c) (sender t) =? getClusterIdFromClientId (cl_consts c) (receiver t)
    then cl_processing c else <[tid := mk_tpc_prepare_res t 0 0]> (cl_processing c)) as Er.
  { unfold register, crosses. cbn [fst snd]. by destruct (_ =? _). }
  cbn [map concat foldl]. rewrite Em. destruct (_ =? _).
  - rewrite IH by done. unfold upd. cbn. by rewrite Er.
  - set (c1 := c <| cl_processing ::= _ |>). rewrite (IH c1) by done.
    change (start_msgs c1 leaders) with (start_msgs c leaders). change (register c1) with (register c).
    unfold upd, c1. cbn. by rewrite Er.
Qed.

(** ** Votes *)

(** The vote of a completed call for [tid]. *)
Definition vote (tid : Z) (call : ClientCall) : option bool :=
  if bool_decide (cc_type call = TPC_PREPARE) && (ts_tid (cc_reply call) =? tid)
  then Some (status_ok (cc_status call) && ts_ack (cc_reply call)) else None.

Definition votes (tid : Z) (calls : list (ClientCall * Z)) : list bool := omap (fun x => vote tid x.1) calls.

(** A decision message about [tid]. *)
Definition decides (tid : Z) (o : COut) : bool :=
  match o with
  | CRpc _ (CTpcCommit r) | CRpc _ (CTpcAbort r) => tt_tid r =? tid
  | _ => false
  end.

(** The coordinator's table covers every server it may decide to. *)
Definition stubs_cover (c : Client) : Prop := forall s, s ∈ (server_ids (cl_consts c)).*1 -> s ∈ cl_stubs c.

(** The decision sent to the participants of [t]. *)
Definition decision_msgs (c : Client) (t : Transaction) (tid : Z) (commit : bool) : list COut :=
  map (fun s => CRpc s (if commit then CTpcCommit (mk_tid tid) else CTpcAbort (mk_tid tid)))
    (participants c (getClusterIdFromClientId (cl_consts c) (sender t))
                    (getClusterIdFromClientId (cl_consts c) (receiver t))).

Definition count_votes (v : bool) (l : list bool) : Z := Z.of_nat (length (filter (fun b => b = v) l)).

Lemma decision_sent c t tid (commit : bool) :
  stubs_cover c ->
  (if commit then tpcCommit c (mk_tid tid) else tpcAbort c (mk_tid tid))
     (getClusterIdFromClientId (cl_consts c) (sender t)) (getClusterIdFromClientId (cl_consts c) (receiver t))
  = decision_msgs c t tid commit.
Proof.
  intros Hc. unfold decision_msgs, tpcCommit, tpcAbort.
  destruct commit; apply map_ext_in; intros s Hs; unfold call_stub; rewrite decide_True; try done;
    apply Hc; apply list_elem_of_In in Hs; revert Hs; unfold participants;
    rewrite !list_elem_of_fmap; intros (p & -> & [_ Hp]%list_elem_of_filter); by exists p.
Qed.

(** ** Consuming replies *)

Lemma decides_decision c t tid b x o : o ∈ decision_msgs c t tid b -> decides x o = (tid =? x).
Proof. unfold decision_msgs. rewrite list_elem_of_fmap. intros (s & -> & _). by destruct b. Qed.

Lemma filter_decision c t tid b x :
  filter (fun o => decides x o = true) (decision_msgs c t tid b) = if tid =? x then decision_msgs c t tid b else [].
Proof.
  assert (forall o, o ∈ decision_msgs c t tid b -> decides x o = (tid =? x)) as Hd by apply decides_decision.
  revert Hd. generalize (decision_msgs c t tid b) as l. induction l as [|o l IH]; intros Hd.
  - by destruct (tid =? x).
  - rewrite filter_cons, (Hd o) by left. rewrite IH by (intros o' Ho'; apply Hd; by right).
    by destruct (tid =? x).
Qed.

Definition same_table (c c' : Client) : Prop :=
  cl_consts c' = cl_consts c /\ cl_stubs c' = cl_stubs c.

Definition add_vote (v : bool) (p : TpcPrepareRes) : TpcPrepareRes :=
  if v then p <| successes ::= fun n => wrap32 (n + 1) |> else p <| failures ::= fun n => wrap32 (n + 1) |>.

(** One reply, as the record of [tid] sees it: a reply for another
    transaction changes nothing; the first vote is counted; the second
    decides. *)
Inductive seen (c : Client) (tid : Z) (call : ClientCall) : Client * list COut -> Prop :=
| seen_other c' outs :
    vote tid call = None -> same_table c c' -> cl_processing c' !! tid = cl_processing c !! tid ->
    filter (fun o => decides tid o = true) outs = [] -> seen c tid call (c', outs)
| seen_vote c' outs v p p' :
    vote tid call = Some v -> same_table c c' -> p = processing_at c tid ->
    p' = add_vote v p ->
    (if (successes p' =? 2) || ((0 <? failures p') && (wrap32 (successes p' + failures p') =? 2)) then
       cl_processing c' !! tid = None /\ outs = decision_msgs c (tp_txn p') tid (successes p' =? 2)
     else cl_processing c' !! tid = Some p' /\ outs = []) -> seen c tid call (c', outs).

Lemma consume_seen c call now tid : stubs_cover c -> seen c tid call (consume c call now).
Proof.
  intros Hc. unfold consume. destruct (bool_decide (cc_type call = TRANSFER)) eqn:Et.
  { apply bool_decide_eq_true in Et.
    assert (vote tid call = None) as Hv by (unfold vote; by rewrite Et).
    rewrite Et. cbn [andb]. destruct (status_ok (cc_status call)); by apply seen_other. }
  cbn [andb]. destruct (bool_decide (cc_type call = TPC_PREPARE)) eqn:Ep.
  2:{ apply seen_other; try done. unfold vote. by rewrite Ep. }
  set (k := ts_tid (cc_reply call)). set (v := status_ok (cc_status call) && ts_ack (cc_reply call)).
  set (p' := add_vote v (processing_at c k)).
  replace (if negb (status_ok (cc_status call)) || negb (ts_ack (cc_reply call)) then _ else _) with p'
    by (unfold p', v; by destruct (status_ok (cc_status call)), (ts_ack (cc_reply call))).
  cbv zeta.
  set (commit := successes p' =? 2). set (abort := (0 <? failures p') && _).
  assert (vote tid call = if k =? tid then Some v else None) as Hv by (unfold vote; by rewrite Ep).
  destruct (commit || abort) eqn:Eca.
  - set (c1 := c <| cl_processing ::= <[k := p']> |> <| cl_durations ::= _ |> <| transactions_processed ::= _ |>).
    assert ((if commit then tpcCommit c1 (mk_tid k) else tpcAbort c1 (mk_tid k))
       (getClusterIdFromClientId (cl_consts c1) (sender (tp_txn p')))
       (getClusterIdFromClientId (cl_consts c1) (receiver (tp_txn p'))) = decision_msgs c (tp_txn p') k commit) as Ho.
    { rewrite (decision_sent c1 (tp_txn p') k commit Hc). done. }
    destruct (Z.eqb_spec k tid) as [<-|Hne].
    + eapply seen_vote; [exact Hv|done|done|done|]. fold p' commit abort. rewrite Eca.
      split; [apply lookup_delete_eq|]. rewrite <- Ho. by destruct commit.
    + apply seen_other; [exact Hv|done| |].
      * cbn. rewrite lookup_delete_ne, lookup_insert_ne by done. done.
      * transitivity (filter (fun o => decides tid o = true) (decision_msgs c (tp_txn p') k commit)).
        { f_equal. rewrite <- Ho. by destruct commit. }
        rewrite filter_decision. apply Z.eqb_neq in Hne. by rewrite Hne.
  - destruct (Z.eqb_spec k tid) as [<-|Hne].
    + eapply seen_vote; [exact Hv|done|done|done|]. fold p' commit abort. rewrite Eca.
      split; [apply lookup_insert_eq|done].
    + apply seen_other; [exact Hv|done| |done]. cbn. by rewrite lookup_insert_ne.
Qed.

(** ** A run of the coordinator: starts and replies, interleaved *)

Inductive client_event :=
| cev_start (t : Transaction) (tid : Z) (leaders : list std_string)
| cev_reply (call : ClientCall) (now : Z).

Definition client_exec (c : Client) (e : client_event) : option (Client * list COut) :=
  match e with
  | cev_start t tid leaders => process_one leaders c t tid
  | cev_reply call now => Some (consume c call now)
  end.

Fixpoint client_run (c : Client) (es : list client_event) : option (Client * list COut) :=
  match es with
  | [] => Some (c, [])
  | e :: es' =>
    match client_exec c e with
    | None => None
    | Some (c, o) =>
      match client_run c es' with
      | None => None
      | Some (c, o') => Some (c, o ++ o')
      end
    end
  end.

Definition event_vote (tid : Z) (e : client_event) : option bool :=
  match e with cev_reply call _ => vote tid call | _ => None end.

(** The transaction is not started a second time. *)
Definition starts (tid : Z) (e : client_event) : Prop :=
  match e with cev_start _ tid' _ => tid' = tid | _ => False end.

Section Coordinator.
Context (t : Transaction) (tid : Z).

(** The record and the decision messages after the votes [u]. *)
Definition progress (u : list bool) : option TpcPrepareRes :=
  match u with
  | [] => Some (mk_tpc_prepare_res t 0 0)
  | [v] => Some (add_vote v (mk_tpc_prepare_res t 0 0))
  | _ => None
  end.

Definition sent (c : Client) (u : list bool) : list COut :=
  match u with [v1; v2] => decision_msgs c t tid (v1 && v2) | _ => [] end.

Lemma same_table_trans c1 c2 c3 : same_table c1 c2 -> same_table c2 c3 -> same_table c1 c3.
Proof. unfold same_table. intros [-> ->] [-> ->]. done. Qed.

Lemma sent_table c c' u : same_table c c' -> sent c' u = sent c u.
Proof.
  intros [Hc Hs]. unfold sent, decision_msgs, participants. by rewrite Hc.
Qed.

Lemma cover_table c c' : same_table c c' -> stubs_cover c -> stubs_cover c'.
Proof. unfold stubs_cover. by intros [-> ->]. Qed.

Lemma reply_progress c call now u c' outs :
  stubs_cover c -> cl_processing c !! tid = progress u -> consume c call now = (c', outs) ->
  (length (u ++ option_list (vote tid call)) <= 2)%nat ->
  same_table c c' /\ cl_processing c' !! tid = progress (u ++ option_list (vote tid call)) /\
  sent c u ++ filter (fun o => decides tid o = true) outs = sent c (u ++ option_list (vote tid call)).
Proof.
  intros Hc Hp Hcons Hlen. pose proof (consume_seen c call now tid Hc) as Hseen. rewrite Hcons in Hseen.
  inversion Hseen as [? ? Hv Ht Hpr Hf | ? ? v p p' Hv Ht Hpp Hp' Hdec]; subst.
  - rewrite Hv. cbn. rewrite !app_nil_r, Hpr, Hf, app_nil_r. done.
  - rewrite Hv in *. cbn [option_list] in *. split; [done|]. unfold processing_at in *. rewrite Hp in *.
    assert (forall b, filter (fun o => decides tid o = true) (decision_msgs c t tid b) = decision_msgs c t tid b) as Hfd.
    { intros b. by rewrite filter_decision, Z.eqb_refl. }
    rewrite length_app in Hlen. destruct u as [|v1 [|v2 u]]; cbn in Hlen; [| |lia].
    + cbn [progress default app] in *. destruct v; cbn in Hdec; destruct Hdec as [-> ->]; done.
    + cbn [progress default app] in *. destruct v1, v; cbn in Hdec; destruct Hdec as [-> ->];
        (split; [done|]); cbn [sent andb app]; apply Hfd.
Qed.

Lemma start_progress c t' tid' leaders u c' outs :
  tid' <> tid -> cl_processing c !! tid = progress u -> process_one leaders c t' tid' = Some (c', outs) ->
  same_table c c' /\ cl_processing c' !! tid = progress u /\
  filter (fun o => decides tid o = true) outs = [].
Proof.
  intros Hne Hp. unfold process_one. repeat case_match; try done; intros [= <- <-].
  - split_and!; try done. unfold sendTransfer, call_stub. by case_decide.
  - split_and!; [done| |].
    + cbn. by rewrite lookup_insert_ne.
    + unfold tpcPrepare, call_stub. by repeat case_decide.
Qed.

Lemma run_progress es c u c' outs :
  stubs_cover c -> cl_processing c !! tid = progress u -> client_run c es = Some (c', outs) ->
  Forall (fun e => ~ starts tid e) es -> (length (u ++ omap (event_vote tid) es) <= 2)%nat ->
  cl_processing c' !! tid = progress (u ++ omap (event_vote tid) es) /\
  sent c u ++ filter (fun o => decides tid o = true) outs = sent c (u ++ omap (event_vote tid) es).
Proof.
  intros Hc Hp Hrun Hst. revert c u outs Hc Hp Hrun.
  induction Hst as [|e es He Hst IH]; intros c u outs Hc Hp Hrun Hlen.
  { cbn in *. injection Hrun as <- <-. by rewrite !app_nil_r. }
  cbn [client_run] in Hrun. destruct (client_exec c e) as [[c1 o]|] eqn:Ee; [|done].
  destruct (client_run c1 es) as [[c2 o']|] eqn:Er; [|done]. injection Hrun as -> <-.
  set (w := option_list (event_vote tid e)).
  assert (u ++ omap (event_vote tid) (e :: es) = (u ++ w) ++ omap (event_vote tid) es) as Eu.
  { cbn. unfold w. rewrite <- app_assoc. by destruct (event_vote tid e). }
  rewrite Eu in *.
  assert (same_table c c1 /\ cl_processing c1 !! tid = progress (u ++ w) /\
          sent c u ++ filter (fun o => decides tid o = true) o = sent c (u ++ w)) as (H1 & H2 & H3).
  { destruct e as [t' tid' leaders|call now].
    - destruct (start_progress c t' tid' leaders u c1 o) as (K1 & K2 & K3); [exact He|done|done|].
      unfold w. cbn. rewrite K3, !app_nil_r. done.
    - cbn in Ee. injection Ee as Ee. apply (reply_progress c call now); try done.
      rewrite length_app in Hlen. unfold w in *. cbn [event_vote] in *. lia. }
  destruct (IH c1 (u ++ w) o') as [K1 K2]; [by eapply cover_table|done|done|done|].
  split; [done|]. rewrite filter_app, app_assoc, H3. rewrite <- (sent_table c c1 (u ++ w)) by done.
  rewrite K2. by apply sent_table.
Qed.
End Coordinator.

(** C31. Two-phase commit at the coordinator. From the moment a transaction between clusters is registered, whatever other
    transactions are started and whatever replies arrive in between: with
    fewer than two votes nothing is decided and the votes are on record; with
    two votes exactly one decision has been sent, to every server of the two
    clusters and to no other, a commit if both votes are positive and an
    abort otherwise, and the record is gone. *)
Theorem coordinator_decides c c' outs t tid es :
  stubs_cover c -> cl_processing c !! tid = Some (mk_tpc_prepare_res t 0 0) ->
  Forall (fun e => ~ starts tid e) es -> client_run c es = Some (c', outs) ->
  let decided := filter (fun o => decides tid o = true) outs in
  match (omap (event_vote tid) es : list bool) with
  | [] => decided = [] /\ cl_processing c' !! tid = Some (mk_tpc_prepare_res t 0 0)
  | [v] => decided = [] /\
           cl_processing c' !! tid = Some (mk_tpc_prepare_res t (if v then 1 else 0) (if v then 0 else 1))
  | [v1; v2] => decided = decision_msgs c t tid (v1 && v2) /\ cl_processing c' !! tid = None
  | _ => True
  end.
Proof.
  intros Hc Hp Hst Hrun decided.
  pose proof (run_progress t tid es c [] c' outs Hc Hp Hrun Hst) as Hpr. cbn [app sent] in Hpr.
  fold decided in Hpr. destruct (omap (event_vote tid) es) as [|v1 [|v2 [|v3 vs]]]; [| | |done];
    (destruct Hpr as [H1 H2]; [cbn; lia|]); try (by split).
  split; [done|]. rewrite H1. by destruct v1.
Qed.

(** ** A failed prepare *)

(** gRPC leaves the reply of a failed RPC empty. *)
Definition empty_on_failure (e : client_event) : Prop :=
  match e with
  | cev_reply call _ => status_ok (cc_status call) = false -> cc_reply call = default_transfer_res
  | _ => True
  end.

(** A reply that arrived and is about [tid]. *)
Definition arrived (tid : Z) (e : client_event) : bool :=
  match e with
  | cev_reply call _ =>
    status_ok (cc_status call) && bool_decide (cc_type call = TPC_PREPARE) && (ts_tid (cc_reply call) =? tid)
  | _ => false
  end.

Lemma votes_arrived tid es :
  tid <> 0 -> Forall empty_on_failure es ->
  length (omap (event_vote tid) es : list bool) = length (filter (fun e => arrived tid e = true) es).
Proof.
  intros Hne Hf. induction Hf as [|e es He Hf IH]; [done|]. rewrite filter_cons.
  assert (event_vote tid e = None <-> arrived tid e = false) as Hv.
  { destruct e as [|call now]; cbn; [done|]. unfold vote. cbn in He.
    destruct (status_ok (cc_status call)); cbn [andb].
    - by destruct (bool_decide _ && _).
    - rewrite He by done. change (ts_tid default_transfer_res) with 0.
      destruct (Z.eqb_spec 0 tid); [congruence|]. by rewrite andb_false_r. }
  cbn [omap list_omap]. destruct (event_vote tid e), (arrived tid e) eqn:Ea; cbn; rewrite ?IH; try done.
  - destruct Hv as [_ Hv]. by specialize (Hv eq_refl).
  - destruct Hv as [Hv _]. by specialize (Hv eq_refl).
Qed.

(** C34. A prepare whose RPC fails is never counted. gRPC leaves the reply of a failed RPC empty, and the coordinator looks
    its transaction up under the id of the reply: when at most one of the two
    prepare RPCs of a transaction succeeds, the transaction stays on record
    for ever and neither commit nor abort is sent to anyone. *)
Theorem failed_prepare_undecided c c' outs t tid es :
  stubs_cover c -> cl_processing c !! tid = Some (mk_tpc_prepare_res t 0 0) -> tid <> 0 ->
  Forall (fun e => ~ starts tid e) es -> Forall empty_on_failure es ->
  (length (filter (fun e => arrived tid e = true) es) <= 1)%nat -> client_run c es = Some (c', outs) ->
  filter (fun o => decides tid o = true) outs = [] /\ is_Some (cl_processing c' !! tid).
Proof.
  intros Hc Hp Hne Hst Hf Hlen Hrun. rewrite <- votes_arrived in Hlen by done.
  destruct (run_progress t tid es c [] c' outs Hc Hp Hrun Hst) as [H1 H2]; [cbn; lia|].
  cbn [app sent] in H1, H2. rewrite H1, H2.
  destruct (omap (event_vote tid) es) as [|v [|v2 vs]]; cbn in Hlen; [|  |lia]; split; done || by eexists.
Qed.

(** ** Witnesses *)

Definition sample_client : Client :=
  (Client_new (setupApplicationState 3 3 constants_default)) <| cl_processing := {[5 := mk_tpc_prepare_res (mk_txn 1 1002 3) 0 0]} |>.

Lemma sample_cover : stubs_cover sample_client.
Proof. by intros s Hs. Qed.

Definition yes_reply (ack : bool) : client_event :=
  cev_reply (mk_client_call TPC_PREPARE (mk_transfer_res ack 5) StatusOK) 9.
Definition lost_reply : client_event :=
  cev_reply (mk_client_call TPC_PREPARE default_transfer_res DEADLINE_EXCEEDED) 9.

Lemma coordinator_decides_witness :
  exists c' outs,
    client_run sample_client [yes_reply true; yes_reply true] = Some (c', outs) /\
    filter (fun o => decides 5 o = true) outs
    = map (fun s => CRpc (server_name s) (CTpcCommit (mk_tid 5))) [1; 2; 3; 4; 5; 6].
Proof.
  eexists. eexists. split; [reflexivity|].
  refine (eq_trans (proj1 (coordinator_decides sample_client _ _ (mk_txn 1 1002 3) 5 [yes_reply true; yes_reply true]
                     sample_cover eq_refl _ eq_refl)) _).
  - repeat constructor; by intros [].
  - reflexivity.
Defined.

Lemma failed_prepare_undecided_witness :
  exists c' outs,
    client_run sample_client [lost_reply; yes_reply true] = Some (c', outs) /\
    filter (fun o => decides 5 o = true) outs = [].
Proof.
  eexists. eexists. split; [reflexivity|].
  refine (proj1 (failed_prepare_undecided sample_client _ _ (mk_txn 1 1002 3) 5 [lost_reply; yes_reply true]
                   sample_cover eq_refl _ _ _ _ eq_refl)).
  - discriminate.
  - repeat constructor; by intros [].
  - repeat constructor; by intros.
  - vm_compute. repeat constructor.
Defined.
