(* ===== verification/System.v ===== *)
(** * The whole bank: the coordinator, the servers and the RPCs between them

    The servers and their wire ([Network.v]), the coordinator ([Client.v])
    and the coordinator's RPCs.  At the server an RPC is the call object
    [InCall] that serves it, retries included; at the coordinator it is a
    completion [ClientCall].  Everything the environment decides is an
    action: which call runs next, which RPC fails, which reply is heard. *)
From stdpp Require Import gmap list strings.
From Stdlib Require Import ZArith Lia Ascii.
From S2P Require Import Prelude Chars Types Config Wal OutCall Server Store Steps Protocol Calls Network Client.

(** An RPC of the coordinator at server [as_dst]; [as_open] says that the
    coordinator still waits for it. *)
Record Asked := mk_asked { as_dst : Z; as_call : InCall; as_open : bool }.

#[export] Instance Asked_settable : Settable Asked := fun a => mk_asked (as_dst a) (as_call a) (as_open a).

(** The call object that serves a request of the coordinator. *)
Definition call_of (m : client_msg) : InCall :=
  match m with
  | CTransfer r => fill (InCall_new TRANSFER RETRY_TIMEOUT_MS).1 (PTransfer r)
  | CTpcPrepare r => fill (InCall_new TPC_PREPARE RETRY_TIMEOUT_MS).1 (PTransfer r)
  | CTpcCommit r => fill (InCall_new TPC_COMMIT RETRY_TIMEOUT_MS).1 (PTid r)
  | CTpcAbort r => fill (InCall_new TPC_ABORT RETRY_TIMEOUT_MS).1 (PTid r)
  | CDisconnect r => fill (InCall_new DISCONNECT RETRY_TIMEOUT_MS).1 (PDisconnect r)
  end.

(** An RPC to a named server; a call through a null stub ends the process. *)
Definition post (C : constants) (o : COut) : option Asked :=
  match o with
  | CRpc name m => i ← omap_get string_ltb name (server_ids C); Some (mk_asked i (call_of m) true)
  | CNull _ => None
  end.

(** The RPCs to peers among the effects of a call, and its reply, if any. *)
Definition peers_of (es : list call_effect) : list Out :=
  omap (fun e => match e with Peer o => Some o | _ => None end) es.
Definition finished (es : list call_effect) : option reply :=
  head (omap (fun e => match e with Finish p => Some p | _ => None end) es).

(** What the coordinator's completion holds of a reply. *)
Definition completion (c : InCall) (p : reply) : ClientCall :=
  mk_client_call (ic_type c) (match p with RTransfer q => q | _ => default_transfer_res end) StatusOK.

(** What may happen inside a cluster without the coordinator. *)
Definition is_inner (a : action) : bool :=
  match a with
  | Ask _ (ev_balance _) | Ask _ ev_logs | Ask _ (ev_disconnect _) => true
  | Ask _ _ => false
  | Deliver _ | Expire _ | Lose _ => true
  end.

Inductive sys_action :=
| Start (t : Transaction) (tid : Z) (leaders : list std_string)
| Serve (k : nat)
| Break (k : nat) (st : Status)
| Drop (k : nat)
| Hear (k : nat) (now : Z)
| Inside (a : action).

Section System.
Context {DB : Type} `{KVStore DB} {J : Indeterminate}.

Record System := mk_system {
  sys_net : Net DB;
  sys_client : Client;
  sys_calls : list Asked;
  sys_replies : list ClientCall
}.

(** The RPCs [outs] of the coordinator, which has become [c]. *)
Definition posted (y : System) (c : Client) (outs : list COut) (replies : list ClientCall) : option System :=
  new ← mapM (post (cl_consts c)) outs;
  Some (mk_system (sys_net y) c (sys_calls y ++ new) replies).

(** [Start] is one turn of [processTransactions]; [Serve] runs the call
    object [k] once; [Break] ends its RPC at the coordinator without a reply,
    while the server may still run it; [Drop] loses it; [Hear] is one turn of
    [consumeReplies]. *)
Definition sys_exec (y : System) (a : sys_action) : option System :=
  match a with
  | Start t tid leaders =>
    r ← process_one leaders (sys_client y) t tid; posted y r.1 r.2 (sys_replies y)
  | Serve k =>
    a ← sys_calls y !! k;
    s ← servers (sys_net y) !! as_dst a;
    let r := Proceed s (as_call a) in
    n ← moved (sys_net y) (as_dst a) r.1.1 (peers_of r.2) (wire (sys_net y));
    match finished r.2, r.1.2 with
    | Some p, _ =>
      Some (mk_system n (sys_client y) (delete k (sys_calls y))
        (sys_replies y ++ if as_open a then [completion (as_call a) p] else []))
    | None, Some c => Some (mk_system n (sys_client y) (<[k := a <| as_call := c |>]> (sys_calls y)) (sys_replies y))
    | None, None => None
    end
  | Break k st =>
    a ← sys_calls y !! k;
    if as_open a && negb (status_ok st) then
      Some (mk_system (sys_net y) (sys_client y) (<[k := a <| as_open := false |>]> (sys_calls y))
        (sys_replies y ++ [mk_client_call (ic_type (as_call a)) default_transfer_res st]))
    else None
  | Drop k =>
    a ← sys_calls y !! k; Some (mk_system (sys_net y) (sys_client y) (delete k (sys_calls y)) (sys_replies y))
  | Hear k now =>
    c ← sys_replies y !! k;
    let r := consume (sys_client y) c now in posted y r.1 r.2 (delete k (sys_replies y))
  | Inside a =>
    if is_inner a then
      n ← net_exec (sys_net y) a; Some (mk_system n (sys_client y) (sys_calls y) (sys_replies y))
    else None
  end.

Fixpoint sys_run (y : System) (acts : list sys_action) : option System :=
  match acts with
  | [] => Some y
  | a :: acts' => y' ← sys_exec y a; sys_run y' acts'
  end.
End System.
Arguments System DB : clear implicits.
Arguments mk_system {DB}. Arguments sys_net {DB}. Arguments sys_client {DB}.
Arguments sys_calls {DB}. Arguments sys_replies {DB}.
