(* ===== verification/Atomic.v ===== *)
(** * Atomicity of cross-shard transactions

    Two-phase commit over the whole bank ([System.v]): whatever the servers,
    the network and other transactions do, the servers of the bank never
    disagree on the outcome of a cross-shard transaction, and none commits it
    unless the leaders of both clusters have prepared it. *)
From stdpp Require Import gmap list strings.
From Stdlib Require Import ZArith Lia Ascii.
From S2P Require Import Prelude Chars Types Config Wal OutCall Server Store Steps Protocol Acceptor Ledger Sync Typed Logging Calls ServerMain Network Client System.

Section Servers.
Context {DB : Type} `{KVStore DB} {J : Indeterminate}.
Implicit Types s : Server DB.

(** ** Well-formed servers *)

Record srv_ok (s : Server DB) : Prop := {
  so_base : base_ok s;
  so_typed : typed s;
  so_ctrl : ctrl_ok (ctrl s);
  so_tids : Forall (fun e => we_tid e <> -1) (log s)
}.

Lemma logs_Forall P s s' : logs P s s' -> Forall P (log s) -> Forall P (log s').
Proof. intros (es & -> & He) Hs. by apply Forall_app_2. Qed.

Lemma proposes_wf e r : event_wf e -> proposes e r -> wf_transfer_req r /\ tr_tid r <> -1.
Proof. destruct e; try done; cbn; intros Hwf <-; [done|done|]. by destruct Hwf as (? & ? & _). Qed.

Lemma srv_ok_exec s e : srv_ok s -> event_wf e -> srv_ok (server_exec s e).1.
Proof.
  intros [Hb Ht Hc Hl] He. split.
  - apply (ledger_exec s e Hb He).
  - by apply typed_exec.
  - by apply ctrl_ok_exec.
  - apply (logs_Forall _ s); [|done]. apply logs_exec; [done|done|]. destruct e; cbn in *; try done.
    + by intros b; destruct He.
    + by intros b; destruct He.
    + intros e <- Hne. done.
    + by intros b; destruct He as (? & ? & _).
    + intros _ _ b. by destruct Hb as (_ & _ & ? & _).
    + destruct He as [He _]. eapply Forall_impl; [exact He|]. intros l [_ Hl']. exact Hl'.
Qed.

(** ** One transaction *)

Section Transaction.
Context (C : constants) (t : Transaction) (tid : Z).
Hypothesis Htid : tid <> -1 /\ tid <> 0.

(** An entry of the transaction has a final status only when [d] is that
    decision. *)
Definition entry_ok (d : option bool) (e : WALEntry) : Prop :=
  we_tid e = tid -> (we_status e = COMMITTED -> d = Some true) /\ (we_status e = ABORTED -> d = Some false).

Definition request_ok (r : TransferReq) : Prop := tr_tid r = tid -> tr_txn r = t.

Definition prepared s : Prop := exists b, prepare_of (mk_transfer_req t tid) b ∈ log s.

Record sound (d : option bool) (s : Server DB) : Prop := {
  sd_log : Forall (entry_ok d) (log s);
  sd_val : request_ok (accept_val s);
  sd_awaits : awaits s tid -> prepared s;
  sd_cross : client_in_cluster s (sender t) && client_in_cluster s (receiver t) = false
}.

Definition event_sound (d : option bool) (e : server_event) : Prop :=
  match e with
  | ev_tpc_prepare r _ => request_ok r
  | ev_transfer r _ => tr_tid r <> tid
  | ev_tpc_decision r c => tt_tid r = tid -> d = Some c
  | ev_accept r => request_ok (aq_r r)
  | ev_sync_reply _ p => Forall (fun l => entry_ok d (entry_of_log l)) (sr_logs p)
  | _ => True
  end.

Lemma proposes_ok d e r : event_sound d e -> proposes e r -> request_ok r.
Proof. destruct e; try done; cbn; intros Hs <-; [done| |done]. by intros ?. Qed.

Lemma entry_ok_more e b : entry_ok None e -> entry_ok (Some b) e.
Proof. intros He Et. by destruct (He Et) as [H1 H2]; split; intros E; [specialize (H1 E)|specialize (H2 E)]. Qed.

Lemma event_adds d s e : srv_ok s -> sound d s -> event_sound d e -> adds (entry_ok d) s e.
Proof.
  intros Hok [H1 H2 H3 H4] He. destruct e as [r p|r p|r c|r|r|r|r|r| |r|st q p|st q p|st p]; cbn in *; try done.
  - intros e Et _ Et'. cbn in Et'. rewrite He by congruence. by destruct c.
  - intros E1 E2 b Et. cbn in Et. rewrite (H2 Et) in E1, E2. rewrite E1, E2 in H4. done.
Qed.

(** Every handler keeps a sound server sound, and its log grows. *)
Lemma sound_exec d s e :
  srv_ok s -> sound d s -> event_wf e -> event_sound d e ->
  sound d (server_exec s e).1 /\ log s `prefix_of` log (server_exec s e).1.
Proof.
  intros Hok Hs Hw He. pose proof (logs_exec (entry_ok d) s e (so_base _ Hok) Hw (event_adds d s e Hok Hs He)) as Hl.
  assert (log s `prefix_of` log (server_exec s e).1) as Hpre by (destruct Hl as (es & -> & _); by eexists).
  split; [|done]. pose proof Hs as [H1 H2 H3 H4]. split.
  - by eapply logs_Forall.
  - destruct (accept_val_exec s e) as [->|(r & -> & Hp)]; [done|by eapply proposes_ok].
  - intros Ha. destruct (awaits_exec s e tid (so_ctrl _ Hok) (proj1 Htid) Ha) as [Ha'|(r & Hp & Er & Hr)].
    + destruct (H3 Ha') as [b Hb]. exists b. by eapply elem_of_prefix.
    + pose proof (proposes_ok d e r He Hp Er) as Et. destruct e as [q p|q p| | | | | | | | | | |]; try done; cbn [proposes event_sound] in *; subst q; [|done].
      destruct Hr as [b Hb]. exists b. destruct r as [t' tid']. cbn in Er, Et. by subst.
  - destruct (ledger_exec s e (so_base _ Hok) Hw) as (_ & Hc & _). by rewrite !Hc.
Qed.

(** A positive answer to the coordinator means the transaction is prepared. *)
Lemma vote_prepared d s r p s' res outs :
  srv_ok s -> sound d s -> tr_tid r = tid ->
  processTpcPrepare s r p = (s', res, outs, true) -> ts_tid res = tid /\ (ts_ack res = true -> prepared s').
Proof.
  intros Hok Hs Er Hp. split.
  - pose proof Hp as (v & _ & Hv)%runPaxos_case. destruct v; [|done]. by destruct Hv as [_ ->].
  - intros Hack. destruct (positive_vote s r p s' res outs (so_ctrl _ Hok) Hp Hack) as [Ha El]. rewrite Er in Ha.
    destruct (sd_awaits _ _ Hs Ha) as [b Hb]. exists b. by rewrite El.
Qed.

(** ** The servers and their wire *)

Definition msg_ok (m : peer_msg) : Prop :=
  event_wf (peer_event m) /\ match m with MAccept r => request_ok (aq_r r) | _ => True end.

Definition entry_sent (d : option bool) (l : LogEntry) : Prop :=
  (wf_log_entry l /\ le_tid l <> -1) /\ entry_ok d (entry_of_log l).

(** The parts of a call object its completion will read. *)
Definition reply_ok (d : option bool) (c : OutCall) : Prop :=
  Forall (entry_sent d) (sr_logs (oc_syncReply c)) /\ wf_ballot (sr_last_inserted_ballot (oc_syncReply c)) /\
  match pr_latest_ballot_num (oc_prepareReply c) with Some n => in_int n | None => True end.

Definition packet_ok (d : option bool) (p : packet) : Prop :=
  match p with
  | Req _ _ m c => msg_ok m /\ match c with Some c => reply_ok d c | None => True end
  | Rep _ c => reply_ok d c
  end.

Definition net_ok (d : option bool) (n : Net DB) : Prop :=
  (forall i s, servers n !! i = Some s -> srv_ok s /\ sound d s) /\ Forall (packet_ok d) (wire n).

(** Every server is still there and its log has grown. *)
Definition grown (n n' : Net DB) : Prop :=
  forall i s, servers n !! i = Some s -> exists s', servers n' !! i = Some s' /\ log s `prefix_of` log s'.

Lemma grown_refl n n' : servers n' = servers n -> grown n n'.
Proof. intros E i s Hs. exists s. by rewrite E. Qed.

Lemma fresh_reply d c : oc_syncReply c = default_sync_res -> oc_prepareReply c = default_prepare_res -> reply_ok d c.
Proof. intros E1 E2. unfold reply_ok. rewrite E1, E2. split; [constructor|]. split; [split; vm_compute; done|done]. Qed.

Lemma packets_ok d e i outs ps :
  event_wf e -> event_sound d e -> Forall (out_from e) outs -> packets i outs = Some ps -> Forall (packet_ok d) ps.
Proof.
  intros Hw He Ho. revert ps. induction Ho as [|o outs Ho Hos IH]; cbn [packets]; [by intros ps [= <-]|].
  destruct o as [dst m c|]; [|done]. destruct (packets i outs) as [ps'|]; [|done]. intros ps [= <-].
  constructor; [|by apply IH]. destruct Ho as (Hm & E1 & E2). split; [|by apply fresh_reply].
  destruct m as [q|q|q|q]; cbn in Hm; [by split| |done|done].
  destruct Hm as [Hb Hp]. destruct (proposes_wf e _ Hw Hp) as [W1 W2]. split; [done|by eapply proposes_ok].
Qed.

(** A server that runs a sound handler. *)
Lemma moved_ok d n i s e w outs n' :
  net_ok d n -> servers n !! i = Some s -> event_wf e -> event_sound d e -> Forall (packet_ok d) w ->
  Forall (out_from e) outs -> moved n i (server_exec s e).1 outs w = Some n' -> net_ok d n' /\ grown n n'.
Proof.
  intros [Hs _] Hi Hw He Hp Ho. unfold moved. destruct (packets i outs) as [ps|] eqn:Eps; [|done]. intros [= <-].
  destruct (Hs i s Hi) as [Hok Hsd]. destruct (sound_exec d s e Hok Hsd Hw He) as [Hsd' Hpre].
  pose proof (srv_ok_exec s e Hok Hw) as Hok'. revert Hok' Hsd' Hpre. generalize (server_exec s e).1. intros s' Hok' Hsd' Hpre.
  split; [split|].
  - intros j sj. cbn [servers]. destruct (decide (i = j)) as [<-|Hne].
    + rewrite lookup_insert_eq. by intros [= <-].
    + rewrite lookup_insert_ne by done. apply Hs.
  - cbn [wire]. apply Forall_app_2; [done|]. by eapply packets_ok.
  - intros j sj Hj. cbn [servers]. destruct (decide (i = j)) as [<-|Hne].
    + rewrite lookup_insert_eq. exists s'. split; [done|]. congruence.
    + rewrite lookup_insert_ne by done. by exists sj.
Qed.

Lemma completed_ok d s m c : srv_ok s -> sound d s -> reply_ok d c -> reply_ok d (complete s m c).
Proof.
  intros Hok Hsd (H1 & H2 & H3). unfold complete. destruct m as [q|q|q|q]; try (by split_and!).
  - split; [done|]. split; [done|]. cbn [oc_prepareReply upd OutCall_settable].
    pose proof (proj1 (so_typed _ Hok)) as Hb. unfold processPrepareCall.
    repeat case_match; cbn in *; simplify_eq; try done; assumption.
  - pose proof (so_typed _ Hok) as (_ & _ & _ & (_ & Hb) & _ & Hl & _). pose proof (so_tids _ Hok) as Ht.
    pose proof (sd_log _ _ Hsd) as He. unfold reply_ok. cbn [oc_syncReply oc_prepareReply upd OutCall_settable].
    assert (Forall (fun e => entry_sent d (getLogEntryFromLocalLog e)) (log s)) as Hall.
    { apply Forall_forall. intros e Hin. unfold entry_sent, wf_log_entry. rewrite entry_roundtrip.
      rewrite Forall_forall in Hl, Ht, He. split; [split|]; [by apply Hl|by apply (Ht e)|by apply He]. }
    unfold processSyncCall. destruct (_ <? _); [|cbn; split; [constructor|split; [split; vm_compute; done|done]]].
    cbn [sr_logs sr_last_inserted_ballot]. split; [|by split].
    apply Forall_map. destruct (_ <? 0); [constructor|by apply Forall_drop].
Qed.

(** The end of a call is a handler, too. *)
Lemma response_event_ok d s c :
  reply_ok d c -> exists e, event_wf e /\ event_sound d e /\ HandleRPCResponse s c = server_exec s e.
Proof.
  intros (H1 & H2 & H3). unfold HandleRPCResponse. destruct (oc_type c); try (by exists ev_logs).
  - by exists (ev_prepare_reply (oc_status c) (oc_prepareReq c) (oc_prepareReply c)).
  - by exists (ev_accept_reply (oc_status c) (oc_acceptReq c) (oc_acceptReply c)).
  - exists (ev_sync_reply (oc_status c) (oc_syncReply c)). split; [split; [|done]|split; [|done]].
    + eapply Forall_impl; [exact H1|]. by intros l [? _].
    + eapply Forall_impl; [exact H1|]. by intros l [_ ?].
Qed.

Lemma call_ends_ok d n i c w n' :
  net_ok d n -> reply_ok d c -> Forall (packet_ok d) w -> call_ends n i c w = Some n' -> net_ok d n' /\ grown n n'.
Proof.
  intros Hn Hc Hw. unfold call_ends. destruct (servers n !! i) as [s|] eqn:Ei; [|done]. cbn [mbind option_bind].
  destruct (response_event_ok d s c Hc) as (e & He & Hs & ->). intros Hm.
  eapply moved_ok; [done|exact Ei|exact He|exact Hs|exact Hw| |exact Hm].
  apply exec_from, (so_base _ (proj1 (proj1 Hn i s Ei))).
Qed.

Definition inner_wf (a : action) : Prop := match a with Ask _ (ev_balance r) => in_int (bq_client r) | _ => True end.

Lemma inner_ok d n a n' :
  net_ok d n -> is_inner a = true -> inner_wf a -> net_exec n a = Some n' -> net_ok d n' /\ grown n n'.
Proof.
  intros Hn Ha Hw. assert (forall k, Forall (packet_ok d) (delete k (wire n))) as Hdel by (intros k; apply Forall_delete, Hn).
  destruct a as [i e|k|k|k]; cbn [net_exec].
  - destruct (is_external e) eqn:Ee; [|done]. destruct (servers n !! i) as [s|] eqn:Ei; [|done]. cbn [mbind option_bind].
    assert (event_wf e /\ event_sound d e) as [W1 W2] by (destruct e; try done; by split). intros Hm.
    eapply moved_ok; [done|exact Ei|exact W1|exact W2|apply Hn| |exact Hm].
    apply exec_from, (so_base _ (proj1 (proj1 Hn i s Ei))).
  - destruct (wire n !! k) as [p|] eqn:Ek; [|done]. cbn [mbind option_bind].
    pose proof (Forall_lookup_1 _ _ _ _ (proj2 Hn) Ek) as Hp. destruct p as [src dst m c|dst c].
    + destruct (servers n !! dst) as [s|] eqn:Ei; [|done]. cbn [mbind option_bind]. destruct Hp as [[Hm1 Hm2] Hc].
      destruct (proj1 Hn dst s Ei) as [Hok Hsd]. intros Hm.
      eapply moved_ok; [done|exact Ei|exact Hm1|by destruct m| |apply exec_from, (so_base _ Hok)|exact Hm].
      apply Forall_app_2; [done|]. destruct c as [c|]; [|done]. constructor; [|done]. by apply completed_ok.
    + by apply call_ends_ok.
  - destruct (wire n !! k) as [p|] eqn:Ek; [|done]. cbn [mbind option_bind].
    pose proof (Forall_lookup_1 _ _ _ _ (proj2 Hn) Ek) as Hp. destruct p as [src dst m [c|]|dst c]; [|done|].
    + apply call_ends_ok; [done|apply Hp|]. apply Forall_insert; [apply Hn|]. by split; [apply Hp|].
    + by apply call_ends_ok.
  - destruct (wire n !! k); [|done]. intros [= <-]. split; [|by apply grown_refl]. split; [apply Hn|apply Hdel].
Qed.


(** ** The coordinator's calls at the servers *)

Definition call_ok (d : option bool) (a : Asked) : Prop :=
  event_wf (event_of_call (as_call a)) /\ event_sound d (event_of_call (as_call a)) /\
  (ic_status (as_call a) = PROCESS \/ ic_status (as_call a) = RETRY).

Lemma peers_effects outs e :
  match e with Finish _ | Alarm _ => True | _ => False end -> peers_of (map Peer outs ++ [e]) = outs.
Proof.
  intros He. unfold peers_of. rewrite omap_app.
  assert (omap (fun e => match e with Peer o => Some o | _ => None end) (map Peer outs) = outs) as -> by
    (induction outs as [|o outs IH]; [done|cbn; by rewrite IH]).
  destruct e; try done; by rewrite app_nil_r.
Qed.

Lemma finished_effects outs e : finished (map Peer outs ++ [e]) = match e with Finish p => Some p | _ => None end.
Proof. unfold finished. induction outs as [|o outs IH]; [by destruct e|exact IH]. Qed.

(** Serving a call runs its handler; a transfer that is not answered keeps
    its request and is served again. *)
Lemma serve_effects s c :
  let r := serve s c in
  r.1.1 = (server_exec s (event_of_call c)).1 /\ peers_of r.2 = (server_exec s (event_of_call c)).2 /\
  match finished r.2 with
  | Some p => ic_type c = TPC_PREPARE -> exists res outs,
      p = RTransfer res /\ processTpcPrepare s (ic_transferReq c) (ic_transferRes c) = (r.1.1, res, outs, true)
  | None => ic_status r.1.2 = RETRY /\ ic_type r.1.2 = ic_type c /\ ic_transferReq r.1.2 = ic_transferReq c /\
            (ic_type c = TPC_PREPARE \/ ic_type c = TRANSFER)
  end.
Proof.
  cbv zeta. split; [apply serve_exec|]. unfold serve, event_of_call, answer_or_retry, answer, Retry.
  destruct (ic_type c) eqn:Et; cbn [fst snd server_exec]; rewrite ?peers_effects, ?finished_effects by done; try done.
  - destruct (processTpcPrepare s (ic_transferReq c) (ic_transferRes c)) as [[[s' res] outs] [|]]; cbn [fst snd negb];
      rewrite ?peers_effects, ?finished_effects by done; (split; [done|]); cbn.
    + intros _. by exists res, outs.
    + rewrite Et. by split_and!; [..|left].
  - destruct (processTransferCall s (ic_transferReq c) (ic_transferRes c)) as [[[s' res] outs] [|]]; cbn [fst snd negb];
      rewrite ?peers_effects, ?finished_effects by done; (split; [done|]); cbn.
    + done.
    + rewrite Et. by split_and!; [..|right].
Qed.

Lemma proceed_effects s c :
  ic_status c = PROCESS \/ ic_status c = RETRY ->
  let r := Proceed s c in
  r.1.1 = (serve s c).1.1 /\ r.1.2 = Some (serve s c).1.2 /\ peers_of r.2 = peers_of (serve s c).2 /\
  finished r.2 = finished (serve s c).2.
Proof. intros Hc. unfold Proceed. by destruct Hc as [-> | ->]. Qed.

Lemma retried_ok d a c :
  call_ok d a -> ic_status c = RETRY -> ic_type c = ic_type (as_call a) -> ic_transferReq c = ic_transferReq (as_call a) ->
  ic_type (as_call a) = TPC_PREPARE \/ ic_type (as_call a) = TRANSFER -> call_ok d (a <| as_call := c |>).
Proof.
  intros (H1 & H2 & _) E1 E2 E3 Ht. unfold call_ok. cbn [as_call upd Asked_settable]. unfold event_of_call in *.
  rewrite E2. destruct Ht as [Et|Et]; rewrite Et in *; cbn in *; rewrite E3; (split; [done|split; [done|by right]]).
Qed.

Lemma fresh_call_ok d m i :
  match m with
  | CTransfer r => (wf_transfer_req r /\ tr_tid r <> -1) /\ tr_tid r <> tid
  | CTpcPrepare r => (wf_transfer_req r /\ tr_tid r <> -1) /\ request_ok r
  | CTpcCommit r => tt_tid r = tid -> d = Some true
  | CTpcAbort r => tt_tid r = tid -> d = Some false
  | CDisconnect _ => True
  end -> call_ok d (mk_asked i (call_of m) true).
Proof. intros Hm. destruct m; unfold call_ok; cbn; [destruct Hm; tauto|destruct Hm; tauto|tauto..]. Qed.

(** ** The votes *)

(** The open prepare calls of the transaction, by server, and the votes on
    their way to the coordinator. *)
Definition open_vote (a : Asked) : bool :=
  as_open a && bool_decide (ic_type (as_call a) = TPC_PREPARE) && (tr_tid (ic_transferReq (as_call a)) =? tid).

Definition open_dsts (calls : list Asked) : list Z := as_dst <$> filter (fun a => open_vote a = true) calls.
Definition reply_votes (replies : list ClientCall) : list bool := omap (vote tid) replies.

Definition prepared_at (n : Net DB) (i : Z) : Prop := exists s, servers n !! i = Some s /\ prepared s.

Lemma prepared_grown n n' i : grown n n' -> prepared_at n i -> prepared_at n' i.
Proof.
  intros Hg (s & Hs & b & Hb). destruct (Hg i s Hs) as (s' & Hs' & Hp). exists s'. split; [done|]. exists b.
  by eapply elem_of_prefix.
Qed.

(** While the coordinator waits: [u] are the votes it has heard, [V] all the
    votes cast, with the leaders that cast them; the leaders of [V] and of the
    open calls are among [Ls], and a positive vote is from a leader that has
    the transaction prepared. *)
Definition voting (Ls : list Z) (n : Net DB) (cl : Client) (calls : list Asked) (replies : list ClientCall) : Prop :=
  exists (u : list bool) (V : list (Z * bool)),
    cl_processing cl !! tid = progress t u /\ (length u <= 1)%nat /\
    V.*2 ≡ₚ u ++ reply_votes replies /\ V.*1 ++ open_dsts calls ⊆+ Ls /\
    Forall (fun x => x.2 = true -> prepared_at n x.1) V.

(** Before the start and after the decision nothing is under way. *)
Definition closed (d : option bool) (Ls : list Z) (n : Net DB) (cl : Client) (calls : list Asked)
    (replies : list ClientCall) : Prop :=
  cl_processing cl !! tid = None /\ open_dsts calls = [] /\ reply_votes replies = [] /\
  (d = Some true -> Forall (prepared_at n) Ls).

Definition votes_ok (d : option bool) (Ls : list Z) (n : Net DB) (cl : Client) (calls : list Asked)
    (replies : list ClientCall) : Prop :=
  (d = None /\ length Ls = 2%nat /\ voting Ls n cl calls replies) \/ closed d Ls n cl calls replies.

Record sys_inv (d : option bool) (Ls : list Z) (y : System DB) : Prop := {
  si_net : net_ok d (sys_net y);
  si_calls : Forall (call_ok d) (sys_calls y);
  si_client : cl_consts (sys_client y) = C /\ stubs_cover (sys_client y);
  si_votes : votes_ok d Ls (sys_net y) (sys_client y) (sys_calls y) (sys_replies y)
}.

Lemma lookup_split {A} (l : list A) k x : l !! k = Some x -> l ≡ₚ x :: delete k l.
Proof. apply delete_Permutation. Qed.

Lemma insert_split {A} (l : list A) k x y : l !! k = Some x -> <[k := y]> l ≡ₚ y :: delete k l.
Proof.
  intros Hk. assert (k < length l)%nat as Hlt by (by eapply lookup_lt_Some).
  rewrite insert_take_drop, delete_take_drop by done. symmetry. apply Permutation_middle.
Qed.


Lemma open_split calls k a :
  calls !! k = Some a ->
  open_dsts calls ≡ₚ (if open_vote a then [as_dst a] else []) ++ open_dsts (delete k calls).
Proof.
  intros Hk. unfold open_dsts. rewrite (lookup_split calls k a Hk) at 1. rewrite filter_cons.
  by destruct (open_vote a).
Qed.

Lemma open_insert calls k a a' :
  calls !! k = Some a ->
  open_dsts (<[k := a']> calls) ≡ₚ (if open_vote a' then [as_dst a'] else []) ++ open_dsts (delete k calls).
Proof.
  intros Hk. unfold open_dsts. rewrite (insert_split calls k a a' Hk). rewrite filter_cons. by destruct (open_vote a').
Qed.

Lemma open_app calls new : open_dsts (calls ++ new) = open_dsts calls ++ open_dsts new.
Proof. unfold open_dsts. by rewrite filter_app, fmap_app. Qed.

Lemma open_none new : Forall (fun a => open_vote a = false) new -> open_dsts new = [].
Proof. intros Hn. unfold open_dsts. induction Hn as [|a new Ha _ IH]; [done|]. rewrite filter_cons, Ha. exact IH. Qed.

Lemma votes_split replies k c :
  replies !! k = Some c -> reply_votes replies ≡ₚ option_list (vote tid c) ++ reply_votes (delete k replies).
Proof.
  intros Hk. unfold reply_votes. rewrite (lookup_split replies k c Hk) at 1. cbn. by destruct (vote tid c).
Qed.

Lemma votes_app replies new : reply_votes (replies ++ new) = reply_votes replies ++ reply_votes new.
Proof. unfold reply_votes. apply omap_app. Qed.

(** What touches neither the record nor the votes, and closes calls. *)
Lemma votes_frame d Ls n n' cl cl' calls calls' replies replies' :
  grown n n' -> cl_processing cl' !! tid = cl_processing cl !! tid -> open_dsts calls' ⊆+ open_dsts calls ->
  reply_votes replies' ≡ₚ reply_votes replies ->
  votes_ok d Ls n cl calls replies -> votes_ok d Ls n' cl' calls' replies'.
Proof.
  intros Hg Hp Ho Hr [(-> & HL & u & V & H1 & H2 & H3 & H4 & H5)|(H1 & H2 & H3 & H4)].
  - left. split; [done|]. split; [done|]. exists u, V. split_and!; [by rewrite Hp|done|by rewrite Hr| |].
    + etransitivity; [|exact H4]. by apply submseteq_skips_l.
    + eapply Forall_impl; [exact H5|]. intros x Hx E. by eapply prepared_grown, Hx.
  - right. split_and!; [by rewrite Hp| | |].
    + rewrite H2 in Ho. by apply submseteq_nil_r in Ho.
    + rewrite H3 in Hr. by apply Permutation_nil_r in Hr.
    + intros E. eapply Forall_impl; [by apply H4|]. intros x Hx. by eapply prepared_grown.
Qed.

(** A leader answers the coordinator. *)
Lemma votes_cast d Ls n n' cl calls k a replies c v :
  grown n n' -> calls !! k = Some a -> open_vote a = true -> vote tid c = Some v ->
  (v = true -> prepared_at n' (as_dst a)) ->
  votes_ok d Ls n cl calls replies -> votes_ok d Ls n' cl (delete k calls) (replies ++ [c]).
Proof.
  intros Hg Hk Ha Hv Hp Hvotes. pose proof (open_split calls k a Hk) as Hs. rewrite Ha in Hs. cbn [app] in Hs.
  destruct Hvotes as [(-> & HL & u & V & H1 & H2 & H3 & H4 & H5)|(H1 & H2 & H3 & H4)].
  2:{ rewrite H2 in Hs. by apply Permutation_nil_l in Hs. }
  left. split; [done|]. split; [done|]. exists u, ((as_dst a, v) :: V). split_and!; [done|done| | |].
  - rewrite votes_app. unfold reply_votes at 2. cbn. rewrite Hv. cbn. rewrite H3.
    rewrite (app_assoc u). apply Permutation_cons_append.
  - cbn. rewrite Permutation_middle. by rewrite <- Hs.
  - constructor; [done|]. eapply Forall_impl; [exact H5|]. intros x Hx E. by eapply prepared_grown, Hx.
Qed.

(** ** The coordinator hears a reply *)

Lemma post_Forall (Q : Asked -> Prop) outs new :
  mapM (post C) outs = Some new -> (forall name m i, CRpc name m ∈ outs -> Q (mk_asked i (call_of m) true)) -> Forall Q new.
Proof.
  intros Hm%mapM_Some HQ. apply Forall_forall. intros a Ha. apply list_elem_of_lookup_1 in Ha as [j Hj].
  destruct (Forall2_lookup_r _ _ _ _ _ Hm Hj) as (o & Ho & Hpost). unfold post in Hpost.
  destruct o as [name m|]; [|done]. destruct (omap_get _ _ _) as [i|]; [|done]. injection Hpost as <-.
  apply (HQ name). by eapply list_elem_of_lookup_2.
Qed.

(** A decision message. *)
Definition decision_of (b : bool) (k : Z) : client_msg := if b then CTpcCommit (mk_tid k) else CTpcAbort (mk_tid k).

Lemma consume_outs c call now name m :
  CRpc name m ∈ (consume c call now).2 -> exists b k, m = decision_of b k.
Proof.
  unfold consume. destruct (_ && _); [by intros ?%elem_of_nil|]. destruct (bool_decide _); [|by intros ?%elem_of_nil]. cbv zeta.
  destruct (_ || _); [|by intros ?%elem_of_nil]. cbn [snd].
  match goal with |- context [if ?b then tpcCommit ?c _ _ _ else _] => generalize c; intros c'; destruct b end;
    unfold tpcCommit, tpcAbort, call_stub; intros (n & E & _)%list_elem_of_fmap; case_decide; try done; injection E as _ ->;
    [exists true|exists false]; by eexists.
Qed.

Lemma consume_table c call now : same_table c (consume c call now).1.
Proof.
  unfold consume. destruct (_ && _); [done|]. destruct (bool_decide _); [|done]. cbv zeta. by destruct (_ || _).
Qed.

Lemma decision_call_ok d b k i : (k = tid -> d = Some b) -> call_ok d (mk_asked i (call_of (decision_of b k)) true).
Proof. intros Hk. apply fresh_call_ok. by destruct b. Qed.

Lemma decision_not_open b k i : open_vote (mk_asked i (call_of (decision_of b k)) true) = false.
Proof. by destruct b. Qed.

(** The calls a reply makes the coordinator send: decisions, and about this
    transaction only what the filter lets through. *)
Lemma heard_calls c call now new d :
  mapM (post C) (consume c call now).2 = Some new ->
  (forall name b, CRpc name (decision_of b tid) ∈ filter (fun o => decides tid o = true) (consume c call now).2 -> d = Some b) ->
  Forall (call_ok d) new /\ open_dsts new = [].
Proof.
  intros Hnew Hf. split; [|apply open_none]; eapply post_Forall; try exact Hnew.
  - intros name m i Hin. destruct (consume_outs c call now name m Hin) as (b & k & ->). apply decision_call_ok.
    intros ->. apply (Hf name). apply list_elem_of_filter. split; [|done]. destruct b; cbn; apply Z.eqb_refl.
  - intros name m i Hin. destruct (consume_outs c call now name m Hin) as (b & k & ->). apply decision_not_open.
Qed.

Lemma sent_decision c b name b' : CRpc name (decision_of b tid) ∈ decision_msgs c t tid b' -> b' = b.
Proof. unfold decision_msgs. intros (n & E & _)%list_elem_of_fmap. by destruct b, b'. Qed.

(** Two votes of two leaders: everything is in, and a commit means that both
    are prepared. *)
Lemma second_vote Ls n cl' calls v1 v rest (V : list (Z * bool)) :
  length Ls = 2%nat -> cl_processing cl' !! tid = None -> V.*2 ≡ₚ v1 :: v :: reply_votes rest ->
  V.*1 ++ open_dsts calls ⊆+ Ls -> Forall (fun x => x.2 = true -> prepared_at n x.1) V ->
  closed (Some (v1 && v)) Ls n cl' calls rest.
Proof.
  intros HL Hp HV Hsub Hprep. pose proof (submseteq_length _ _ Hsub) as Hlen.
  pose proof (Permutation_length HV) as Hlen2. rewrite length_app in Hlen. rewrite length_fmap in Hlen. rewrite length_fmap in Hlen2. cbn in Hlen2.
  assert (open_dsts calls = []) as Eo by (apply length_zero_iff_nil; lia).
  assert (reply_votes rest = []) as Er by (apply length_zero_iff_nil; lia).
  split; [done|]. split; [done|]. split; [done|]. intros [= [-> ->]%andb_prop].
  rewrite Eo, app_nil_r in Hsub. rewrite <- (submseteq_length_Permutation V.*1 Ls Hsub) by (rewrite length_fmap; lia).
  apply Forall_fmap. apply Forall_forall. intros x Hx. rewrite Forall_forall in Hprep. apply (Hprep x Hx).
  assert (x.2 ∈ V.*2) as Hx2 by (apply list_elem_of_fmap; by exists x). rewrite HV, Er in Hx2. set_solver.
Qed.

Lemma hear_ok d Ls n cl calls replies k c now new :
  stubs_cover cl -> replies !! k = Some c -> mapM (post C) (consume cl c now).2 = Some new ->
  votes_ok d Ls n cl calls replies ->
  exists d', (d' = d \/ (d = None /\ length Ls = 2%nat)) /\ Forall (call_ok d') new /\ same_table cl (consume cl c now).1 /\
    votes_ok d' Ls n (consume cl c now).1 (calls ++ new) (delete k replies).
Proof.
  intros Hcov Hk Hnew Hvotes. pose proof (votes_split replies k c Hk) as Hsplit.
  pose proof (consume_seen cl c now tid Hcov) as Hseen. pose proof (heard_calls cl c now new) as Hcalls.
  destruct (consume cl c now) as [cl' outs] eqn:Econs. cbn [fst snd] in *.
  inversion Hseen as [? ? Hv Ht Hpr Hf | ? ? v p p' Hv Ht _ _ _]; subst; rewrite Hv in Hsplit; cbn [option_list app] in Hsplit.
  - exists d. destruct (Hcalls d Hnew) as [Hc Ho]. { intros name b Hin. rewrite Hf in Hin. by apply elem_of_nil in Hin. }
    split; [by left|]. split; [done|]. split; [done|].
    eapply votes_frame, Hvotes; [by apply grown_refl|done| |by rewrite Hsplit]. by rewrite open_app, Ho, app_nil_r.
  - destruct Hvotes as [(-> & HL & u & V & H1 & H2 & H3 & H4 & H5)|(_ & _ & H3 & _)].
    2:{ rewrite H3 in Hsplit. by apply Permutation_nil_l in Hsplit. }
    destruct (reply_progress t tid cl c now u cl' outs Hcov H1 Econs) as (_ & Hp & Hs);
      [rewrite Hv, length_app; cbn; lia|]. rewrite Hv in Hp, Hs. cbn [option_list] in Hp, Hs. rewrite Hsplit in H3.
    destruct u as [|v1 [|v2 u]]; cbn in H2; [| |lia]; cbn [app sent] in Hp, Hs, H3.
    + exists None. destruct (Hcalls None Hnew) as [Hc Ho]. { intros name b Hin. rewrite Hs in Hin. by apply elem_of_nil in Hin. }
      split; [by left|]. split; [done|]. split; [done|].
      left. split; [done|]. split; [done|]. exists [v], V. split_and!; [done|cbn; lia|done| |done].
      by rewrite open_app, Ho, app_nil_r.
    + exists (Some (v1 && v)). destruct (Hcalls (Some (v1 && v)) Hnew) as [Hc Ho].
      { intros name b Hin. rewrite Hs in Hin. by apply sent_decision in Hin as ->. }
      split; [by right|]. split; [done|]. split; [done|]. right.
      eapply second_vote; [done|exact Hp|exact H3| |exact H5]. by rewrite open_app, Ho, app_nil_r.
Qed.

(** ** A decision is made once, so nothing contradicts it *)

Lemma packet_more b p : packet_ok None p -> packet_ok (Some b) p.
Proof.
  assert (forall c, reply_ok None c -> reply_ok (Some b) c) as Hr.
  { intros c (H1 & H2). split; [|done]. eapply Forall_impl; [exact H1|]. intros l [Hl He]. split; [done|by apply entry_ok_more]. }
  destruct p as [src dst m [c|]|dst c]; cbn; [|done|apply Hr]. intros [Hm Hc]. split; [done|by apply Hr].
Qed.

Lemma net_more b n : net_ok None n -> net_ok (Some b) n.
Proof.
  intros [Hs Hp]. split; [|eapply Forall_impl; [exact Hp|apply packet_more]].
  intros i s Hi. destruct (Hs i s Hi) as [Hok [H1 H2 H3 H4]]. split; [done|]. split; try done.
  eapply Forall_impl; [exact H1|]. intros e. apply entry_ok_more.
Qed.

Lemma call_more b a : call_ok None a -> call_ok (Some b) a.
Proof.
  intros (H1 & H2 & H3). split; [done|]. split; [|done]. unfold event_of_call in *.
  destruct (ic_type (as_call a)); cbn in *; try done; intros E; specialize (H2 E); done.
Qed.

(** ** The actions *)

Lemma moved_servers n i s outs w n' : moved n i s outs w = Some n' -> servers n' !! i = Some s.
Proof. unfold moved. destruct (packets i outs); [|done]. intros [= <-]. apply lookup_insert_eq. Qed.

(** The completion of a prepare call carries the transaction's id. *)
Lemma completion_vote a s res outs s' p :
  ic_type (as_call a) = TPC_PREPARE -> p = RTransfer res ->
  processTpcPrepare s (ic_transferReq (as_call a)) (ic_transferRes (as_call a)) = (s', res, outs, true) ->
  vote tid (completion (as_call a) p) =
    if tr_tid (ic_transferReq (as_call a)) =? tid then Some (ts_ack res) else None.
Proof.
  intros Et -> (v & _ & Hv)%runPaxos_case. destruct v as [ack|]; [|done]. destruct Hv as [_ ->].
  unfold vote, completion. cbn. rewrite Et. done.
Qed.

Lemma completion_other a p : ic_type (as_call a) <> TPC_PREPARE -> vote tid (completion (as_call a) p) = None.
Proof. intros Ht. unfold vote, completion. cbn. by rewrite bool_decide_eq_false_2. Qed.

Lemma serve_ok d Ls y k y' : sys_inv d Ls y -> sys_exec y (Serve k) = Some y' -> sys_inv d Ls y'.
Proof.
  intros [Hn Hcalls Hcov Hvotes]. cbn [sys_exec]. destruct (sys_calls y !! k) as [a|] eqn:Ek; [|done]. cbn [mbind option_bind].
  destruct (servers (sys_net y) !! as_dst a) as [s|] eqn:Es; [|done]. cbn [mbind option_bind].
  pose proof (Forall_lookup_1 _ _ _ _ Hcalls Ek) as Ha. pose proof Ha as (Hw & He & Hst).
  destruct (proceed_effects s (as_call a) Hst) as (E1 & E2 & E3 & E4).
  destruct (serve_effects s (as_call a)) as (F1 & F2 & F3). rewrite E4, E2, E3, E1, F2, F1.
  destruct (moved _ _ _ _ _) as [n'|] eqn:Em; [|done]. cbn [mbind option_bind].
  destruct (proj1 Hn _ _ Es) as [Hok Hsd].
  destruct (moved_ok d _ _ s _ _ _ _ Hn Es Hw He (proj2 Hn) (exec_from s _ (so_base _ Hok)) Em) as [Hn' Hg].
  apply moved_servers in Em.
  destruct (finished (serve s (as_call a)).2) as [p|].
  - intros [= <-]. split; cbn [sys_net sys_client sys_calls sys_replies]; [done|by apply Forall_delete|done|].
    pose proof (open_split _ _ _ Ek) as Hs.
    destruct (decide (ic_type (as_call a) = TPC_PREPARE)) as [Et|Et].
    + destruct (F3 Et) as (res & outs & Ep & Hp). rewrite F1 in Hp. pose proof (completion_vote a s res outs _ p Et Ep Hp) as Hv.
      destruct (as_open a) eqn:Eo; unfold open_vote in Hs; rewrite Eo, bool_decide_eq_true_2 in Hs by done; cbn [andb] in Hs.
      * destruct (Z.eqb_spec (tr_tid (ic_transferReq (as_call a))) tid) as [Eid|].
        -- destruct (vote_prepared d s _ _ _ _ _ Hok Hsd Eid Hp) as [_ Hack].
           eapply votes_cast; [done|done| |exact Hv| |done].
           ++ unfold open_vote. rewrite Eo, Et, Eid, bool_decide_eq_true_2 by done. apply Z.eqb_refl.
           ++ intros Hv1. eexists. split; [exact Em|]. by apply Hack.
        -- eapply votes_frame, Hvotes; [done|done|by rewrite Hs|]. rewrite votes_app. cbn. by rewrite Hv, app_nil_r.
      * rewrite app_nil_r. eapply votes_frame, Hvotes; [done|done|by rewrite Hs|done].
    + eapply votes_frame, Hvotes; [done|done| |].
      * rewrite Hs. by apply submseteq_inserts_l.
      * rewrite votes_app. destruct (as_open a); cbn; [rewrite completion_other by done|]; by rewrite app_nil_r.
  - destruct F3 as (G1 & G2 & G3 & G4). intros [= <-].
    split; cbn [sys_net sys_client sys_calls sys_replies]; [done| |done|].
    + apply Forall_insert; [done|]. by apply retried_ok.
    + eapply votes_frame, Hvotes; [done|done| |done]. rewrite (open_insert _ _ _ _ Ek), (open_split _ _ _ Ek).
      unfold open_vote. cbn [as_open as_call as_dst upd Asked_settable]. by rewrite G2, G3.
Qed.

(** The reply of a failed RPC is empty and counts for transaction 0. *)
Lemma lost_vote type st : vote tid (mk_client_call type default_transfer_res st) = None.
Proof.
  unfold vote. cbn [cc_reply cc_type cc_status]. change (ts_tid default_transfer_res) with 0.
  destruct (Z.eqb_spec 0 tid) as [E|]; [by destruct (proj2 Htid)|]. by rewrite andb_false_r.
Qed.

Lemma break_ok d Ls y k st y' : sys_inv d Ls y -> sys_exec y (Break k st) = Some y' -> sys_inv d Ls y'.
Proof.
  intros [Hn Hcalls Hcov Hvotes]. cbn [sys_exec]. destruct (sys_calls y !! k) as [a|] eqn:Ek; [|done]. cbn [mbind option_bind].
  destruct (_ && _); [|done]. intros [= <-].
  split; cbn [sys_net sys_client sys_calls sys_replies]; [done|by apply Forall_insert; [|exact (Forall_lookup_1 _ _ _ _ Hcalls Ek)]|done|].
  eapply votes_frame, Hvotes; [by apply grown_refl|done| |].
  - rewrite (open_insert _ _ _ _ Ek), (open_split _ _ _ Ek). unfold open_vote at 1. cbn. by apply submseteq_inserts_l.
  - rewrite votes_app. unfold reply_votes at 2. cbn [omap list_omap]. rewrite lost_vote. by rewrite app_nil_r.
Qed.

Lemma drop_ok d Ls y k y' : sys_inv d Ls y -> sys_exec y (Drop k) = Some y' -> sys_inv d Ls y'.
Proof.
  intros [Hn Hcalls Hcov Hvotes]. cbn [sys_exec]. destruct (sys_calls y !! k) as [a|] eqn:Ek; [|done]. intros [= <-].
  split; cbn [sys_net sys_client sys_calls sys_replies]; [done|by apply Forall_delete|done|].
  eapply votes_frame, Hvotes; [by apply grown_refl|done| |done]. rewrite (open_split _ _ _ Ek). by apply submseteq_inserts_l.
Qed.

Lemma table_client cl cl' : same_table cl cl' -> cl_consts cl = C /\ stubs_cover cl -> cl_consts cl' = C /\ stubs_cover cl'.
Proof. intros Ht [E Hc]. split; [by rewrite (proj1 Ht)|by eapply cover_table]. Qed.

Lemma hear_step d Ls y k now y' :
  sys_inv d Ls y -> sys_exec y (Hear k now) = Some y' ->
  exists d', (d' = d \/ length Ls = 2%nat) /\ sys_inv d' Ls y'.
Proof.
  intros [Hn Hcalls Hcov Hvotes]. cbn [sys_exec]. destruct (sys_replies y !! k) as [c|] eqn:Ek; [|done]. cbn [mbind option_bind].
  unfold posted. destruct (mapM _ _) as [new|] eqn:Enew; [|done]. intros [= <-].
  rewrite (proj1 (consume_table _ _ _)) in Enew. destruct Hcov as [EC Hcov]. rewrite EC in Enew.
  destruct (hear_ok d Ls _ _ _ _ _ _ _ _ Hcov Ek Enew Hvotes) as (d' & Hd & Hc & Ht & Hv). exists d'. split; [tauto|].
  assert (net_ok d' (sys_net y) /\ Forall (call_ok d') (sys_calls y)) as [Hn' Hcalls'].
  { destruct Hd as [->|[-> _]]; [done|]. destruct d' as [b|]; [|done]. split; [by apply net_more|].
    eapply Forall_impl; [exact Hcalls|apply call_more]. }
  split; cbn [sys_net sys_client sys_calls sys_replies]; [done|by apply Forall_app_2|by eapply table_client|done].
Qed.

Lemma inside_ok d Ls y a y' :
  inner_wf a -> sys_inv d Ls y -> sys_exec y (Inside a) = Some y' -> sys_inv d Ls y'.
Proof.
  intros Hw [Hn Hcalls Hcov Hvotes]. cbn [sys_exec]. destruct (is_inner a) eqn:Ea; [|done].
  destruct (net_exec (sys_net y) a) as [n'|] eqn:E; [|done]. intros [= <-].
  destruct (inner_ok d _ _ _ Hn Ea Hw E) as [Hn' Hg].
  split; cbn [sys_net sys_client sys_calls sys_replies]; [done|done|done|]. by eapply votes_frame, Hvotes.
Qed.

(** ** The coordinator starts a transaction *)

Lemma post_stub cl name m a : post C (call_stub cl name m) = Some a ->
  exists i, omap_get string_ltb name (server_ids C) = Some i /\ a = mk_asked i (call_of m) true.
Proof.
  unfold call_stub. case_decide; [|done]. cbn. destruct (omap_get _ _ _) as [i|]; [|done]. intros [= <-]. by exists i.
Qed.

Definition leader_id (leaders : list std_string) (client : Z) : option Z :=
  name ← leader_of leaders (getClusterIdFromClientId C client); omap_get string_ltb name (server_ids C).

Definition crosses_clusters (x : Transaction) : Prop :=
  getClusterIdFromClientId C (sender x) <> getClusterIdFromClientId C (receiver x).

Lemma process_table cl leaders x k cl' outs : process_one leaders cl x k = Some (cl', outs) -> same_table cl cl'.
Proof. unfold process_one. repeat case_match; try done; by intros [= <- _]. Qed.

(** The calls of one turn of [processTransactions]. *)
Lemma start_calls cl leaders x k cl' outs new :
  cl_consts cl = C -> process_one leaders cl x k = Some (cl', outs) -> mapM (post C) outs = Some new ->
  exists l1 l2, leader_id leaders (sender x) = Some l1 /\
    if getClusterIdFromClientId C (sender x) =? getClusterIdFromClientId C (receiver x)
    then cl' = cl /\ new = [mk_asked l1 (call_of (CTransfer (mk_transfer_req x k))) true]
    else leader_id leaders (receiver x) = Some l2 /\
      cl_processing cl' = <[k := mk_tpc_prepare_res x 0 0]> (cl_processing cl) /\
      new = [mk_asked l1 (call_of (CTpcPrepare (mk_transfer_req x k))) true;
             mk_asked l2 (call_of (CTpcPrepare (mk_transfer_req x k))) true].
Proof.
  intros EC. unfold process_one. rewrite EC, !txn_eta. clear EC. cbv zeta. unfold leader_id.
  destruct (leader_of leaders (getClusterIdFromClientId C (sender x))) as [n1|]; [|done].
  destruct (leader_of leaders (getClusterIdFromClientId C (receiver x))) as [n2|]; [|done]. cbn [mbind option_bind].
  destruct (_ =? _); intros [= <- <-] Hm.
  - unfold sendTransfer in Hm. apply mapM_Some in Hm. inversion Hm as [|? a ? ? Ha Hr]; subst. inversion Hr; subst.
    apply post_stub in Ha as (i & -> & ->). exists i, 0. by split_and!.
  - unfold tpcPrepare in Hm. apply mapM_Some in Hm. inversion Hm as [|? a ? ? Ha Hr]; subst.
    inversion Hr as [|? b ? ? Hb Hr2]; subst. inversion Hr2; subst.
    apply post_stub in Ha as (i & -> & ->). apply post_stub in Hb as (j & -> & ->). exists i, j. by split_and!.
Qed.

Definition action_ok (a : sys_action) : Prop :=
  match a with
  | Start x k _ => (wf_txn x /\ in_long k /\ k <> -1) /\ k <> tid
  | Inside a => inner_wf a
  | _ => True
  end.

Lemma not_open i m :
  match m with CTpcPrepare r => tr_tid r <> tid | _ => True end -> open_vote (mk_asked i (call_of m) true) = false.
Proof. destruct m; try done. cbn. unfold open_vote. cbn. by intros Hne%Z.eqb_neq. Qed.

Lemma start_other d Ls y x k leaders y' :
  action_ok (Start x k leaders) -> sys_inv d Ls y -> sys_exec y (Start x k leaders) = Some y' -> sys_inv d Ls y'.
Proof.
  intros [(Hx & Hk & Hk1) Hne] [Hn Hcalls Hcl Hvotes]. cbn [sys_exec].
  destruct (process_one leaders (sys_client y) x k) as [[cl' outs]|] eqn:Ep; [|done]. cbn [mbind option_bind fst snd].
  unfold posted. destruct (mapM _ _) as [new|] eqn:Em; [|done]. intros [= <-].
  pose proof (process_table _ _ _ _ _ _ Ep) as Ht. assert (cl_consts cl' = C) as EC' by (rewrite (proj1 Ht); apply Hcl).
  rewrite EC' in Em. destruct (start_calls _ _ _ _ _ _ _ (proj1 Hcl) Ep Em) as (l1 & l2 & _ & Hnew).
  assert (Forall (call_ok d) new /\ open_dsts new = [] /\ cl_processing cl' !! tid = cl_processing (sys_client y) !! tid) as (Hc & Ho & Hp).
  { destruct (_ =? _).
    - destruct Hnew as [-> ->]. split; [|split; [apply open_none; repeat constructor|done]].
      apply Forall_singleton, fresh_call_ok. by split; [split|].
    - destruct Hnew as (_ & -> & ->). split; [|split; [apply open_none; repeat constructor; by apply not_open|by apply lookup_insert_ne]].
      assert (forall i, call_ok d (mk_asked i (call_of (CTpcPrepare (mk_transfer_req x k))) true)) as Hc.
      { intros i. apply fresh_call_ok. split; [by split|]. by intros ?. }
      by rewrite Forall_cons, Forall_singleton. }
  split; cbn [sys_net sys_client sys_calls sys_replies]; [done|by apply Forall_app_2|by eapply table_client|].
  eapply votes_frame, Hvotes; [by apply grown_refl|done| |done]. by rewrite open_app, Ho, app_nil_r.
Qed.

(** The start of the transaction itself. *)
Lemma start_this y leaders y' :
  wf_txn t -> in_long tid -> crosses_clusters t ->
  sys_inv None [] y -> sys_exec y (Start t tid leaders) = Some y' ->
  exists l1 l2, leader_id leaders (sender t) = Some l1 /\ leader_id leaders (receiver t) = Some l2 /\ sys_inv None [l1; l2] y'.
Proof.
  intros Hx Hk Hcross [Hn Hcalls Hcl Hvotes]. cbn [sys_exec].
  destruct (process_one leaders (sys_client y) t tid) as [[cl' outs]|] eqn:Ep; [|done]. cbn [mbind option_bind fst snd].
  unfold posted. destruct (mapM _ _) as [new|] eqn:Em; [|done]. intros [= <-].
  pose proof (process_table _ _ _ _ _ _ Ep) as Ht. assert (cl_consts cl' = C) as EC' by (rewrite (proj1 Ht); apply Hcl).
  rewrite EC' in Em. destruct (start_calls _ _ _ _ _ _ _ (proj1 Hcl) Ep Em) as (l1 & l2 & E1 & Hnew).
  apply Z.eqb_neq in Hcross. rewrite Hcross in Hnew. destruct Hnew as (E2 & Hp & ->).
  exists l1, l2. split; [done|]. split; [done|].
  assert (forall d i, call_ok d (mk_asked i (call_of (CTpcPrepare (mk_transfer_req t tid))) true)) as Hc.
  { intros d i. apply fresh_call_ok. split; [|by intros ?]. split; [done|apply Htid]. }
  assert (forall i, open_vote (mk_asked i (call_of (CTpcPrepare (mk_transfer_req t tid))) true) = true) as Ho by (intros i; apply Z.eqb_refl).
  split; cbn [sys_net sys_client sys_calls sys_replies]; [done| |by eapply table_client|].
  - apply Forall_app_2; [done|]. by rewrite Forall_cons, Forall_singleton.
  - left. split; [done|]. split; [done|]. destruct Hvotes as [(_ & HL & _)|(V1 & V2 & V3 & _)]; [done|].
    exists [], []. split_and!; [|cbn; lia|by rewrite V3| |constructor].
    + cbn [progress]. rewrite Hp. apply lookup_insert_eq.
    + rewrite open_app, V2. unfold open_dsts. rewrite !filter_cons, !Ho. done.
Qed.

Lemma step_inv d Ls y a y' :
  action_ok a -> sys_inv d Ls y -> sys_exec y a = Some y' -> exists d', (d' = d \/ length Ls = 2%nat) /\ sys_inv d' Ls y'.
Proof.
  intros Ha Hy. destruct a as [x k leaders|k|k st|k|k now|a]; intros He.
  - exists d. split; [by left|]. by eapply start_other.
  - exists d. split; [by left|]. by eapply serve_ok.
  - exists d. split; [by left|]. by eapply break_ok.
  - exists d. split; [by left|]. by eapply drop_ok.
  - by eapply hear_step.
  - exists d. split; [by left|]. by eapply inside_ok.
Qed.

Lemma run_inv acts d Ls y y' :
  Forall action_ok acts -> sys_inv d Ls y -> sys_run y acts = Some y' -> exists d', (d' = d \/ length Ls = 2%nat) /\ sys_inv d' Ls y'.
Proof.
  intros Ha. revert d y. induction Ha as [|a acts Ha _ IH]; cbn [sys_run]; intros d y Hy; [intros [= <-]; exists d; split; [by left|done]|].
  destruct (sys_exec y a) as [y1|] eqn:E; [|done]. cbn [mbind option_bind].
  destruct (step_inv d Ls y a y1 Ha Hy E) as (d1 & Hd1 & Hy1). intros Hrun.
  destruct (IH d1 y1 Hy1 Hrun) as (d' & Hd' & Hy'). exists d'. split; [|done].
  destruct Hd' as [->|]; [done|by right].
Qed.

(** ** The bank at the start *)

(** A server of the bank before its first event. *)
Definition idle s : Prop :=
  srv_ok s /\ log s = [] /\ consts s = C /\ accept_val s = default_transfer_req /\ await_accept_decision s = false.

Definition bank_started (y : System DB) : Prop :=
  wire (sys_net y) = [] /\ sys_calls y = [] /\ sys_replies y = [] /\ sys_client y = Client_new C /\
  forall i s, servers (sys_net y) !! i = Some s -> idle s.

(** Servers that went through [ServerImpl::run] are idle. *)
Lemma built_idle i f (d : DB) s :
  file_ok f -> in_int i -> base_ok s -> typed s -> log s = log (ServerImpl C i f d) ->
  consts s = consts (ServerImpl C i f d) -> ctrl s = ctrl (ServerImpl C i f d) -> idle s.
Proof.
  intros Hf Hi Hok Ht El Ec Hc. destruct (built_view C i f d) as (_ & _ & Hl & _ & Hb).
  destruct (built_config C i f d) as (Hcfg & _). cbv zeta in Hb, Hcfg, Hl. rewrite Hb in Hc. rewrite Hcfg in Ec. rewrite Hl in El.
  split; [|split_and!; [done|done|exact (f_equal ct_accept_val Hc)|exact (f_equal ct_await_accept Hc)]].
  split; [done|done| |by rewrite El]. rewrite Hc. by split_and!.
Qed.

Lemma started_idle i f (d : DB) s : started C i f d s -> idle s.
Proof.
  intros Hst. pose proof Hst as (Hf & Hid & Hrun).
  apply (built_idle i f d); [done|done|by eapply setup_base|by eapply typed_start|..];
    revert Hrun; unfold run_setup; (case_match; [|done]); by intros [= <-].
Qed.

Lemma started_inv y : crosses_clusters t -> bank_started y -> sys_inv None [] y.
Proof.
  intros Hcross (Hw & Hc & Hr & Hcl & Hs). split.
  - split; [|by rewrite Hw]. intros i s Hi. destruct (Hs i s Hi) as (Hok & E1 & E2 & E3 & E4). split; [done|]. split.
    + by rewrite E1.
    + unfold request_ok. rewrite E3. intros E. by destruct (proj2 Htid).
    + intros [Ha _]. congruence.
    + unfold client_in_cluster. rewrite E2. apply andb_false_iff. unfold crosses_clusters in Hcross.
      destruct (Z.eqb_spec (getClusterIdFromClientId C (sender t)) (cluster_id s)); [|by left].
      right. apply Z.eqb_neq. congruence.
  - by rewrite Hc.
  - rewrite Hcl. split; [done|by intros n Hin].
  - right. rewrite Hc, Hr, Hcl. by split_and!.
Qed.

Definition has_logged (st : TransactionStatus) s : Prop := exists e, e ∈ log s /\ we_tid e = tid /\ we_status e = st.

Lemma inv_status d Ls y i s (b : bool) :
  sys_inv d Ls y -> servers (sys_net y) !! i = Some s -> has_logged (decided_status b) s -> d = Some b.
Proof.
  intros Hy Hi (e & He & Et & Es). destruct (proj1 (si_net _ _ _ Hy) i s Hi) as [_ Hsd].
  pose proof (sd_log _ _ Hsd) as Hl. rewrite Forall_forall in Hl. destruct (Hl e He Et) as [H1 H2].
  destruct b; [by apply H1|by apply H2].
Qed.

Lemma inv_prepared Ls y l :
  sys_inv (Some true) Ls y -> l ∈ Ls -> exists s, servers (sys_net y) !! l = Some s /\ has_logged PREPARED s.
Proof.
  intros Hy Hl. destruct (si_votes _ _ _ Hy) as [(Hd & _)|(_ & _ & _ & Hp)]; [done|].
  specialize (Hp eq_refl). rewrite Forall_forall in Hp. destruct (Hp l Hl) as (s & Hs & b & Hb).
  exists s. split; [done|]. by exists (prepare_of (mk_transfer_req t tid) b).
Qed.
End Transaction.

(** C2. Two-phase commit is atomic. In a bank whose servers have just started, with any transactions before,
    between and after, any loss, delay, reordering and failure of RPCs,
    retries, synchronisation and competing leaders: the servers never
    disagree on a cross-shard transaction that is started once (none has it
    committed while another has it aborted), and if any server has it
    committed then both leaders the coordinator asked have it prepared in
    their logs. *)
Theorem cross_shard_atomic C t tid leaders acts1 acts2 y0 y :
  bank_started C y0 -> tid <> -1 /\ tid <> 0 -> wf_txn t -> in_long tid -> crosses_clusters C t ->
  Forall (action_ok tid) acts1 -> Forall (action_ok tid) acts2 ->
  sys_run y0 (acts1 ++ Start t tid leaders :: acts2) = Some y ->
  exists l1 l2, leader_id C leaders (sender t) = Some l1 /\ leader_id C leaders (receiver t) = Some l2 /\
    forall i s, servers (sys_net y) !! i = Some s -> has_logged tid COMMITTED s ->
      (forall j s', servers (sys_net y) !! j = Some s' -> ~ has_logged tid ABORTED s') /\
      forall l, l = l1 \/ l = l2 -> exists sl, servers (sys_net y) !! l = Some sl /\ has_logged tid PREPARED sl.
Proof.
  intros Hst Htid Ht Hl Hcross Ha1 Ha2 Hrun.
  assert (exists y1 y2, sys_run y0 acts1 = Some y1 /\ sys_exec y1 (Start t tid leaders) = Some y2 /\ sys_run y2 acts2 = Some y)
    as (y1 & y2 & R1 & R2 & R3).
  { clear -Hrun. revert y0 Hrun. induction acts1 as [|a acts IH]; cbn [app sys_run]; intros y0.
    - destruct (sys_exec y0 (Start t tid leaders)) as [y2|] eqn:E; [|done]. intros Hr. by exists y0, y2.
    - destruct (sys_exec y0 a) as [y1|]; [|done]. apply IH. }
  destruct (run_inv C t tid Htid acts1 None [] y0 y1 Ha1 (started_inv C t tid Htid y0 Hcross Hst) R1) as (d1 & Hd1 & Hy1).
  destruct Hd1 as [->|]; [|done].
  destruct (start_this C t tid Htid y1 leaders y2 Ht Hl Hcross Hy1 R2) as (l1 & l2 & E1 & E2 & Hy2).
  destruct (run_inv C t tid Htid acts2 None [l1; l2] y2 y Ha2 Hy2 R3) as (d & _ & Hy).
  exists l1, l2. split; [done|]. split; [done|]. intros i s Hi Hc.
  assert (d = Some true) as -> by (by eapply (inv_status C t tid d _ y i s true)). split.
  - intros j s' Hj Hab. by pose proof (inv_status C t tid (Some true) _ y j s' false Hy Hj Hab).
  - intros l Hll. eapply inv_prepared; [exact Hy|]. destruct Hll as [-> | ->]; [left|right; left].
Qed.

End Servers.

(** ** Witness *)

Definition bank_two : System map_store :=
  mk_system (mk_net (list_to_map (map (fun i => (i, boot i [1])) [1; 2; 3] ++ map (fun i => (i, boot i [1001])) [4; 5; 6])) [])
    (Client_new default_config) [] [].

Definition cross_pay : Transaction := mk_txn 1 1001 3.
Definition both_leaders : list std_string := [str "S1"; str "S4"; str "S7"].

Lemma open_idle (i : Z) (f : File) (clients : list Z) (s : Server map_store) :
  file_ok f -> in_int i -> base_ok s -> typed s -> s = ServerImpl default_config i f ∅ ->
  idle default_config (open_accounts clients s).
Proof.
  intros Hf Hi Hb Ht E.
  apply (built_idle default_config i f ∅); [done|done|exact Hb|by apply typed_open|..]; rewrite <- E; reflexivity.
Qed.

Lemma boot_idle (i : Z) (clients : list Z) : in_int i -> idle default_config (boot i clients).
Proof.
  intros Hi. unfold boot.
  apply (open_idle i (mk_file [] true true)); [by split|done|by apply built_base|apply typed_built|reflexivity].
Qed.

Lemma bank_two_started : bank_started default_config bank_two.
Proof.
  split_and!; try done. intros i s Hs. unfold bank_two in Hs. cbn [sys_net servers] in Hs.
  apply elem_of_list_to_map_2 in Hs.
  apply elem_of_app in Hs as [Hs|Hs]; apply list_elem_of_fmap in Hs as (j & [= -> ->] & Hj);
    apply boot_idle; rewrite !elem_of_cons, elem_of_nil in Hj; unfold in_int; lia.
Qed.

(** Client 1 pays client 1001 of another cluster: servers 1 and 4 lead, one
    replica of each cluster takes part, and both leaders and both replicas
    hear the commit. *)
Definition deliver (k : nat) : sys_action := Inside (Deliver k).
Definition lose (k : nat) : sys_action := Inside (Lose k).
Definition cross_run : list sys_action :=
  [Serve 0; deliver 0; lose 0; deliver 0; Serve 1; deliver 0; lose 0; deliver 0;   (* both leaders have a majority *)
   Serve 0; deliver 0; lose 0; deliver 0; Serve 1; deliver 0; lose 0; deliver 0;   (* both values are accepted *)
   Serve 0; Serve 0; Hear 0 50; Hear 0 60] ++                                      (* two votes, one decision *)
  replicate 6 (Serve 0).

Abbreviation cross_end := (sys_run (J := zero_junk) bank_two ([] ++ Start cross_pay 7 both_leaders :: cross_run)).

Lemma cross_pay_wf : wf_txn cross_pay.
Proof. unfold wf_txn, in_int, cross_pay. cbn. lia. Qed.

Lemma cross_pay_crosses : crosses_clusters default_config cross_pay.
Proof. vm_compute. discriminate. Qed.

Lemma cross_leader : leader_id default_config both_leaders (receiver cross_pay) = Some 4.
Proof. vm_compute. reflexivity. Qed.

Lemma cross_run_ok : Forall (action_ok 7) cross_run.
Proof. apply Forall_forall. intros a Ha. repeat (apply elem_of_cons in Ha as [->|Ha]; [exact I|]). by apply elem_of_nil in Ha. Qed.

Lemma cross_end_log : (y ← cross_end; s ← servers (sys_net y) !! 1; nth_error (log s) 1)
  = Some (mk_entry 7 1 1 cross_pay CROSS COMMITTED).
Proof. vm_compute. reflexivity. Qed.

Lemma cross_end_committed :
  exists y s, cross_end = Some y /\ servers (sys_net y) !! 1 = Some s /\ has_logged 7 COMMITTED s.
Proof.
  pose proof cross_end_log as Hl. destruct cross_end as [y|]; [|done]. cbn [mbind option_bind] in Hl.
  destruct (servers (sys_net y) !! 1) as [s|] eqn:Es; [|done]. cbn [mbind option_bind] in Hl.
  exists y, s. split; [done|]. split; [done|]. eexists. split; [by eapply list_elem_of_In, nth_error_In|done].
Qed.

Lemma cross_shard_atomic_witness :
  exists y, cross_end = Some y /\
    (exists s, servers (sys_net y) !! 1 = Some s /\ has_logged 7 COMMITTED s) /\
    exists s, servers (sys_net y) !! 4 = Some s /\ has_logged 7 PREPARED s.
Proof.
  destruct cross_end_committed as (y & s & Hy & Hs & Hc). exists y. split; [exact Hy|]. split; [exists s; split; [exact Hs|exact Hc]|].
  destruct (cross_shard_atomic (J := zero_junk) default_config cross_pay 7 both_leaders [] cross_run bank_two y)
    as (l1 & l2 & E1 & E2 & Hall).
  - exact bank_two_started.
  - lia.
  - exact cross_pay_wf.
  - unfold in_long. lia.
  - exact cross_pay_crosses.
  - constructor.
  - exact cross_run_ok.
  - exact Hy.
  - assert (l2 = 4) as ->.
    { pose proof cross_leader as E. rewrite E in E2. by injection E2. }
    apply (proj2 (Hall 1 s Hs Hc) 4). by right.
Defined.
