(* ===== verification/SysRound.v ===== *)
(** * A round and a decision, as the whole bank sees them

    The coordinator's call at a leader is served three times, with the three
    exchanges of the leader's round ([Round]); the coordinator hears the
    reply; a decision of two-phase commit is served by the servers that are
    up and lost to the others. *)
From stdpp Require Import gmap list strings.
From Stdlib Require Import ZArith Lia Ascii.
From S2P Require Import Prelude Chars Types Config Wal OutCall Server Store Steps Protocol Acceptor Ledger Calls ServerMain Network Round Progress Client System Atomic.

(** One exchange of the coordinator's call at its leader, and the three of a
    round. *)
Definition exchange_sys (j g : Z) : list sys_action := Serve 0 :: map Inside (answer_one j g).
Definition round_run (j g : Z) : list sys_action := exchange_sys j g ++ exchange_sys j g ++ exchange_sys j g.

(** A request the leader refuses: one exchange, and its answer. *)
Definition refusal_run (j g : Z) : list sys_action := exchange_sys j g ++ [Serve 0].

Lemma NoDup_filtered {A B} (g : A -> B) (P : A -> Prop) `{!forall x, Decision (P x)} (l : list A) :
  NoDup (g <$> l) -> NoDup (g <$> filter P l).
Proof.
  induction l as [|x l IH]; [done|]. rewrite fmap_cons, NoDup_cons. intros [Hx Hl]. rewrite filter_cons.
  destruct (decide (P x)); [|by apply IH]. rewrite fmap_cons, NoDup_cons. split; [|by apply IH].
  intros (y & E & [_ Hy]%list_elem_of_filter)%list_elem_of_fmap. apply Hx, list_elem_of_fmap. by exists y.
Qed.

Section SysRound.
Context {DB : Type} `{KVStore DB} {J : Indeterminate}.
Implicit Types (s l f : Server DB) (ss : gmap Z (Server DB)).

Lemma sys_run_app (y : System DB) a1 a2 : sys_run y (a1 ++ a2) = y' ← sys_run y a1; sys_run y' a2.
Proof.
  revert y. induction a1 as [|a a1 IH]; intros y; cbn; [done|]. destruct (sys_exec y a) as [y'|]; cbn; [apply IH|done].
Qed.

(** What happens inside the clusters leaves the coordinator alone. *)
Lemma sys_run_inside (n n' : Net DB) cl calls replies acts :
  Forall (fun a => is_inner a = true) acts -> net_run n acts = Some n' ->
  sys_run (mk_system n cl calls replies) (map Inside acts) = Some (mk_system n' cl calls replies).
Proof.
  intros Ha. revert n. induction Ha as [|a acts Hi _ IH]; intros n; cbn [net_run map sys_run sys_exec]; [by intros [= <-]|].
  rewrite Hi. cbn [sys_net]. destruct (net_exec n a) as [n1|]; [|done]. apply IH.
Qed.

(** ** The coordinator's call at a leader *)

Definition call_type (cross : bool) : RequestTypes := if cross then TPC_PREPARE else TRANSFER.

Definition asks (cross : bool) (r : TransferReq) (a : Asked) : Prop :=
  as_open a = true /\ ic_type (as_call a) = call_type cross /\ ic_transferReq (as_call a) = r /\
  (ic_status (as_call a) = PROCESS \/ ic_status (as_call a) = RETRY).

(** What the coordinator hears when the leader has finished. *)
Definition answered (cross ack : bool) (tid : Z) : ClientCall := mk_client_call (call_type cross) (mk_transfer_res ack tid) StatusOK.

Lemma serve_asks cross r s a :
  asks cross r a -> serve s (as_call a) = answer_or_retry (as_call a) (runPaxos s r (ic_transferRes (as_call a)) cross).
Proof. intros (_ & Ht & Hr & _). unfold serve. rewrite Ht. destruct cross; cbn [call_type]; by rewrite Hr. Qed.

(** The leader [L] of a cluster with the other servers [j] and [g]. *)
Section Side.
Context (L j g : Z).
Hypothesis Hj : L <> j.

Definition sys_at ss cl calls replies : System DB := mk_system (mk_net ss []) cl calls replies.

Lemma exchange_retries ss cl a rest replies cross r l f l2 f2 :
  asks cross r a -> as_dst a = L -> ss !! L = Some l -> ss !! j = Some f -> exchanged j g cross r false l f l2 f2 ->
  exists a', sys_run (sys_at ss cl (a :: rest) replies) (exchange_sys j g)
    = Some (sys_at (<[L := l2]> (<[j := f2]> ss)) cl (a' :: rest) replies) /\ asks cross r a' /\ as_dst a' = L.
Proof.
  intros Ha Hd Hl Hf (l1 & m & c & [Hex Hrep] & Hrun). destruct (Hrun (ic_transferRes (as_call a))) as (res & Hr & _).
  pose proof (serve_asks cross r l a Ha) as Es. rewrite Hr in Es. unfold answer_or_retry in Es. cbn [fst snd negb] in Es.
  destruct Ha as (Ho & Ht & Hq & Hst).
  destruct (proceed_effects l (as_call a) Hst) as (P1 & P2 & P3 & P4). cbv zeta in P1, P2, P3, P4. rewrite Es in P1, P2, P3, P4.
  unfold Retry in P3, P4. cbn [fst snd] in P1, P2, P3, P4. rewrite peers_effects in P3 by done. rewrite finished_effects in P4.
  eexists. split.
  - unfold exchange_sys, sys_at. cbn [sys_run sys_exec sys_calls sys_net lookup list_lookup mbind option_bind servers].
    rewrite Hd, Hl. cbn [mbind option_bind]. cbv zeta. rewrite P1, P2, P3, P4. unfold moved. rewrite sent_packets. cbn [mbind option_bind wire app servers sys_client sys_calls sys_replies].
    apply sys_run_inside; [unfold answer_one; destruct (j <? g); by repeat constructor|]. by apply one_answers with (f := f).
  - split; [|done]. split_and!; try done. by right.
Qed.

Lemma exchange_replies ss cl a rest replies cross r l f l2 f2 :
  asks cross r a -> as_dst a = L -> ss !! L = Some l -> ss !! j = Some f -> exchanged j g cross r true l f l2 f2 ->
  sys_run (sys_at ss cl (a :: rest) replies) (exchange_sys j g)
    = Some (sys_at (<[L := l2]> (<[j := f2]> ss)) cl rest (replies ++ [answered cross true (tr_tid r)])).
Proof.
  intros Ha Hd Hl Hf (l1 & m & c & [Hex Hrep] & Hrun). destruct (Hrun (ic_transferRes (as_call a))) as (res & Hr & Hres).
  specialize (Hres eq_refl). subst res.
  pose proof (serve_asks cross r l a Ha) as Es. rewrite Hr in Es. unfold answer_or_retry in Es. cbn [fst snd negb] in Es.
  destruct Ha as (Ho & Ht & Hq & Hst).
  destruct (proceed_effects l (as_call a) Hst) as (P1 & P2 & P3 & P4). cbv zeta in P1, P2, P3, P4. rewrite Es in P1, P2, P3, P4.
  cbn [fst snd] in P1, P2, P3, P4. rewrite peers_effects in P3 by done. rewrite finished_effects in P4.
  unfold exchange_sys, sys_at. cbn [sys_run sys_exec sys_calls sys_net lookup list_lookup mbind option_bind servers].
  rewrite Hd, Hl. cbn [mbind option_bind]. cbv zeta. rewrite P1, P3, P4, Ho. unfold moved, completion. rewrite Ht, sent_packets.
  cbn [mbind option_bind wire app servers sys_client sys_calls sys_replies delete list_delete].
  apply sys_run_inside; [unfold answer_one; destruct (j <? g); by repeat constructor|]. by apply one_answers with (f := f).
Qed.

(** Two moves of one server in a row, two servers in turn. *)
Lemma insert_twice (m : gmap Z (Server DB)) l1 l2 f1 f2 :
  <[L := l2]> (<[j := f2]> (<[L := l1]> (<[j := f1]> m))) = <[L := l2]> (<[j := f2]> m).
Proof.
  rewrite (insert_insert_ne _ j L) by done. rewrite insert_insert_eq. by rewrite insert_insert_eq.
Qed.

Lemma look_leader (m : gmap Z (Server DB)) l f : <[L := l]> (<[j := f]> m) !! L = Some l.
Proof. apply lookup_insert_eq. Qed.
Lemma look_follower (m : gmap Z (Server DB)) l f : <[L := l]> (<[j := f]> m) !! j = Some f.
Proof. rewrite lookup_insert_ne by done. apply lookup_insert_eq. Qed.

(** A round, as the whole bank sees it. *)
Lemma round_runs ss cl a rest replies cross r l f l6 f6 :
  asks cross r a -> as_dst a = L -> ss !! L = Some l -> ss !! j = Some f -> round j g cross r l f l6 f6 ->
  sys_run (sys_at ss cl (a :: rest) replies) (round_run j g)
    = Some (sys_at (<[L := l6]> (<[j := f6]> ss)) cl rest (replies ++ [answered cross true (tr_tid r)])).
Proof.
  intros Ha Hd Hl Hf (l2 & f2 & l4 & f4 & X1 & X2 & X3).
  destruct (exchange_retries ss cl a rest replies cross r l f l2 f2 Ha Hd Hl Hf X1) as (a2 & R1 & Ha2 & Hd2).
  destruct (exchange_retries _ cl a2 rest replies cross r l2 f2 l4 f4 Ha2 Hd2 (look_leader ss l2 f2) (look_follower ss l2 f2) X2) as (a4 & R2 & Ha4 & Hd4).
  pose proof (exchange_replies _ cl a4 rest replies cross r l4 f4 l6 f6 Ha4 Hd4 (look_leader (<[L := l2]> (<[j := f2]> ss)) l4 f4) (look_follower (<[L := l2]> (<[j := f2]> ss)) l4 f4) X3) as R3.
  unfold round_run. rewrite sys_run_app, R1. cbn [mbind option_bind]. rewrite sys_run_app, R2. cbn [mbind option_bind].
  by rewrite R3, !insert_twice.
Qed.
(** A refusal. *)
Lemma refusal_runs ss cl a rest replies cross r l f l' f' :
  asks cross r a -> as_dst a = L -> ss !! L = Some l -> ss !! j = Some f -> refused j g cross r l f l' f' ->
  sys_run (sys_at ss cl (a :: rest) replies) (refusal_run j g)
    = Some (sys_at (<[L := l']> (<[j := f']> ss)) cl rest (replies ++ [answered cross false (tr_tid r)])).
Proof.
  intros Ha Hd Hl Hf (l2 & X1 & X2).
  destruct (exchange_retries ss cl a rest replies cross r l f l2 f' Ha Hd Hl Hf X1) as (a2 & R1 & Ha2 & Hd2).
  unfold refusal_run. rewrite sys_run_app, R1. cbn [mbind option_bind]. clear R1 X1 Ha Hd a.
  pose proof (serve_asks cross r l2 a2 Ha2) as Es. rewrite X2 in Es. unfold answer_or_retry in Es. cbn [fst snd negb map app] in Es.
  destruct Ha2 as (Ho & Ht & Hq & Hst).
  destruct (proceed_effects l2 (as_call a2) Hst) as (P1 & P2 & P3 & P4). cbv zeta in P1, P2, P3, P4. rewrite Es in P1, P2, P3, P4.
  cbn [fst snd] in P1, P2, P3, P4. change (peers_of [Finish ?r]) with (@nil Out) in P3. change (finished [Finish ?r]) with (Some r) in P4.
  unfold sys_at. cbn [sys_run sys_exec sys_calls sys_net lookup list_lookup mbind option_bind servers].
  rewrite Hd2, look_leader. cbn [mbind option_bind]. cbv zeta. rewrite P1, P3, P4, Ho. unfold moved, completion. rewrite Ht.
  cbn [packets mbind option_bind wire app servers sys_client sys_calls sys_replies delete list_delete].
  by rewrite insert_insert_eq.
Qed.
End Side.

(** ** The decision reaches the servers that are up *)

Definition decision_call (c : bool) (tid i : Z) : Asked :=
  mk_asked i (call_of (if c then CTpcCommit (mk_tid tid) else CTpcAbort (mk_tid tid))) true.

(** The call at the head of the list is served, or lost if its server is
    down. *)
Definition settle_run (up : list Z) (ds : list Z) : list sys_action :=
  map (fun i => if decide (i ∈ up) then Serve 0 else Drop 0) ds.

Definition decision_type (c : bool) : RequestTypes := if c then TPC_COMMIT else TPC_ABORT.

Lemma serve_decision c s tid i : Proceed s (as_call (decision_call c tid i)) =
  (processTpcDecision s (mk_tid tid) c, Some ((as_call (decision_call c tid i)) <| ic_status := FINISH |>),
   [Spawn (decision_type c) RETRY_TIMEOUT_MS; Finish REmpty]).
Proof. by destruct c. Qed.

Definition decision_reply (c : bool) : ClientCall := mk_client_call (decision_type c) default_transfer_res StatusOK.

Lemma decisions_settle c tid up ds ss cl replies :
  NoDup ds -> (forall i, i ∈ ds -> i ∈ up -> is_Some (ss !! i)) ->
  exists ss', sys_run (sys_at ss cl (map (decision_call c tid) ds) replies) (settle_run up ds)
      = Some (sys_at ss' cl [] (replies ++ replicate (length (filter (fun i => i ∈ up) ds)) (decision_reply c))) /\
    forall i, ss' !! i = if decide (i ∈ ds /\ i ∈ up) then (fun s => processTpcDecision s (mk_tid tid) c) <$> ss !! i else ss !! i.
Proof.
  unfold sys_at. intros Hd. revert ss replies. induction Hd as [|d ds Hn Hd IH]; intros ss replies Hup.
  { exists ss. split; [by rewrite app_nil_r|]. intros i. rewrite decide_False; [done|]. intros [Hi _]. by apply elem_of_nil in Hi. }
  cbn [map settle_run sys_run]. rewrite filter_cons. destruct (decide (d ∈ up)) as [Hu|Hu].
  - destruct (Hup d) as [s Hs]; [left|done|]. cbn [sys_exec sys_calls lookup list_lookup mbind option_bind sys_net servers].
    change (as_dst (decision_call c tid d)) with d. rewrite Hs. cbn [mbind option_bind]. cbv zeta.
    rewrite serve_decision. cbn -[replicate call_of]. replace (completion _ REmpty) with (decision_reply c) by (by destruct c).
    destruct (IH (<[d := processTpcDecision s (mk_tid tid) c]> ss) (replies ++ [decision_reply c])) as (ss' & Hrun & Hlk).
    { intros i Hi Hiu. rewrite lookup_insert_ne by (intros ->; done). apply Hup; [by right|done]. }
    exists ss'. split; [rewrite <- app_assoc in Hrun; exact Hrun|]. intros i. rewrite Hlk. destruct (decide (i = d)) as [->|Hne].
    + rewrite decide_False by tauto. rewrite decide_True by (split; [left|done]). by rewrite lookup_insert_eq, Hs.
    + rewrite lookup_insert_ne by done. apply decide_ext. rewrite elem_of_cons. naive_solver.
  - cbn [sys_exec sys_calls lookup list_lookup mbind option_bind sys_net sys_client sys_replies delete list_delete].
    destruct (IH ss replies) as (ss' & Hrun & Hlk); [intros i Hi; apply Hup; by right|].
    exists ss'. split; [exact Hrun|]. intros i. rewrite Hlk. apply decide_ext. rewrite elem_of_cons. naive_solver.
Qed.

(** Replies to a decision tell the coordinator nothing. *)
Lemma hear_head ss cl calls c rest now :
  sys_exec (sys_at ss cl calls (c :: rest)) (Hear 0 now)
  = posted (sys_at ss cl calls (c :: rest)) (consume cl c now).1 (consume cl c now).2 rest.
Proof. reflexivity. Qed.

Lemma posted_nothing (y : System DB) cl replies :
  posted y cl [] replies = Some (mk_system (sys_net y) cl (sys_calls y) replies).
Proof. unfold posted. cbn. by rewrite app_nil_r. Qed.

Lemma hear_decisions c ss cl calls m now :
  sys_run (sys_at ss cl calls (replicate m (decision_reply c))) (replicate m (Hear 0 now)) = Some (sys_at ss cl calls []).
Proof.
  induction m as [|m IH]; [done|]. cbn [replicate sys_run]. rewrite hear_head.
  assert (consume cl (decision_reply c) now = (cl, ([] : list COut))) as -> by (by destruct c).
  cbn [fst snd]. rewrite posted_nothing. exact IH.
Qed.

(** ** The coordinator hears two votes, the second one for the transaction *)

Definition one_vote (v : bool) (t : Transaction) : TpcPrepareRes :=
  if v then mk_tpc_prepare_res t 1 0 else mk_tpc_prepare_res t 0 1.

Lemma first_heard cl t tid now v :
  cl_processing cl !! tid = Some (mk_tpc_prepare_res t 0 0) ->
  consume cl (answered true v tid) now = (cl <| cl_processing ::= <[tid := one_vote v t]> |>, []).
Proof. intros Hp. unfold consume, processing_at. cbn. rewrite Hp. by destruct v. Qed.

Lemma second_heard cl t tid now v :
  stubs_cover cl -> cl_processing cl !! tid = Some (one_vote v t) ->
  let r := consume cl (answered true true tid) now in
  r.2 = decision_msgs cl t tid v /\ cl_consts r.1 = cl_consts cl /\ cl_processing r.1 !! tid = None /\
  transactions_processed r.1 = wrap32 (transactions_processed cl + 1).
Proof.
  intros Hc Hp. unfold consume, processing_at. cbn. rewrite Hp.
  pose proof (decision_sent cl t tid v Hc) as Hd.
  destruct v; cbn; (split_and!; [exact Hd|done|apply lookup_delete_eq|done]).
Qed.

(** The servers of the two clusters, in the order of the table. *)
Definition participant_ids (C : constants) (t : Transaction) : list Z :=
  (filter (fun p => getClusterIdFromServerId C p.2 = getClusterIdFromClientId C (sender t) \/
                    getClusterIdFromServerId C p.2 = getClusterIdFromClientId C (receiver t)) (server_ids C)).*2.

Lemma post_decision (c : bool) C tid (ps : list (std_string * Z)) :
  (forall n i, (n, i) ∈ ps -> omap_get string_ltb n (server_ids C) = Some i) ->
  mapM (post C) (map (fun n => CRpc n (if c then CTpcCommit (mk_tid tid) else CTpcAbort (mk_tid tid))) ps.*1) = Some (map (decision_call c tid) ps.*2).
Proof.
  induction ps as [|[n i] ps IH]; intros Hps; [done|]. cbn [fmap list_fmap map mapM fst snd post].
  rewrite (Hps n i) by left. cbn [mbind option_bind].
  rewrite IH; [done|]. intros n' i' Hin. apply Hps. by right.
Qed.

Lemma decisions_posted (c : bool) cl t tid :
  omap_sorted string_ltb (server_ids (cl_consts cl)) ->
  mapM (post (cl_consts cl)) (decision_msgs cl t tid c) = Some (map (decision_call c tid) (participant_ids (cl_consts cl) t)).
Proof.
  intros Hs. apply post_decision. intros n i [_ Hin]%list_elem_of_filter. by apply (omap_get_elem string_ltb).
Qed.


(** From the second vote on: the decision, and what the servers of [up] make
    of it. *)
Definition decided_acts (C : constants) (t : Transaction) (up : list Z) (now : Z) : list sys_action :=
  [Hear 0 now; Hear 0 now] ++ settle_run up (participant_ids C t) ++ replicate (length up) (Hear 0 now).

Lemma decided_run c cl t tid ss now up :
  stubs_cover cl -> omap_sorted string_ltb (server_ids (cl_consts cl)) -> NoDup (server_ids (cl_consts cl)).*2 ->
  cl_processing cl !! tid = Some (mk_tpc_prepare_res t 0 0) -> NoDup up ->
  (forall i, i ∈ up -> i ∈ participant_ids (cl_consts cl) t /\ is_Some (ss !! i)) ->
  exists ss' cl', sys_run (sys_at ss cl [] [answered true c tid; answered true true tid]) (decided_acts (cl_consts cl) t up now)
      = Some (sys_at ss' cl' [] []) /\
    same_table cl cl' /\ cl_processing cl' !! tid = None /\
    transactions_processed cl' = wrap32 (transactions_processed cl + 1) /\
    forall i, ss' !! i = if decide (i ∈ up) then (fun s => processTpcDecision s (mk_tid tid) c) <$> ss !! i else ss !! i.
Proof.
  intros Hc Hs Hnd Hp Hup1 Hup. unfold decided_acts. rewrite sys_run_app. cbn [sys_run]. rewrite hear_head, (first_heard cl t tid now c Hp).
  set (cl1 := cl <| cl_processing ::= _ |>). cbn [fst snd]. rewrite posted_nothing.
  cbn [mbind option_bind sys_net sys_calls sys_at]. change (mk_system (mk_net ss []) ?c ?k ?r) with (sys_at ss c k r). rewrite hear_head.
  destruct (second_heard cl1 t tid now c Hc) as (E1 & E2 & E3 & E4); [apply lookup_insert_eq|].
  pose proof (consume_table cl1 (answered true true tid) now) as Htab.
  cbv zeta in E1, E2, E3, E4. unfold posted. rewrite E1, E2. pose proof (decisions_posted c cl1 t tid Hs) as Hpost.
  rewrite Hpost. cbn [mbind option_bind sys_net sys_calls app sys_at]. change (cl_consts cl1) with (cl_consts cl) in *.
  destruct (decisions_settle c tid up (participant_ids (cl_consts cl) t) ss (consume cl1 (answered true true tid) now).1 [])
    as (ss' & Hrun & Hlk).
  - by apply NoDup_filtered.
  - intros i _ Hi. by apply Hup.
  - assert (length (filter (fun i => i ∈ up) (participant_ids (cl_consts cl) t)) = length up) as El.
    { apply Permutation_length, NoDup_Permutation; [by apply NoDup_filter, NoDup_filtered|done|]. intros i.
      rewrite list_elem_of_filter. split; [tauto|]. intros Hi. split; [done|by apply Hup]. }
    rewrite El in Hrun. cbn [app] in Hrun. exists ss', (consume cl1 (answered true true tid) now).1. split_and!; [|done..|].
    + rewrite sys_run_app. change (mk_system (mk_net ss []) ?c ?k ?r) with (sys_at ss c k r). rewrite Hrun. apply hear_decisions.
    + intros i. rewrite Hlk. apply decide_ext. split; [tauto|]. intros Hi. split; [by apply Hup|done].
Qed.
End SysRound.
