(* ===== verification/Bank.v ===== *)
(** * The bank serves its books

    An abstract ledger of the whole bank, the [Books]: one balance per
    client, and the ballot and the log of each cluster.  With one server of
    every cluster down, the coordinator, the leaders and the followers
    implement it: every sequence of payments, inside clusters and between
    them, covered by the sender's balance or not, is served to the end, and
    the servers' logs, ballots and balances are the books'. *)
From stdpp Require Import gmap list strings.
From Stdlib Require Import ZArith Lia Ascii.
From S2P Require Import Prelude Chars Types Config Wal OutCall Server Store Steps Protocol Acceptor Ledger Calls ServerMain Network Replication Round Progress Client System Atomic SysRound.

(** ** The books *)

(** The servers of a cluster, by their part. *)
Record Place := mk_place { p_leader : Z; p_follower : Z; p_down : Z }.

(** The ballot and the log of each cluster, and the balance of each client. *)
Record Books := mk_books { bk_ballot : Z -> Z; bk_log : Z -> list WALEntry; bk_bal : Z -> Z }.

Section Books.
Context (C : constants) (place : Z -> Place).

Definition cluster_of (client : Z) : Z := getClusterIdFromClientId C client.
Definition crosses_txn (t : Transaction) : bool := negb (cluster_of (sender t) =? cluster_of (receiver t)).
Definition touches (k : Z) (t : Transaction) : bool := (cluster_of (sender t) =? k) || (cluster_of (receiver t) =? k).

(** The sender can pay. *)
Definition covered (g : Books) (t : Transaction) : bool := amount t <=? bk_bal g (sender t).

(** Cluster [k] agrees to a transaction that is covered ([ok]) or not: only
    the sender's cluster looks at the balance. *)
Definition agrees (k : Z) (ok : bool) (t : Transaction) : bool := ok || negb (cluster_of (sender t) =? k).

(** What cluster [k] logs of a transaction it serves at ballot [b]. *)
Definition logged_as (k b : Z) (ok : bool) (x : Transaction * Z) : list WALEntry :=
  let L := p_leader (place k) in
  if touches k x.1 then
    if crosses_txn x.1 then
      if agrees k ok x.1 then [the_entry L x.1 x.2 b; the_decision L x.1 x.2 ok b] else []
    else if ok then [entry_of L b (mk_transfer_req x.1 x.2)] else []
  else [].

Definition paid_if (ok : bool) (r : TransferReq) (bal : Z -> Z) : Z -> Z := if ok then after_pay r bal else bal.

Definition books_step (g : Books) (x : Transaction * Z) : Books :=
  let ok := covered g x.1 in
  mk_books (fun k => if touches k x.1 then bk_ballot g k + 1 else bk_ballot g k)
           (fun k => bk_log g k ++ logged_as k (bk_ballot g k + 1) ok x)
           (paid_if ok (mk_transfer_req x.1 x.2) (bk_bal g)).
End Books.

(** The books of a bank that opens: empty logs, ten units each. *)
Definition opening : Books := mk_books (fun _ => 0) (fun _ => []) (fun _ => 10).

Lemma after_pay_other r bal x :
  in_int (bal x) -> x <> sender (tr_txn r) -> x <> receiver (tr_txn r) -> after_pay r bal x = bal x.
Proof.
  intros Hi Hs Hr. unfold after_pay. rewrite !(proj2 (Z.eqb_neq _ _)) by congruence.
  rewrite !Z.add_0_r. by apply wrap32_id.
Qed.

(** ** The books keep the money of the bank *)

Definition money (bal : Z -> Z) : Z := sumZ bal (seqZ 1 total_clients).

Lemma after_pay_money r bal :
  known_clients (tr_txn r) -> money (after_pay r bal) mod 2 ^ 32 = money bal mod 2 ^ 32.
Proof.
  intros [Hs Hr]. unfold money.
  trans (sumZ (fun x => bal x + ((if sender (tr_txn r) =? x then - amount (tr_txn r) else 0) +
                                 (if receiver (tr_txn r) =? x then amount (tr_txn r) else 0))) (seqZ 1 total_clients) mod 2 ^ 32).
  { apply sumZ_mod. intros x _. apply wrap32_mod. }
  rewrite !sumZ_add, !sumZ_single by apply NoDup_seqZ. rewrite !decide_True by (apply elem_of_seqZ; lia). f_equal. lia.
Qed.

Lemma books_money C place xs g :
  Forall (fun x => known_clients x.1) xs -> money (bk_bal (foldl (books_step C place) g xs)) mod 2 ^ 32 = money (bk_bal g) mod 2 ^ 32.
Proof.
  intros Hk. revert g. induction Hk as [|x xs Hx Hk IH]; intros g; [done|]. cbn [foldl]. rewrite IH.
  cbn [books_step bk_bal]. unfold paid_if. destruct (covered g x.1); [by apply after_pay_money|done].
Qed.

Section Bank.
Context {DB : Type} `{KVStore DB} {J : Indeterminate}.
Context (C : constants) (place : Z -> Place) (leaders : list std_string).
Implicit Types (s l f : Server DB) (ss : gmap Z (Server DB)) (g : Books).

Definition is_cluster (k : Z) : Prop := 1 <= k <= num_clusters C.

(** The deployment: the server table, and for each cluster a leader the
    coordinator asks and a follower. *)
Record deployed : Prop := {
  dp_config : config_ok C;
  dp_sorted : omap_sorted string_ltb (server_ids C);
  dp_ids : NoDup (server_ids C).*2;
  dp_two : forall k, is_cluster k -> p_leader (place k) <> p_follower (place k) /\ in_int (p_leader (place k));
  dp_table : forall k i, is_cluster k -> i = p_leader (place k) \/ i = p_follower (place k) ->
    i ∈ (server_ids C).*2 /\ getClusterIdFromServerId C i = k;
  dp_leaders : forall k, is_cluster k -> exists n,
    leader_of leaders k = Some n /\ omap_get string_ltb n (server_ids C) = Some (p_leader (place k))
}.

(** ** A cluster in step with the books

    Leader and follower are between transactions, at the same ballot, with
    the same position and log and no undecided transaction; the accounts of
    the cluster are free and hold what the books say. *)
Record in_step (k b : Z) (lg : list WALEntry) (bal : Z -> Z) l f : Prop := {
  st_rest : exists li Kf,
    at_rest (p_leader (place k)) (p_follower (place k)) (p_down (place k)) b li lg (locks l) l /\ follower_at b li lg Kf f;
  st_free : forall x, 1 <= x <= total_clients -> cluster_of C x = k -> x ∉ locks l;
  st_up : i_am_disconnected l = false;
  st_wal : nothing_pending (wal l) /\ nothing_pending (wal f);
  st_place : forall x, client_in_cluster l x = (cluster_of C x =? k) /\ client_in_cluster f x = (cluster_of C x =? k);
  st_bal : forall x, 1 <= x <= total_clients -> cluster_of C x = k -> balance_of l x = bal x /\ balance_of f x = bal x
}.

(** Leader and follower of cluster [k] are related by [R]. *)
Definition pair_at (k : Z) ss (R : Server DB -> Server DB -> Prop) : Prop :=
  exists l f, ss !! p_leader (place k) = Some l /\ ss !! p_follower (place k) = Some f /\ R l f.

Definition bank_at ss g : Prop :=
  (forall x, in_int (bk_bal g x)) /\
  forall k, is_cluster k -> pair_at k ss (in_step k (bk_ballot g k) (bk_log g k) (bk_bal g)).

Lemma pair_elsewhere k ss ss' (R R' : Server DB -> Server DB -> Prop) :
  ss' !! p_leader (place k) = ss !! p_leader (place k) -> ss' !! p_follower (place k) = ss !! p_follower (place k) ->
  (forall l f, R l f -> R' l f) -> pair_at k ss R -> pair_at k ss' R'.
Proof. intros E1 E2 HR (l & f & H1 & H2 & H3). exists l, f. rewrite E1, E2. auto. Qed.

Lemma in_step_bal k b lg bal bal' l f :
  (forall x, 1 <= x <= total_clients -> cluster_of C x = k -> bal' x = bal x) -> in_step k b lg bal l f -> in_step k b lg bal' l f.
Proof. intros Hb [S1 S2 S3 S4 S5 S6]. split; try done. intros x Hx Hk. rewrite Hb by done. by apply S6. Qed.

Hypothesis Hdep : deployed.

(** Servers of different clusters are different. *)
Lemma places_apart k k' i i' :
  is_cluster k -> is_cluster k' -> k <> k' ->
  i = p_leader (place k) \/ i = p_follower (place k) -> i' = p_leader (place k') \/ i' = p_follower (place k') -> i <> i'.
Proof.
  intros Hk Hk' Hne Hi Hi' ->. destruct (dp_table Hdep k i' Hk Hi) as [_ E1]. destruct (dp_table Hdep k' i' Hk' Hi') as [_ E2].
  congruence.
Qed.

Lemma rest_locks L j gd b li k K l : at_rest L j gd b li k K l -> locks l = K.
Proof. unfold at_rest, lead_view. intros Hr. by injection Hr. Qed.

Lemma rest_log L j gd b li k K l : at_rest L j gd b li k K l -> log l = k.
Proof. unfold at_rest, lead_view. intros Hr. by injection Hr. Qed.

Lemma follower_log b li k K f : follower_at b li k K f -> log f = k.
Proof. unfold follower_at. intros Hr. by injection Hr. Qed.

Lemma follower_connected b li k K f : follower_at b li k K f -> i_am_disconnected f = false.
Proof. unfold follower_at. intros Hr. by injection Hr. Qed.

(** ** The turn of one cluster

    The leader is asked about [r]; it either goes through its round or
    refuses, and takes its cluster from [R] to [R']. *)
Definition moves (cross ack : bool) (k : Z) (r : TransferReq) (R R' : Server DB -> Server DB -> Prop) : Prop :=
  forall l f, R l f -> exists l' f',
    (if ack then round (p_follower (place k)) (p_down (place k)) cross r l f l' f'
     else refused (p_follower (place k)) (p_down (place k)) cross r l f l' f') /\ R' l' f'.

Definition turn (k : Z) (ack : bool) : list sys_action :=
  (if ack then round_run else refusal_run) (p_follower (place k)) (p_down (place k)).

Lemma turn_runs cross ack k r R R' ss cl a rest replies :
  is_cluster k -> moves cross ack k r R R' -> pair_at k ss R -> asks cross r a -> as_dst a = p_leader (place k) ->
  exists ss', sys_run (sys_at ss cl (a :: rest) replies) (turn k ack) = Some (sys_at ss' cl rest (replies ++ [answered cross ack (tr_tid r)])) /\
    pair_at k ss' R' /\ forall i, i <> p_leader (place k) -> i <> p_follower (place k) -> ss' !! i = ss !! i.
Proof.
  intros Hk Hm (l & f & Hl & Hf & HR) Ha Hd. destruct (Hm l f HR) as (l' & f' & Hrun & HR'). destruct (dp_two Hdep k Hk) as [Htwo _].
  exists (<[p_leader (place k) := l']> (<[p_follower (place k) := f']> ss)). split; [|split].
  - unfold turn. destruct ack; [by eapply round_runs|by eapply refusal_runs].
  - exists l', f'. split; [apply look_leader|]. split; [by apply look_follower|done].
  - intros i N1 N2. by rewrite !lookup_insert_ne.
Qed.

(** ** What a turn makes of a cluster in step *)

Lemma moves_local k b lg bal r :
  0 <= b -> b + 1 < 2 ^ 31 ->
  known_clients (tr_txn r) -> cluster_of C (sender (tr_txn r)) = k -> cluster_of C (receiver (tr_txn r)) = k ->
  (forall x, in_int (bal x)) -> amount (tr_txn r) <= bal (sender (tr_txn r)) ->
  moves false true k r (in_step k b lg bal) (in_step k (b + 1) (lg ++ [entry_of (p_leader (place k)) (b + 1) r]) (after_pay r bal)).
Proof.
  intros Hb0 Hb [Hs Hr] Ks Kr Hi Ha l f [(li & Kf & S1 & S1') S2 S3 [S4 S4'] S5 S6].
  assert (local_clients r l /\ local_clients r f) as [Cl Cf].
  { unfold local_clients. destruct (S5 (sender (tr_txn r))) as [-> ->], (S5 (receiver (tr_txn r))) as [-> ->].
    rewrite Ks, Kr, Z.eqb_refl. by split. }
  destruct (round_commits _ _ _ b li lg (locks l) Kf r l f S1 S1' Hb0 Hb Cl Cf) as (l' & f' & Kf' & Hround & _ & R1 & R2 & Pl & Pf).
  { split; by apply S2. }
  { by rewrite (proj1 (S6 _ Hs Ks)). }
  exists l', f'. split; [exact Hround|]. destruct Pl as (P1 & P2 & P3 & P4), Pf as (Q1 & Q2 & Q3 & Q4).
  pose proof (rest_locks _ _ _ _ _ _ _ _ R1) as Ek. split.
  - rewrite Ek. eauto.
  - intros x Hx Kx. rewrite Ek. by apply S2.
  - by rewrite P3.
  - auto.
  - intros x. rewrite P1, Q1. apply S5.
  - intros x Hx Kx. destruct (S6 x Hx Kx) as [E1 E2]. rewrite P2, Q2 by (by rewrite ?E1, ?E2). unfold after_pay. by rewrite E1, E2.
Qed.

Lemma moves_refused cross k b lg bal r :
  0 <= b -> b + 1 < 2 ^ 31 -> 1 <= sender (tr_txn r) <= total_clients -> cluster_of C (sender (tr_txn r)) = k ->
  bal (sender (tr_txn r)) < amount (tr_txn r) ->
  moves cross false k r (in_step k b lg bal) (in_step k (b + 1) lg bal).
Proof.
  intros Hb0 Hb Hs Ks Ha l f [(li & Kf & S1 & S1') S2 S3 [S4 S4'] S5 S6].
  destruct (round_refused _ _ _ cross b li lg (locks l) Kf r l f S1 S1' Hb0 Hb) as (l' & f' & Href & R1 & R2 & (P1 & P2 & P3) & (Q1 & Q2 & Q3)).
  { rewrite (proj1 (S5 _)), Ks. apply Z.eqb_refl. }
  { by rewrite (proj1 (S6 _ Hs Ks)). }
  exists l', f'. split; [exact Href|]. pose proof (rest_locks _ _ _ _ _ _ _ _ R1) as Ek.
  injection P3 as W1 D1. injection Q3 as W2 D2. split.
  - rewrite Ek. eauto.
  - rewrite Ek. exact S2.
  - by rewrite D1.
  - rewrite W1, W2. by split.
  - intros x. rewrite P1, Q1. apply S5.
  - intros x Hx Kx. rewrite P2, Q2. by apply S6.
Qed.

(** ** A payment between clusters: one of its two clusters *)

Section Cross.
Context (t : Transaction) (tid : Z).
Hypothesis Ht : wf_txn t.
Hypothesis Htid : in_long tid /\ tid <> -1.
Hypothesis Hcross : crosses_txn C t = true.
Abbreviation r := (mk_transfer_req t tid).

(** Both servers of cluster [k], which was in step with the books, have
    prepared the transaction at the next ballot. *)
Definition prepared_pair (k b : Z) (lg : list WALEntry) (bal : Z -> Z) l' f' : Prop :=
  let L := p_leader (place k) in let b' := b + 1 in
  exists l f, in_step k b lg bal l f /\ prepared_from L t tid b' l l' /\ prepared_from L t tid b' f f' /\
  exists li K Kf, at_rest L (p_follower (place k)) (p_down (place k)) b' li (lg ++ [the_entry L t tid b']) K l' /\
    follower_at b' li (lg ++ [the_entry L t tid b']) Kf f'.

Lemma one_account k s :
  touches C k t = true -> (forall x, client_in_cluster s x = (cluster_of C x =? k)) -> is_cross s t = true.
Proof.
  unfold touches, is_cross. intros Hk Hs. rewrite !Hs. revert Hk Hcross. unfold crosses_txn.
  destruct (Z.eqb_spec (cluster_of C (sender t)) (cluster_of C (receiver t))); [done|]. intros Hk _. revert Hk.
  destruct (Z.eqb_spec (cluster_of C (sender t)) k), (Z.eqb_spec (cluster_of C (receiver t)) k); cbn; congruence.
Qed.

Lemma moves_prepared k b lg bal :
  is_cluster k -> touches C k t = true -> 0 <= b -> b + 1 < 2 ^ 31 -> known_clients t ->
  (cluster_of C (sender t) = k -> amount t <= bal (sender t)) ->
  moves true true k r (in_step k b lg bal) (prepared_pair k b lg bal).
Proof.
  intros Hk Htk Hb0 Hb [Hs Hr] Ha l f Hst. pose proof Hst as [(li & Kf & S1 & S1') S2 S3 [S4 S4'] S5 S6].
  destruct (dp_two Hdep k Hk) as [_ HL].
  destruct (round_prepares _ _ (p_down (place k)) t tid Ht Htid b li lg (locks l) Kf l f S1 S1' Hb0 Hb HL)
    as (l' & f' & K' & Kf' & Hround & R1 & R2 & P1 & P2); try done.
  - eapply one_account; [exact Htk|]. intros x. apply S5.
  - eapply one_account; [exact Htk|]. intros x. apply S5.
  - split; rewrite (proj1 (S5 _)); intros Hx%Z.eqb_eq.
    + split; [by apply S2|]. rewrite (proj1 (S6 _ Hs Hx)). by apply Ha.
    + by apply S2.
  - exists l', f'. split; [exact Hround|]. exists l, f. split_and!; [exact Hst|exact P1|exact P2|]. eauto.
Qed.

Definition settle (c : bool) s : Server DB := processTpcDecision s (mk_tid tid) c.

(** The balance a settled server shows. *)
Lemma settled_balance c L b bal s s' x :
  settled L t tid c b s s' -> mine s x -> balance_of s x = bal x -> in_int (bal x) ->
  balance_of s' x = paid_if c r bal x.
Proof.
  intros (_ & Hb & _) Hm Hx Hi. rewrite Hb by (done || by rewrite Hx). rewrite Hx. unfold paid_if, after_pay, entry_delta.
  destruct c; [done|]. cbn. rewrite Z.add_0_r. by apply wrap32_id.
Qed.

(** The decision brings the cluster in step with the books again. *)
Lemma decides_prepared c k b lg bal l' f' :
  is_cluster k -> prepared_pair k b lg bal l' f' -> (forall x, in_int (bal x)) ->
  in_step k (b + 1) (lg ++ [the_entry (p_leader (place k)) t tid (b + 1); the_decision (p_leader (place k)) t tid c (b + 1)])
    (paid_if c r bal) (settle c l') (settle c f').
Proof.
  intros Hk (l & f & [(li0 & Kf0 & S1 & S1') S2 S3 [S4 S4'] S5 S6] & P1 & P2 & li & K & Kf & R1 & R2) Hi.
  pose proof (prepared_settles _ _ _ Htid c _ _ _ P1) as T1. pose proof (prepared_settles _ _ _ Htid c _ _ _ P2) as T2.
  destruct (decided_rest _ _ _ _ _ Htid c _ _ _ _ _ _ P1 R1 (rest_log _ _ _ _ _ _ _ _ S1)) as [K1 R3].
  destruct (decided_follower _ _ _ Htid c _ _ _ _ _ _ P2 R2 (follower_log _ _ _ _ _ S1')) as [K2 R4].
  pose proof (rest_locks _ _ _ _ _ _ _ _ R3) as Ek.
  destruct (decision_frame tid l' c) as [Fl Cl]. destruct (decision_frame tid f' c) as [Ff Cf].
  assert (forall x, client_in_cluster (settle c l') x = (cluster_of C x =? k) /\ client_in_cluster (settle c f') x = (cluster_of C x =? k)) as Hpl.
  { intros x. unfold settle. rewrite Cl, Cf, (pf_client _ _ _ _ _ _ P1), (pf_client _ _ _ _ _ _ P2). apply S5. }
  split; [| | | |exact Hpl|].
  - exists li, K2. unfold settle. rewrite Ek. by split.
  - intros x Hx Kx. unfold settle. destruct T1 as (_ & _ & Hl). rewrite Hl by (rewrite (proj1 (S5 x)), Kx; apply Z.eqb_refl).
    intros [Hin _]. exact (S2 x Hx Kx Hin).
  - unfold settle. unfold frame in Fl. injection Fl as _ _ _ _ _ _ _ _ Hd. rewrite Hd. apply (pf_up _ _ _ _ _ _ P1).
  - split; [exact (proj1 (decided_wal _ _ _ Htid c _ _ _ P1))|exact (proj1 (decided_wal _ _ _ Htid c _ _ _ P2))].
  - intros x Hx Kx. destruct (S6 x Hx Kx) as [B1 B2].
    split; (eapply settled_balance; [first [exact T1|exact T2]| |done|apply Hi]); split; try done;
      [rewrite (proj1 (S5 x))|rewrite (proj2 (S5 x))]; rewrite Kx; apply Z.eqb_refl.
Qed.

(** A cluster whose leader has refused ignores the decision. *)
Lemma decides_refused c k b lg bal l f :
  in_step k b lg bal l f -> in_step k b lg bal (settle c l) (settle c f).
Proof.
  intros [(li & Kf & S1 & S1') S2 S3 [S4 S4'] S5 S6]. pose proof (follower_connected _ _ _ _ _ S1') as Hd.
  destruct (decision_ignored tid c l S4 S3) as ([Fl Cl] & _ & W1 & B1). destruct (decision_ignored tid c f S4' Hd) as ([Ff Cf] & _ & W2 & B2).
  destruct (ignored_rest _ _ _ tid c _ _ _ _ _ S1 S4 S3) as [K1 R1]. destruct (ignored_follower tid c _ _ _ _ _ S1' S4') as [K2 R2].
  pose proof (rest_locks _ _ _ _ _ _ _ _ R1) as Ek. fold (settle c l) (settle c f) in *. split.
  - exists li, K2. rewrite Ek. by split.
  - intros x Hx Kx. rewrite (proj2 (B1 x (proj1 Hx))). by apply S2.
  - unfold frame in Fl. injection Fl as _ _ _ _ _ _ _ _ Hd'. by rewrite Hd'.
  - by rewrite W1, W2.
  - intros x. rewrite Cl, Cf. apply S5.
  - intros x Hx Kx. rewrite (proj1 (B1 x (proj1 Hx))), (proj1 (B2 x (proj1 Hx))). by apply S6.
Qed.

(** The cluster between its vote and the decision, and after it. *)
Definition voted (ack : bool) (k b : Z) (lg : list WALEntry) (bal : Z -> Z) : Server DB -> Server DB -> Prop :=
  if ack then prepared_pair k b lg bal else in_step k (b + 1) lg bal.

Lemma moves_voted ok k b lg bal :
  is_cluster k -> touches C k t = true -> 0 <= b -> b + 1 < 2 ^ 31 -> known_clients t -> ok = (amount t <=? bal (sender t)) ->
  moves true (agrees C k ok t) k r (in_step k b lg bal) (voted (agrees C k ok t) k b lg bal).
Proof.
  intros Hk Htk Hb0 Hb Hkn ->. unfold agrees, voted.
  destruct (Z.leb_spec (amount t) (bal (sender t))), (Z.eqb_spec (cluster_of C (sender t)) k); cbn [orb negb];
    [apply moves_prepared; auto..|apply moves_refused; [done|done|apply Hkn|done|done]|apply moves_prepared; done].
Qed.

Lemma decides_voted ok k b lg bal l f :
  is_cluster k -> touches C k t = true -> (forall x, in_int (bal x)) -> voted (agrees C k ok t) k b lg bal l f ->
  in_step k (b + 1) (lg ++ logged_as C place k (b + 1) ok (t, tid)) (paid_if ok r bal) (settle ok l) (settle ok f).
Proof.
  intros Hk Htk Hi Hv. unfold logged_as. cbn [fst snd]. rewrite Htk, Hcross. revert Hv. unfold voted.
  destruct (agrees C k ok t) eqn:Hag; intros Hv; [by apply decides_prepared|].
  destruct ok; [done|]. rewrite app_nil_r. by apply decides_refused.
Qed.
End Cross.

(** ** The schedule of one transaction

    Each leader's call is served as often as its turn asks for, with the
    messages in between; the coordinator hears the reply or the two votes,
    and a decision is served by the servers that are up and heard of. *)
Definition the_four (t : Transaction) : list Z :=
  let a := place (cluster_of C (sender t)) in let b := place (cluster_of C (receiver t)) in
  [p_leader a; p_follower a; p_leader b; p_follower b].

Definition serve_one (now : Z) (g : Books) (x : Transaction * Z) : list sys_action :=
  let ok := covered g x.1 in
  let kA := cluster_of C (sender x.1) in
  let kB := cluster_of C (receiver x.1) in
  Start x.1 x.2 leaders ::
  if crosses_txn C x.1
  then (turn kA (agrees C kA ok x.1) ++ turn kB (agrees C kB ok x.1)) ++ decided_acts C x.1 (the_four x.1) now
  else turn kA ok ++ [Hear 0 now].

Fixpoint serve_all (now : Z) (g : Books) (xs : list (Transaction * Z)) : list sys_action :=
  match xs with
  | [] => []
  | x :: xs' => serve_one now g x ++ serve_all now (books_step C place g x) xs'
  end.

(** A transaction the coordinator may be given. *)
Definition tx_ok (x : Transaction * Z) : Prop :=
  known_clients x.1 /\ wf_txn x.1 /\ in_long x.2 /\ x.2 <> -1.

Definition coordinator (cl : Client) : Prop := cl_consts cl = C /\ stubs_cover cl.

Lemma client_cluster x : 1 <= x <= total_clients -> is_cluster (cluster_of C x).
Proof. intros Hx. apply client_cluster_range; [by apply Hdep|done]. Qed.

Definition first_call (cross : bool) (t : Transaction) (tid i : Z) : Asked :=
  let r := mk_transfer_req t tid in mk_asked i (call_of (if cross then CTpcPrepare r else CTransfer r)) true.

Lemma first_call_asks cross t tid i : asks cross (the_request t tid) (first_call cross t tid i).
Proof. destruct cross; (split_and!; [done..|by left]). Qed.

Lemma leader_stub cl k n : coordinator cl -> omap_get string_ltb n (server_ids C) = Some k -> n ∈ cl_stubs cl.
Proof.
  intros [EC Hc] Hn. apply Hc. rewrite EC. apply (omap_get_elem string_ltb) in Hn; [|by apply Hdep].
  apply list_elem_of_fmap. by exists (n, k).
Qed.

(** The coordinator's turn: the transaction is registered, if it crosses
    clusters, and one request goes to each leader. *)
Lemma start_run cl ss t tid :
  coordinator cl -> known_clients t ->
  exists cl', sys_exec (sys_at ss cl [] []) (Start t tid leaders) = Some (sys_at ss cl'
      (if crosses_txn C t
       then [first_call true t tid (p_leader (place (cluster_of C (sender t)))); first_call true t tid (p_leader (place (cluster_of C (receiver t))))]
       else [first_call false t tid (p_leader (place (cluster_of C (sender t))))]) []) /\
    coordinator cl' /\ transactions_processed cl' = transactions_processed cl /\
    (crosses_txn C t = true -> cl_processing cl' !! tid = Some (mk_tpc_prepare_res t 0 0)).
Proof.
  intros Hcl [Hs Hr]. pose proof Hcl as [EC Hcov].
  destruct (dp_leaders Hdep _ (client_cluster _ Hs)) as (n1 & L1 & G1). destruct (dp_leaders Hdep _ (client_cluster _ Hr)) as (n2 & L2 & G2).
  pose proof (leader_stub cl _ _ Hcl G1) as M1. pose proof (leader_stub cl _ _ Hcl G2) as M2.
  unfold sys_at. cbn [sys_exec sys_client]. unfold process_one. rewrite EC. fold (cluster_of C (sender t)) (cluster_of C (receiver t)).
  rewrite L1, L2, txn_eta. unfold crosses_txn. destruct (cluster_of C (sender t) =? cluster_of C (receiver t)); cbn [negb].
  - eexists. split; [|split; [exact Hcl|done]]. cbn [mbind option_bind fst snd]. unfold sendTransfer, call_stub. rewrite decide_True by done.
    unfold posted. rewrite EC. cbn -[call_of]. by rewrite G1.
  - exists (cl <| cl_processing ::= <[tid := mk_tpc_prepare_res t 0 0]> |>).
    split; [|split; [exact Hcl|split; [done|intros _; apply lookup_insert_eq]]].
    cbn [mbind option_bind fst snd]. unfold tpcPrepare, call_stub. cbn [cl_stubs upd Client_settable]. rewrite !decide_True by done.
    unfold posted. cbn -[call_of]. rewrite EC, G1. cbn -[call_of]. by rewrite G2.
Qed.

(** ** One transaction *)

Lemma other_untouched k t : touches C k t = false -> cluster_of C (sender t) <> k /\ cluster_of C (receiver t) <> k.
Proof. unfold touches. intros [H1%Z.eqb_neq H2%Z.eqb_neq]%orb_false_iff. done. Qed.

(** The books of a cluster the transaction does not touch. *)
Lemma untouched_step k ss ss' g x :
  touches C k x.1 = false -> (forall y, in_int (bk_bal g y)) ->
  ss' !! p_leader (place k) = ss !! p_leader (place k) -> ss' !! p_follower (place k) = ss !! p_follower (place k) ->
  pair_at k ss (in_step k (bk_ballot g k) (bk_log g k) (bk_bal g)) ->
  let g' := books_step C place g x in pair_at k ss' (in_step k (bk_ballot g' k) (bk_log g' k) (bk_bal g')).
Proof.
  intros Ht Hi E1 E2. cbn [books_step bk_ballot bk_log bk_bal]. unfold logged_as. rewrite Ht, app_nil_r.
  apply pair_elsewhere; [done|done|]. intros l f. apply in_step_bal. intros y _ Hy. destruct (other_untouched k x.1 Ht) as [N1 N2].
  unfold paid_if. destruct (covered g x.1); [|done]. apply after_pay_other; [apply Hi|..]; cbn [tr_txn]; congruence.
Qed.

Lemma step_int g x : (forall y, in_int (bk_bal g y)) -> forall y, in_int (bk_bal (books_step C place g x) y).
Proof. intros Hi y. cbn [books_step bk_bal]. unfold paid_if. destruct (covered g x.1); [apply wrap32_range|apply Hi]. Qed.

Lemma heard_local ss cl ok tid now :
  exists cl', sys_run (sys_at ss cl [] [answered false ok tid]) [Hear 0 now] = Some (sys_at ss cl' [] []) /\
    same_table cl cl' /\ transactions_processed cl' = wrap32 (transactions_processed cl + 1).
Proof. eexists. split; [cbn [sys_run]; rewrite hear_head; cbn [fst snd consume]; by rewrite posted_nothing|done]. Qed.

Lemma coordinator_table cl cl' : same_table cl cl' -> coordinator cl -> coordinator cl'.
Proof. intros Ht [EC Hc]. split; [rewrite <- EC; apply Ht|by eapply cover_table]. Qed.

Definition ballots_left (g : Books) (n : Z) : Prop :=
  forall k, is_cluster k -> 0 <= bk_ballot g k /\ bk_ballot g k + n < 2 ^ 31.

(** A payment inside a cluster. *)
Lemma moves_one g t tid k :
  tx_ok (t, tid) -> crosses_txn C t = false -> (forall y, in_int (bk_bal g y)) -> cluster_of C (sender t) = k ->
  0 <= bk_ballot g k -> bk_ballot g k + 1 < 2 ^ 31 ->
  let g' := books_step C place g (t, tid) in
  moves false (covered g t) k (mk_transfer_req t tid) (in_step k (bk_ballot g k) (bk_log g k) (bk_bal g))
    (in_step k (bk_ballot g' k) (bk_log g' k) (bk_bal g')).
Proof.
  intros (Hk & Hw & Htid) Hx Hi Ks B0 B1. cbn [books_step bk_ballot bk_log bk_bal fst snd]. unfold logged_as. cbn [fst snd].
  assert (touches C k t = true) as -> by (unfold touches; by rewrite Ks, Z.eqb_refl). rewrite Hx.
  unfold covered, paid_if. destruct (Z.leb_spec (amount t) (bk_bal g (sender t))).
  - apply moves_local; try done. unfold crosses_txn in Hx. apply negb_false_iff, Z.eqb_eq in Hx. cbn. congruence.
  - rewrite app_nil_r. apply moves_refused; try done. apply Hk.
Qed.

Lemma serve_local ss cl g t tid now :
  bank_at ss g -> coordinator cl -> tx_ok (t, tid) -> crosses_txn C t = false -> ballots_left g 1 ->
  exists ss' cl', sys_run (sys_at ss cl [] []) (serve_one now g (t, tid)) = Some (sys_at ss' cl' [] []) /\
    bank_at ss' (books_step C place g (t, tid)) /\ coordinator cl' /\
    transactions_processed cl' = wrap32 (transactions_processed cl + 1).
Proof.
  intros [Hi Hg] Hcl Hok Hx Hb. pose proof Hok as (Hk & _). set (k := cluster_of C (sender t)).
  pose proof (client_cluster _ (proj1 Hk)) as Hkc. fold k in Hkc. destruct (Hb k Hkc) as [B0 B1].
  destruct (start_run cl ss t tid Hcl Hk) as (cl1 & R0 & Hcl1 & Hn1 & _). rewrite Hx in R0. fold k in R0.
  destruct (turn_runs _ _ k _ _ _ ss cl1 _ [] [] Hkc (moves_one g t tid k Hok Hx Hi eq_refl B0 B1) (Hg k Hkc)
    (first_call_asks false t tid (p_leader (place k))) eq_refl) as (ss' & R1 & Hp & Hrest).
  destruct (heard_local ss' cl1 (covered g t) tid now) as (cl2 & R2 & Htab & Hn2).
  exists ss', cl2. split; [|split; [|split; [by eapply coordinator_table|by rewrite Hn2, Hn1]]].
  { unfold serve_one. cbn [fst snd sys_run]. rewrite R0, Hx. cbn [mbind option_bind]. fold k. rewrite sys_run_app, R1. exact R2. }
  split; [by apply step_int|]. intros k' Hk'. destruct (decide (k' = k)) as [->|Hne]; [exact Hp|].
  apply (untouched_step k' ss); [|exact Hi|apply Hrest; apply (places_apart k' k); auto..|by apply Hg].
  unfold crosses_txn in Hx. apply negb_false_iff, Z.eqb_eq in Hx. unfold touches. cbn [fst]. rewrite <- Hx. fold k.
  by rewrite !(proj2 (Z.eqb_neq k k')).
Qed.

(** The four servers a decision reaches. *)
Lemma four_apart t : known_clients t -> crosses_txn C t = true -> NoDup (the_four t).
Proof.
  intros [Hs%client_cluster Hr%client_cluster] Hx. unfold crosses_txn in Hx. apply negb_true_iff, Z.eqb_neq in Hx.
  pose proof (proj1 (dp_two Hdep _ Hs)). pose proof (proj1 (dp_two Hdep _ Hr)).
  pose proof (fun i i' => places_apart _ _ i i' Hs Hr Hx) as Hap. unfold the_four.
  rewrite !NoDup_cons, !not_elem_of_cons. split_and!; try done; try (apply Hap; auto); try apply not_elem_of_nil. apply NoDup_nil_2.
Qed.

Lemma four_participants t i : known_clients t -> i ∈ the_four t -> i ∈ participant_ids C t.
Proof.
  intros [Hs%client_cluster Hr%client_cluster] Hi. unfold participant_ids.
  assert (i ∈ (server_ids C).*2 /\ (getClusterIdFromServerId C i = cluster_of C (sender t) \/ getClusterIdFromServerId C i = cluster_of C (receiver t)))
    as [Hin Hc].
  { pose proof (fun H => dp_table Hdep _ i Hs H) as T1. pose proof (fun H => dp_table Hdep _ i Hr H) as T2.
    unfold the_four in Hi. rewrite !elem_of_cons, elem_of_nil in Hi. tauto. }
  apply list_elem_of_fmap in Hin as (p & -> & Hp). apply list_elem_of_fmap. exists p. split; [done|]. by apply list_elem_of_filter.
Qed.

Lemma four_elsewhere k t i : is_cluster k -> touches C k t = false -> known_clients t ->
  i = p_leader (place k) \/ i = p_follower (place k) -> i ∉ the_four t.
Proof.
  intros Hk Ht [Hs%client_cluster Hr%client_cluster] Hi. destruct (other_untouched k t Ht) as [N1 N2]. unfold the_four.
  rewrite !not_elem_of_cons. split_and!; try apply not_elem_of_nil; (eapply places_apart; [exact Hk| | |exact Hi|]; [| |by auto]); done.
Qed.

(** Both leaders are asked, and both answer; nothing but the two clusters
    moves. *)
Lemma cross_votes ss cl g t tid :
  let kA := cluster_of C (sender t) in let kB := cluster_of C (receiver t) in let ok := covered g t in
  bank_at ss g -> tx_ok (t, tid) -> crosses_txn C t = true -> ballots_left g 1 ->
  exists ss', sys_run (sys_at ss cl [first_call true t tid (p_leader (place kA)); first_call true t tid (p_leader (place kB))] [])
      (turn kA (agrees C kA ok t) ++ turn kB (agrees C kB ok t)) = Some (sys_at ss' cl [] [answered true ok tid; answered true true tid]) /\
    (forall i, i ∉ the_four t -> ss' !! i = ss !! i) /\
    forall k, k = kA \/ k = kB -> pair_at k ss' (voted t tid (agrees C k ok t) k (bk_ballot g k) (bk_log g k) (bk_bal g)).
Proof.
  intros kA kB ok [Hi Hg] (Hk & Hw & Htid) Hx Hb.
  pose proof (client_cluster _ (proj1 Hk)) as HkA. cbn [fst] in HkA. fold kA in HkA. pose proof (client_cluster _ (proj2 Hk)) as HkB. cbn [fst] in HkB. fold kB in HkB.
  assert (touches C kA t = true) as TA by (unfold touches; subst kA; by rewrite Z.eqb_refl).
  assert (touches C kB t = true) as TB by (unfold touches; subst kB; by rewrite Z.eqb_refl, orb_true_r).
  assert (kA <> kB) as Hne by (unfold crosses_txn in Hx; by apply negb_true_iff, Z.eqb_neq in Hx).
  destruct (Hb kA HkA) as [A0 A1], (Hb kB HkB) as [B0 B1].
  destruct (turn_runs true _ kA _ _ _ ss cl _ [first_call true t tid (p_leader (place kB))] [] HkA
    (moves_voted t tid Hw Htid Hx ok kA _ (bk_log g kA) (bk_bal g) HkA TA A0 A1 Hk eq_refl) (Hg kA HkA)
    (first_call_asks true t tid (p_leader (place kA))) eq_refl) as (ss1 & R1 & PA & Hr1).
  assert (pair_at kB ss1 (in_step kB (bk_ballot g kB) (bk_log g kB) (bk_bal g))) as HgB.
  { apply (pair_elsewhere kB ss _ (in_step kB (bk_ballot g kB) (bk_log g kB) (bk_bal g))); [| |done|by apply Hg];
      apply Hr1; apply (places_apart kB kA); auto. }
  destruct (turn_runs true _ kB _ _ _ ss1 cl _ [] [answered true (agrees C kA ok t) tid] HkB
    (moves_voted t tid Hw Htid Hx ok kB _ (bk_log g kB) (bk_bal g) HkB TB B0 B1 Hk eq_refl) HgB
    (first_call_asks true t tid (p_leader (place kB))) eq_refl) as (ss2 & R2 & PB & Hr2).
  assert (agrees C kA ok t = ok) as EA by (unfold agrees; fold kA; rewrite Z.eqb_refl; by destruct ok).
  assert (agrees C kB ok t = true) as EB by (unfold agrees; fold kA; rewrite (proj2 (Z.eqb_neq kA kB)) by done; by destruct ok).
  exists ss2. split; [|split].
  - rewrite sys_run_app, R1. cbn [mbind option_bind app tr_tid]. by rewrite R2, EA, EB.
  - intros i. unfold the_four. fold kA kB. rewrite !not_elem_of_cons. intros (? & ? & ? & ? & _). by rewrite Hr2, Hr1.
  - intros k [-> | ->]; [|exact PB]. eapply pair_elsewhere; [| |done|exact PA]; apply Hr2; apply (places_apart kA kB); auto.
Qed.

(** Leader and follower of a cluster take the decision. *)
Lemma pair_decided c tid k ss ss' (R R' : Server DB -> Server DB -> Prop) :
  (forall i, i = p_leader (place k) \/ i = p_follower (place k) -> ss' !! i = settle tid c <$> ss !! i) ->
  (forall l f, R l f -> R' (settle tid c l) (settle tid c f)) -> pair_at k ss R -> pair_at k ss' R'.
Proof.
  intros Hlk HR (l & f & Hl & Hf & Hlf). exists (settle tid c l), (settle tid c f). rewrite !Hlk, Hl, Hf by auto. auto.
Qed.

Lemma serve_cross ss cl g t tid now :
  bank_at ss g -> coordinator cl -> tx_ok (t, tid) -> crosses_txn C t = true -> ballots_left g 1 ->
  exists ss' cl', sys_run (sys_at ss cl [] []) (serve_one now g (t, tid)) = Some (sys_at ss' cl' [] []) /\
    bank_at ss' (books_step C place g (t, tid)) /\ coordinator cl' /\
    transactions_processed cl' = wrap32 (transactions_processed cl + 1).
Proof.
  intros Hbank Hcl Hok Hx Hb. pose proof Hok as (Hk & Hw & Htid). cbn [fst snd] in Hk, Hw, Htid.
  destruct (start_run cl ss t tid Hcl Hk) as (cl1 & R0 & Hcl1 & Hn1 & Hp). rewrite Hx in R0.
  destruct (cross_votes ss cl1 g t tid Hbank Hok Hx Hb) as (ss1 & R1 & Hrest & Hboth). cbv zeta in R1, Hboth.
  pose proof Hcl1 as [EC Hcov].
  destruct (decided_run (covered g t) cl1 t tid ss1 now (the_four t)) as (ss2 & cl2 & R2 & Htab & _ & Hn2 & Hlk); rewrite ?EC in *;
    [done|apply Hdep|apply Hdep|by apply Hp|by apply four_apart| |].
  { intros i Hi. split; [by apply four_participants|]. unfold the_four in Hi. rewrite !elem_of_cons, elem_of_nil in Hi.
    destruct (Hboth _ (or_introl eq_refl)) as (? & ? & E1 & E2 & _), (Hboth _ (or_intror eq_refl)) as (? & ? & E3 & E4 & _).
    destruct Hi as [->|[->|[->|[->|[]]]]]; eauto. }
  exists ss2, cl2. split; [|split; [|split; [by eapply coordinator_table|by rewrite Hn2, Hn1]]].
  { unfold serve_one. cbn [fst snd sys_run]. rewrite R0, Hx. cbn [mbind option_bind]. by rewrite sys_run_app, R1. }
  destruct Hbank as [Hi Hg]. split; [by apply step_int|]. intros k Hkc. destruct (touches C k t) eqn:Ht.
  - assert (k = cluster_of C (sender t) \/ k = cluster_of C (receiver t)) as Hwhich.
    { unfold touches in Ht. apply orb_true_iff in Ht as [Ht|Ht]; apply Z.eqb_eq in Ht; auto. }
    eapply (pair_decided (covered g t) tid); [|intros l f Hv|exact (Hboth k Hwhich)].
    + intros i Hi'. rewrite Hlk, decide_True; [done|]. unfold the_four. rewrite !elem_of_cons. destruct Hwhich as [-> | ->]; tauto.
    + cbn [books_step bk_ballot bk_log bk_bal fst snd]. rewrite Ht. by apply decides_voted.
  - apply (untouched_step k ss); [exact Ht|exact Hi|..|by apply Hg];
      (rewrite Hlk, decide_False by (apply (four_elsewhere k); auto)); apply Hrest, (four_elsewhere k); auto.
Qed.

(** ** Any sequence of payments *)

Lemma ballots_step g x n : 0 <= n -> ballots_left g (n + 1) -> ballots_left (books_step C place g x) n.
Proof. intros Hn Hb k Hk. destruct (Hb k Hk). cbn [books_step bk_ballot]. case_match; lia. Qed.

Lemma serve_step ss cl g x now :
  bank_at ss g -> coordinator cl -> tx_ok x -> ballots_left g 1 ->
  exists ss' cl', sys_run (sys_at ss cl [] []) (serve_one now g x) = Some (sys_at ss' cl' [] []) /\
    bank_at ss' (books_step C place g x) /\ coordinator cl' /\ transactions_processed cl' = wrap32 (transactions_processed cl + 1).
Proof.
  destruct x as [t tid]. intros Hbank Hcl Hok Hb.
  destruct (crosses_txn C t) eqn:Hx; [by eapply serve_cross|by eapply serve_local].
Qed.

Lemma books_served xs now ss cl g :
  bank_at ss g -> coordinator cl -> Forall tx_ok xs ->
  ballots_left g (Z.of_nat (length xs)) -> in_int (transactions_processed cl) ->
  exists ss' cl', sys_run (sys_at ss cl [] []) (serve_all now g xs) = Some (sys_at ss' cl' [] []) /\
    bank_at ss' (foldl (books_step C place) g xs) /\ coordinator cl' /\
    transactions_processed cl' = wrap32 (transactions_processed cl + Z.of_nat (length xs)).
Proof.
  revert ss cl g. induction xs as [|x xs IH]; intros ss cl g Hbank Hcl Hok Hb Hn.
  { exists ss, cl. split_and!; try done. cbn [length]. rewrite Z.add_0_r. symmetry. by apply wrap32_id. }
  apply Forall_cons in Hok as [Hx Hok]. cbn [length] in Hb. rewrite Nat2Z.inj_succ in Hb.
  destruct (serve_step ss cl g x now) as (ss1 & cl1 & R1 & B1 & C1 & N1); try done.
  { intros k Hk. destruct (Hb k Hk). lia. }
  destruct (IH ss1 cl1 (books_step C place g x)) as (ss2 & cl2 & R2 & B2 & C2 & N2); try done.
  { apply ballots_step; [lia|exact Hb]. }
  { rewrite N1. apply wrap32_range. }
  exists ss2, cl2. split_and!; [|exact B2|exact C2|].
  - cbn [serve_all]. by rewrite sys_run_app, R1.
  - rewrite N2, N1, wrap32_add_l. f_equal. cbn [length]. lia.
Qed.
End Bank.
