(* ===== verification/Opening.v ===== *)
(** * A bank that opens

    Any number of clusters of three servers that have just started, each with
    one server chosen to lead and any other one down, is in agreement with
    books of empty logs and ten units per client; so it serves every
    sequence of payments as the books do ([Bank]). *)
From stdpp Require Import gmap list strings.
From Stdlib Require Import ZArith Lia Ascii Sorted.
From S2P Require Import Prelude Chars Types Config Wal OutCall Server Store Steps Protocol Acceptor Ledger Calls ServerMain Network Replication Round Progress Client System Atomic SysRound Bank.

Section Started.
Context {DB : Type} `{KVStore DB} {J : Indeterminate}.
Implicit Types s : Server DB.

(** ** A server that has just started *)

Lemma built_account_view c id f (d : DB) :
  let s := ServerImpl c id f d in wal s = WAL_init f /\ locks s = ∅ /\ i_am_disconnected s = false.
Proof.
  cbv zeta. unfold ServerImpl.
  set (s1 := mk_server _ _ _ _ _ _ _ _ _ _ _ _ _ _ _ _ _ _ _ _ _ _ _ _ _ _ _ _).
  pose proof (bank_reset s1) as (_ & _ & _ & _ & Hw & _)%bank_eq. rewrite Hw. split; [done|].
  unfold resetDisconnectedState. split; [rewrite (foldl_frame locks)|rewrite (foldl_frame i_am_disconnected)]; try done; intros s' p; by case_match.
Qed.

(** What [run] changes of a server: its stubs, its accounts, its store. *)
Lemma setup_frame s s0 :
  run_setup s = Some s0 ->
  ctrl s0 = ctrl s /\ stubs s0 = peers s /\ (server_id s0, cluster_id s0, consts s0, last_inserted s0) = (server_id s, cluster_id s, consts s, last_inserted s) /\
  wal s0 = wal s /\ log s0 = log s /\ locks s0 = locks s /\ i_am_disconnected s0 = i_am_disconnected s.
Proof. unfold run_setup. case_match; [|done]. intros [= <-]. done. Qed.

Lemma sorted_keys {V} (m : list (Z * V)) a b :
  omap_sorted Z.ltb m -> (forall x, x ∈ m.*1 <-> x = a \/ x = b) -> a <> b -> m.*1 = others a b.
Proof.
  intros Hs Hm Hab. pose proof (omap_sorted_NoDup Z.ltb m Hs) as Hnd.
  assert (m.*1 ≡ₚ [a; b]) as Hp.
  { apply NoDup_Permutation; [done| |].
    - rewrite NoDup_cons, list_elem_of_singleton. split; [done|apply NoDup_singleton].
    - intros x. rewrite Hm, elem_of_cons, list_elem_of_singleton. done. }
  destruct m as [|[k1 v1] [|[k2 v2] [|]]]; try by apply Permutation_length in Hp.
  apply StronglySorted_inv in Hs as [_ [Hlt _]%Forall_cons]. unfold omap_lt in Hlt. cbn in Hp, Hlt |- *. unfold others.
  symmetry in Hp. apply Permutation_length_2_inv in Hp as [[= -> ->]|[= -> ->]]; [by rewrite Hlt|].
  apply Z.ltb_lt in Hlt. by rewrite (proj2 (Z.ltb_ge a b)) by lia.
Qed.

(** The stubs of a server whose cluster has two other servers. *)
Lemma peers_others s a b :
  (forall i, i ∈ peers s <-> i = a \/ i = b) -> a <> b -> peers s = others a b.
Proof. intros Hp Hab. apply sorted_keys; [apply peers_sorted|exact Hp|exact Hab]. Qed.

Lemma started_view c id f (d : DB) s a b :
  started c id f d s -> (forall i, i ∈ peers (ServerImpl c id f d) <-> i = a \/ i = b) -> a <> b ->
  at_rest id a b 0 (-1) [] ∅ s /\ follower_at 0 (-1) [] ∅ s /\ nothing_pending (wal s) /\
  (consts s, cluster_id s) = (c, getClusterIdFromServerId c id).
Proof.
  intros (Hf & Hid & Hrun) Hp Hab. apply (peers_others _ a b Hp) in Hab.
  destruct (built_view c id f d) as (V1 & V2 & V3 & V4 & V5), (built_account_view c id f d) as (W1 & W2 & W3).
  destruct (built_config c id f d) as (E1 & E2 & _). cbv zeta in V1, V2, V3, V4, V5, E1, E2.
  revert Hrun Hab V1 V2 V3 V4 V5 W1 W2 W3 E1 E2. generalize (ServerImpl c id f d). intros s1 Hrun Hab V1 V2 V3 V4 V5 W1 W2 W3 E1 E2.
  apply setup_frame in Hrun as (F1 & F2 & F3 & F4 & F5 & F6 & F7). injection F3 as G1 G2 G3 G4.
  rewrite V5 in F1. unfold ctrl in F1. injection F1 as C1 C2 C3 C4 C5 C6 C7 C8 C9 C10 C11 C12 C13.
  unfold at_rest, lead_view, follower_at. rewrite C1, C2, C4, C10, C11, F2, F4, F5, F6, F7, G1, G2, G3, G4, Hab, V1, V2, V3, W2, W3, E1, E2.
  rewrite W1. change (walFile (WAL_init f)) with f. rewrite (proj2 Hf). split_and!; try done; by apply rep_init.
Qed.
End Started.

(** ** The deployment *)

Section Opening.
Context {DB : Type} `{KVStore DB} {J : Indeterminate}.
Context (nc : Z) (place : Z -> Place).
Implicit Types (ss : gmap Z (Server DB)).

(** The three servers of each cluster, one per part. *)
Definition roles : Prop := forall k, 1 <= k <= nc ->
  [p_leader (place k); p_follower (place k); p_down (place k)] ≡ₚ [3 * k - 2; 3 * k - 1; 3 * k].

(** The coordinator is told the leaders in the order of the clusters. *)
Definition chosen : list std_string := map (fun k => server_name (p_leader (place k))) (seqZ 1 nc).

Hypothesis Hnc : 1 <= nc <= 3000.
Hypothesis Hroles : roles.
Abbreviation C := (setupApplicationState nc 3 constants_default).

Lemma role_range k i : 1 <= k <= nc ->
  i = p_leader (place k) \/ i = p_follower (place k) \/ i = p_down (place k) <-> 3 * k - 2 <= i <= 3 * k.
Proof.
  intros Hk. assert (i ∈ [p_leader (place k); p_follower (place k); p_down (place k)] <-> i ∈ [3 * k - 2; 3 * k - 1; 3 * k]) as Hi
    by (by rewrite (Hroles k Hk)).
  rewrite !elem_of_cons, !elem_of_nil in Hi. split; [|lia]. intros Hx. assert (i = 3 * k - 2 \/ i = 3 * k - 1 \/ i = 3 * k \/ False); [|lia].
  apply Hi. tauto.
Qed.

Lemma roles_apart k : 1 <= k <= nc ->
  p_leader (place k) <> p_follower (place k) /\ p_leader (place k) <> p_down (place k) /\ p_follower (place k) <> p_down (place k).
Proof.
  intros Hk. assert (NoDup [p_leader (place k); p_follower (place k); p_down (place k)]) as Hn.
  { rewrite (Hroles k Hk). rewrite !NoDup_cons, !not_elem_of_cons. split_and!; try lia; try apply not_elem_of_nil. apply NoDup_nil_2. }
  rewrite !NoDup_cons, !not_elem_of_cons in Hn. destruct Hn as ((N1 & N2 & _) & (N3 & _) & _). by split.
Qed.

(** Which servers the table puts into cluster [k]. *)
Lemma cluster_members k i : 1 <= k <= nc ->
  ((exists name, (name, i) ∈ server_ids C) /\ getClusterIdFromServerId C i = k) <-> 3 * k - 2 <= i <= 3 * k.
Proof.
  intros Hk. split.
  - intros [[n [Hi _]%setup_elem] Hc]; [|lia..]. apply cluster_of_server_iff in Hc; lia.
  - intros Hi. split.
    + exists (server_name i). apply setup_elem; [lia..|]. split; [lia|done].
    + apply cluster_of_server_iff; lia.
Qed.

Lemma deployed_opening : deployed C place chosen.
Proof.
  destruct (setup_params nc 3) as [En Es]. split.
  - unfold config_ok. rewrite En, Es. lia.
  - apply setup_sorted.
  - rewrite (setup_order nc 3) by lia. apply NoDup_seqZ.
  - unfold is_cluster. rewrite En. intros k Hk. split; [by apply roles_apart|].
    pose proof (proj1 (role_range k _ Hk) (or_introl eq_refl)). unfold in_int. lia.
  - unfold is_cluster. rewrite En. intros k i Hk Hi. destruct (proj2 (cluster_members k i Hk)) as [[n Hn] Hc].
    { apply role_range; tauto. }
    split; [|exact Hc]. apply list_elem_of_fmap. by exists (n, i).
  - unfold is_cluster. rewrite En. intros k Hk. exists (server_name (p_leader (place k))). split.
    + unfold leader_of. rewrite (proj2 (Z.ltb_ge k 1)) by lia. unfold chosen. rewrite list_lookup_fmap, lookup_seqZ_lt by lia.
      by replace (1 + Z.of_nat (Z.to_nat (k - 1))) with k by lia.
    + apply setup_get; [lia..|]. pose proof (proj1 (role_range k _ Hk) (or_introl eq_refl)). split; [lia|done].
Qed.

(** Leaders and followers have started on usable log files. *)
Definition opened ss : Prop := forall k i, 1 <= k <= nc -> i = p_leader (place k) \/ i = p_follower (place k) ->
  exists f d s, ss !! i = Some s /\ started C i f d s.

Lemma peers_place f (d : DB) k i : 1 <= k <= nc -> 3 * k - 2 <= i <= 3 * k ->
  forall j, j ∈ peers (ServerImpl C i f d) <-> 3 * k - 2 <= j <= 3 * k /\ j <> i.
Proof.
  intros Hk Hi j. rewrite peers_elem. destruct (built_config C i f d) as (E1 & E2 & _), (built_view C i f d) as (V1 & _).
  rewrite E1, E2, V1. rewrite (proj2 (proj2 (cluster_members k i Hk) Hi)), <- (cluster_members k j Hk). tauto.
Qed.

Lemma opened_account k i f (d : DB) s x : 1 <= k <= nc -> 3 * k - 2 <= i <= 3 * k -> started C i f d s ->
  client_in_cluster s x = (cluster_of C x =? k) /\ (1 <= x <= total_clients -> cluster_of C x = k -> balance_of s x = 10).
Proof.
  intros Hk Hi Hst. destruct (proj2 (cluster_members k i Hk) Hi) as [_ Hc].
  assert ((consts s, cluster_id s) = (C, k)) as E.
  { destruct Hst as (_ & _ & Hrun). apply setup_frame in Hrun as (_ & _ & Hf & _). injection Hf as _ F1 F2 _.
    destruct (built_config C i f d) as (E1 & E2 & _). by rewrite F1, F2, E1, E2, Hc. }
  injection E as E1 E2. assert (client_in_cluster s x = (cluster_of C x =? k)) as Hx.
  { unfold client_in_cluster. by rewrite E1, E2. }
  split; [exact Hx|]. intros Hr Hk'. destruct Hst as (_ & _ & Hrun). apply (setup_accounts _ _ _ Hrun).
  split; [exact Hr|]. rewrite Hx, Hk'. apply Z.eqb_refl.
Qed.

Lemma opened_agrees ss : opened ss -> bank_at C place ss opening.
Proof.
  intros Ho. destruct (setup_params nc 3) as [En _]. split; [by intros x; vm_compute|]. intros k Hk. unfold is_cluster in Hk. rewrite En in Hk.
  destruct (Ho k _ Hk (or_introl eq_refl)) as (fl & dl & l & Hl & Sl), (Ho k _ Hk (or_intror eq_refl)) as (ff & df & f & Hf & Sf).
  destruct (roles_apart k Hk) as (A1 & A2 & A3). pose proof (role_range k (p_leader (place k)) Hk) as Rl. pose proof (role_range k (p_follower (place k)) Hk) as Rf.
  assert (3 * k - 2 <= p_leader (place k) <= 3 * k) as Il by tauto. assert (3 * k - 2 <= p_follower (place k) <= 3 * k) as If by tauto.
  destruct (started_view _ _ _ _ _ (p_follower (place k)) (p_down (place k)) Sl) as (V1 & V2 & V3 & V4); [|exact A3|].
  { intros i. rewrite (peers_place _ _ k) by done. rewrite <- role_range by done. intuition congruence. }
  destruct (started_view _ _ _ _ _ (p_leader (place k)) (p_down (place k)) Sf) as (_ & W2 & W3 & W4); [|exact A2|].
  { intros i. rewrite (peers_place _ _ k) by done. rewrite <- role_range by done. intuition congruence. }
  exists l, f. cbn [opening bk_ballot bk_log bk_bal]. pose proof (rest_locks _ _ _ _ _ _ _ _ V1) as Ek. split; [done|split; [done|]]. split; try done.
  - exists (-1), ∅. by rewrite Ek.
  - intros x _ _. rewrite Ek. apply not_elem_of_empty.
  - exact (follower_connected _ _ _ _ _ V2).
  - intros x. split; [by apply (opened_account k _ _ _ _ x Hk Il Sl)|by apply (opened_account k _ _ _ _ x Hk If Sf)].
  - intros x Hx Hkx. split; [by apply (opened_account k _ _ _ _ x Hk Il Sl)|by apply (opened_account k _ _ _ _ x Hk If Sf)].
Qed.

Lemma fresh_coordinator : coordinator C (Client_new C).
Proof. split; [done|]. by intros s Hs. Qed.

(** C1. The bank serves its books.  Any number of clusters of three servers
    has started; in each, one server leads and any one of the other two is
    down.  The coordinator is given any sequence of transactions, inside
    clusters and between them, whether or not the sender can pay.  Then a
    schedule of calls, messages and replies serves them all: at its end
    nothing is in flight, the coordinator has counted every transaction, and
    in every cluster the leader and the follower have the log, the ballot and
    the balances of the abstract books, every account free and no transaction
    undecided; and the books hold, to the width of an [int], the ten units a
    client they opened with. *)
Theorem bank_serves_books ss (xs : list (Transaction * Z)) (now : Z) :
  opened ss -> Forall tx_ok xs -> Z.of_nat (length xs) < 2 ^ 31 ->
  exists ss' cl', sys_run (sys_at ss (Client_new C) [] []) (serve_all C place chosen now opening xs) = Some (sys_at ss' cl' [] []) /\
    transactions_processed cl' = Z.of_nat (length xs) /\
    let g := foldl (books_step C place) opening xs in bank_at C place ss' g /\ money (bk_bal g) mod 2 ^ 32 = 10 * total_clients.
Proof.
  intros Ho Hok Hn.
  destruct (books_served C place chosen deployed_opening xs now ss (Client_new C) opening) as (ss' & cl' & R & B & _ & N); try done.
  - by apply opened_agrees.
  - apply fresh_coordinator.
  - exists ss', cl'. split; [exact R|]. split; [|split; [exact B|]].
    + rewrite N. cbn [transactions_processed Client_new]. apply wrap32_id. unfold in_int. lia.
    + rewrite books_money; [by vm_compute|]. eapply Forall_impl; [exact Hok|]. intros x Hx. apply Hx.
Qed.
End Opening.

(** ** Witness

    Two clusters; server 2 leads the first with server 3 down, server 4 the
    second with server 5 down.  A payment inside the first cluster; one
    between the two that the sender cannot cover, which the second cluster
    prepares and aborts; one that it can; one inside the second cluster that
    spends what came over, and one that is refused there. *)

Definition two_places (k : Z) : Place := if k =? 1 then mk_place 2 1 3 else mk_place (3 * k - 2) (3 * k) (3 * k - 1).
Definition new_log : File := mk_file [] true true.
Definition opened_server (i : Z) : Server map_store :=
  default (ServerImpl (setupApplicationState 2 3 constants_default) i new_log ∅)
    (run_setup (ServerImpl (setupApplicationState 2 3 constants_default) i new_log ∅)).
Definition two_clusters : gmap Z (Server map_store) :=
  <[1 := opened_server 1]> (<[2 := opened_server 2]> (<[4 := opened_server 4]> (<[6 := opened_server 6]> ∅))).
Definition five_payments : list (Transaction * Z) :=
  [(mk_txn 1 2 4, 11); (mk_txn 2 1600 15, 12); (mk_txn 2 1600 14, 13); (mk_txn 1600 1601 24, 14); (mk_txn 1600 1601 1, 15)].

(** What the books say of the five: the balances of the four clients, what
    each cluster logs, and the ballots. *)
Example five_payments_books :
  let g := foldl (books_step (setupApplicationState 2 3 constants_default) two_places) opening five_payments in
  map (bk_bal g) [1; 2; 1600; 1601] = [6; 0; 0; 34] /\
  map (fun e => (we_tid e, we_status e)) (bk_log g 1) = [(11, COMMITTED); (13, PREPARED); (13, COMMITTED)] /\
  map (fun e => (we_tid e, we_status e)) (bk_log g 2)
    = [(12, PREPARED); (12, ABORTED); (13, PREPARED); (13, COMMITTED); (14, COMMITTED)] /\
  (bk_ballot g 1, bk_ballot g 2) = (3, 4).
Proof. split_and!; vm_compute; reflexivity. Qed.

Lemma map_store_starts c (i : Z) : in_int i ->
  started c i new_log (∅ : map_store) (default (ServerImpl c i new_log ∅) (run_setup (ServerImpl c i new_log ∅))).
Proof. intros Hi. split; [done|]. split; [exact Hi|]. generalize (ServerImpl c i new_log (∅ : map_store)). intros s. done. Qed.

Lemma two_opened : opened 2 two_places two_clusters.
Proof.
  assert (forall i, i ∈ [1; 2; 4; 6] -> exists f (d : map_store) s, two_clusters !! i = Some s /\
    started (setupApplicationState 2 3 constants_default) i f d s) as Hall.
  { intros i Hi. exists new_log, ∅, (opened_server i). split.
    - unfold two_clusters. generalize opened_server. intros o. rewrite !elem_of_cons, elem_of_nil in Hi.
      by destruct Hi as [->|[->|[->|[->|[]]]]].
    - apply map_store_starts. rewrite !elem_of_cons, elem_of_nil in Hi. unfold in_int. lia. }
  intros k i Hk Hi. apply Hall. assert (k = 1 \/ k = 2) as [-> | ->] by lia; destruct Hi as [-> | ->]; vm_compute; repeat (left || right).
Qed.

Lemma bank_serves_books_witness :
  exists ss' cl', sys_run (J := zero_junk) (sys_at two_clusters (Client_new (setupApplicationState 2 3 constants_default)) [] [])
      (serve_all (setupApplicationState 2 3 constants_default) two_places (chosen 2 two_places) 50 opening five_payments) = Some (sys_at ss' cl' [] []) /\
    transactions_processed cl' = 5 /\
    let g := foldl (books_step (setupApplicationState 2 3 constants_default) two_places) opening five_payments in
    bank_at (setupApplicationState 2 3 constants_default) two_places ss' g /\ money (bk_bal g) mod 2 ^ 32 = 10 * total_clients.
Proof.
  apply (bank_serves_books (J := zero_junk) 2 two_places).
  - lia.
  - intros k Hk. assert (k = 1 \/ k = 2) as [-> | ->] by lia; apply (bool_decide_unpack _); vm_compute; exact I.
  - exact two_opened.
  - repeat constructor; vm_compute; congruence.
  - vm_compute. reflexivity.
Defined.
