(* ===== verification/Commands.v ===== *)
(** * The command line: class [CommandsParser] of [utils/commands_parser.cc]

    The commands of the driver are validated by regular expressions and then
    taken apart by blanks.  [std::regex_match] is modelled by derivatives of
    the expressions the source uses, and proved to be language membership. *)
From stdpp Require Import gmap list strings.
From Stdlib Require Import ZArith Lia Ascii.
From S2P Require Import Prelude Chars Types.

(** ** Regular expressions *)

Inductive regex :=
| Nothing
| Empty
| Class (p : ascii -> bool)
| Seq (r1 r2 : regex)
| Or (r1 r2 : regex)
| Star (r : regex).

Inductive in_lang : regex -> std_string -> Prop :=
| in_empty : in_lang Empty []
| in_class p c : p c = true -> in_lang (Class p) [c]
| in_seq r1 r2 s1 s2 : in_lang r1 s1 -> in_lang r2 s2 -> in_lang (Seq r1 r2) (s1 ++ s2)
| in_or_l r1 r2 s : in_lang r1 s -> in_lang (Or r1 r2) s
| in_or_r r1 r2 s : in_lang r2 s -> in_lang (Or r1 r2) s
| in_star_nil r : in_lang (Star r) []
| in_star_cons r c s1 s2 : in_lang r (c :: s1) -> in_lang (Star r) s2 -> in_lang (Star r) (c :: s1 ++ s2).

Fixpoint nullable (r : regex) : bool :=
  match r with
  | Nothing | Class _ => false
  | Empty | Star _ => true
  | Seq r1 r2 => nullable r1 && nullable r2
  | Or r1 r2 => nullable r1 || nullable r2
  end.

Fixpoint deriv (c : ascii) (r : regex) : regex :=
  match r with
  | Nothing | Empty => Nothing
  | Class p => if p c then Empty else Nothing
  | Seq r1 r2 => if nullable r1 then Or (Seq (deriv c r1) r2) (deriv c r2) else Seq (deriv c r1) r2
  | Or r1 r2 => Or (deriv c r1) (deriv c r2)
  | Star r' => Seq (deriv c r') (Star r')
  end.

(** [std::regex_match]: the whole string has to match. *)
Fixpoint regex_match (s : std_string) (r : regex) : bool :=
  match s with [] => nullable r | c :: s' => regex_match s' (deriv c r) end.

Lemma nullable_spec r : nullable r = true <-> in_lang r [].
Proof.
  induction r as [| |p|r1 IH1 r2 IH2|r1 IH1 r2 IH2|r IH]; cbn.
  - split; [done|]. by inversion 1.
  - split; [constructor|done].
  - split; [done|]. by inversion 1.
  - rewrite andb_true_iff, IH1, IH2. split.
    + intros [H1 H2]. apply (in_seq _ _ [] []); done.
    + inversion 1 as [| |? ? s1 s2 H1 H2 E Es| | | |]; subst.
      apply app_eq_nil in Es as [-> ->]. done.
  - rewrite orb_true_iff, IH1, IH2. split.
    + intros [Hl|Hr]; [by apply in_or_l|by apply in_or_r].
    + inversion 1; subst; auto.
  - split; [intros _; constructor|done].
Qed.

Lemma deriv_spec c r s : in_lang (deriv c r) s <-> in_lang r (c :: s).
Proof.
  revert s. induction r as [| |p|r1 IH1 r2 IH2|r1 IH1 r2 IH2|r IH]; intros s; cbn.
  - split; by inversion 1.
  - split; by inversion 1.
  - destruct (p c) eqn:Ep; split; inversion 1; subst; try congruence; by constructor.
  - assert (in_lang (Seq (deriv c r1) r2) s <-> exists s1 s2, s = s1 ++ s2 /\ in_lang r1 (c :: s1) /\ in_lang r2 s2) as Hseq.
    { split.
      - inversion 1 as [| |? ? s1 s2 H1 H2| | | |]; subst. exists s1, s2. by rewrite <- IH1.
      - intros (s1 & s2 & -> & H1 & H2). constructor; [by apply IH1|done]. }
    assert (in_lang (Seq r1 r2) (c :: s) <->
      (exists s1 s2, s = s1 ++ s2 /\ in_lang r1 (c :: s1) /\ in_lang r2 s2) \/
      (in_lang r1 [] /\ in_lang r2 (c :: s))) as Hr.
    { split.
      - inversion 1 as [| |? ? s1 s2 H1 H2 E Es| | | |]; subst.
        destruct s1 as [|c' s1]; cbn in Es; [subst; by right|]. injection Es as -> <-. left. by exists s1, s2.
      - intros [(s1 & s2 & -> & H1 & H2)|[H1 H2]].
        + by apply (in_seq _ _ (c :: s1) s2).
        + by apply (in_seq _ _ [] (c :: s)). }
    rewrite Hr. destruct (nullable r1) eqn:En.
    + apply nullable_spec in En. split.
      * inversion 1; subst; [left; by apply Hseq|right]. by rewrite <- IH2.
      * intros [Hl|[_ H2]]; [by apply in_or_l, Hseq|by apply in_or_r, IH2].
    + rewrite Hseq. assert (~ in_lang r1 []) as Hn by (rewrite <- nullable_spec; congruence). tauto.
  - split; inversion 1; subst.
    + by apply in_or_l, IH1.
    + by apply in_or_r, IH2.
    + by apply in_or_l, IH1.
    + by apply in_or_r, IH2.
  - split.
    + inversion 1 as [| |? ? s1 s2 H1 H2| | | |]; subst. constructor; [by apply IH|done].
    + inversion 1 as [| | | | | |? ? s1 s2 H1 H2]; subst. constructor; [by apply IH|done].
Qed.

Lemma regex_match_spec s r : regex_match s r = true <-> in_lang r s.
Proof.
  revert r. induction s as [|c s IH]; intros r; cbn; [apply nullable_spec|].
  by rewrite IH, deriv_spec.
Qed.

(** A literal and a character range. *)
Definition char_is (a c : ascii) : bool := Ascii.eqb c a.
Fixpoint lit (s : std_string) : regex :=
  match s with [] => Empty | a :: s' => Seq (Class (char_is a)) (lit s') end.
Definition in_range (lo hi c : ascii) : bool :=
  (nat_of_ascii lo <=? nat_of_ascii c)%nat && (nat_of_ascii c <=? nat_of_ascii hi)%nat.

Lemma in_seq_iff r1 r2 s :
  in_lang (Seq r1 r2) s <-> exists s1 s2, s = s1 ++ s2 /\ in_lang r1 s1 /\ in_lang r2 s2.
Proof.
  split; [inversion 1; subst; by do 2 eexists|]. intros (s1 & s2 & -> & ? & ?). by constructor.
Qed.

Lemma in_class_iff p s : in_lang (Class p) s <-> exists c, s = [c] /\ p c = true.
Proof. split; [inversion 1; subst; by eexists|]. intros (c & -> & ?). by constructor. Qed.

Lemma in_lit s s' : in_lang (lit s) s' <-> s' = s.
Proof.
  revert s'. induction s as [|a s IH]; intros s'; cbn.
  - split; [by inversion 1|intros ->; constructor].
  - split.
    + inversion 1 as [| |? ? s1 s2 H1 H2| | | |]; subst. apply IH in H2 as ->.
      inversion H1 as [|? c Hc| | | | |]; subst. unfold char_is in Hc. apply Ascii.eqb_eq in Hc as ->. done.
    + intros ->. apply (in_seq _ _ [a] s); [constructor; apply Ascii.eqb_refl|by apply IH].
Qed.

Lemma in_star_class p s : in_lang (Star (Class p)) s <-> Forall (fun c => p c = true) s.
Proof.
  split.
  - remember (Star (Class p)) as r eqn:Er. induction 1 as [| | | | |r|r c s1 s2 H1 _ H2 IH2]; try done.
    injection Er as ->. inversion H1; subst. constructor; [done|]. cbn. by apply IH2.
  - induction 1 as [|c s Hc Hs IH]; [constructor|].
    apply (in_star_cons (Class p) c [] s); [by constructor|done].
Qed.

(** ** The parser *)

Definition processNextSetPattern : regex := lit (str "processNextSet").
Definition printBalancePattern : regex :=
  Seq (lit (str "printBalance ")) (Seq (Class (in_range "1" "9")) (Star (Class (in_range "0" "9")))).
Definition printDatastorePattern : regex := lit (str "printDatastore").
Definition printPerformancePattern : regex := lit (str "printPerformance").
Definition exitPattern : regex := lit (str "exit").

Definition isValidCommand (command : std_string) : bool :=
  regex_match command processNextSetPattern ||
  regex_match command printBalancePattern ||
  regex_match command printDatastorePattern ||
  regex_match command printPerformancePattern ||
  regex_match command exitPattern.

(** [while (stream >> token)]; every turn takes at least one character, so
    the length of the string bounds the turns. *)
Fixpoint tokenize_loop (fuel : nat) (stream : istream) : list std_string :=
  match fuel with
  | O => []
  | S f =>
    let r := extract_word stream [] in
    if is_fail r.1 then [] else r.2 :: tokenize_loop f r.1
  end.

Definition tokenizeCommand (command : std_string) : list std_string :=
  tokenize_loop (S (length command)) (istringstream command).

(** [vector::at] *)
Definition at_ {A} (l : list A) (i : nat) : result A :=
  match l !! i with Some x => Ok x | None => Throw out_of_range end.

Open Scope result_scope.
Definition parseCommand (command : std_string) : result AppCommand :=
  if negb (isValidCommand command) then Throw invalid_argument
  else
    let command_tokens := tokenizeCommand command in
    let! t0 := at_ command_tokens 0 in
    if decide (t0 = str "processNextSet") then Ok (mk_cmd PROCESS_NEXT_SET (-1))
    else if decide (t0 = str "printBalance") then
      let! t1 := at_ command_tokens 1 in
      let! id := stoi t1 in
      Ok (mk_cmd PRINT_BALANCE id)
    else if decide (t0 = str "printDatastore") then Ok (mk_cmd PRINT_DATASTORE (-1))
    else if decide (t0 = str "printPerformance") then Ok (mk_cmd PRINT_PERFORMANCE (-1))
    else Ok (mk_cmd EXIT (-1)).

(** ** What is accepted, and as what *)

(** The argument of [printBalance]: digits without a leading zero. *)
Definition is_number (ds : std_string) : Prop :=
  exists d ds', ds = d :: ds' /\ in_range "1" "9" d = true /\ Forall (fun c => in_range "0" "9" c = true) ds'.

Lemma in_balance_pattern s :
  regex_match s printBalancePattern = true <-> exists ds, s = str "printBalance " ++ ds /\ is_number ds.
Proof.
  rewrite regex_match_spec. unfold printBalancePattern, is_number. rewrite in_seq_iff. split.
  - intros (s1 & s2 & -> & ->%in_lit & (s3 & s4 & -> & (d & -> & Hd)%in_class_iff & H4)%in_seq_iff).
    apply in_star_class in H4. exists (d :: s4). split; [done|]. by exists d, s4.
  - intros (ds & -> & d & ds' & -> & Hd & Hds). exists (str "printBalance "), (d :: ds').
    split_and!; [done|by apply in_lit|].
    apply (in_seq _ _ [d] ds'); [by constructor|by apply in_star_class].
Qed.

Lemma match_lit s p : regex_match s (lit p) = true <-> s = p.
Proof. rewrite regex_match_spec. apply in_lit. Qed.

Lemma in_range_digit c : in_range "0" "9" c = is_digit c.
Proof. unfold in_range, is_digit. done. Qed.

Lemma in_range_pos_digit c : in_range "1" "9" c = true -> is_digit c = true.
Proof.
  unfold in_range, is_digit. change (nat_of_ascii "1") with 49%nat. change (nat_of_ascii "9") with 57%nat.
  rewrite !andb_true_iff, !Nat.leb_le. lia.
Qed.

Lemma number_digits ds : is_number ds -> ds <> [] /\ Forall (fun c => is_digit c = true) ds.
Proof. intros (d & ds' & -> & Hd & Hds). split; [done|]. constructor; [by apply in_range_pos_digit|done]. Qed.

Lemma extract_word_digits ds :
  ds <> [] -> Forall (fun c => is_digit c = true) ds ->
  extract_word (mk_istream (" "%char :: ds) false) [] = (mk_istream [] false, ds).
Proof.
  intros Hne Hds. unfold extract_word. cbn [is_fail is_rest].
  assert (Forall (fun c => is_space c = false) ds) as Hs by (eapply Forall_impl; [exact Hds|apply digit_not_space]).
  change (skip_ws (" "%char :: ds)) with (skip_ws ds).
  rewrite skip_ws_nonspace by (destruct ds; [done|]; by inversion Hs).
  destruct ds as [|c ds]; [done|]. rewrite span_all; [done|].
  eapply Forall_impl; [exact Hs|]. intros x Hx. cbn in Hx. by rewrite Hx.
Qed.

Lemma tokenize_balance ds :
  ds <> [] -> Forall (fun c => is_digit c = true) ds ->
  tokenizeCommand (str "printBalance " ++ ds) = [str "printBalance"; ds].
Proof.
  intros Hne Hds. unfold tokenizeCommand, istringstream.
  assert (extract_word (mk_istream (str "printBalance " ++ ds) false) []
          = (mk_istream (" "%char :: ds) false, str "printBalance")) as E1 by reflexivity.
  change (length (str "printBalance " ++ ds)) with (S (S (11 + length ds))).
  set (n := (11 + length ds)%nat). cbn [tokenize_loop]. rewrite E1. cbn [fst snd is_fail].
  rewrite extract_word_digits by done. cbn [fst snd is_fail]. done.
Qed.

(** What a span leaves begins with a character that stops it. *)
Lemma span_rest p l : match (span p l).2 with [] => True | c :: _ => p c = false end.
Proof. induction l as [|c l IH]; cbn; [done|]. by destruct (p c) eqn:E. Qed.

(** A token takes a character at least, so the fuel is enough. *)
Lemma extract_word_shorter s old :
  is_fail (extract_word s old).1 = false -> (length (is_rest (extract_word s old).1) < length (is_rest s))%nat.
Proof.
  unfold extract_word. destruct (is_fail s) eqn:Ef; [cbn; congruence|].
  pose proof (f_equal length (span_eq is_space (is_rest s))) as Hs. rewrite length_app in Hs. fold (skip_ws (is_rest s)) in Hs.
  pose proof (span_rest is_space (is_rest s)) as Hc. fold (skip_ws (is_rest s)) in Hc.
  destruct (skip_ws (is_rest s)) as [|c l]; [done|]. intros _. cbn [fst snd is_rest span] in *. rewrite Hc. cbn [negb].
  pose proof (f_equal length (span_eq (fun c => negb (is_space c)) l)) as Hl. rewrite length_app in Hl.
  destruct (span _ l) as [x y]. cbn in *. lia.
Qed.

Lemma tokenize_fuel s extra :
  tokenize_loop (S (length (is_rest s)) + extra) s = tokenize_loop (S (length (is_rest s))) s.
Proof.
  assert (forall a b s, (length (is_rest s) < a)%nat -> (length (is_rest s) < b)%nat -> tokenize_loop a s = tokenize_loop b s) as Hab.
  { clear. induction a as [|a IH]; intros b s Ha Hb; [lia|]. destruct b as [|b]; [lia|]. cbn [tokenize_loop].
    pose proof (extract_word_shorter s []) as Hx. destruct (is_fail (extract_word s []).1); [done|].
    specialize (Hx eq_refl). f_equal. apply IH; lia. }
  apply Hab; lia.
Qed.

Lemma stoi_digits ds :
  ds <> [] -> Forall (fun c => is_digit c = true) ds ->
  stoi ds = if decide (in_int (dec_value ds)) then Ok (dec_value ds) else Throw out_of_range.
Proof.
  intros Hne Hds. unfold stoi.
  assert (skip_ws ds = ds) as ->.
  { apply skip_ws_nonspace. destruct ds; [done|]. inversion Hds; subst. by apply digit_not_space. }
  destruct (scan_digits ds [] Hne Hds I) as [H1 _]. rewrite app_nil_r in H1. by rewrite H1.
Qed.

Lemma parse_balance ds :
  is_number ds ->
  parseCommand (str "printBalance " ++ ds) =
    if decide (in_int (dec_value ds)) then Ok (mk_cmd PRINT_BALANCE (dec_value ds)) else Throw out_of_range.
Proof.
  intros Hn. destruct (number_digits ds Hn) as [Hne Hds]. unfold parseCommand.
  assert (isValidCommand (str "printBalance " ++ ds) = true) as ->.
  { unfold isValidCommand. rewrite (proj2 (in_balance_pattern _)) by (by exists ds).
    by rewrite orb_true_r. }
  cbn [negb]. rewrite tokenize_balance by done. cbn [at_ lookup list_lookup rbind].
  rewrite decide_False by done. rewrite decide_True by done. rewrite stoi_digits by done.
  by case_decide.
Qed.

(** What each input means. *)
Definition command_meaning (s : std_string) (r : result AppCommand) : Prop :=
  match r with
  | Ok c =>
    (s = str "processNextSet" /\ c = mk_cmd PROCESS_NEXT_SET (-1)) \/
    (s = str "printDatastore" /\ c = mk_cmd PRINT_DATASTORE (-1)) \/
    (s = str "printPerformance" /\ c = mk_cmd PRINT_PERFORMANCE (-1)) \/
    (s = str "exit" /\ c = mk_cmd EXIT (-1)) \/
    (exists ds, s = str "printBalance " ++ ds /\ is_number ds /\ in_int (dec_value ds) /\
                c = mk_cmd PRINT_BALANCE (dec_value ds))
  | Throw invalid_argument =>
    s <> str "processNextSet" /\ s <> str "printDatastore" /\ s <> str "printPerformance" /\ s <> str "exit" /\
    ~ exists ds, s = str "printBalance " ++ ds /\ is_number ds
  | Throw out_of_range => exists ds, s = str "printBalance " ++ ds /\ is_number ds /\ ~ in_int (dec_value ds)
  | Throw runtime_error => False
  end.

Lemma parse_command_meaning s : command_meaning s (parseCommand s).
Proof.
  destruct (isValidCommand s) eqn:Ev.
  - unfold isValidCommand in Ev. rewrite !orb_true_iff in Ev.
    unfold processNextSetPattern, printDatastorePattern, printPerformancePattern, exitPattern in Ev.
    rewrite !match_lit, in_balance_pattern in Ev.
    destruct Ev as [[[[-> |(ds & -> & Hn)]| ->]| ->]| ->].
    + by left.
    + rewrite parse_balance by done. case_decide.
      * do 4 right. by exists ds.
      * by exists ds.
    + by right; left.
    + by right; right; left.
    + by right; right; right; left.
  - unfold parseCommand. rewrite Ev. cbn [negb]. unfold isValidCommand in Ev. rewrite !orb_false_iff in Ev.
    unfold processNextSetPattern, printDatastorePattern, printPerformancePattern, exitPattern in Ev.
    destruct Ev as [[[[E1 E2] E3] E4] E5]. apply not_true_iff_false in E1, E2, E3, E4, E5.
    rewrite match_lit in E1, E3, E4, E5. rewrite in_balance_pattern in E2. split_and!; done.
Qed.

(** C38. The command language. The parser accepts exactly the five command words, [printBalance] with
    a positive number without leading zeros, and returns the command they
    name; every other input raises [invalid_argument], except a
    [printBalance] whose number is no [int], which raises [out_of_range]. *)
Theorem parse_command_spec s r : parseCommand s = r <-> command_meaning s r.
Proof.
  split; [intros <-; apply parse_command_meaning|].
  destruct r as [c|[]]; cbn [command_meaning].
  - intros [[-> ->]|[[-> ->]|[[-> ->]|[[-> ->]|(ds & -> & Hn & Hi & ->)]]]]; [reflexivity..|].
    rewrite parse_balance by done. by rewrite decide_True.
  - intros (H1 & H2 & H3 & H4 & H5). pose proof (parse_command_meaning s) as Hm.
    destruct (parseCommand s) as [c|[]]; cbn [command_meaning] in Hm; [|done| |done].
    + destruct Hm as [[? _]|[[? _]|[[? _]|[[? _]|(ds & ? & ? & _)]]]]; try done. exfalso. apply H5. by exists ds.
    + destruct Hm as (ds & ? & ? & _). exfalso. apply H5. by exists ds.
  - intros (ds & -> & Hn & Hi). rewrite parse_balance by done. by rewrite decide_False.
  - done.
Qed.
