(* ===== verification/Csv.v ===== *)
(** * Reading transaction sets: class [CSVReader] of [utils/csv_reader.cc]

    The reader's state is the unread part of the file and two transaction
    sets; a call of [readNextSet] may end in an exception, which leaves the
    state changed so far behind. *)
From stdpp Require Import gmap list strings.
From Stdlib Require Import ZArith Lia Ascii.
From S2P Require Import Prelude Chars Types Config Commands.

Definition blank_or_ending (c : ascii) : bool :=
  Ascii.eqb c return_char || Ascii.eqb c newline || Ascii.eqb c " ".

Definition stripLineEndings (line : std_string) : std_string :=
  filter (fun c => blank_or_ending c = false) line.

(** The loop [parseTransaction] and [parseServers] share: the characters of
    [skip] are dropped and commas end a field. *)
Fixpoint fields_loop (skip : ascii -> bool) (field : std_string) (s : std_string) : list std_string :=
  match s with
  | [] => [field]
  | c :: s' =>
    if skip c then fields_loop skip field s'
    else if Ascii.eqb c "," then field :: fields_loop skip [] s'
    else fields_loop skip (field ++ [c]) s'
  end.

Definition in_parens (c : ascii) : bool := Ascii.eqb c "(" || Ascii.eqb c ")" || Ascii.eqb c " ".
Definition in_brackets (c : ascii) : bool := Ascii.eqb c "[" || Ascii.eqb c "]" || Ascii.eqb c " ".

Definition parseTransaction (column : std_string) : result Transaction :=
  let fields := fields_loop in_parens [] column in
  let! f0 := at_ fields 0 in
  let! sender := stoi f0 in
  let! f1 := at_ fields 1 in
  let! receiver := stoi f1 in
  let! f2 := at_ fields 2 in
  let! amount := stoi f2 in
  Ok (mk_txn sender receiver amount).

Definition parseServers (column : std_string) : list std_string := fields_loop in_brackets [] column.

(** The columns of a line; commas inside quotes do not count. *)
Fixpoint columns_loop (inQuotes : bool) (column : std_string) (s : std_string) : list std_string :=
  match s with
  | [] => [column]
  | c :: s' =>
    if Ascii.eqb c quote then columns_loop (negb inQuotes) column s'
    else if Ascii.eqb c "," && negb inQuotes then column :: columns_loop inQuotes [] s'
    else columns_loop inQuotes (column ++ [c]) s'
  end.

Definition parseCSVLine (line : std_string) : result CSVLine :=
  let columns := columns_loop false [] line in
  let! c0 := at_ columns 0 in
  let! setNumber := (if decide (c0 = []) then Ok (-1) else stoi c0) in
  let! c1 := at_ columns 1 in
  let! t := parseTransaction c1 in
  let! c2 := at_ columns 2 in
  let aliveServers := if decide (c2 = []) then [] else parseServers c2 in
  let! c3 := at_ columns 3 in
  let leaders := if decide (c3 = []) then [] else parseServers c3 in
  Ok (mk_line setNumber t aliveServers leaders).

Record CSVReader := mk_reader {
  cr_file : std_string;
  currentSetNo : Z;
  currentTransactionSet : TransactionSet;
  nextTransactionSet : TransactionSet
}.

#[export] Instance CSVReader_settable : Settable CSVReader := fun r =>
  mk_reader (cr_file r) (currentSetNo r) (currentTransactionSet r) (nextTransactionSet r).

(** [None] is a file that cannot be opened. *)
Definition CSVReader_new (contents : option std_string) : result CSVReader :=
  match contents with
  | None => Throw runtime_error
  | Some text => Ok (mk_reader text 0 (mk_set 0 [] [] [] []) (mk_set 0 [] [] [] []))
  end.

(** The loop of [readNextSet]; every turn reads at least one character. *)
Fixpoint read_loop (fuel : nat) (r : CSVReader) : CSVReader * result unit :=
  match fuel with
  | O => (r, Ok tt)
  | S f =>
    match getline (cr_file r) with
    | None => (r, Ok tt)
    | Some (line, rest) =>
      let r := r <| cr_file := rest |> in
      match parseCSVLine (stripLineEndings line) with
      | Throw e => (r, Throw e)
      | Ok l =>
        if cl_set_no l =? currentSetNo r then
          read_loop f (r <| currentTransactionSet ::= fun s =>
                          s <| ts_transactions ::= fun ts => ts ++ [cl_transaction l] |>
                            <| ts_servers := cl_servers l |> <| ts_leaders := cl_leaders l |> |>)
        else if cl_set_no l =? wrap32 (currentSetNo r + 1) then
          (r <| nextTransactionSet ::= fun s =>
               s <| ts_transactions ::= fun ts => ts ++ [cl_transaction l] |>
                 <| ts_servers := cl_servers l |> <| ts_leaders := cl_leaders l |> |>, Ok tt)
        else
          read_loop f (r <| currentTransactionSet ::= fun s =>
                          s <| ts_transactions ::= fun ts => ts ++ [cl_transaction l] |> |>)
      end
    end
  end.

(** The set number and the swap at the start of [readNextSet]; the leaders of
    the next set are not cleared. *)
Definition next_set (r : CSVReader) : CSVReader :=
  let cur := currentTransactionSet r in
  let nxt := nextTransactionSet r in
  r <| currentSetNo ::= fun n => wrap32 (n + 1) |>
    <| currentTransactionSet := cur <| ts_servers := ts_servers nxt |> <| ts_leaders := ts_leaders nxt |>
                                    <| ts_transactions := ts_transactions nxt |> |>
    <| nextTransactionSet := nxt <| ts_servers := [] |> <| ts_leaders := ts_leaders cur |>
                                 <| ts_transactions := [] |> |>.

(** [readNextSet]: the reader, the caller's set and the result. *)
Definition readNextSet (C : constants) (r : CSVReader) (t : TransactionSet) :
    CSVReader * TransactionSet * result Z :=
  let r := next_set r in
  let x := read_loop (S (length (cr_file r))) r in
  let r := x.1 in
  match x.2 with
  | Throw e => (r, t, Throw e)
  | Ok _ =>
    let cur := currentTransactionSet r in
    match ts_transactions cur with
    | [] => (r, t, Ok 0)
    | _ =>
      let t := mk_set (currentSetNo r) (ts_transactions cur) (ts_servers cur) (ts_leaders cur)
                 (filter (fun s => s ∉ ts_servers cur) (server_ids C).*1) in
      (r, t, Ok (wrap32 (Z.of_nat (length (ts_transactions cur)))))
    end
  end.

(** ** The format *)

Fixpoint join (l : list std_string) : std_string :=
  match l with [] => [] | [s] => s | s :: l' => s ++ str ", " ++ join l' end.

Definition render_transaction (t : Transaction) : std_string :=
  str "(" ++ to_string (sender t) ++ str ", " ++ to_string (receiver t) ++ str ", " ++ to_string (amount t) ++ str ")".
Definition render_servers (l : list std_string) : std_string := str "[" ++ join l ++ str "]".
Definition quoted (s : std_string) : std_string := [quote] ++ s ++ [quote].
Definition line_end : std_string := [return_char].

(** A set: its transactions, at least one, the live servers and the leaders. *)
Record SetSpec := mk_spec {
  sp_first : Transaction; sp_more : list Transaction; sp_servers : list std_string; sp_leaders : list std_string
}.

Definition render_first (n : Z) (s : SetSpec) : std_string :=
  to_string n ++ str "," ++ quoted (render_transaction (sp_first s)) ++ str "," ++
  quoted (render_servers (sp_servers s)) ++ str "," ++ quoted (render_servers (sp_leaders s)) ++ line_end.
Definition render_more (t : Transaction) : std_string :=
  str "," ++ quoted (render_transaction t) ++ str ",," ++ line_end.

Definition lines (l : list std_string) : std_string := concat (map (fun s => s ++ [newline]) l).
Definition render_set (n : Z) (s : SetSpec) : std_string := lines (render_first n s :: map render_more (sp_more s)).
Fixpoint render_sets (n : Z) (l : list SetSpec) : std_string :=
  match l with [] => [] | s :: l' => render_set n s ++ render_sets (n + 1) l' end.

(** ** Lines are read back *)

(** Characters without a meaning in the format. *)
Definition plain (c : ascii) : Prop :=
  blank_or_ending c = false /\ c <> ","%char /\ c <> quote /\ in_parens c = false /\ in_brackets c = false.

#[export] Instance plain_dec c : Decision (plain c).
Proof. unfold plain. apply _. Defined.

(** The code of a literal character is outside the digits. *)
Ltac solve_code := first [left; vm_compute; lia | right; vm_compute; lia].

Lemma digit_plain c : is_digit c = true -> plain c.
Proof.
  unfold is_digit. rewrite andb_true_iff, !Nat.leb_le. intros H.
  unfold plain, blank_or_ending, in_parens, in_brackets.
  assert (forall a, (nat_of_ascii a < 48)%nat \/ (57 < nat_of_ascii a)%nat -> Ascii.eqb c a = false) as Hne.
  { intros a Ha. apply Ascii.eqb_neq. intros ->. lia. }
  rewrite !Hne by solve_code.
  split_and!; try done; apply Ascii.eqb_neq, Hne; solve_code.
Qed.

Lemma to_string_plain z : in_int z -> Forall plain (to_string z).
Proof.
  intros (ds & _ & Hall & _ & ->)%in_int_printable%to_string_shape.
  assert (Forall plain ds) by (eapply Forall_impl; [exact Hall|apply digit_plain]).
  destruct (z <? 0); [|done]. constructor; [|done]. apply (bool_decide_unpack _). vm_compute. exact I.
Qed.

Lemma strip_app a b : stripLineEndings (a ++ b) = stripLineEndings a ++ stripLineEndings b.
Proof. apply filter_app. Qed.

Lemma strip_plain s : Forall plain s -> stripLineEndings s = s.
Proof.
  unfold stripLineEndings. induction 1 as [|c s [Hc _] Hs IH]; [done|].
  rewrite filter_cons_True by done. by rewrite IH.
Qed.

(** The same texts without blanks. *)
Definition compact_transaction (t : Transaction) : std_string :=
  str "(" ++ to_string (sender t) ++ str "," ++ to_string (receiver t) ++ str "," ++ to_string (amount t) ++ str ")".
Fixpoint compact_join (l : list std_string) : std_string :=
  match l with [] => [] | [s] => s | s :: l' => s ++ str "," ++ compact_join l' end.
Definition compact_servers (l : list std_string) : std_string := str "[" ++ compact_join l ++ str "]".

Definition names_ok (l : list std_string) : Prop := l <> [] /\ Forall (Forall plain) l.

Lemma strip_transaction t : wf_txn t -> stripLineEndings (render_transaction t) = compact_transaction t.
Proof.
  intros (H1 & H2 & H3). unfold render_transaction. rewrite !strip_app.
  by rewrite !(strip_plain (to_string _)) by by apply to_string_plain.
Qed.

Lemma strip_join l : Forall (Forall plain) l -> stripLineEndings (join l) = compact_join l.
Proof.
  induction 1 as [|s l Hs Hl IH]; [done|]. destruct l as [|s' l]; [by apply strip_plain|].
  change (join (s :: s' :: l)) with (s ++ str ", " ++ join (s' :: l)).
  change (compact_join (s :: s' :: l)) with (s ++ str "," ++ compact_join (s' :: l)).
  by rewrite !strip_app, IH, (strip_plain s).
Qed.

Lemma strip_servers l : names_ok l -> stripLineEndings (render_servers l) = compact_servers l.
Proof. intros [_ Hl]. unfold render_servers. by rewrite !strip_app, strip_join. Qed.

Lemma strip_quoted s : stripLineEndings (quoted s) = quoted (stripLineEndings s).
Proof. unfold quoted. by rewrite !strip_app. Qed.

(** *** Fields *)

Lemma fields_plain skip field s rest :
  Forall (fun c => skip c = false /\ c <> ","%char) s ->
  fields_loop skip field (s ++ rest) = fields_loop skip (field ++ s) rest.
Proof.
  intros Hs. revert field. induction Hs as [|c s [Hc Hne] Hs IH]; intros field; [by rewrite app_nil_r|].
  cbn [app fields_loop]. rewrite Hc. apply Ascii.eqb_neq in Hne. rewrite Hne, IH.
  by rewrite <- app_assoc.
Qed.

Lemma fields_comma skip field rest :
  skip ","%char = false -> fields_loop skip field (str "," ++ rest) = field :: fields_loop skip [] rest.
Proof. intros Hs. cbn. by rewrite Hs. Qed.

Lemma fields_skip skip c field rest : skip c = true -> fields_loop skip field (c :: rest) = fields_loop skip field rest.
Proof. intros Hs. cbn. by rewrite Hs. Qed.

Lemma plain_parens s : Forall plain s -> Forall (fun c => in_parens c = false /\ c <> ","%char) s.
Proof. intros Hs. eapply Forall_impl; [exact Hs|]. by intros c (_ & ? & _ & ? & _). Qed.
Lemma plain_brackets s : Forall plain s -> Forall (fun c => in_brackets c = false /\ c <> ","%char) s.
Proof. intros Hs. eapply Forall_impl; [exact Hs|]. by intros c (_ & ? & _ & _ & ?). Qed.

Lemma parse_compact_transaction t : wf_txn t -> parseTransaction (compact_transaction t) = Ok t.
Proof.
  intros (H1 & H2 & H3). unfold parseTransaction.
  assert (fields_loop in_parens [] (compact_transaction t)
          = [to_string (sender t); to_string (receiver t); to_string (amount t)]) as ->.
  { unfold compact_transaction. change (str "(" ++ ?r) with ("("%char :: r). rewrite fields_skip by done.
    rewrite fields_plain by by apply plain_parens, to_string_plain. rewrite fields_comma by done.
    rewrite fields_plain by by apply plain_parens, to_string_plain. rewrite fields_comma by done.
    rewrite fields_plain by by apply plain_parens, to_string_plain. done. }
  cbn [at_ lookup list_lookup rbind]. rewrite !stoi_of_string by done. cbn. by destruct t.
Qed.

Lemma fields_join l :
  names_ok l -> fields_loop in_brackets [] (compact_join l ++ str "]") = l.
Proof.
  intros [Hne Hl]. induction Hl as [|s l Hs Hl IH]; [done|]. destruct l as [|s' l].
  - cbn [compact_join]. rewrite fields_plain by by apply plain_brackets. done.
  - change (compact_join (s :: s' :: l)) with (s ++ str "," ++ compact_join (s' :: l)).
    rewrite <- !app_assoc, fields_plain by by apply plain_brackets.
    rewrite fields_comma by done. by rewrite IH.
Qed.

Lemma parse_compact_servers l : names_ok l -> parseServers (compact_servers l) = l.
Proof.
  intros Hl. unfold parseServers, compact_servers. change (str "[" ++ ?r) with ("["%char :: r).
  rewrite fields_skip by done. by apply fields_join.
Qed.

(** *** Columns *)

Lemma columns_comma column rest :
  columns_loop false column (str "," ++ rest) = column :: columns_loop false [] rest.
Proof. done. Qed.

Lemma columns_plain q column s rest :
  Forall (fun c => c <> quote /\ (q = false -> c <> ","%char)) s ->
  columns_loop q column (s ++ rest) = columns_loop q (column ++ s) rest.
Proof.
  intros Hs. revert column. induction Hs as [|c s [Hq Hc] Hs IH]; intros column; [by rewrite app_nil_r|].
  cbn [app columns_loop]. apply Ascii.eqb_neq in Hq. rewrite Hq.
  assert (Ascii.eqb c "," && negb q = false) as ->.
  { destruct q; [apply andb_false_r|]. rewrite andb_true_r. by apply Ascii.eqb_neq, Hc. }
  rewrite IH. by rewrite <- app_assoc.
Qed.

Lemma columns_quoted column s rest :
  Forall (fun c => c <> quote) s ->
  columns_loop false column (quoted s ++ rest) = columns_loop false (column ++ s) rest.
Proof.
  intros Hs. unfold quoted. rewrite <- !app_assoc. cbn [app columns_loop].
  change (Ascii.eqb quote quote) with true. cbn [negb].
  rewrite columns_plain by (eapply Forall_impl; [exact Hs|]; intros c Hc; by split).
  cbn [app columns_loop]. by change (Ascii.eqb quote quote) with true.
Qed.

Lemma plain_no_quote s : Forall plain s -> Forall (fun c => c <> quote) s.
Proof. intros Hs. eapply Forall_impl; [exact Hs|]. by intros c (_ & _ & ? & _). Qed.

Lemma lit_no_quote s : bool_decide (Forall (fun c => c <> quote) (str s)) = true -> Forall (fun c => c <> quote) (str s).
Proof. apply bool_decide_eq_true. Qed.

Lemma compact_transaction_no_quote t : wf_txn t -> Forall (fun c => c <> quote) (compact_transaction t).
Proof.
  intros (H1 & H2 & H3). unfold compact_transaction.
  repeat apply Forall_app_2; first [by apply plain_no_quote, to_string_plain | by apply lit_no_quote].
Qed.

Lemma compact_servers_no_quote l : names_ok l -> Forall (fun c => c <> quote) (compact_servers l).
Proof.
  intros [_ Hl]. unfold compact_servers. repeat apply Forall_app_2; try (by apply lit_no_quote).
  induction Hl as [|s l Hs Hl IH]; [constructor|]. destruct l as [|s' l]; [by apply plain_no_quote|].
  change (compact_join (s :: s' :: l)) with (s ++ str "," ++ compact_join (s' :: l)).
  repeat apply Forall_app_2; [by apply plain_no_quote|by apply lit_no_quote|done].
Qed.

(** *** Whole lines *)

Definition spec_ok (s : SetSpec) : Prop :=
  wf_txn (sp_first s) /\ Forall wf_txn (sp_more s) /\ names_ok (sp_servers s) /\ names_ok (sp_leaders s).

Lemma strip_first n s :
  in_int n -> spec_ok s ->
  stripLineEndings (render_first n s) =
  to_string n ++ str "," ++ quoted (compact_transaction (sp_first s)) ++ str "," ++
  quoted (compact_servers (sp_servers s)) ++ str "," ++ quoted (compact_servers (sp_leaders s)).
Proof.
  intros Hn (Ht & _ & Hs & Hl). unfold render_first, line_end.
  rewrite !strip_app, !strip_quoted, strip_transaction, !strip_servers by done.
  rewrite strip_plain by by apply to_string_plain.
  change (stripLineEndings [return_char]) with ([] : std_string). by rewrite app_nil_r.
Qed.

Lemma strip_more t :
  wf_txn t -> stripLineEndings (render_more t) = str "," ++ quoted (compact_transaction t) ++ str ",,".
Proof.
  intros Ht. unfold render_more, line_end. rewrite !strip_app, strip_quoted, strip_transaction by done. reflexivity.
Qed.

Lemma parse_first n s :
  in_int n -> spec_ok s ->
  parseCSVLine (stripLineEndings (render_first n s)) = Ok (mk_line n (sp_first s) (sp_servers s) (sp_leaders s)).
Proof.
  intros Hn Hok. rewrite strip_first by done. destruct Hok as (Ht & _ & Hs & Hl). unfold parseCSVLine.
  rewrite columns_plain.
  2:{ eapply Forall_impl; [by apply to_string_plain|]. by intros c (_ & ? & ? & _). }
  rewrite columns_comma, columns_quoted by by apply compact_transaction_no_quote.
  rewrite columns_comma, columns_quoted by by apply compact_servers_no_quote.
  rewrite columns_comma. rewrite <- (app_nil_r (quoted (compact_servers (sp_leaders s)))).
  rewrite columns_quoted by by apply compact_servers_no_quote.
  cbn [app columns_loop at_ lookup list_lookup rbind].
  rewrite decide_False by (apply to_string_nonempty; by apply in_int_printable).
  rewrite stoi_of_string by done.
  cbn [rbind]. rewrite parse_compact_transaction by done. cbn [rbind].
  rewrite !decide_False by done. by rewrite !parse_compact_servers.
Qed.

Lemma parse_more t :
  wf_txn t -> parseCSVLine (stripLineEndings (render_more t)) = Ok (mk_line (-1) t [] []).
Proof.
  intros Ht. rewrite strip_more by done. unfold parseCSVLine.
  rewrite columns_comma, columns_quoted by by apply compact_transaction_no_quote.
  change (str ",,") with (str "," ++ str ",").
  rewrite columns_comma.
  cbn [app columns_loop at_ lookup list_lookup rbind].
  rewrite decide_True by done. cbn [rbind]. by rewrite parse_compact_transaction.
Qed.

(** ** Reading sets *)

(** A rendered line is one line. *)
Lemma getline_line l rest :
  Forall (fun c => c <> newline) l -> getline (l ++ [newline] ++ rest) = Some (l, rest).
Proof.
  intros Hl. unfold getline.
  destruct (l ++ [newline] ++ rest) as [|c x] eqn:E; [by destruct l|]. rewrite <- E.
  rewrite (span_app (fun c => negb (Ascii.eqb c newline)) l ([newline] ++ rest)); [done| |done].
  eapply Forall_impl; [exact Hl|]. intros a Ha. apply Ascii.eqb_neq in Ha. cbn in *. by rewrite Ha.
Qed.

Lemma plain_no_newline s : Forall plain s -> Forall (fun c => c <> newline) s.
Proof. intros Hs. eapply Forall_impl; [exact Hs|]. intros c (Hc & _) ->. done. Qed.

Lemma lit_no_newline s : bool_decide (Forall (fun c => c <> newline) (str s)) = true -> Forall (fun c => c <> newline) (str s).
Proof. apply bool_decide_eq_true. Qed.

Lemma transaction_no_newline t : wf_txn t -> Forall (fun c => c <> newline) (render_transaction t).
Proof.
  intros (H1 & H2 & H3). unfold render_transaction.
  repeat apply Forall_app_2; first [by apply plain_no_newline, to_string_plain | by apply lit_no_newline].
Qed.

Lemma servers_no_newline l : names_ok l -> Forall (fun c => c <> newline) (render_servers l).
Proof.
  intros [_ Hl]. unfold render_servers. repeat apply Forall_app_2; try (by apply lit_no_newline).
  induction Hl as [|s l Hs Hl IH]; [constructor|]. destruct l as [|s' l]; [by apply plain_no_newline|].
  change (join (s :: s' :: l)) with (s ++ str ", " ++ join (s' :: l)).
  repeat apply Forall_app_2; [by apply plain_no_newline|by apply lit_no_newline|done].
Qed.

Lemma quoted_no_newline s : Forall (fun c => c <> newline) s -> Forall (fun c => c <> newline) (quoted s).
Proof. intros Hs. unfold quoted. repeat apply Forall_app_2; [|done|]; by repeat constructor. Qed.

Lemma first_no_newline n s : in_int n -> spec_ok s -> Forall (fun c => c <> newline) (render_first n s).
Proof.
  intros Hn (Ht & _ & Hs & Hl). unfold render_first, line_end.
  rewrite !Forall_app. split_and!; try (by apply lit_no_newline); try (by repeat constructor).
  - by apply plain_no_newline, to_string_plain.
  - by apply quoted_no_newline, transaction_no_newline.
  - by apply quoted_no_newline, servers_no_newline.
  - by apply quoted_no_newline, servers_no_newline.
Qed.

Lemma more_no_newline t : wf_txn t -> Forall (fun c => c <> newline) (render_more t).
Proof.
  intros Ht. unfold render_more, line_end.
  rewrite !Forall_app. split_and!; try (by apply lit_no_newline); try (by repeat constructor).
  by apply quoted_no_newline, transaction_no_newline.
Qed.

Definition add_txn (t : Transaction) (r : CSVReader) : CSVReader :=
  r <| currentTransactionSet ::= fun s => s <| ts_transactions ::= fun ts => ts ++ [t] |> |>.

(** Rows without a number belong to the current set. *)
Lemma read_more ts rest f r :
  Forall wf_txn ts -> 0 <= currentSetNo r < 2 ^ 31 - 1 ->
  cr_file r = lines (map render_more ts) ++ rest ->
  read_loop (length ts + f) r = read_loop f (foldl (fun r t => add_txn t r) (r <| cr_file := rest |>) ts).
Proof.
  intros Hts. revert r. induction Hts as [|t ts Ht Hts IH]; intros r Hn Hfile.
  { cbn in *. subst rest. by destruct r. }
  cbn [length Nat.add read_loop]. unfold lines in Hfile. cbn [map concat] in Hfile.
  rewrite <- !app_assoc in Hfile. rewrite Hfile, getline_line by by apply more_no_newline.
  rewrite parse_more by done. cbn [cl_set_no]. change (currentSetNo (r <| cr_file := ?x |>)) with (currentSetNo r).
  destruct (Z.eqb_spec (-1) (currentSetNo r)); [lia|].
  rewrite wrap32_id by (unfold in_int; lia). destruct (Z.eqb_spec (-1) (currentSetNo r + 1)); [lia|].
  etransitivity; [apply (IH (add_txn t (r <| cr_file := lines (map render_more ts) ++ rest |>)))|]; done.
Qed.

Lemma fold_add ts r :
  foldl (fun r t => add_txn t r) r ts =
  (r <| currentTransactionSet ::= fun s => s <| ts_transactions ::= fun l => l ++ ts |> |>).
Proof.
  revert r. induction ts as [|t ts IH]; intros r; cbn [foldl].
  - destruct r as [? ? [] ?]. unfold upd. cbn. by rewrite app_nil_r.
  - rewrite IH. destruct r as [? ? [] ?]. unfold add_txn, upd. cbn. by rewrite <- app_assoc.
Qed.

(** The reader between two calls, [k] sets read: it holds the first row of
    the next set, or it is at the start of a set (at the very beginning, or
    at the end of the file). *)
Definition reader_at (r : CSVReader) (k : Z) (sets : list SetSpec) : Prop :=
  currentSetNo r = k /\
  ((ts_transactions (nextTransactionSet r) = [] /\ cr_file r = render_sets (k + 1) sets) \/
   exists s sets', sets = s :: sets' /\
     ts_transactions (nextTransactionSet r) = [sp_first s] /\
     ts_servers (nextTransactionSet r) = sp_servers s /\ ts_leaders (nextTransactionSet r) = sp_leaders s /\
     cr_file r = lines (map render_more (sp_more s)) ++ render_sets (k + 2) sets').

(** The rest of a set, once its first row is in the current set. *)
Lemma read_rest s sets k r f :
  Forall spec_ok (s :: sets) -> 0 <= k -> k + Z.of_nat (length sets) + 2 < 2 ^ 31 - 1 ->
  currentSetNo r = k + 1 -> ts_transactions (nextTransactionSet r) = [] ->
  ts_transactions (currentTransactionSet r) = [sp_first s] ->
  cr_file r = lines (map render_more (sp_more s)) ++ render_sets (k + 2) sets ->
  exists r', read_loop (length (sp_more s) + S f) r = (r', Ok tt) /\
    ts_transactions (currentTransactionSet r') = sp_first s :: sp_more s /\
    ts_servers (currentTransactionSet r') = ts_servers (currentTransactionSet r) /\
    ts_leaders (currentTransactionSet r') = ts_leaders (currentTransactionSet r) /\
    reader_at r' (k + 1) sets.
Proof.
  intros Hok Hk Hlen Hn Hnext Hcur Hfile. inversion Hok as [|? ? Hs Hsets]; subst.
  rewrite (read_more _ (render_sets (k + 2) sets)); [|apply Hs|lia|done].
  rewrite fold_add. set (r1 := r <| cr_file := _ |> <| currentTransactionSet ::= _ |>).
  assert (ts_transactions (currentTransactionSet r1) = sp_first s :: sp_more s) as Hcur1.
  { unfold r1. cbn. by rewrite Hcur. }
  destruct sets as [|s2 sets].
  - exists r1. split_and!; try done. split; [done|]. left. by split.
  - inversion Hsets as [|? ? Hs2 _]; subst. cbn [read_loop length] in *.
    change (cr_file r1) with (render_sets (k + 2) (s2 :: sets)).
    cbn [render_sets]. unfold render_set, lines. cbn [map concat]. rewrite <- !app_assoc.
    assert (in_int (k + 2)) as Hk2 by (unfold in_int; lia).
    rewrite getline_line, parse_first by (done || by apply first_no_newline).
    cbn [cl_set_no cl_transaction cl_servers cl_leaders].
    change (currentSetNo (r1 <| cr_file := ?x |>)) with (currentSetNo r). rewrite Hn.
    rewrite wrap32_id by (unfold in_int; lia).
    destruct (Z.eqb_spec (k + 2) (k + 1)); [lia|]. destruct (Z.eqb_spec (k + 2) (k + 1 + 1)); [|lia].
    eexists. split_and!; [reflexivity|exact Hcur1|done|done|].
    split; [exact Hn|]. right. exists s2, sets. split_and!; try done.
    + cbn. by rewrite Hnext.
    + cbn. by replace (k + 1 + 2) with (k + 2 + 1) by lia.
Qed.

Lemma lines_length ts rest : (length ts <= length (lines (map render_more ts) ++ rest))%nat.
Proof.
  induction ts as [|t ts IH]; cbn; [lia|]. unfold lines in *. rewrite !length_app in *. cbn. lia.
Qed.

Definition set_read (C : constants) (k : Z) (s : SetSpec) : TransactionSet :=
  mk_set k (sp_first s :: sp_more s) (sp_servers s) (sp_leaders s)
    (filter (fun n => n ∉ sp_servers s) (server_ids C).*1).

Definition size_ok (k : Z) (sets : list SetSpec) : Prop :=
  0 <= k /\ k + Z.of_nat (length sets) + 2 < 2 ^ 31 /\
  Forall (fun s => Z.of_nat (length (sp_more s)) + 1 < 2 ^ 31) sets.

(** The end of [readNextSet], once the loop has read the set. *)
Lemma read_next_finish C r t r1 r' k s :
  r1 = next_set r -> read_loop (S (length (cr_file r1))) r1 = (r', Ok tt) ->
  ts_transactions (currentTransactionSet r') = sp_first s :: sp_more s ->
  ts_servers (currentTransactionSet r') = sp_servers s -> ts_leaders (currentTransactionSet r') = sp_leaders s ->
  currentSetNo r' = k -> Z.of_nat (length (sp_more s)) + 1 < 2 ^ 31 ->
  readNextSet C r t = (r', set_read C k s, Ok (Z.of_nat (length (sp_more s)) + 1)).
Proof.
  intros -> Hl Ht Hs Hld Hk Hlen. unfold readNextSet. cbv zeta. rewrite Hl. cbn [fst snd].
  rewrite Ht, Hs, Hld, Hk. unfold set_read. cbn [length]. f_equal. f_equal.
  rewrite wrap32_id by (unfold in_int; lia). lia.
Qed.

Lemma read_next C r t k s sets :
  reader_at r k (s :: sets) -> Forall spec_ok (s :: sets) -> size_ok k (s :: sets) ->
  exists r', readNextSet C r t = (r', set_read C (k + 1) s, Ok (Z.of_nat (length (sp_more s)) + 1)) /\
    reader_at r' (k + 1) sets.
Proof.
  intros [Hn Hat] Hok (Hk & Hlen & Hsz). cbn [length] in Hlen. inversion Hsz as [|? ? Hs0 _]; subst.
  set (r1 := next_set r).
  assert (currentSetNo r1 = currentSetNo r + 1) as Hn1 by (unfold r1; cbn; apply wrap32_id; unfold in_int; lia).
  assert (ts_transactions (nextTransactionSet r1) = []) as Hnx by done.
  destruct Hat as [[Hnext Hfile]|(s' & sets' & [= <- <-] & Htx & Hsv & Hld & Hfile)].
  - (* the first row is still in the file *)
    assert (in_int (currentSetNo r + 1)) as Hi by (unfold in_int; lia).
    cbn [render_sets] in Hfile. unfold render_set, lines in Hfile. cbn [map concat] in Hfile.
    rewrite <- !app_assoc in Hfile. fold (lines (map render_more (sp_more s))) in Hfile.
    replace (currentSetNo r + 1 + 1) with (currentSetNo r + 2) in Hfile by lia.
    set (rest := lines (map render_more (sp_more s)) ++ render_sets (currentSetNo r + 2) sets) in *.
    inversion Hok as [|? ? Hs _]; subst.
    set (r2 := r1 <| cr_file := rest |> <| currentTransactionSet ::= fun c =>
                 c <| ts_transactions ::= fun ts => ts ++ [sp_first s] |>
                   <| ts_servers := sp_servers s |> <| ts_leaders := sp_leaders s |> |>).
    assert (read_loop (S (length (cr_file r1))) r1 = read_loop (length (cr_file r1)) r2) as Hstep.
    { cbn [read_loop]. change (cr_file r1) with (cr_file r). rewrite Hfile at 1.
      rewrite getline_line, parse_first by (done || by apply first_no_newline).
      cbn [cl_set_no]. change (currentSetNo (r1 <| cr_file := ?x |>)) with (currentSetNo r1).
      rewrite Hn1, Z.eqb_refl. done. }
    destruct (read_rest s sets (currentSetNo r) r2 (length (cr_file r1) - length (sp_more s) - 1)) as
      (r' & Hl & H1 & H2 & H3 & H4); try done; [lia|unfold r2; cbn; by rewrite Hnext|].
    assert (length (sp_more s) + S (length (cr_file r1) - length (sp_more s) - 1) = length (cr_file r1))%nat as Hf.
    { change (cr_file r1) with (cr_file r). rewrite Hfile, !length_app.
      pose proof (lines_length (sp_more s) (render_sets (currentSetNo r + 2) sets)) as Hle. fold rest in Hle.
      cbn [length]. lia. }
    rewrite Hf in Hl. rewrite <- Hstep in Hl. exists r'. split; [|done].
    eapply read_next_finish; try done. by destruct H4.
  - (* the first row was read by the call before *)
    inversion Hok as [|? ? Hs _]; subst.
    destruct (read_rest s sets (currentSetNo r) r1 (length (cr_file r1) - length (sp_more s))) as
      (r' & Hl & H1 & H2 & H3 & H4); try done; [lia|].
    assert (length (sp_more s) + S (length (cr_file r1) - length (sp_more s)) = S (length (cr_file r1)))%nat as Hf.
    { change (cr_file r1) with (cr_file r). rewrite Hfile.
      pose proof (lines_length (sp_more s) (render_sets (currentSetNo r + 2) sets)). lia. }
    rewrite Hf in Hl. exists r'. split; [|done].
    eapply read_next_finish; try done; [by rewrite H2|by rewrite H3|by destruct H4].
Qed.

(** At the end of the file there is no further set. *)
Lemma read_next_end C r t k :
  reader_at r k [] -> exists r', readNextSet C r t = (r', t, Ok 0).
Proof.
  intros [Hn [[Hnext Hfile]|(s & sets & Hs & _)]]; [|done]. set (r1 := next_set r).
  assert (cr_file r1 = []) as Hf by exact Hfile.
  assert (ts_transactions (currentTransactionSet r1) = []) as Ht by exact Hnext.
  exists r1. unfold readNextSet. fold r1. cbv zeta. rewrite Hf. cbn [length read_loop]. rewrite Hf.
  cbn [getline fst snd]. by rewrite Ht.
Qed.

(** Calling [readNextSet] until it returns 0 or throws. *)
Fixpoint read_all (C : constants) (n : nat) (r : CSVReader) (t : TransactionSet) : list TransactionSet :=
  match n with
  | O => []
  | S n' =>
    let x := readNextSet C r t in
    match x.2 with
    | Ok v => if v =? 0 then [] else x.1.2 :: read_all C n' x.1.1 x.1.2
    | Throw _ => []
    end
  end.

Lemma read_all_step C n r t :
  read_all C (S n) r t =
    let x := readNextSet C r t in
    match x.2 with
    | Ok v => if v =? 0 then [] else x.1.2 :: read_all C n x.1.1 x.1.2
    | Throw _ => []
    end.
Proof. done. Qed.

Fixpoint sets_read (C : constants) (k : Z) (sets : list SetSpec) : list TransactionSet :=
  match sets with [] => [] | s :: sets' => set_read C k s :: sets_read C (k + 1) sets' end.

(** ** Termination *)

Lemma getline_shorter l line rest : getline l = Some (line, rest) -> (length rest < length l)%nat.
Proof.
  destruct l as [|c l]; [done|]. unfold getline. intros [= _ <-]. cbn [span].
  pose proof (f_equal length (span_eq (fun c => negb (Ascii.eqb c newline)) l)) as Hl. rewrite length_app in Hl.
  destruct (span _ l) as [a b]. cbn [fst snd] in Hl. destruct (negb _); cbn [fst snd length tail]; [|lia].
  destruct b; cbn in *; lia.
Qed.

(** What is left to read: two for each character of the file, one for each
    row already read for the next set. *)
Definition unread (r : CSVReader) : nat :=
  (2 * length (cr_file r) + length (ts_transactions (nextTransactionSet r)))%nat.

Lemma read_loop_fuel f r : read_loop (S (length (cr_file r)) + f) r = read_loop (S (length (cr_file r))) r.
Proof.
  assert (forall a b r, (length (cr_file r) < a)%nat -> (length (cr_file r) < b)%nat -> read_loop a r = read_loop b r) as Hab.
  { clear. induction a as [|a IH]; intros b r Ha Hb; [lia|]. destruct b as [|b]; [lia|]. cbn [read_loop].
    destruct (getline (cr_file r)) as [[line rest]|] eqn:Eg; [|done]. apply getline_shorter in Eg. cbv zeta.
    destruct (parseCSVLine _) as [l|e]; [|done].
    case_match; [apply IH; cbn; lia|]. case_match; [done|]. apply IH; cbn; lia. }
  apply Hab; lia.
Qed.

(** A pass of the loop reads a line whenever there is one. *)
Lemma read_loop_unread f r :
  (unread (read_loop f r).1 <= unread r)%nat /\
  (f <> O -> cr_file r <> [] -> (unread (read_loop f r).1 < unread r)%nat).
Proof.
  revert r. induction f as [|f IH]; intros r; [done|]. cbn [read_loop].
  destruct (getline (cr_file r)) as [[line rest]|] eqn:Eg.
  2:{ split; [done|]. intros _ Hne. destruct (cr_file r); done. }
  apply getline_shorter in Eg. cbv zeta.
  destruct (parseCSVLine _) as [l|e]; [|unfold unread; cbn; lia].
  case_match; [|case_match].
  - match goal with |- context [read_loop f ?x] => pose proof (proj1 (IH x)) as H1 end. unfold unread in *. cbn in H1. lia.
  - unfold unread. cbn. rewrite length_app. cbn. lia.
  - match goal with |- context [read_loop f ?x] => pose proof (proj1 (IH x)) as H1 end. unfold unread in *. cbn in H1. lia.
Qed.

Lemma read_next_unread C r t :
  (unread (readNextSet C r t).1.1 <= unread r - 1)%nat /\
  (unread r = O -> (readNextSet C r t).2 = Ok 0).
Proof.
  assert ((readNextSet C r t).1.1 = (read_loop (S (length (cr_file (next_set r)))) (next_set r)).1) as ->.
  { unfold readNextSet. cbv zeta. by repeat case_match. }
  destruct (read_loop_unread (S (length (cr_file (next_set r)))) (next_set r)) as [H1 H2].
  assert (unread (next_set r) = 2 * length (cr_file r))%nat as En by (unfold unread; cbn; lia).
  assert (2 * length (cr_file r) <= unread r)%nat as Hr by (unfold unread; lia).
  change (cr_file (next_set r)) with (cr_file r) in *. rewrite En in *. split.
  - destruct (cr_file r) as [|c l]; [cbn [length] in *; lia|]. specialize (H2 ltac:(lia) ltac:(done)). lia.
  - unfold unread. intros H0. destruct (cr_file r) as [|c l] eqn:Ec; [|cbn in H0; lia].
    destruct (ts_transactions (nextTransactionSet r)) eqn:Et; [|cbn in H0; lia].
    unfold readNextSet. change (cr_file (next_set r)) with (cr_file r). rewrite Ec. cbn [length read_loop].
    change (cr_file (next_set r)) with (cr_file r). rewrite Ec. cbn [getline fst snd].
    change (ts_transactions (currentTransactionSet (next_set r))) with (ts_transactions (nextTransactionSet r)).
    by rewrite Et.
Qed.

(** The reader and the caller's set after [n] calls, whatever they return. *)
Fixpoint after_calls (C : constants) (n : nat) (r : CSVReader) (t : TransactionSet) : CSVReader * TransactionSet :=
  match n with
  | O => (r, t)
  | S n' => let x := readNextSet C r t in after_calls C n' x.1.1 x.1.2
  end.

Lemma after_calls_unread C n r t : (unread (after_calls C n r t).1 <= unread r - n)%nat.
Proof.
  revert r t. induction n as [|n IH]; intros r t; cbn [after_calls fst]; [lia|].
  specialize (IH (readNextSet C r t).1.1 (readNextSet C r t).1.2). pose proof (proj1 (read_next_unread C r t)). lia.
Qed.

(** C36. Reading a file ends. On every file, whatever its format, the loop of [readNextSet] reads the
    whole file with one turn per character at most (more fuel changes
    nothing), and after at most two calls per character of the file, those
    that throw included, every further call returns 0. *)
Theorem reading_ends C text r t :
  CSVReader_new (Some text) = Ok r ->
  (forall n f, let r' := next_set (after_calls C n r t).1 in
     read_loop (S (length (cr_file r')) + f) r' = read_loop (S (length (cr_file r'))) r') /\
  forall k, let x := after_calls C (2 * length text + k) r t in (readNextSet C x.1 x.2).2 = Ok 0.
Proof.
  intros [= <-]. split; [intros n f; apply read_loop_fuel|]. intros k x. apply read_next_unread.
  unfold x. pose proof (after_calls_unread C (2 * length text + k) (mk_reader text 0 (mk_set 0 [] [] [] []) (mk_set 0 [] [] [] [])) t) as H.
  unfold unread at 2 in H. cbn [cr_file nextTransactionSet ts_transactions length] in H. lia.
Qed.

(** C35. A file is read back set by set. For a file in the documented format (any number of sets, each with its rows, live servers
    and leaders), opening it and calling [readNextSet] until it returns 0
    yields exactly the sets of the file, in order, with their numbers and the
    servers that are missing from each live set; it never throws. *)
Theorem csv_file_roundtrip C sets t r :
  Forall spec_ok sets -> size_ok 0 sets -> CSVReader_new (Some (render_sets 1 sets)) = Ok r ->
  read_all C (S (length sets)) r t = sets_read C 1 sets.
Proof.
  intros Hok Hsz [= <-].
  assert (forall sets k r t, Forall spec_ok sets -> size_ok k sets -> reader_at r k sets ->
    read_all C (S (length sets)) r t = sets_read C (k + 1) sets) as Hgen.
  { clear. induction sets as [|s sets IH]; intros k r t Hok Hsz Hat.
    - destruct (read_next_end C r t k Hat) as [r' E]. cbn [length read_all]. by rewrite E.
    - destruct (read_next C r t k s sets Hat Hok Hsz) as (r' & E & Hat').
      cbn [length]. rewrite read_all_step.
      rewrite E. cbn [fst snd]. destruct (Z.eqb_spec (Z.of_nat (length (sp_more s)) + 1) 0); [lia|].
      cbn [sets_read]. f_equal. inversion Hok; subst. apply IH; [done| |done].
      destruct Hsz as (K1 & K2 & K3). cbn [length] in K2. inversion K3; subst.
      unfold size_ok. split_and!; [lia|lia|done]. }
  apply (Hgen sets 0); [done|done|]. split; [done|]. by left.
Qed.

(** A blank line loses a set. When the file ends with an empty line, the call that reads the last set
    raises [out_of_range] after having taken its rows; the set is never
    returned, and the following call reports the end of the file. *)
Theorem blank_line_loses_set C r t s :
  0 <= currentSetNo r < 2 ^ 31 - 3 -> spec_ok s ->
  ts_transactions (nextTransactionSet r) = [sp_first s] ->
  cr_file r = lines (map render_more (sp_more s)) ++ [newline] ->
  exists r' r'', readNextSet C r t = (r', t, Throw out_of_range) /\
    ts_transactions (currentTransactionSet r') = sp_first s :: sp_more s /\
    readNextSet C r' t = (r'', t, Ok 0).
Proof.
  intros Hn (_ & Hm & _) Hnext Hfile. set (r1 := next_set r).
  assert (currentSetNo r1 = currentSetNo r + 1) as Hn1 by (unfold r1; cbn; apply wrap32_id; unfold in_int; lia).
  assert (cr_file r1 = lines (map render_more (sp_more s)) ++ [newline]) as Hf1 by exact Hfile.
  assert (ts_transactions (currentTransactionSet r1) = [sp_first s]) as Ht1 by exact Hnext.
  set (r2 := r1 <| cr_file := [] |> <| currentTransactionSet ::= fun c =>
               c <| ts_transactions ::= fun l => l ++ sp_more s |> |>).
  assert (read_loop (S (length (cr_file r1))) r1 = (r2, Throw out_of_range)) as Hl.
  { pose proof (lines_length (sp_more s) [newline]) as Hle. rewrite <- Hf1 in Hle.
    replace (S (length (cr_file r1))) with (length (sp_more s) + S (length (cr_file r1) - length (sp_more s)))%nat by lia.
    rewrite (read_more _ [newline]) by (done || lia). rewrite fold_add. reflexivity. }
  exists r2, (next_set r2). split_and!.
  - unfold readNextSet. fold r1. cbv zeta. by rewrite Hl.
  - change (ts_transactions (currentTransactionSet r1) ++ sp_more s = sp_first s :: sp_more s). by rewrite Ht1.
  - assert (cr_file (next_set r2) = []) as Hf3 by done.
    assert (ts_transactions (currentTransactionSet (next_set r2)) = []) as Ht3 by done.
    unfold readNextSet. cbv zeta. rewrite Hf3. cbn [length read_loop]. rewrite Hf3. cbn [getline fst snd].
    by rewrite Ht3.
Qed.

(** ** Witnesses *)

Definition sample_set : SetSpec :=
  mk_spec (mk_txn 100 501 8) [mk_txn 1001 1650 2] [str "S1"; str "S2"] [str "S1"; str "S4"].
Definition sample_set2 : SetSpec := mk_spec (mk_txn 7 8 9) [] [str "S3"] [str "S3"].

(** The rows of the sample file, as in the example file of the repository. *)
Example sample_row : render_more (mk_txn 1001 1650 2)
  = str "," ++ [quote] ++ str "(1001, 1650, 2)" ++ [quote] ++ str ",," ++ [return_char].
Proof. reflexivity. Qed.

Lemma sample_ok : Forall spec_ok [sample_set; sample_set2].
Proof.
  unfold spec_ok, names_ok. repeat constructor; try done; try (by vm_compute);
    apply (bool_decide_unpack _); vm_compute; exact I.
Qed.

Lemma csv_file_roundtrip_witness :
  exists r, CSVReader_new (Some (render_sets 1 [sample_set; sample_set2])) = Ok r /\
    read_all (setupApplicationState 1 3 constants_default) 3 r (mk_set 0 [] [] [] [])
    = [mk_set 1 [mk_txn 100 501 8; mk_txn 1001 1650 2] [str "S1"; str "S2"] [str "S1"; str "S4"] [str "S3"];
       mk_set 2 [mk_txn 7 8 9] [str "S3"] [str "S3"] [str "S1"; str "S2"]].
Proof.
  eexists. split; [reflexivity|].
  refine (eq_trans (csv_file_roundtrip (setupApplicationState 1 3 constants_default) [sample_set; sample_set2]
            (mk_set 0 [] [] [] []) _ sample_ok _ eq_refl) _).
  - unfold size_ok. split_and!; [lia|cbn; lia|repeat constructor; cbn; lia].
  - vm_compute. reflexivity.
Defined.

Lemma blank_line_loses_set_witness :
  exists r' r'' : CSVReader,
    readNextSet (setupApplicationState 1 3 constants_default)
      (mk_reader [newline] 0 (mk_set 0 [] [] [] []) (mk_set 0 [mk_txn 7 8 9] [str "S3"] [str "S3"] []))
      (mk_set 0 [] [] [] []) = (r', mk_set 0 [] [] [] [], Throw out_of_range) /\
    readNextSet (setupApplicationState 1 3 constants_default) r' (mk_set 0 [] [] [] [])
      = (r'', mk_set 0 [] [] [] [], Ok 0).
Proof.
  destruct (blank_line_loses_set (setupApplicationState 1 3 constants_default)
    (mk_reader [newline] 0 (mk_set 0 [] [] [] []) (mk_set 0 [mk_txn 7 8 9] [str "S3"] [str "S3"] []))
    (mk_set 0 [] [] [] []) sample_set2) as (r' & r'' & H1 & _ & H2).
  - cbn. lia.
  - pose proof sample_ok as Hok. inversion Hok as [|? ? _ Hok2]; subst. by inversion Hok2.
  - reflexivity.
  - reflexivity.
  - exists r', r''. by split.
Defined.

(** A line that is not a row of the format: the first call throws. *)
Lemma reading_ends_witness :
  exists r, CSVReader_new (Some (str "x" ++ [newline])) = Ok r /\
    (readNextSet (setupApplicationState 1 3 constants_default) r (mk_set 0 [] [] [] [])).2 = Throw invalid_argument /\
    let x := after_calls (setupApplicationState 1 3 constants_default) 4 r (mk_set 0 [] [] [] []) in
    (readNextSet (setupApplicationState 1 3 constants_default) x.1 x.2).2 = Ok 0.
Proof.
  eexists. split; [reflexivity|]. split; [vm_compute; reflexivity|].
  refine (proj2 (reading_ends (setupApplicationState 1 3 constants_default) (str "x" ++ [newline]) _ (mk_set 0 [] [] [] []) _) 0%nat).
  reflexivity.
Defined.
