(* ===== verification/Process.v ===== *)
(** * Server processes: [startAllServers] and [killAllServers] of [utils/utils.cc]

    The operating system is the environment: it answers [fork], [execl] and
    [kill].  The table [server_pids] is an ordered map. *)
From stdpp Require Import gmap list strings.
From Stdlib Require Import ZArith Lia Ascii.
From S2P Require Import Prelude Chars Types Config.

(** ** Starting *)

(** How a call of [startAllServers] ends: it returns, it throws, or the
    process has become a server (the child of a [fork] after [execl]). *)
Inductive start_result :=
| Started
| StartThrew (e : exn)
| Replaced (path : std_string) (argv : list std_string).

Definition server_argv (name : std_string) (nc cs : Z) : list std_string :=
  [str "server"; name; to_string nc; to_string cs].

(** One server of the table; [pid] is what [fork] returns and [exec_ok]
    whether [execl] succeeds.  [None] lets the loop go on. *)
Definition start_one (nc cs : Z) (exec_ok : bool) (pid : Z) (name : std_string)
    (pids : list (std_string * Z)) : list (std_string * Z) * option start_result :=
  if pid <? 0 then (pids, Some (StartThrew runtime_error))
  else if 0 <? pid then (omap_set string_ltb name pid pids, None)
  else if exec_ok then (pids, Some (Replaced (str "./server") (server_argv name nc cs)))
  else (pids, Some (StartThrew runtime_error)).

Fixpoint start_loop (nc cs : Z) (exec_ok : bool) (forks : list Z) (names : list std_string)
    (pids : list (std_string * Z)) : list (std_string * Z) * start_result :=
  match names with
  | [] => (pids, Started)
  | name :: names' =>
    let r := start_one nc cs exec_ok (hd 0 forks) name pids in
    match r.2 with
    | Some res => (r.1, res)
    | None => start_loop nc cs exec_ok (tl forks) names' r.1
    end
  end.

(** [forks] are the results of the successive calls of [fork] in the process
    that runs the loop. *)
Definition startAllServers (C : constants) (nc cs : Z) (exec_ok : bool) (forks : list Z)
    (pids : list (std_string * Z)) : list (std_string * Z) * start_result :=
  start_loop nc cs exec_ok forks (server_addresses C).*1 pids.

(** ** Stopping *)

(** The loop erases the element its iterator stands on.  What it does after
    that (reading the erased key, advancing the iterator) is undefined. *)
Inductive kill_result := KillDone | KillThrew (e : exn) | KillUndefined.

(** The signals sent, and how the call ends; [kill_ok] is whether the signal
    to a process can be sent. *)
Definition killAllServers (kill_ok : Z -> bool) (pids : list (std_string * Z)) : list Z * kill_result :=
  match pids with
  | [] => ([], KillDone)
  | p :: _ => ([p.2], if kill_ok p.2 then KillUndefined else KillThrew runtime_error)
  end.

(** ** What the loop does *)

(** In the parent, when every fork succeeds, each server gets the id of its
    process; the child of the fork at [k] becomes the server [names !! k]. *)
Lemma start_loop_parent nc cs exec_ok forks names pids :
  (length names <= length forks)%nat -> Forall (fun pid => 0 < pid) forks ->
  start_loop nc cs exec_ok forks names pids
  = (foldl (fun m p => omap_set string_ltb p.1 p.2 m) pids (zip names forks), Started).
Proof.
  revert forks pids. induction names as [|name names IH]; intros forks pids Hlen Hf; [done|].
  destruct forks as [|pid forks]; [cbn in Hlen; lia|]. inversion Hf as [|? ? Hp Hf']; subst.
  cbn [start_loop hd tl zip foldl]. unfold start_one.
  destruct (Z.ltb_spec pid 0); [lia|]. destruct (Z.ltb_spec 0 pid); [|lia]. cbn [fst snd].
  rewrite IH by (cbn in Hlen; (lia || done)). done.
Qed.

Lemma start_loop_child nc cs forks names pids k name :
  names !! k = Some name -> length forks = k -> Forall (fun pid => 0 < pid) forks ->
  (start_loop nc cs true (forks ++ [0]) names pids).2 = Replaced (str "./server") (server_argv name nc cs).
Proof.
  revert forks pids k. induction names as [|name' names IH]; intros forks pids k Hk Hlen Hf; [done|].
  destruct forks as [|pid forks].
  - cbn in Hlen. subst k. injection Hk as ->. done.
  - cbn in Hlen. destruct k as [|k]; [done|]. inversion Hf as [|? ? Hp Hf']; subst.
    cbn [start_loop app hd tl]. unfold start_one.
    destruct (Z.ltb_spec pid 0); [lia|]. destruct (Z.ltb_spec 0 pid); [|lia]. cbn [fst snd].
    apply (IH forks _ k); [done|lia|done].
Qed.

(** Once a server runs, stopping the servers cannot end normally. *)
Lemma kill_done_empty kill_ok pids : (killAllServers kill_ok pids).2 = KillDone -> pids = [].
Proof. destruct pids as [|p pids]; [done|]. cbn. by destruct (kill_ok p.2). Qed.
