(* ===== verification/Driver.v ===== *)
(** * The driver: [mainloop] and [main] of [driver.cc]

    One turn of the loop reads a command, parses it and runs it on the
    reader and the client.  The standard input, the clock, the answers of the
    servers and the outcome of [killAllServers] are the environment's. *)
From stdpp Require Import gmap list strings.
From Stdlib Require Import ZArith Lia Ascii.
From S2P Require Import Prelude Chars Types Config Process OutCall Server Commands Csv Client.

(** What one turn finds outside the program. *)
Record Env := mk_env {
  env_clock : nat -> Z;
  env_balance : std_string -> BalanceReq -> option BalanceRes;
  env_logs : std_string -> option LogRes;
  env_show_total : list Z -> std_string;
  env_show_rate : Z -> list Z -> std_string;
  env_kill : kill_result
}.

Record Driver := mk_driver { dr_reader : CSVReader; dr_client : Client; dr_set : TransactionSet }.

#[export] Instance Driver_settable : Settable Driver := fun d =>
  mk_driver (dr_reader d) (dr_client d) (dr_set d).

(** What a turn shows or sends. *)
Inductive driver_out := DText (s : std_string) | DError (e : exn) | DRpc (o : COut).

(** How a turn ends: another turn, a normal exit, an exception that leaves
    the loop, or undefined behaviour. *)
Inductive outcome := Continue | Exited | Uncaught (e : exn) | Undefined.

Definition prompt : std_string :=
  str "Type one of the following commands to proceed:" ++ [newline] ++
  str "1. processNextSet" ++ [newline] ++ str "2. printBalance <client_id>" ++ [newline] ++
  str "3. printDatastore" ++ [newline] ++ str "4. printPerformance" ++ [newline] ++ str "5. exit" ++ [newline] ++
  repeat "="%char 73 ++ [newline].

(** The transactions of a set with the times of their turns. *)
Definition timed (env : Env) (ts : list Transaction) : list (Transaction * Z) :=
  imap (fun i t => (t, env_clock env i)) ts.

(** The switch of [mainloop]; [C] are the constants of the process. *)
Definition run_command (C : constants) (env : Env) (d : Driver) (c : AppCommand) :
    Driver * list driver_out * outcome :=
  match ac_command c with
  | PROCESS_NEXT_SET =>
    let x := readNextSet C (dr_reader d) (dr_set d) in
    let d := d <| dr_reader := x.1.1 |> <| dr_set := x.1.2 |> in
    let reading := DText (str "reading next set" ++ [newline]) in
    match x.2 with
    | Throw e => (d, [reading; DError e], Continue)
    | Ok n =>
      if n =? 0 then (d, [reading; DText (str "No more transaction sets to read..." ++ [newline])], Continue)
      else
        let outs := updateDisconnected (dr_client d) (ts_disconnected (dr_set d)) in
        match processTransactions (dr_client d) (timed env (ts_transactions (dr_set d))) (ts_leaders (dr_set d)) with
        | None => (d, reading :: map DRpc outs, Undefined)
        | Some (cl, outs') => (d <| dr_client := cl |>, reading :: map DRpc (outs ++ outs'), Continue)
        end
    end
  | PRINT_BALANCE => (d, [DText (printBalance (dr_client d) (ac_client_id c) (env_balance env))], Continue)
  | PRINT_DATASTORE => (d, [DText (printDatastore (dr_client d) (env_logs env))], Continue)
  | PRINT_PERFORMANCE => (d, [DText (printPerformance (env_show_total env) (env_show_rate env) (dr_client d))], Continue)
  | EXIT =>
    let out := DText (str "Exiting..." ++ [newline]) in
    match env_kill env with
    | KillDone => (d, [out], Exited)
    | KillThrew e => (d, [out; DError e], Continue)
    | KillUndefined => (d, [out], Undefined)
    end
  end.

(** One turn. Only [invalid_argument] is caught around the parser. *)
Definition mainloop_turn (C : constants) (env : Env) (d : Driver) (command : std_string) :
    Driver * list driver_out * outcome :=
  match parseCommand command with
  | Throw invalid_argument =>
    (d, [DText prompt; DText (str "Invalid command. Try again. " ++ [newline])], Continue)
  | Throw e => (d, [DText prompt], Uncaught e)
  | Ok c => let r := run_command C env d c in (r.1.1, DText prompt :: r.1.2, r.2)
  end.

(** The loop. [std::getline] at the end of the input leaves the command
    empty; [fuel] bounds the turns, which are unbounded then. *)
Fixpoint mainloop (C : constants) (env : nat -> Env) (fuel : nat) (input : list std_string) (d : Driver) :
    Driver * list driver_out * outcome :=
  match fuel with
  | O => (d, [], Continue)
  | S f =>
    let command := hd [] input in
    let r := mainloop_turn C (env fuel) d command in
    match r.2 with
    | Continue => let r' := mainloop C env f (tl input) r.1.1 in (r'.1.1, r.1.2 ++ r'.1.2, r'.2)
    | o => (r.1.1, r.1.2, o)
    end
  end.

(** ** [main]

    The reply thread runs next to the loop; [main] only starts it.  Its
    handle is a local of the [try] block that nothing joins: leaving the
    block, normally or by an exception, destroys a joinable thread, which
    ends the process ([std::terminate]).  The handler joins another thread
    object, which was never started, and the exception of that join has no
    handler. *)
Inductive main_end :=
| ExitCode (code : Z)
| Terminated
| IsServer (path : std_string) (argv : list std_string)
| Running
| BadEnd.

(** What [main] finds outside the program: forks, [execl], [kill] per turn,
    the file, the indeterminate local [set], and the turns' surroundings. *)
Record MainEnv := mk_main_env {
  me_forks : list Z;
  me_exec_ok : bool;
  me_kill_ok : nat -> Z -> bool;
  me_file : option std_string;
  me_set : TransactionSet;
  me_turn : nat -> Env
}.

Definition turn_env (e : MainEnv) (pids : list (std_string * Z)) (n : nat) : Env :=
  let t := me_turn e n in
  mk_env (env_clock t) (env_balance t) (env_logs t) (env_show_total t) (env_show_rate t)
    (killAllServers (me_kill_ok e n) pids).2.

Definition driver_main (argv : list std_string) (e : MainEnv) (fuel : nat) (input : list std_string) :
    list driver_out * main_end :=
  match argv with
  | [_; a1; a2; _] =>
    match stoi a1, stoi a2 with
    | Ok nc, Ok cs =>
      let C := setupApplicationState nc cs constants_default in
      let s := startAllServers C nc cs (me_exec_ok e) (me_forks e) [] in
      match s.2 with
      | StartThrew _ => ([], Terminated)
      | Replaced path args => ([], IsServer path args)
      | Started =>
        match CSVReader_new (me_file e) with
        | Throw _ => ([], Terminated)
        | Ok r =>
          let x := mainloop C (turn_env e s.1) fuel input (mk_driver r (Client_new C) (me_set e)) in
          (x.1.2, match x.2 with
                  | Continue => Running
                  | Exited | Uncaught _ => Terminated
                  | Undefined => BadEnd
                  end)
        end
      end
    | _, _ => ([], Terminated)
    end
  | _ => ([], ExitCode 1)
  end.

(** ** Properties *)

Lemma dec_value_nonneg ds : Forall (fun c => is_digit c = true) ds -> 0 <= dec_value ds.
Proof.
  induction ds as [|c ds IH] using rev_ind; intros H; [done|].
  apply Forall_app in H as [H1 H2]. inversion H2 as [|? ? Hc _]; subst.
  rewrite dec_value_app. specialize (IH H1). unfold is_digit in Hc. apply andb_prop in Hc as [Hc1 _].
  apply Nat.leb_le in Hc1. unfold digit_val. lia.
Qed.

(** How a turn ends, case by case. *)
Lemma turn_cases C env d command :
  match (mainloop_turn C env d command).2 with
  | Uncaught e =>
    e = out_of_range /\
    exists ds, command = str "printBalance " ++ ds /\ is_number ds /\ 2 ^ 31 <= dec_value ds
  | Exited => command = str "exit" /\ env_kill env = KillDone
  | Undefined => command = str "processNextSet" \/ (command = str "exit" /\ env_kill env = KillUndefined)
  | Continue => ~ (command = str "exit" /\ (env_kill env = KillDone \/ env_kill env = KillUndefined))
  end.
Proof.
  unfold mainloop_turn. pose proof (parse_command_meaning command) as Hm.
  destruct (parseCommand command) as [c|e]; cbn [command_meaning] in Hm.
  - cbn [snd]. unfold run_command.
    destruct Hm as [[-> ->]|[[-> ->]|[[-> ->]|[[-> ->]|(ds & -> & _ & _ & ->)]]]];
      cbn [ac_command snd].
    + destruct (readNextSet C (dr_reader d) (dr_set d)) as [[r t] [n|e]]; cbn [fst snd]; [|by intros [? _]].
      destruct (n =? 0); cbn [snd]; [by intros [? _]|].
      destruct (processTransactions _ _ _) as [[cl o]|]; cbn [snd]; [by intros [? _]|by left].
    + by intros [? _].
    + by intros [? _].
    + destruct (env_kill env) as [|e|]; cbn [snd]; [done|by intros [_ [?|?]]|by right].
    + by intros [? _].
  - destruct e; cbn [snd].
    + destruct Hm as (_ & _ & _ & Hne & _). by intros [? _].
    + destruct Hm as (ds & -> & Hn & Hi). split; [done|]. exists ds. split_and!; [done|done|].
      destruct (number_digits ds Hn) as [_ Hds]. pose proof (dec_value_nonneg ds Hds).
      destruct (Z.le_gt_cases (2 ^ 31) (dec_value ds)) as [|Hlt]; [done|]. exfalso. apply Hi. unfold in_int. lia.
    + done.
Qed.


Lemma omap_rpcs l : omap (fun o => match o with DRpc o => Some o | _ => None end) (map DRpc l) = l.
Proof. induction l as [|o l IH]; [done|]. cbn. by rewrite IH. Qed.

(** C37. A turn on [processNextSet]. With a file in the documented format, transactions between clients of
    the bank and one leader per cluster, the turn reads the next set, tells
    every server of the bank which servers are disconnected (those missing
    from the set), starts exactly the transactions of the set in order, and
    leaves the reader before the following set. *)
Theorem process_next_set_turn C env d k s sets :
  reader_at (dr_reader d) k (s :: sets) -> Forall spec_ok (s :: sets) -> size_ok k (s :: sets) ->
  config_ok (cl_consts (dr_client d)) -> leaders_ok (dr_client d) (sp_leaders s) ->
  Forall known_clients (sp_first s :: sp_more s) ->
  let ts := timed env (sp_first s :: sp_more s) in
  exists d' outs,
    mainloop_turn C env d (str "processNextSet") = (d', outs, Continue) /\
    omap (fun o => match o with DRpc o => Some o | _ => None end) outs =
      updateDisconnected (dr_client d) (filter (fun n => n ∉ sp_servers s) (server_ids C).*1) ++
      concat (map (start_msgs (dr_client d) (sp_leaders s)) ts) /\
    dr_set d' = set_read C (k + 1) s /\ reader_at (dr_reader d') (k + 1) sets /\
    cl_processing (dr_client d') = foldl (register (dr_client d)) (cl_processing (dr_client d)) ts.
Proof.
  intros Hat Hok Hsz Hc Hl Hk ts. unfold mainloop_turn.
  change (parseCommand (str "processNextSet")) with (Ok (mk_cmd PROCESS_NEXT_SET (-1))). cbv zeta.
  unfold run_command. cbn [ac_command].
  destruct (read_next C (dr_reader d) (dr_set d) k s sets Hat Hok Hsz) as (r' & -> & Hat'). cbn [fst snd].
  destruct (Z.eqb_spec (Z.of_nat (length (sp_more s)) + 1) 0); [lia|].
  cbn [dr_client dr_set dr_reader upd Driver_settable].
  assert (Forall (fun x => known_clients x.1) ts) as Hts.
  { unfold ts, timed. apply Forall_lookup_2. intros i x Hx. apply list_lookup_imap_Some in Hx as (t & Ht & ->).
    cbn. by apply (Forall_lookup_1 _ _ _ _ Hk Ht). }
  change (ts_transactions (set_read C (k + 1) s)) with (sp_first s :: sp_more s).
  change (ts_leaders (set_read C (k + 1) s)) with (sp_leaders s).
  change (ts_disconnected (set_read C (k + 1) s)) with (filter (fun n => n ∉ sp_servers s) (server_ids C).*1).
  fold ts. rewrite process_transactions_spec by done. do 2 eexists. split_and!; [reflexivity| |reflexivity|exact Hat'|reflexivity].
  cbn [omap list_omap]. apply omap_rpcs.
Qed.

(** The end of the input. Once the standard input is exhausted every turn reads an empty command,
    which is invalid: the loop never ends by itself and changes nothing. *)
Theorem eof_spins C env fuel d :
  (mainloop C env fuel [] d).1.1 = d /\ (mainloop C env fuel [] d).2 = Continue.
Proof.
  assert (forall e, mainloop_turn C e d [] =
    (d, [DText prompt; DText (str "Invalid command. Try again. " ++ [newline])], Continue)) as Ht by reflexivity.
  induction fuel as [|f IH]; [done|]. cbn [mainloop hd tl]. rewrite Ht. exact IH.
Qed.

(** With servers running, the loop does not end normally, and what ends it
    by an exception is a command that does. *)
Lemma mainloop_outcome C e pids fuel input d :
  pids <> [] ->
  match (mainloop C (turn_env e pids) fuel input d).2 with
  | Exited => False
  | Uncaught _ => exists ds, str "printBalance " ++ ds ∈ input /\ is_number ds /\ 2 ^ 31 <= dec_value ds
  | _ => True
  end.
Proof.
  intros Hp. revert input d. induction fuel as [|f IH]; intros input d; [done|]. cbn [mainloop].
  pose proof (turn_cases C (turn_env e pids (S f)) d (hd [] input)) as Ht.
  destruct (mainloop_turn C (turn_env e pids (S f)) d (hd [] input)) as [[d' outs] o]. cbn [fst snd] in *.
  destruct o as [| |x|]; cbn [snd].
  - specialize (IH (tl input) d'). destruct (mainloop C _ f (tl input) d').2; try done.
    destruct IH as (ds & Hin & Hrest). exists ds. split; [|done]. destruct input; [done|by right].
  - destruct Ht as [_ Hk]. by apply kill_done_empty in Hk.
  - destruct Ht as (_ & ds & Hc & Hrest). exists ds. split; [|done].
    destruct input as [|c input]; cbn in Hc; [by destruct ds|]. rewrite Hc. left.
  - done.
Qed.

Lemma setup_addresses nc cs :
  1 <= nc <= 3000 -> 1 <= cs <= 1000 -> (server_addresses (setupApplicationState nc cs constants_default)).*1 <> [].
Proof.
  intros Hn Hs. rewrite setup_names by done. intros H. apply map_eq_nil in H. pose proof (setup_order nc cs Hn Hs) as Ho.
  rewrite H in Ho. apply Permutation_nil_l in Ho. rewrite (seqZ_cons 1) in Ho by nia. done.
Qed.

Lemma fold_set_nonempty (l : list (std_string * Z)) m :
  m <> [] \/ l <> [] -> foldl (fun m p => omap_set string_ltb p.1 p.2 m) m l <> [].
Proof.
  revert m. induction l as [|p l IH]; intros m Hm; cbn; [by destruct Hm|]. apply IH. left.
  destruct m as [|[k v] m]; [done|]. cbn. by repeat case_match.
Qed.

(** The parent's side of [main] up to the loop. *)
Lemma driver_main_parent prog nc cs fname e text fuel input :
  in_int nc -> in_int cs -> me_file e = Some text -> Forall (fun pid => 0 < pid) (me_forks e) ->
  let C := setupApplicationState nc cs constants_default in
  (length (server_addresses C).*1 <= length (me_forks e))%nat ->
  driver_main [prog; to_string nc; to_string cs; fname] e fuel input =
    let pids := foldl (fun m p => omap_set string_ltb p.1 p.2 m) [] (zip (server_addresses C).*1 (me_forks e)) in
    let x := mainloop C (turn_env e pids) fuel input
      (mk_driver (mk_reader text 0 (mk_set 0 [] [] [] []) (mk_set 0 [] [] [] [])) (Client_new C) (me_set e)) in
    (x.1.2, match x.2 with Continue => Running | Exited | Uncaught _ => Terminated | Undefined => BadEnd end).
Proof.
  intros Hn Hs Hfile Hforks C Hlen. unfold driver_main. rewrite !stoi_of_string by done. cbv zeta. fold C.
  unfold startAllServers. rewrite (start_loop_parent nc cs _ _ _ [] Hlen Hforks). cbn [fst snd]. by rewrite Hfile.
Qed.

(** C40. The driver cannot end well. A driver started with a cluster count and size in range, a readable file and
    forks that succeed: whatever is typed, [main] never returns. It goes on,
    or it is terminated by a [printBalance] with a number beyond [int], or it
    is undefined; and [exit], typed first, is undefined when the servers can
    be signalled. *)
Theorem driver_cannot_exit prog nc cs fname e text :
  1 <= nc <= 3000 -> 1 <= cs <= 1000 -> me_file e = Some text -> Forall (fun pid => 0 < pid) (me_forks e) ->
  nc * cs <= Z.of_nat (length (me_forks e)) ->
  let run := driver_main [prog; to_string nc; to_string cs; fname] e in
  (forall fuel input,
     match (run fuel input).2 with
     | Running | BadEnd => True
     | Terminated => exists ds, str "printBalance " ++ ds ∈ input /\ is_number ds /\ 2 ^ 31 <= dec_value ds
     | ExitCode _ | IsServer _ _ => False
     end) /\
  forall fuel input, (forall pid, me_kill_ok e (S fuel) pid = true) -> (run (S fuel) (str "exit" :: input)).2 = BadEnd.
Proof.
  intros Hn Hs Hfile Hforks Hlen run. set (C := setupApplicationState nc cs constants_default).
  assert ((length (server_addresses C).*1 <= length (me_forks e))%nat) as Hl.
  { unfold C. rewrite setup_names, length_map by done. rewrite (setup_order nc cs Hn Hs), length_seqZ. lia. }
  set (pids := foldl (fun m p => omap_set string_ltb p.1 p.2 m) [] (zip (server_addresses C).*1 (me_forks e))).
  assert (pids <> []) as Hp.
  { apply fold_set_nonempty. right. pose proof (setup_addresses nc cs Hn Hs) as Hne. fold C in Hne.
    destruct (server_addresses C).*1; [done|]. destruct (me_forks e); [cbn in Hl; lia|done]. }
  assert (in_int nc /\ in_int cs) as [Hnc Hcs] by (unfold in_int; lia).
  split; intros fuel input; unfold run; rewrite (driver_main_parent prog nc cs fname e text) by done; cbv zeta; fold C; fold pids;
    cbn [snd]; clearbody pids.
  - pose proof (mainloop_outcome C e pids fuel input
      (mk_driver (mk_reader text 0 (mk_set 0 [] [] [] []) (mk_set 0 [] [] [] [])) (Client_new C) (me_set e)) Hp) as Ho.
    by destruct (mainloop _ _ _ _ _).2.
  - intros Hkill. cbn [mainloop hd tl]. unfold mainloop_turn.
    change (parseCommand (str "exit")) with (Ok (mk_cmd EXIT (-1))). cbv zeta. unfold run_command. cbn [ac_command].
    destruct pids as [|p pids]; [done|]. unfold turn_env. cbn [env_kill killAllServers snd]. by rewrite Hkill.
Qed.

(** ** Witness *)

Definition sample_env : Env :=
  mk_env (fun i => Z.of_nat i + 100) (fun _ _ => None) (fun _ => None) (fun _ => []) (fun _ _ => []) KillUndefined.
Definition sample_constants : constants := setupApplicationState 3 3 constants_default.
Definition sample_spec : SetSpec :=
  mk_spec (mk_txn 100 501 8) [mk_txn 1001 1650 2] [str "S1"; str "S2"] [str "S1"; str "S4"; str "S7"].
Definition sample_driver : Driver :=
  mk_driver (mk_reader (render_sets 1 [sample_spec]) 0 (mk_set 0 [] [] [] []) (mk_set 0 [] [] [] []))
    (Client_new sample_constants) (mk_set 0 [] [] [] []).

Lemma process_next_set_turn_witness :
  exists d' outs,
    mainloop_turn sample_constants sample_env sample_driver (str "processNextSet") = (d', outs, Continue) /\
    dr_set d' = mk_set 1 [mk_txn 100 501 8; mk_txn 1001 1650 2] [str "S1"; str "S2"]
      [str "S1"; str "S4"; str "S7"] (map server_name [3; 4; 5; 6; 7; 8; 9]).
Proof.
  destruct (process_next_set_turn sample_constants sample_env sample_driver 0 sample_spec [])
    as (d' & outs & H1 & _ & H2 & _).
  - split; [reflexivity|]. left. by split.
  - constructor; [|constructor]. unfold spec_ok, names_ok.
    split_and!; try (apply (bool_decide_unpack _); vm_compute; exact I); done.
  - split_and!; [lia|cbn; lia|repeat constructor; cbn; lia].
  - vm_compute. repeat split; discriminate.
  - split; [reflexivity|]. apply (bool_decide_unpack _). vm_compute. exact I.
  - repeat constructor; unfold total_clients; cbn; lia.
  - exists d', outs. split; [exact H1|]. rewrite H2. vm_compute. reflexivity.
Defined.

Definition sample_main_env (forks : list Z) : MainEnv :=
  mk_main_env forks true (fun _ _ => true) (Some (render_sets 1 [sample_spec])) (mk_set 0 [] [] [] []) (fun _ => sample_env).
Definition sample_argv : list std_string := [str "./driver"; to_string 1; to_string 2; str "sets.csv"].

(** The parent of two servers types [exit]. *)
Lemma driver_cannot_exit_witness :
  (driver_main sample_argv (sample_main_env [4001; 4002]) 3 [str "exit"; str "exit"]).2 = BadEnd.
Proof.
  refine (proj2 (driver_cannot_exit (str "./driver") 1 2 (str "sets.csv") (sample_main_env [4001; 4002])
            (render_sets 1 [sample_spec]) _ _ _ _ _) 2%nat [str "exit"] _);
    [lia|lia|reflexivity|repeat constructor|cbn; lia|reflexivity].
Defined.
