(* ===== verification/Launch.v ===== *)
(** * Starting the bank: [driver.cc] and [server/server.cc] together

    The driver forks once per server, in the order of the names; each child
    becomes the program [./server] with the command line the driver gives it,
    and [main] of [server.cc] runs on it. *)
From stdpp Require Import gmap list strings.
From Stdlib Require Import ZArith Lia Ascii.
From S2P Require Import Prelude Chars Types Config Wal Server Store Calls ServerMain Csv Client Process Driver.

(** The table built from a list of distinct names holds each with its value. *)
Lemma fold_set_lookup (l : list (std_string * Z)) m name pid :
  NoDup l.*1 -> (name, pid) ∈ l ->
  omap_get string_ltb name (foldl (fun m p => omap_set string_ltb p.1 p.2 m) m l) = Some pid.
Proof.
  revert m. induction l as [|[n x] l IH] using rev_ind; intros m Hnd Hin; [by apply elem_of_nil in Hin|].
  rewrite foldl_snoc. cbn [fst snd]. rewrite fmap_app in Hnd. apply NoDup_app in Hnd as (Hnd & Hni & _).
  apply elem_of_app in Hin as [Hin|Hin%list_elem_of_singleton].
  - rewrite omap_get_set_ne; [by apply IH|apply _|]. intros ->. apply (Hni n); [|by left].
    apply list_elem_of_fmap. by exists (n, pid).
  - injection Hin as -> ->. by rewrite omap_get_set_eq by apply _.
Qed.

Section Launch.
Context {DB : Type} `{KVStore DB} {J : Indeterminate}.

(** C27. Starting the bank. There is an order of the servers 1..[nc]*[cs], each once, such that the child of
    the driver's fork number [k] becomes the server process of the [k]-th
    one: it runs the event loop with that server's id and cluster, an empty
    log, stubs for exactly the other servers of its cluster and ten units for
    exactly its clients.  When every fork succeeds the driver goes on, and
    its table holds the [k]-th process id under that server's name. *)
Theorem bank_starts prog nc cs fname e (se : ServerEnv) :
  1 <= nc <= 3000 -> 1 <= cs <= 1000 -> me_exec_ok e = true -> healthy se ->
  exists order, order ≡ₚ seqZ 1 (nc * cs) /\ forall k i forks,
    order !! k = Some i -> Forall (fun pid => 0 < pid) forks ->
    (length forks = k -> me_forks e = forks ++ [0] -> forall fuel input, exists argv s0,
       driver_main [prog; to_string nc; to_string cs; fname] e fuel input = ([], IsServer (str "./server") argv) /\
       server_main argv se = Serving (HandleRPCs s0 (se_rounds se)) /\ serves_as nc cs i s0) /\
    (length forks = length order ->
       let r := startAllServers (setupApplicationState nc cs constants_default) nc cs (me_exec_ok e) forks [] in
       r.2 = Started /\ omap_get string_ltb (server_name i) r.1 = forks !! k).
Proof.
  intros Hn Hs Hex He. set (C := setupApplicationState nc cs constants_default).
  assert (in_int nc /\ in_int cs) as [Hnc Hcs] by (unfold in_int; lia).
  pose proof (setup_order nc cs Hn Hs) as Ho. pose proof (setup_names nc cs Hn Hs) as Hnames. fold C in Ho, Hnames.
  exists (server_ids C).*2. split; [done|]. intros k i forks Hk Hf.
  assert ((server_addresses C).*1 !! k = Some (server_name i)) as Hki by (by rewrite Hnames, list_lookup_fmap, Hk).
  split.
  - intros Hlen Hforks fuel input.
    assert (1 <= i <= nc * cs) as Hi by (apply list_elem_of_lookup_2 in Hk; rewrite Ho, elem_of_seqZ in Hk; lia).
    destruct (server_main_known (str "server") nc cs i se Hn Hs Hi He) as (s0 & Hrun & Hserves).
    exists (server_argv (server_name i) nc cs), s0. split; [|by split].
    unfold driver_main. rewrite !stoi_of_string by done. cbv zeta. fold C. rewrite Hex, Hforks. unfold startAllServers.
    by rewrite (start_loop_child nc cs forks _ [] k (server_name i) Hki Hlen Hf).
  - intros Hlen r. unfold r, startAllServers.
    assert (length (server_addresses C).*1 = length forks) as Hl by (by rewrite Hnames, length_map).
    rewrite (start_loop_parent nc cs _ forks _ []) by (done || lia). split; [done|]. cbn [fst].
    destruct (lookup_lt_is_Some_2 forks k) as [pid Hpid]; [rewrite <- Hl; by eapply lookup_lt_Some|].
    rewrite Hpid. apply fold_set_lookup.
    + rewrite fst_zip by lia. unfold C. rewrite (setup_addresses_keys nc cs).
      apply omap_sorted_NoDup with string_ltb; [apply _|apply setup_sorted].
    + apply list_elem_of_lookup_2 with k. apply lookup_zip_Some. by split.
Qed.
End Launch.

(** ** Witness *)

Definition sample_machine : ServerEnv (DB := map_store) :=
  mk_server_env (fun _ => mk_file [] true true) (fun _ => Some ∅) [].

Lemma sample_healthy : healthy sample_machine.
Proof. split_and!; [done|by eexists|done]. Qed.

(** Two servers: whichever the first child becomes, it has the other as its
    only peer. *)
Lemma bank_starts_witness :
  exists i (s0 : Server map_store) argv,
    driver_main sample_argv (sample_main_env [0]) 3 [] = ([], IsServer (str "./server") argv) /\
    server_main (J := zero_junk) argv sample_machine = Serving (HandleRPCs (J := zero_junk) s0 []) /\
    server_id s0 = i /\ 1 <= i <= 2 /\ forall j, j ∈ stubs s0 <-> j = 3 - i.
Proof.
  destruct (bank_starts (J := zero_junk) (str "./driver") 1 2 (str "sets.csv") (sample_main_env [0]) sample_machine)
    as (order & Ho & Hall); [lia|lia|reflexivity|exact sample_healthy|].
  destruct order as [|i order]; [apply Permutation_nil_l in Ho; discriminate Ho|].
  destruct (Hall 0%nat i [] eq_refl (Forall_nil_2 _)) as [H1 _].
  destruct (H1 eq_refl eq_refl 3%nat []) as (argv & s0 & Hd & Hm & _ & Hid & _ & Hst & _).
  assert (1 <= i <= 2) as Hi.
  { assert (i ∈ seqZ 1 (1 * 2)) as Hin by (rewrite <- Ho; left). rewrite elem_of_seqZ in Hin. lia. }
  exists i, s0, argv. split; [exact Hd|]. split; [exact Hm|]. split; [exact Hid|]. split; [exact Hi|].
  intros j. rewrite Hst. split; [intros (Hj & Hne & _); lia|]. intros ->. split; [lia|]. split; [lia|].
  assert (i = 1 \/ i = 2) as [->| ->] by lia; reflexivity.
Defined.
